(* ===== verification/_CoqProject ===== *)
-Q . S2P
Prelude.v
RustStd.v
Sizes.v
Errors.v
Header.v
PacketType.v
ConnectionState.v
Duplex.v
Common.v
PingPayloads.v
ErrorPayloads.v
ClosePayloads.v
RegistrationPayloads.v
AccountPayloads.v
HelloPayloads.v
AuthPayloads.v
MessagePayloads.v
QueuePayloads.v
FriendPayloads.v
E2eKeyPayloads.v
Payloads.v
Primitives.v
ByteStreams.v
Instances.v
Codec.v
Async.v
Sealing.v
Interrupted.v
Stream.v
Channel.v
Connection.v
Traffic.v
Session.v
E2e.v
Auth.v
Handshake.v
Messages.v
Endpoints.v
SafetyNumber.v
Protocol.v
Testing.v
PayloadTests.v
ProtocolTests.v
CryptoTests.v
CodecExamples.v
CryptoExamples.v
EndpointExamples.v
