(* ===== verification/Prelude.v ===== *)
(** * Chatix protocol: a verification library

    This library models the Rust crate of the Chatix messaging protocol (the
    files under [src/src/]) and proves the properties that make it correct.
    The crate is a library of protocol parts: a fixed packet header, 36 packet
    types with a payload format each, a codec that frames, orders and encrypts
    packets on a byte stream, a connection state machine, and the
    cryptographic layers (transport session keys, end-to-end encryption,
    identity signatures, safety numbers). An application drives them: it reads
    and writes packets through a codec, asks the state machine whether a
    packet may be accepted, decodes its payload, and runs the handshake
    functions to obtain the codec's keys.

    How the code is modelled

    - A function of type [Result] is a Rocq function into [outcome], whose
      third value [Panic] stands for everything that would panic in Rust: an
      index or a slice out of range, [copy_from_slice] between different
      lengths, an unchecked addition that overflows. So "never panics" is a
      theorem about the slicing the code does, not an assumption.
    - A method with [&mut self] (and a reader or a writer) is in the state
      monad [ST], which keeps the state also when the method fails.
    - Bytes are [byte], byte strings and arrays are lists of them; a fixed-size
      array is a list whose length is part of the type's invariant
      ([header_ok], [payload_ok], [E2ePublicKey_ok]). Machine integers are [Z]
      with their casts and overflow written out ([as_u32], [checked_add],
      [saturating_add_u32]). A [String] is its bytes, valid UTF-8 where that
      matters ([is_str]). The target has 64-bit [usize].
    - Third-party code (tokio, ring, sha2, hkdf, x25519-dalek, ml-kem, ml-dsa)
      is never defined here: each library is a type class of the functions the
      crate calls, and a [Laws] class of the documented behaviour it relies
      on. No law states that a primitive is unforgeable or free of collisions
      (as a statement about all inputs that would be false). Where security
      matters the theorems say what an acceptance amounts to: a valid
      signature, a tag AES-GCM computes, [collision m m'] for two particular
      strings of the run. The theorems that go on to say what the peer did
      have as hypothesis that the one signature or ciphertext accepted is not
      a forgery ([no_forgery], [no_forged_frame]): that its owner produced it,
      in some session or message of its own, for these very bytes.
      Random values are arguments of the functions that sample them.

    The files

    - [Prelude]: outcomes, the state monad, their Hoare rules ([wp], [st_wp]),
      byte strings and the length automation.
    - [RustStd]: the parts of the language and its standard library the crate
      uses: big-endian integers, indexing and slicing, UTF-8 validation,
      [str] ordering, decimal formatting, [std::io::Error].
    - [Sizes], [Errors]: size constants; [error.rs] with its [Display] texts.
    - [Header] ([header.rs]): the 24-byte header. Parsing and serialising are
      inverse bijections; [validate] accepts exactly the protocol's headers
      and reports the first rule broken.
    - [PacketType] ([packet_type.rs]): types, discriminants, limits, directions.
    - [ConnectionState] ([connection_state.rs]): [validate_incoming] and
      [advance]; [receive] is their documented composition, [step] and
      [reachable] the machine as a transition system, [history] its
      specification. The runs of the machine are exactly the specified
      histories; no application packet is accepted before authentication;
      every connection can be closed.
    - [Duplex]: a client's and a server's machine joined by two channels, with
      every interleaving of sends and receives the documented handshake and
      later traffic allow. The machines are dual (nothing sent is refused), no
      interleaving deadlocks, and the handshake ends.
    - [Common] ([payloads/common.rs]): length-prefixed fields, and the
      interface every payload implements: [Payload] (encode, decode),
      [PayloadFormat] (invariant, limits, layout) and [PayloadLaws], the
      contract between them.
    - [PingPayloads], [ErrorPayloads], [ClosePayloads], [RegistrationPayloads],
      [AccountPayloads], [HelloPayloads], [AuthPayloads], [MessagePayloads],
      [QueuePayloads], [FriendPayloads], [E2eKeyPayloads]
      ([payloads/*_payloads.rs]): the 36 payloads, each an instance of the
      interface.
    - [Payloads] ([payloads/mod.rs]): [payload_type] indexes the payloads by
      packet type. The theorems quantify over it: round trip, canonicity,
      totality on hostile input, self-delimitation, encoder errors, and the
      size budgets of [packet_type.rs] against the formats and their documented
      limits, with the one place where they differ ([keyless_overlong]).
    - [Primitives]: the interfaces of the third-party libraries.
    - [Codec] ([codec.rs], [raw_packet.rs]): [PacketCodec_read_packet] and
      [PacketCodec_write_packet] over any lawful reader, writer and AEAD.
      [delivers] and [transmits] specify every outcome of one call; the two
      methods are proved to refine them. Further: what an accepted packet
      satisfies, authenticity of frames in a session, refusal of plaintext
      and of oversized frames, bounds on what is requested from the reader.
    - [Async] ([codec.rs] again): the same two methods as futures, a tree of
      awaits each. Driving a future to its end is proved to be the function of
      [Codec]; every call ends; [dropped] gives what is left of the codec when
      a call is cancelled at an await.
    - [Sealing]: which nonce, associated data and text a call passes to the AEAD,
      read off the call itself by running it with a library that refuses one
      query ([refusing], [seals_made]).
    - [Interrupted]: a read cancelled in the middle of a frame, with the bytes
      it had taken from its stream: exactly what is left of codec and stream,
      and that a stream left inside a header is refused, not misread (inside a
      payload it may be, outside a session: [example_confused]).
    - [Stream]: [codec_steps], the life of a codec under any interleaving of
      reads, writes, cancelled calls and key changes: the two counters
      (numbers taken by writes, numbers delivered), nonces never reused, the
      effect of a frame that fails authentication, the end of a receive
      loop. [linked] relates a sender and a receiver; a whole
      conversation between linked codecs is delivered intact.
    - [Channel]: the sender's and the receiver's codec of one direction with an
      active network between them: without forged ciphertexts, what is
      delivered is a subsequence of what was sealed.
    - [Connection]: one end of a connection, its codec, state machine and
      payload decoding composed as the documentation prescribes: the order of
      what it hands to its application over its whole life, the authenticity
      of a received payload, and the transfer of one payload.
    - [Traffic]: two established ends joined by two byte streams, proved to
      answer every schedule of sends and receives as two queues of payloads.
    - [Session] ([crypto/session.rs]): both sides of the hybrid handshake
      derive the same keys; hostile material is refused without a panic.
    - [E2e] ([crypto/e2e.rs]): decryption inverts encryption; a text is returned
      exactly for a blob whose signature verifies and whose text opens; the
      HKDF labels and contexts of all three keys are separated.
    - [Auth] ([crypto/auth.rs]): signatures are accepted by their verifier,
      verification is exact, messages determine their parts, and a transcript
      determines the two hellos or exhibits a collision.
    - [Handshake]: the steps of the documented handshake over bytes, composed of
      the hello and authentication payloads, [Session] and [Auth], and what
      the client's and the server's acceptance say of the peer: the same
      hellos and the same keys.
    - [Messages]: what opening an encrypted message says about its sender, and
      what it does not ([resigned_opens]).
    - [Endpoints]: the client's and the server's program of a connection up to
      [Established], every packet through [Connection]. Honest programs fed
      each other's bytes complete and are ready for [Traffic]; on any stream at all, a program that
      completes has authenticated its peer, and none panics; and a packet the
      client sent in the clear too late is refused ([early_packet_refused]). The order of the
      steps, which the crate leaves to its caller, is that of README.md and of
      the comments of [establish_session] and [compute_handshake_transcript].
    - [SafetyNumber] ([crypto/safety_number.rs]): shape, symmetry and meaning of
      the safety number, binding of the fingerprint, key pinning.
    - [Protocol]: the layers composed as the documentation prescribes: a
      handshake secures a channel, and a message crosses it end to end.
    - [Testing], [PayloadTests], [ProtocolTests], [CryptoTests]: the crate's own
      [#[test]] functions, translated statement by statement, as executable
      checks that the model is the code. These are lemmas about fixed inputs,
      not claims of their own. The tests that rely on a primitive
      telling two inputs apart are proved to pass when it does.
    - [ByteStreams]: byte strings as the readers and writers of two joined ends.
    - [Instances], [CodecExamples], [CryptoExamples], [EndpointExamples]:
      arithmetic stand-ins for the primitives that satisfy all the laws, and
      the theorems applied to them at concrete inputs.

    Bounds and fuel

    Two functions recurse on fuel. [dec_go] prints a number with the number's
    base-2 logarithm as fuel, which is at least its number of decimal digits
    ([dec_digits_value] proves nothing is lost). [chunks] takes the length of
    the list; [digit_groups] applies it to 30 bytes and [digit_groups_ok]
    proves that all six chunks come out. [fingerprint_loop] counts the code's
    5200 rounds. The handshake of [Duplex] ends by the measure [config_energy],
    14 at its start; the receive loop of [Stream] by the bytes left in the
    stream. A future of [Async] is a finite tree, so driving it needs no fuel.

    What is not modelled

    [Debug] texts, module declarations and re-exports, and the build
    configuration, none of which computes anything. Of zeroisation only the
    values are modelled that a dropped [SessionCipher], [SessionKeys] or
    [E2eSecretKey] leaves in its memory, not copies a compiler may make nor the
    local buffers that are wiped before they go out of scope. A write that is
    cancelled or fails midway leaves the codec as [Async] says; how many bytes
    of the frame are then on the wire is not described, as no law of
    [AsyncWrite] says so. Allocation failure. ML-KEM's negligible probability of a
    decapsulation failure is a hypothesis on the sampled coins
    ([kem_agrees]). *)
From Stdlib Require Export ZArith Lia.
From Stdlib Require Export Init.Byte.
From Stdlib Require Import Strings.Byte.
From stdpp Require Export base tactics decidable list.

Declare Scope chatix_scope.
Delimit Scope chatix_scope with chatix.
#[global] Open Scope Z_scope.

(** ** Results

    [outcome E A] is what a Rust function of type [Result<A, E>] does: it
    returns [Ok], it returns [Err], or it panics (an index or a slice out of
    range, a [copy_from_slice] between different lengths, an arithmetic
    overflow of an unchecked operation). *)
Inductive outcome (E A : Type) : Type :=
| Ok (a : A)
| Err (e : E)
| Panic.
Arguments Ok {E A} a.
Arguments Err {E A} e.
Arguments Panic {E A}.

#[export] Instance outcome_ret E : MRet (outcome E) := fun A a => Ok a.
(** The [?] operator. *)
#[export] Instance outcome_bind E : MBind (outcome E) :=
  fun A B k m => match m with Ok a => k a | Err e => Err e | Panic => Panic end.

Definition map_err {E E' A} (f : E -> E') (o : outcome E A) : outcome E' A :=
  match o with Ok a => Ok a | Err e => Err (f e) | Panic => Panic end.

Definition ok_or {E A} (e : E) (o : option A) : outcome E A :=
  match o with Some a => Ok a | None => Err e end.

(** [wp P Q o]: [o] does not panic, its value satisfies [P] and its error
    satisfies [Q]. *)
Definition wp {E A} (P : A -> Prop) (Q : E -> Prop) (o : outcome E A) : Prop :=
  match o with Ok a => P a | Err e => Q e | Panic => False end.

Section wp_rules.
Context {E A B : Type}.

Lemma wp_bind (P : B -> Prop) (Q : E -> Prop) (m : outcome E A) k :
  wp (fun a => wp P Q (k a)) Q m -> wp P Q (m ≫= k).
Proof. by destruct m. Qed.

Lemma wp_mono (P P' : A -> Prop) (Q Q' : E -> Prop) m :
  wp P Q m -> (forall a, P a -> P' a) -> (forall e, Q e -> Q' e) -> wp P' Q' m.
Proof. destruct m; naive_solver. Qed.

Lemma wp_no_panic (P : A -> Prop) (Q : E -> Prop) m : wp P Q m -> m <> Panic.
Proof. by intros ? ->. Qed.

Lemma wp_ok_or (P : A -> Prop) (Q : E -> Prop) e o :
  (forall a, o = Some a -> P a) -> (o = None -> Q e) -> wp P Q (ok_or e o).
Proof. destruct o; naive_solver. Qed.

Lemma wp_if (P : A -> Prop) (Q : E -> Prop) (b : bool) m1 m2 :
  (b = true -> wp P Q m1) -> (b = false -> wp P Q m2) ->
  wp P Q (if b then m1 else m2).
Proof. destruct b; auto. Qed.
End wp_rules.

(** ** Stateful fallible code

    A method with [&mut self] (and a reader or writer) returns its outcome
    and the state it leaves behind, also when it fails. *)
Definition ST (S E A : Type) : Type := S -> outcome E A * S.

#[export] Instance ST_ret S E : MRet (ST S E) := fun A a s => (Ok a, s).
#[export] Instance ST_bind S E : MBind (ST S E) :=
  fun A B k m s =>
    match m s with
    | (Ok a, s') => k a s'
    | (Err e, s') => (Err e, s')
    | (Panic, s') => (Panic, s')
    end.

Definition st_get {S E} : ST S E S := fun s => (Ok s, s).
Definition st_put {S E} (s : S) : ST S E unit := fun _ => (Ok tt, s).
Definition st_lift {S E A} (o : outcome E A) : ST S E A := fun s => (o, s).
Definition st_err {S E A} (e : E) : ST S E A := fun s => (Err e, s).

(** [st_wp P Q m s]: run from [s], [m] does not panic; [P] holds of its value
    and the state it leaves, [Q] of its error and the state it leaves. *)
Definition st_wp {S E A} (P : A -> S -> Prop) (Q : E -> S -> Prop) (m : ST S E A) (s : S)
    : Prop :=
  wp (fun a => P a (snd (m s))) (fun e => Q e (snd (m s))) (fst (m s)).

Section st_wp_rules.
Context {S E A B : Type}.
Implicit Types (Q : E -> S -> Prop) (s : S).

Lemma st_wp_bind (P : B -> S -> Prop) Q (m : ST S E A) k s :
  st_wp (fun a => st_wp P Q (k a)) Q m s -> st_wp P Q (m ≫= k) s.
Proof.
  unfold st_wp, mbind, ST_bind. destruct (m s) as [[a|e|] s']; cbn; auto.
Qed.

Lemma st_wp_mono (P P' : A -> S -> Prop) (Q Q' : E -> S -> Prop) (m : ST S E A) s :
  st_wp P Q m s -> (forall a s', P a s' -> P' a s') -> (forall e s', Q e s' -> Q' e s') ->
  st_wp P' Q' m s.
Proof. unfold st_wp. intros Hm HP HQ. destruct (fst (m s)); cbn in *; auto. Qed.

(** What a run that has ended well satisfies. *)
Lemma st_wp_run (P : A -> S -> Prop) Q (m : ST S E A) s a s' :
  st_wp P Q m s -> m s = (Ok a, s') -> P a s'.
Proof. unfold st_wp. intros Hm He. by rewrite He in Hm. Qed.

Lemma st_wp_ret (P : A -> S -> Prop) Q a s : P a s -> st_wp P Q (mret a) s.
Proof. done. Qed.

Lemma st_wp_lift (P : A -> S -> Prop) Q o s :
  wp (fun a => P a s) (fun e => Q e s) o -> st_wp P Q (st_lift o) s.
Proof. done. Qed.

End st_wp_rules.

(** ** Byte strings and their lengths *)
Abbreviation bytes := (list byte).

#[export] Instance byte_eq_dec : EqDecision byte := Byte.byte_eq_dec.

Definition zlen {A} (l : list A) : Z := Z.of_nat (length l).

Lemma zlen_nil {A} : zlen (@nil A) = 0.
Proof. done. Qed.
Lemma zlen_cons {A} (x : A) l : zlen (x :: l) = 1 + zlen l.
Proof. unfold zlen. cbn [length]. lia. Qed.
Lemma zlen_app {A} (l k : list A) : zlen (l ++ k) = zlen l + zlen k.
Proof. unfold zlen. rewrite length_app. lia. Qed.
Lemma zlen_nonneg {A} (l : list A) : 0 <= zlen l.
Proof. unfold zlen. lia. Qed.
Lemma zlen_repeat {A} (x : A) n : zlen (repeat x n) = Z.of_nat n.
Proof. unfold zlen. by rewrite repeat_length. Qed.
Lemma zlen_zero_nil {A} (l : list A) : zlen l = 0 -> l = [].
Proof. destruct l; [done|]. rewrite zlen_cons. pose proof (zlen_nonneg l). lia. Qed.

Create Rewrite HintDb zlen.
#[export] Hint Rewrite @zlen_nil @zlen_cons @zlen_app @zlen_repeat : zlen.

(** [len_lia]: normalise lengths, then decide. *)
Ltac len_pose :=
  repeat match goal with
  | |- context [zlen ?l] =>
      lazymatch goal with
      | _ : 0 <= zlen l |- _ => fail
      | _ => pose proof (zlen_nonneg l)
      end
  | _ : context [zlen ?l] |- _ =>
      lazymatch goal with
      | _ : 0 <= zlen l |- _ => fail
      | _ => pose proof (zlen_nonneg l)
      end
  end.
Ltac len_lia := autorewrite with zlen in *; len_pose; lia.

(** Splitting a list at a length. *)
Lemma split_at {A} (l : list A) n :
  0 <= n <= zlen l -> exists a b, l = a ++ b /\ zlen a = n.
Proof.
  intros Hn. exists (take (Z.to_nat n) l), (drop (Z.to_nat n) l).
  rewrite take_drop. split; [done|]. unfold zlen in *. rewrite length_take. lia.
Qed.

Lemma split_exact {A} (l : list A) n m :
  0 <= n -> 0 <= m -> zlen l = n + m ->
  exists a b, l = a ++ b /\ zlen a = n /\ zlen b = m.
Proof.
  intros Hn Hm Hl. destruct (split_at l n) as (a & b & -> & Ha); [lia|].
  exists a, b. split_and!; [done..|]. rewrite zlen_app in Hl. lia.
Qed.

Lemma split_one {A} (l : list A) : 1 <= zlen l -> exists x k, l = x :: k.
Proof. destruct l; [rewrite zlen_nil; lia|]. eauto. Qed.

Lemma zlen_inj_app {A} (a b c d : list A) :
  a ++ b = c ++ d -> zlen a = zlen c -> a = c /\ b = d.
Proof. unfold zlen. intros Heq Hl. apply app_inj_1; [lia|done]. Qed.
Lemma zlen_inj_app_r {A} (a b c d : list A) :
  a ++ b = c ++ d -> zlen b = zlen d -> a = c /\ b = d.
Proof.
  intros Heq Hl. apply zlen_inj_app; [done|].
  pose proof (f_equal zlen Heq) as He. rewrite !zlen_app in He. lia.
Qed.
