(* ===== verification/RustStd.v ===== *)
(** * The parts of the Rust language and standard library the crate uses

    Machine integers and their big-endian bytes, [usize] arithmetic, indexing
    and slicing (which panic out of range), [str::from_utf8], the ordering of
    [str], decimal formatting and [std::io::Error]. *)
From Stdlib Require Import Strings.Byte String DecimalString.
From S2P Require Import Prelude.

(** ** [std::io::Error] *)
Inductive ErrorKind :=
| InvalidInput | InvalidData | UnexpectedEof | WriteZero | BrokenPipe | ConnectionReset | Other.
#[export] Instance ErrorKind_eq_dec : EqDecision ErrorKind.
Proof. solve_decision. Defined.

Record io_error := Error_new { kind : ErrorKind; message : string }.

Abbreviation io_result := (outcome io_error).

(** ** Bytes as integers *)
Definition byte_val (b : byte) : Z := Z.of_N (Byte.to_N b).

Definition byte_of (z : Z) : byte :=
  match Byte.of_N (Z.to_N (Z.land z 255)) with Some b => b | None => x00 end.

Lemma byte_val_range b : 0 <= byte_val b < 256.
Proof. unfold byte_val. pose proof (Byte.to_N_bounded b). lia. Qed.

Lemma byte_val_inj a b : byte_val a = byte_val b -> a = b.
Proof.
  unfold byte_val. intros H%N2Z.inj.
  pose proof (Byte.of_to_N a) as Ha. pose proof (Byte.of_to_N b) as Hb.
  rewrite H in Ha. congruence.
Qed.

Lemma byte_val_of z : byte_val (byte_of z) = z mod 256.
Proof.
  unfold byte_of. change 255 with (Z.ones 8). rewrite Z.land_ones by lia.
  change (2 ^ 8) with 256. pose proof (Z.mod_pos_bound z 256 eq_refl).
  destruct (Byte.of_N _) as [b|] eqn:E.
  - apply Byte.to_of_N in E. unfold byte_val. rewrite E. lia.
  - apply Byte.of_N_None_iff in E. lia.
Qed.

(** ** Machine integers *)
Definition u8_max : Z := 255.
Definition u16_max : Z := 65535.
Definition u32_max : Z := 4294967295.
Definition u64_max : Z := 18446744073709551615.
(** The crate is modelled on a 64-bit target. *)
Definition usize_max : Z := u64_max.

Definition is_u16 (z : Z) : Prop := 0 <= z <= u16_max.
Definition is_u32 (z : Z) : Prop := 0 <= z <= u32_max.
Definition is_u64 (z : Z) : Prop := 0 <= z <= u64_max.

#[export] Hint Unfold is_u16 is_u32 is_u64 : core.

(** [n as u32] and [n as u16] truncate. *)
Definition as_u16 (z : Z) : Z := Z.land z 65535.
Definition as_u32 (z : Z) : Z := Z.land z 4294967295.

Lemma as_u16_id z : is_u16 z -> as_u16 z = z.
Proof.
  unfold as_u16, is_u16, u16_max. intros. change 65535 with (Z.ones 16).
  rewrite Z.land_ones by lia. apply Z.mod_small. lia.
Qed.

Lemma as_u32_mod z : as_u32 z = z mod 4294967296.
Proof.
  unfold as_u32. change 4294967295 with (Z.ones 32).
  by rewrite Z.land_ones by lia.
Qed.

Lemma as_u32_id z : is_u32 z -> as_u32 z = z.
Proof. unfold is_u32, u32_max. intros. rewrite as_u32_mod. apply Z.mod_small. lia. Qed.

Lemma as_u32_range z : is_u32 (as_u32 z).
Proof.
  rewrite as_u32_mod. unfold is_u32, u32_max.
  pose proof (Z.mod_pos_bound z 4294967296 eq_refl). lia.
Qed.

(** [a.checked_add(b)] and the unchecked [a + b], which panics on overflow. *)
Definition checked_add (max a b : Z) : option Z :=
  if a + b <=? max then Some (a + b) else None.

Definition usize_add {E} (a b : Z) : outcome E Z :=
  match checked_add usize_max a b with Some c => Ok c | None => Panic end.

Definition saturating_add_u32 (a b : Z) : Z := Z.min (a + b) u32_max.

(** ** Big-endian encodings *)
Fixpoint to_be_bytes (n : nat) (z : Z) : bytes :=
  match n with
  | O => []
  | S m => byte_of (Z.shiftr z (8 * Z.of_nat m)) :: to_be_bytes m z
  end.

Definition from_be_bytes (bs : bytes) : Z :=
  fold_left (fun acc b => Z.shiftl acc 8 + byte_val b) bs 0.

Lemma zlen_to_be_bytes n z : zlen (to_be_bytes n z) = Z.of_nat n.
Proof. induction n; cbn [to_be_bytes]; rewrite ?zlen_cons, ?zlen_nil; lia. Qed.
Lemma zlen_be_8 z : zlen (to_be_bytes 8 z) = 8.
Proof. apply zlen_to_be_bytes. Qed.
Lemma zlen_be_4 z : zlen (to_be_bytes 4 z) = 4.
Proof. apply zlen_to_be_bytes. Qed.
Lemma zlen_be_2 z : zlen (to_be_bytes 2 z) = 2.
Proof. apply zlen_to_be_bytes. Qed.
#[export] Hint Rewrite zlen_be_8 zlen_be_4 zlen_be_2 : zlen.

Lemma from_be_bytes_acc bs acc :
  fold_left (fun acc b => Z.shiftl acc 8 + byte_val b) bs acc
  = acc * 256 ^ zlen bs + from_be_bytes bs.
Proof.
  unfold from_be_bytes. revert acc. induction bs as [|b bs IH]; intros acc.
  - cbn [fold_left]. rewrite zlen_nil, Z.pow_0_r. lia.
  - cbn [fold_left]. rewrite IH, (IH (Z.shiftl 0 8 + _)), !Z.shiftl_mul_pow2 by lia.
    rewrite zlen_cons, Z.pow_add_r by (pose proof (zlen_nonneg bs); lia).
    change (2 ^ 8) with 256. change (256 ^ 1) with 256. lia.
Qed.

Lemma from_be_bytes_cons b bs :
  from_be_bytes (b :: bs) = byte_val b * 256 ^ zlen bs + from_be_bytes bs.
Proof.
  unfold from_be_bytes at 1. cbn [fold_left]. rewrite from_be_bytes_acc.
  by rewrite Z.shiftl_0_l.
Qed.

Lemma from_be_bytes_range bs : 0 <= from_be_bytes bs < 256 ^ zlen bs.
Proof.
  induction bs as [|b bs IH]; [done|]. rewrite from_be_bytes_cons, zlen_cons.
  pose proof (zlen_nonneg bs). rewrite Z.pow_add_r by lia.
  pose proof (byte_val_range b). change (256 ^ 1) with 256. nia.
Qed.

Lemma from_to_be_bytes n z : from_be_bytes (to_be_bytes n z) = z mod 256 ^ Z.of_nat n.
Proof.
  induction n as [|n IH]; [by rewrite Z.mod_1_r|].
  cbn [to_be_bytes]. rewrite from_be_bytes_cons, zlen_to_be_bytes, IH, byte_val_of.
  rewrite Z.shiftr_div_pow2 by lia. rewrite Z.pow_mul_r by lia. change (2 ^ 8) with 256.
  rewrite Nat2Z.inj_succ, Z.pow_succ_r by lia.
  rewrite (Z.mul_comm 256), Z.rem_mul_r by lia. lia.
Qed.

Lemma from_to_be_bytes_small n z :
  0 <= z < 256 ^ Z.of_nat n -> from_be_bytes (to_be_bytes n z) = z.
Proof. intros. rewrite from_to_be_bytes. by apply Z.mod_small. Qed.

Lemma from_be_bytes_inj a b :
  zlen a = zlen b -> from_be_bytes a = from_be_bytes b -> a = b.
Proof.
  revert b. induction a as [|x a IH]; intros [|y b];
    rewrite ?zlen_cons, ?zlen_nil; intros Hl He;
    try (len_pose; lia); [done|].
  rewrite !from_be_bytes_cons in He.
  assert (zlen a = zlen b) as Hab by lia. rewrite Hab in He.
  pose proof (from_be_bytes_range a). pose proof (from_be_bytes_range b).
  rewrite Hab in *.
  assert (byte_val x = byte_val y) as Hxy by nia.
  rewrite Hxy in He. apply byte_val_inj in Hxy as ->. f_equal. apply IH; lia.
Qed.

Lemma to_from_be_bytes n bs : zlen bs = Z.of_nat n -> to_be_bytes n (from_be_bytes bs) = bs.
Proof.
  intros Hl. apply from_be_bytes_inj; [by rewrite zlen_to_be_bytes|].
  apply from_to_be_bytes_small. rewrite <- Hl. apply from_be_bytes_range.
Qed.

Lemma to_be_bytes_inj n y z :
  0 <= y < 256 ^ Z.of_nat n -> 0 <= z < 256 ^ Z.of_nat n ->
  to_be_bytes n y = to_be_bytes n z -> y = z.
Proof.
  intros Hy Hz He. apply (f_equal from_be_bytes) in He.
  by rewrite !from_to_be_bytes_small in He.
Qed.

Lemma to_be_u64_inj y z :
  is_u64 y -> is_u64 z -> to_be_bytes 8 y = to_be_bytes 8 z -> y = z.
Proof. unfold is_u64, u64_max. intros. apply (to_be_bytes_inj 8); [lia..|done]. Qed.

Lemma from_be_u64 z : is_u64 z -> from_be_bytes (to_be_bytes 8 z) = z.
Proof. unfold is_u64, u64_max. intros. apply from_to_be_bytes_small. lia. Qed.
Lemma from_be_u32 z : is_u32 z -> from_be_bytes (to_be_bytes 4 z) = z.
Proof. unfold is_u32, u32_max. intros. apply from_to_be_bytes_small. lia. Qed.
Lemma from_be_u16 z : is_u16 z -> from_be_bytes (to_be_bytes 2 z) = z.
Proof. unfold is_u16, u16_max. intros. apply from_to_be_bytes_small. lia. Qed.

(** The value of a byte string of a machine width, and the string back from it. *)
Lemma be_u64_view bs :
  zlen bs = 8 -> is_u64 (from_be_bytes bs) /\ to_be_bytes 8 (from_be_bytes bs) = bs.
Proof.
  intros Hl. split; [|by apply to_from_be_bytes].
  pose proof (from_be_bytes_range bs) as H. rewrite Hl in H. unfold is_u64, u64_max. lia.
Qed.
Lemma be_u32_view bs :
  zlen bs = 4 -> is_u32 (from_be_bytes bs) /\ to_be_bytes 4 (from_be_bytes bs) = bs.
Proof.
  intros Hl. split; [|by apply to_from_be_bytes].
  pose proof (from_be_bytes_range bs) as H. rewrite Hl in H. unfold is_u32, u32_max. lia.
Qed.
Lemma be_u16_view bs :
  zlen bs = 2 -> is_u16 (from_be_bytes bs) /\ to_be_bytes 2 (from_be_bytes bs) = bs.
Proof.
  intros Hl. split; [|by apply to_from_be_bytes].
  pose proof (from_be_bytes_range bs) as H. rewrite Hl in H. unfold is_u16, u16_max. lia.
Qed.

(** ** Indexing, slicing, arrays *)
Definition index {E} (b : bytes) (i : Z) : outcome E byte :=
  if (0 <=? i) then
    match nth_error b (Z.to_nat i) with Some x => Ok x | None => Panic end
  else Panic.

(** [&b[lo..hi]] *)
Definition slice {E} (b : bytes) (lo hi : Z) : outcome E bytes :=
  if (0 <=? lo) && (lo <=? hi) && (hi <=? zlen b)
  then Ok (take (Z.to_nat (hi - lo)) (drop (Z.to_nat lo) b))
  else Panic.

(** [&b[lo..]] and [&b[..hi]] *)
Definition slice_from {E} (b : bytes) (lo : Z) : outcome E bytes := slice b lo (zlen b).
Definition slice_to {E} (b : bytes) (hi : Z) : outcome E bytes := slice b 0 hi.

(** [b.try_into()] at [[u8; n]] *)
Definition try_into (n : Z) (b : bytes) : option bytes :=
  if zlen b =? n then Some b else None.

(** [let mut a = [0u8; n]; a.copy_from_slice(src)] *)
Definition copy_from_slice {E} (n : Z) (src : bytes) : outcome E bytes :=
  if zlen src =? n then Ok src else Panic.

(** [dst[lo..hi].copy_from_slice(src)] *)
Definition copy_into {E} (dst : bytes) (lo hi : Z) (src : bytes) : outcome E bytes :=
  if (0 <=? lo) && (lo <=? hi) && (hi <=? zlen dst) && (zlen src =? hi - lo)
  then Ok (take (Z.to_nat lo) dst ++ src ++ drop (Z.to_nat hi) dst)
  else Panic.

(** [dst[i] = x] *)
Definition set_index {E} (dst : bytes) (i : Z) (x : byte) : outcome E bytes :=
  copy_into dst i (i + 1) [x].

Definition zeros (n : Z) : bytes := repeat x00 (Z.to_nat n).
(** [zeroize()] on a byte array: what its memory holds afterwards. *)
Definition zeroize (bs : bytes) : bytes := zeros (zlen bs).

Section slices.
Context {E : Type}.
Implicit Types (a b : bytes).

Lemma index_head x b i : i = 0 -> index (E := E) (x :: b) i = Ok x.
Proof. by intros ->. Qed.

Lemma index_skip a b i : zlen a <= i -> index (E := E) (a ++ b) i = index b (i - zlen a).
Proof.
  intros Hi. pose proof (zlen_nonneg a). unfold index.
  destruct (Z.leb_spec 0 i), (Z.leb_spec 0 (i - zlen a)); try lia.
  rewrite nth_error_app2 by (unfold zlen in *; lia).
  by replace (Z.to_nat i - length a)%nat with (Z.to_nat (i - zlen a))
    by (unfold zlen; lia).
Qed.

Lemma index_skip_one x b i : 1 <= i -> index (E := E) (x :: b) i = index b (i - 1).
Proof. intros. change (x :: b) with ([x] ++ b). by rewrite index_skip by done. Qed.

Lemma slice_skip a b lo hi :
  zlen a <= lo -> lo <= hi ->
  slice (E := E) (a ++ b) lo hi = slice b (lo - zlen a) (hi - zlen a).
Proof.
  intros Hlo Hhi. pose proof (zlen_nonneg a). unfold slice. rewrite zlen_app.
  destruct (Z.leb_spec 0 lo), (Z.leb_spec 0 (lo - zlen a)), (Z.leb_spec lo hi),
    (Z.leb_spec (lo - zlen a) (hi - zlen a)), (Z.leb_spec hi (zlen a + zlen b)),
    (Z.leb_spec (hi - zlen a) (zlen b)); try lia; cbn; [|done].
  do 2 f_equal; [f_equal; lia|].
  rewrite drop_app_ge by (unfold zlen in *; lia).
  f_equal. unfold zlen. lia.
Qed.

Lemma slice_skip_one x b lo hi :
  1 <= lo -> lo <= hi -> slice (E := E) (x :: b) lo hi = slice b (lo - 1) (hi - 1).
Proof. intros. by rewrite (slice_skip [x] b) by done. Qed.

Lemma slice_head a b lo hi :
  lo = 0 -> hi = zlen a -> slice (E := E) (a ++ b) lo hi = Ok a.
Proof.
  intros -> ->. pose proof (zlen_nonneg a). pose proof (zlen_nonneg b).
  unfold slice. rewrite zlen_app.
  destruct (Z.leb_spec 0 0), (Z.leb_spec 0 (zlen a)), (Z.leb_spec (zlen a) (zlen a + zlen b));
    try lia. cbn.
  rewrite drop_0, Z.sub_0_r. f_equal. unfold zlen. by rewrite Nat2Z.id, take_app_length.
Qed.

Lemma slice_full a lo hi : lo = 0 -> hi = zlen a -> slice (E := E) a lo hi = Ok a.
Proof. intros -> ->. rewrite <- (app_nil_r a) at 1. by apply slice_head. Qed.

Lemma slice_from_skip a b lo :
  zlen a <= lo -> lo <= zlen a + zlen b ->
  slice_from (E := E) (a ++ b) lo = slice_from b (lo - zlen a).
Proof.
  intros. unfold slice_from. rewrite zlen_app, slice_skip by lia.
  f_equal. lia.
Qed.

Lemma slice_from_skip_one x b lo :
  1 <= lo -> lo <= 1 + zlen b ->
  slice_from (E := E) (x :: b) lo = slice_from b (lo - 1).
Proof. intros. change (x :: b) with ([x] ++ b). by rewrite slice_from_skip by done. Qed.

Lemma slice_from_0 a lo : lo = 0 -> slice_from (E := E) a lo = Ok a.
Proof. intros ->. by apply slice_full. Qed.

Lemma slice_ok b lo hi c :
  slice (E := E) b lo hi = Ok c -> zlen c = hi - lo.
Proof.
  unfold slice. destruct (_ && _) eqn:Hb; [|done]. intros [= <-].
  unfold zlen in *. rewrite length_take, length_drop. lia.
Qed.

Lemma copy_from_slice_ok n a : zlen a = n -> copy_from_slice (E := E) n a = Ok a.
Proof. intros <-. unfold copy_from_slice. by rewrite Z.eqb_refl. Qed.

Lemma usize_add_ok (a b : Z) : a + b <= usize_max -> usize_add (E := E) a b = Ok (a + b).
Proof.
  intros. unfold usize_add, checked_add. destruct (Z.leb_spec (a + b) usize_max); [done|lia].
Qed.

Lemma copy_into_app a m b src lo hi :
  lo = zlen a -> hi = lo + zlen m -> zlen src = zlen m ->
  copy_into (E := E) (a ++ m ++ b) lo hi src = Ok (a ++ src ++ b).
Proof.
  intros -> -> Hs. pose proof (zlen_nonneg a). pose proof (zlen_nonneg m).
  pose proof (zlen_nonneg b). unfold copy_into. rewrite !zlen_app.
  replace (_ && _) with true by lia. do 2 f_equal.
  - unfold zlen. by rewrite Nat2Z.id, take_app_length.
  - f_equal. rewrite app_assoc.
    replace (Z.to_nat (zlen a + zlen m)) with (length (a ++ m))
      by (rewrite length_app; unfold zlen; lia).
    by rewrite drop_app_length.
Qed.
End slices.

Lemma try_into_ok n a : zlen a = n -> try_into n a = Some a.
Proof. intros <-. unfold try_into. by rewrite Z.eqb_refl. Qed.

Lemma try_into_none n a : zlen a <> n -> try_into n a = None.
Proof. intros Hn. unfold try_into. by destruct (Z.eqb_spec (zlen a) n). Qed.

Lemma slice_to_head {E} (a b : bytes) hi : hi = zlen a -> slice_to (E := E) (a ++ b) hi = Ok a.
Proof. intros. by apply slice_head. Qed.

Lemma checked_add_ok m a b : a + b <= m -> checked_add m a b = Some (a + b).
Proof. intros. unfold checked_add. destruct (Z.leb_spec (a + b) m); [done|lia]. Qed.

(** ** [str]: UTF-8 byte strings

    A Rust [String] or [&str] is its bytes; that they are valid UTF-8 is part
    of the type, stated where it matters as [utf8_valid s = true]. The
    validator accepts exactly the well-formed sequences of the Unicode
    standard (table 3-7), which is what [str::from_utf8] documents. *)
Definition in_range (lo hi : Z) (b : byte) : bool := (lo <=? byte_val b) && (byte_val b <=? hi).
Definition utf8_cont : byte -> bool := in_range 128 191.

Fixpoint utf8_valid (s : bytes) : bool :=
  match s with
  | [] => true
  | b0 :: s1 =>
      if in_range 0 127 b0 then utf8_valid s1
      else if in_range 194 223 b0 then
        match s1 with
        | b1 :: s2 => utf8_cont b1 && utf8_valid s2
        | _ => false
        end
      else if in_range 224 239 b0 then
        match s1 with
        | b1 :: b2 :: s3 =>
            (if byte_val b0 =? 224 then in_range 160 191 b1
             else if byte_val b0 =? 237 then in_range 128 159 b1
             else utf8_cont b1)
            && utf8_cont b2 && utf8_valid s3
        | _ => false
        end
      else if in_range 240 244 b0 then
        match s1 with
        | b1 :: b2 :: b3 :: s4 =>
            (if byte_val b0 =? 240 then in_range 144 191 b1
             else if byte_val b0 =? 244 then in_range 128 143 b1
             else utf8_cont b1)
            && utf8_cont b2 && utf8_cont b3 && utf8_valid s4
        | _ => false
        end
      else false
  end.

Definition from_utf8 (b : bytes) : option bytes := if utf8_valid b then Some b else None.

(** Ordering of [str] ([<=]): lexicographic on bytes. *)
Fixpoint str_le (a b : bytes) : bool :=
  match a, b with
  | [], _ => true
  | _ :: _, [] => false
  | x :: a', y :: b' =>
      if byte_val x <? byte_val y then true
      else if byte_val x =? byte_val y then str_le a' b' else false
  end.

Lemma str_le_refl a : str_le a a = true.
Proof. induction a as [|x a IH]; [done|]. cbn. by rewrite Z.ltb_irrefl, Z.eqb_refl. Qed.

Lemma str_le_total a b : str_le a b = true \/ str_le b a = true.
Proof.
  revert b. induction a as [|x a IH]; intros [|y b]; cbn; auto.
  destruct (Z.ltb_spec (byte_val x) (byte_val y)), (Z.ltb_spec (byte_val y) (byte_val x)),
    (Z.eqb_spec (byte_val x) (byte_val y)), (Z.eqb_spec (byte_val y) (byte_val x));
    auto; lia.
Qed.

Lemma str_le_antisym a b : str_le a b = true -> str_le b a = true -> a = b.
Proof.
  revert b. induction a as [|x a IH]; intros [|y b]; cbn; try done.
  destruct (Z.ltb_spec (byte_val x) (byte_val y)), (Z.ltb_spec (byte_val y) (byte_val x)),
    (Z.eqb_spec (byte_val x) (byte_val y)) as [Hxy|], (Z.eqb_spec (byte_val y) (byte_val x));
    try lia; try done.
  apply byte_val_inj in Hxy as ->. intros. f_equal. auto.
Qed.

(** ** Decimal formatting: [{}] and [{:0w}] of an unsigned integer *)
Definition digit (d : Z) : byte := byte_of (48 + d).

Fixpoint dec_go (fuel : nat) (z : Z) (acc : bytes) : bytes :=
  let acc' := digit (z mod 10) :: acc in
  match fuel with
  | O => acc'
  | S f => if z <? 10 then acc' else dec_go f (z / 10) acc'
  end.
Definition dec_digits (z : Z) : bytes := dec_go (Z.to_nat (Z.log2 z)) z [].
Definition fmt_dec (z : Z) : string := string_of_list_byte (dec_digits z).
Definition fmt_pad (w z : Z) : bytes :=
  repeat (digit 0) (Z.to_nat (w - zlen (dec_digits z))) ++ dec_digits z.

Definition is_digit (b : byte) : bool := in_range 48 57 b.
Definition dec_value (s : bytes) : Z :=
  fold_left (fun acc b => acc * 10 + (byte_val b - 48)) s 0.

Lemma digit_val d : 0 <= d < 10 -> byte_val (digit d) = 48 + d.
Proof. intros. unfold digit. rewrite byte_val_of. apply Z.mod_small. lia. Qed.

Lemma digit_is_digit d : 0 <= d < 10 -> is_digit (digit d) = true.
Proof. intros. unfold is_digit, in_range. rewrite digit_val by done. lia. Qed.

Lemma dec_go_digits fuel z acc :
  Forall (fun b => is_digit b = true) acc ->
  Forall (fun b => is_digit b = true) (dec_go fuel z acc).
Proof.
  revert z acc. induction fuel as [|f IH]; intros z acc Hacc; cbn [dec_go];
    [|case_match]; try apply IH; constructor; auto;
    apply digit_is_digit, Z.mod_pos_bound; done.
Qed.

Lemma dec_go_len fuel z acc k :
  0 <= z < 10 ^ Z.of_nat (S k) -> zlen (dec_go fuel z acc) <= Z.of_nat (S k) + zlen acc.
Proof.
  revert z acc k. induction fuel as [|f IH]; intros z acc k Hz; cbn [dec_go].
  - rewrite zlen_cons. lia.
  - destruct (Z.ltb_spec z 10); [rewrite zlen_cons; lia|].
    destruct k as [|k]; [change (10 ^ Z.of_nat 1) with 10 in Hz; lia|].
    rewrite (Nat2Z.inj_succ (S k)), Z.pow_succ_r in Hz by lia.
    specialize (IH (z / 10) (digit (z mod 10) :: acc) k). rewrite zlen_cons in IH.
    cut (0 <= z / 10 < 10 ^ Z.of_nat (S k)); [intros ?; specialize (IH H0); lia|].
    split; [apply Z.div_pos; lia|]. apply Z.div_lt_upper_bound; lia.
Qed.

Lemma dec_value_app_aux s acc :
  fold_left (fun acc b => acc * 10 + (byte_val b - 48)) s acc
  = acc * 10 ^ zlen s + dec_value s.
Proof.
  unfold dec_value. revert acc. induction s as [|b s IH]; intros acc.
  - cbn [fold_left]. rewrite zlen_nil, Z.pow_0_r. lia.
  - cbn [fold_left]. rewrite IH, (IH (0 * 10 + _)), zlen_cons.
    rewrite Z.pow_add_r by (pose proof (zlen_nonneg s); lia).
    change (10 ^ 1) with 10. lia.
Qed.

Lemma dec_value_digit z acc :
  0 <= z < 10 -> dec_value (digit (z mod 10) :: acc) = z * 10 ^ zlen acc + dec_value acc.
Proof.
  intros Hz. unfold dec_value at 1. cbn [fold_left].
  rewrite dec_value_app_aux, (Z.mod_small z) by done. rewrite digit_val by done. ring.
Qed.

Lemma dec_go_value fuel z acc :
  0 <= z < 10 ^ Z.of_nat (S fuel) ->
  dec_value (dec_go fuel z acc) = z * 10 ^ zlen acc + dec_value acc.
Proof.
  revert z acc. induction fuel as [|f IH]; intros z acc Hz; cbn [dec_go].
  - change (10 ^ Z.of_nat 1) with 10 in Hz. by apply dec_value_digit.
  - destruct (Z.ltb_spec z 10); [apply dec_value_digit; lia|].
    assert (0 <= z mod 10 < 10) as Hm by (by apply Z.mod_pos_bound).
    rewrite (Nat2Z.inj_succ (S f)), Z.pow_succ_r in Hz by lia.
    rewrite IH.
    2:{ split; [apply Z.div_pos; lia|]. apply Z.div_lt_upper_bound; lia. }
    unfold dec_value at 1. cbn [fold_left].
    rewrite dec_value_app_aux, digit_val, zlen_cons by done.
    rewrite Z.pow_add_r by (pose proof (zlen_nonneg acc); lia).
    rewrite (Z.div_mod z 10) at 3 by done. change (10 ^ 1) with 10. ring.
Qed.

(** Printing in decimal loses nothing. *)
Lemma dec_digits_value z : 0 <= z -> dec_value (dec_digits z) = z.
Proof.
  intros Hz. unfold dec_digits. rewrite dec_go_value; [rewrite zlen_nil; cbn; lia|].
  split; [done|]. destruct (Z.eq_dec z 0) as [->|]; [done|].
  pose proof (Z.log2_spec z ltac:(lia)) as [_ Hlt]. pose proof (Z.log2_nonneg z).
  rewrite Nat2Z.inj_succ, Z2Nat.id by done. eapply Z.lt_le_trans; [done|].
  apply Z.pow_le_mono_l. lia.
Qed.

Lemma dec_digits_digits z : Forall (fun b => is_digit b = true) (dec_digits z).
Proof. apply dec_go_digits. constructor. Qed.

Lemma dec_digits_len z k :
  0 <= z < 10 ^ Z.of_nat (S k) -> zlen (dec_digits z) <= Z.of_nat (S k).
Proof. intros H. unfold dec_digits. pose proof (dec_go_len (Z.to_nat (Z.log2 z)) z [] k H). len_lia. Qed.

Lemma dec_value_zeros n s : dec_value (repeat (digit 0) n ++ s) = dec_value s.
Proof.
  induction n as [|n IH]; [done|]. cbn [repeat app]. unfold dec_value in *. cbn [fold_left].
  by rewrite digit_val.
Qed.

Lemma fmt_pad_value w z : 0 <= z -> dec_value (fmt_pad w z) = z.
Proof. intros. unfold fmt_pad. by rewrite dec_value_zeros, dec_digits_value. Qed.

Lemma fmt_pad_digits w z : Forall (fun b => is_digit b = true) (fmt_pad w z).
Proof.
  apply Forall_app. split; [|apply dec_digits_digits].
  apply List.Forall_forall. intros x ->%repeat_spec. by apply digit_is_digit.
Qed.

Lemma fmt_pad_len k z :
  0 <= z < 10 ^ Z.of_nat (S k) -> zlen (fmt_pad (Z.of_nat (S k)) z) = Z.of_nat (S k).
Proof.
  intros H. unfold fmt_pad. pose proof (dec_digits_len z k H).
  rewrite zlen_app, zlen_repeat. len_pose. lia.
Qed.

(** Evaluates indexing and slicing of a byte string written as a
    concatenation, resolving the arithmetic with the known lengths. *)
Ltac bytes_eval :=
  repeat first
    [ rewrite index_head by len_lia
    | rewrite index_skip_one by len_lia
    | rewrite index_skip by len_lia
    | rewrite slice_head by len_lia
    | rewrite slice_full by len_lia
    | rewrite slice_skip_one by len_lia
    | rewrite slice_skip by len_lia
    | rewrite slice_to_head by len_lia
    | rewrite slice_from_0 by len_lia
    | rewrite slice_from_skip_one by len_lia
    | rewrite slice_from_skip by len_lia ].

#[global] Arguments to_be_bytes : simpl never.
#[global] Arguments from_be_bytes : simpl never.
#[global] Arguments zlen : simpl never.
#[global] Arguments utf8_valid : simpl never.
