(* ===== verification/Sizes.v ===== *)
(** * Sizes of the cryptographic values carried on the wire

    The public constants of [crypto/session.rs], [crypto/e2e.rs] and
    [crypto/auth.rs], which the header, packet-type and payload modules use. *)
From S2P Require Import Prelude.

Definition ML_KEM_768_EK_SIZE : Z := 1184.
Definition ML_KEM_768_CT_SIZE : Z := 1088.

Definition NONCE_LEN : Z := 12.
Definition GCM_TAG_LEN : Z := 16.
Definition ML_DSA_65_SIG_SIZE : Z := 3309.
Definition ML_DSA_65_VK_SIZE : Z := 1952.

Definition SENDER_X25519_END : Z := 32.
Definition ML_KEM_CT_END : Z := SENDER_X25519_END + ML_KEM_768_CT_SIZE.
Definition AES_NONCE_END : Z := ML_KEM_CT_END + NONCE_LEN.
Definition MIN_BLOB_LEN : Z := AES_NONCE_END + GCM_TAG_LEN + ML_DSA_65_SIG_SIZE.

Definition TRANSCRIPT_LEN : Z := 32.
(** [NONCE_LEN] of [crypto/auth.rs]. *)
Definition AUTH_NONCE_LEN : Z := 32.
