(* ===== verification/Errors.v ===== *)
(** * [error.rs]: the protocol's error type *)
From Stdlib Require Import String.
From S2P Require Import Prelude RustStd.

Inductive ProtocolError :=
| InvalidMagic
| UnsupportedVersion (version : byte)
| InvalidHeaderLength
| PayloadTooLarge (size max : Z)
| ReservedFieldNonZero
| UnknownPacketType (value : byte)
| InvalidStateTransition
| PayloadDecode (packet : string) (reason : string)
| SequenceViolation (got last : Z)
| EncryptionRequired
| CryptoError
| IdentityKeyChanged (identifier : bytes)
| Io (e : io_error).

(** [impl From<std::io::Error> for ProtocolError], which [?] applies. *)
Definition from_io {A} (o : io_result A) : outcome ProtocolError A := map_err Io o.

Definition text (s : string) : bytes := list_byte_of_string s.

(** [impl Display for ProtocolError], which [thiserror] derives from the
    [#[error("...")]] attributes. The [Display] of an [io::Error] is its message. *)
Definition ProtocolError_display (self : ProtocolError) : bytes :=
  match self with
  | InvalidMagic => text "invalid magic bytes"
  | UnsupportedVersion version =>
      text "unsupported protocol version: " ++ dec_digits (byte_val version)
  | InvalidHeaderLength => text "invalid header length"
  | PayloadTooLarge size max =>
      text "payload too large: " ++ dec_digits size ++ text " bytes (max " ++ dec_digits max
        ++ text ")"
  | ReservedFieldNonZero => text "reserved field must be zero"
  | UnknownPacketType value => text "unknown packet type: " ++ dec_digits (byte_val value)
  | InvalidStateTransition => text "invalid packet type for current connection state"
  | PayloadDecode packet reason =>
      text "payload decode error in " ++ text packet ++ text ": " ++ text reason
  | SequenceViolation got last =>
      text "sequence number violation: got " ++ dec_digits got ++ text ", last seen "
        ++ dec_digits last
  | EncryptionRequired =>
      text "packet must be encrypted: a session is established but this packet was not"
  | CryptoError => text "cryptographic operation failed"
  | IdentityKeyChanged identifier =>
      text "identity key for '" ++ identifier ++ text "' changed since it was last pinned"
  | Io e => text "io error: " ++ text (message e)
  end.

Example display_sequence_violation :
  ProtocolError_display (SequenceViolation 7 12)
  = list_byte_of_string "sequence number violation: got 7, last seen 12".
Proof. reflexivity. Qed.
