(* ===== verification/Header.v ===== *)
(** * [header.rs]: the fixed 24-byte packet header *)
From Stdlib Require Import String.
From S2P Require Import Prelude RustStd Errors.

Definition CHATIX_MAGIC : bytes := list_byte_of_string "CHTX".
Definition CHATIX_VERSION : byte := x01.
Definition CHATIX_HEADER_LEN : byte := byte_of 24.
Definition CHATIX_HEADER_SIZE : Z := byte_val CHATIX_HEADER_LEN.
Definition MAX_PAYLOAD_LEN : Z := 1024 * 1024.

(** [flags::ENCRYPTED] *)
Definition ENCRYPTED : byte := byte_of (Z.shiftl 1 0).

Record PacketHeader := mk_PacketHeader {
  magic : bytes;          (* [u8; 4] *)
  version : byte;
  packet_type : byte;
  flags : byte;
  header_len : byte;
  payload_len : Z;        (* u32 *)
  sequence : Z;           (* u64 *)
  reserved : Z            (* u32 *)
}.

(** The invariant Rust's types give a header. *)
Definition header_ok (h : PacketHeader) : Prop :=
  zlen (magic h) = 4 /\ is_u32 (payload_len h) /\ is_u64 (sequence h) /\ is_u32 (reserved h).

Definition PacketHeader_new (packet_type flags : byte) (payload_len sequence : Z) : PacketHeader :=
  {| magic := CHATIX_MAGIC;
     version := CHATIX_VERSION;
     packet_type := packet_type;
     flags := flags;
     header_len := CHATIX_HEADER_LEN;
     payload_len := payload_len;
     sequence := sequence;
     reserved := 0 |}.

Definition PacketHeader_to_bytes (self : PacketHeader) : outcome ProtocolError bytes :=
  let out := zeros CHATIX_HEADER_SIZE in
  out ← copy_into out 0 4 (magic self);
  out ← set_index out 4 (version self);
  out ← set_index out 5 (packet_type self);
  out ← set_index out 6 (flags self);
  out ← set_index out 7 (header_len self);
  out ← copy_into out 8 12 (to_be_bytes 4 (payload_len self));
  out ← copy_into out 12 20 (to_be_bytes 8 (sequence self));
  out ← copy_into out 20 24 (to_be_bytes 4 (reserved self));
  mret out.

Definition PacketHeader_from_bytes (bs : bytes) : outcome ProtocolError PacketHeader :=
  b0 ← index bs 0; b1 ← index bs 1; b2 ← index bs 2; b3 ← index bs 3;
  b4 ← index bs 4;
  b5 ← index bs 5;
  b6 ← index bs 6;
  b7 ← index bs 7;
  b8 ← index bs 8; b9 ← index bs 9; b10 ← index bs 10; b11 ← index bs 11;
  b12 ← index bs 12; b13 ← index bs 13; b14 ← index bs 14; b15 ← index bs 15;
  b16 ← index bs 16; b17 ← index bs 17; b18 ← index bs 18; b19 ← index bs 19;
  b20 ← index bs 20; b21 ← index bs 21; b22 ← index bs 22; b23 ← index bs 23;
  mret {| magic := [b0; b1; b2; b3];
          version := b4;
          packet_type := b5;
          flags := b6;
          header_len := b7;
          payload_len := from_be_bytes [b8; b9; b10; b11];
          sequence := from_be_bytes [b12; b13; b14; b15; b16; b17; b18; b19];
          reserved := from_be_bytes [b20; b21; b22; b23] |}.

Definition PacketHeader_validate (self : PacketHeader) : outcome ProtocolError unit :=
  if negb (bool_decide (magic self = CHATIX_MAGIC)) then Err InvalidMagic
  else if negb (bool_decide (version self = CHATIX_VERSION)) then
    Err (UnsupportedVersion (version self))
  else if negb (bool_decide (header_len self = CHATIX_HEADER_LEN)) then Err InvalidHeaderLength
  else if MAX_PAYLOAD_LEN <? payload_len self then
    Err (PayloadTooLarge (payload_len self) MAX_PAYLOAD_LEN)
  else if negb (reserved self =? 0) then Err ReservedFieldNonZero
  else Ok tt.

Definition PacketHeader_is_encrypted (self : PacketHeader) : bool :=
  negb (Z.land (byte_val (flags self)) (byte_val ENCRYPTED) =? 0).

(** ** The layout the wire format promises *)
Definition header_layout (h : PacketHeader) : bytes :=
  magic h ++ [version h; packet_type h; flags h; header_len h]
  ++ to_be_bytes 4 (payload_len h) ++ to_be_bytes 8 (sequence h) ++ to_be_bytes 4 (reserved h).

Lemma zlen_header_layout h : zlen (magic h) = 4 -> zlen (header_layout h) = CHATIX_HEADER_SIZE.
Proof. intros Hm. unfold header_layout. autorewrite with zlen. rewrite Hm. done. Qed.

Lemma to_bytes_layout h :
  zlen (magic h) = 4 -> PacketHeader_to_bytes h = Ok (header_layout h).
Proof.
  intros Hm. destruct h as [m v pt fl hl pl sq rs]. cbn in Hm.
  destruct m as [|m0 [|m1 [|m2 [|m3 [|]]]]]; try (exfalso; len_lia).
  reflexivity.
Qed.

Lemma from_bytes_layout h :
  header_ok h -> PacketHeader_from_bytes (header_layout h) = Ok h.
Proof.
  intros (Hm & Hp & Hs & Hr). destruct h as [m v pt fl hl pl sq rs]. cbn in Hm, Hp, Hs, Hr.
  destruct m as [|m0 [|m1 [|m2 [|m3 [|]]]]]; try (exfalso; len_lia).
  transitivity (@Ok ProtocolError _ (mk_PacketHeader [m0; m1; m2; m3] v pt fl hl
    (from_be_bytes (to_be_bytes 4 pl)) (from_be_bytes (to_be_bytes 8 sq))
    (from_be_bytes (to_be_bytes 4 rs)))); [reflexivity|].
  by rewrite !from_be_u32, from_be_u64 by done.
Qed.

Lemma from_bytes_ok bs :
  zlen bs = CHATIX_HEADER_SIZE ->
  exists h, PacketHeader_from_bytes bs = Ok h /\ header_ok h /\ header_layout h = bs.
Proof.
  intros Hl. change CHATIX_HEADER_SIZE with (4 + (4 + (4 + (8 + 4)))) in Hl.
  apply split_exact in Hl as (a & b & -> & Ha & Hl); [|lia..].
  apply split_exact in Hl as (c & d & -> & Hc & Hl); [|lia..].
  apply split_exact in Hl as (e & f & -> & He & Hl); [|lia..].
  apply split_exact in Hl as (g & i & -> & Hg & Hi); [|lia..].
  destruct (be_u32_view e He) as [He1 He2]. destruct (be_u64_view g Hg) as [Hg1 Hg2].
  destruct (be_u32_view i Hi) as [Hi1 Hi2].
  destruct c as [|v [|pt [|fl [|hl [|]]]]]; try (exfalso; len_lia).
  set (h := mk_PacketHeader a v pt fl hl (from_be_bytes e) (from_be_bytes g) (from_be_bytes i)).
  assert (header_ok h) as Hok by done.
  assert (header_layout h = a ++ [v; pt; fl; hl] ++ e ++ g ++ i) as Hlay.
  { unfold header_layout. cbn [magic version packet_type flags header_len payload_len
      sequence reserved h]. by rewrite He2, Hg2, Hi2. }
  exists h. rewrite <- Hlay. split_and!; [by apply from_bytes_layout|done..].
Qed.

(** ** Validation *)
Definition header_valid (h : PacketHeader) : Prop :=
  magic h = CHATIX_MAGIC /\ version h = CHATIX_VERSION /\ header_len h = CHATIX_HEADER_LEN /\
  payload_len h <= MAX_PAYLOAD_LEN /\ reserved h = 0.

(** Which rule a rejected header broke, the earlier ones being respected. *)
Definition header_error (h : PacketHeader) (e : ProtocolError) : Prop :=
  match e with
  | InvalidMagic => magic h <> CHATIX_MAGIC
  | UnsupportedVersion v =>
      magic h = CHATIX_MAGIC /\ v = version h /\ v <> CHATIX_VERSION
  | InvalidHeaderLength =>
      magic h = CHATIX_MAGIC /\ version h = CHATIX_VERSION /\ header_len h <> CHATIX_HEADER_LEN
  | PayloadTooLarge size max =>
      magic h = CHATIX_MAGIC /\ version h = CHATIX_VERSION /\
      header_len h = CHATIX_HEADER_LEN /\
      size = payload_len h /\ max = MAX_PAYLOAD_LEN /\ max < size
  | ReservedFieldNonZero =>
      magic h = CHATIX_MAGIC /\ version h = CHATIX_VERSION /\
      header_len h = CHATIX_HEADER_LEN /\
      payload_len h <= MAX_PAYLOAD_LEN /\ reserved h <> 0
  | _ => False
  end.

Lemma validate_wp h :
  wp (fun _ => header_valid h) (header_error h) (PacketHeader_validate h).
Proof.
  unfold PacketHeader_validate, header_valid.
  destruct (bool_decide_reflect (magic h = CHATIX_MAGIC)); cbn [negb]; [|done].
  destruct (bool_decide_reflect (version h = CHATIX_VERSION)); cbn [negb]; [|done].
  destruct (bool_decide_reflect (header_len h = CHATIX_HEADER_LEN)); cbn [negb]; [|done].
  destruct (Z.ltb_spec MAX_PAYLOAD_LEN (payload_len h)); [done|].
  by destruct (Z.eqb_spec (reserved h) 0).
Qed.

Lemma validate_ok h : header_valid h -> PacketHeader_validate h = Ok tt.
Proof.
  intros (Hm & Hv & Hl & Hp & Hr). unfold PacketHeader_validate.
  rewrite !bool_decide_true by done. cbn [negb].
  destruct (Z.ltb_spec MAX_PAYLOAD_LEN (payload_len h)); [lia|]. by rewrite Hr.
Qed.

Lemma header_new_valid pt fl len seq :
  len <= MAX_PAYLOAD_LEN -> header_valid (PacketHeader_new pt fl len seq).
Proof. by unfold header_valid. Qed.

Lemma header_new_ok pt fl len seq :
  is_u32 len -> is_u64 seq -> header_ok (PacketHeader_new pt fl len seq).
Proof. intros. unfold header_ok. cbn. by split_and!. Qed.

(** The bit [ENCRYPTED] is bit 0 of [flags]. *)
Definition flag_or (a b : byte) : byte := byte_of (Z.lor (byte_val a) (byte_val b)).

Lemma is_encrypted_odd h : PacketHeader_is_encrypted h = Z.odd (byte_val (flags h)).
Proof.
  unfold PacketHeader_is_encrypted. change (byte_val ENCRYPTED) with (Z.ones 1).
  rewrite Z.land_ones by lia. change (2 ^ 1) with 2. rewrite Zmod_odd.
  by destruct (Z.odd _).
Qed.

Lemma flag_or_odd f : Z.odd (byte_val (flag_or f ENCRYPTED)) = true.
Proof.
  unfold flag_or. rewrite byte_val_of, <- Z.bit0_odd.
  change 256 with (2 ^ 8). rewrite Z.mod_pow2_bits_low by lia.
  rewrite Z.lor_spec. change (byte_val ENCRYPTED) with 1. by rewrite orb_true_r.
Qed.

(** ** Properties *)

(** C36. Headers and 24-byte buffers are in bijection: serialising any header
    its field types allow and parsing it back gives the same header; parsing
    any 24-byte buffer succeeds without panicking, and serialising the result
    gives the buffer back, so no header byte is ignored and none read twice. *)
Theorem header_bijection h bs :
  header_ok h -> zlen bs = CHATIX_HEADER_SIZE ->
  (exists out, PacketHeader_to_bytes h = Ok out /\ zlen out = CHATIX_HEADER_SIZE /\
     PacketHeader_from_bytes out = Ok h) /\
  (exists h', PacketHeader_from_bytes bs = Ok h' /\ header_ok h' /\
     PacketHeader_to_bytes h' = Ok bs).
Proof.
  intros Hok Hl. split.
  - pose proof Hok as [Hm _]. exists (header_layout h).
    split_and!; auto using to_bytes_layout, zlen_header_layout, from_bytes_layout.
  - destruct (from_bytes_ok bs Hl) as (h' & Hp & Hok' & Hlay).
    exists h'. split_and!; [done..|]. rewrite <- Hlay. by apply to_bytes_layout, Hok'.
Qed.

Lemma header_bijection_witness :
  (exists out, PacketHeader_to_bytes (PacketHeader_new x14 x00 8 1) = Ok out /\
     zlen out = CHATIX_HEADER_SIZE /\
     PacketHeader_from_bytes out = Ok (PacketHeader_new x14 x00 8 1)) /\
  (exists h', PacketHeader_from_bytes (repeat xff 24) = Ok h' /\ header_ok h' /\
     PacketHeader_to_bytes h' = Ok (repeat xff 24)).
Proof.
  apply (header_bijection (PacketHeader_new x14 x00 8 1) (repeat xff 24)); by vm_compute.
Defined.

(** C31. [validate] accepts exactly the headers that follow the protocol (magic,
    version, header length, the global payload cap, zero reserved field), and
    a refused header is refused with the error of the first rule, in the
    code's order, that it breaks. *)
Theorem header_validate_spec h :
  (PacketHeader_validate h = Ok tt <-> header_valid h) /\
  (forall e, PacketHeader_validate h = Err e <-> header_error h e) /\
  PacketHeader_validate h <> Panic.
Proof.
  pose proof (validate_wp h) as Hw. split_and!.
  - split; [|apply validate_ok]. intros He. by rewrite He in Hw.
  - intros e. split; [intros He; by rewrite He in Hw|]. intros He.
    destruct (PacketHeader_validate h) as [[]|e'|]; cbn in Hw; [exfalso| |done].
    + destruct Hw as (?&?&?&?&?). destruct e; cbn in He; try contradiction;
        destruct_and?; subst; congruence || lia.
    + f_equal. destruct e, e'; cbn in He, Hw; try contradiction;
        destruct_and?; subst; congruence || lia.
  - eapply wp_no_panic, Hw.
Qed.

