(* ===== verification/PacketType.v ===== *)
(** * [packet_type.rs]: packet types, their size limits and directions *)
From S2P Require Import Prelude RustStd Sizes Errors.

Inductive PacketType :=
| ClientHello
| ServerHello
| ClientFinish
| ServerAccept
| AuthChallenge
| AuthResponse
| AuthAccept
| AuthReject
| Ping
| Pong
| RegisterDevice
| RegisterResponse
| QueryAccountStatus
| AccountStatusResponse
| SendFriendRequest
| FriendRequestResult
| IncomingFriendRequest
| FriendRequestDecision
| RemoveFriend
| RemoveFriendResult
| FriendRemovedNotification
| FriendStatusUpdate
| SendTypingIndicator
| PublishE2eKey
| PublishE2eKeyResult
| FetchE2eKey
| E2eKeyResponse
| SendMessage
| DeliverMessage
| FetchQueuedMessages
| QueuedMessageDelivery
| AckQueuedMessage
| MessageStatusUpdate
| DeliveryReceipt
| Error
| Close.
#[export] Instance PacketType_eq_dec : EqDecision PacketType.
Proof. solve_decision. Defined.

Inductive Direction := ClientToServer | ServerToClient | Bidirectional.
#[export] Instance Direction_eq_dec : EqDecision Direction.
Proof. solve_decision. Defined.

Definition PacketType_from_u8 (value : byte) : outcome ProtocolError PacketType :=
  match value with
  | x01 => Ok ClientHello
  | x02 => Ok ServerHello
  | x03 => Ok ClientFinish
  | x04 => Ok ServerAccept
  | x05 => Ok AuthChallenge
  | x06 => Ok AuthResponse
  | x07 => Ok AuthAccept
  | x08 => Ok AuthReject
  | x14 => Ok Ping
  | x15 => Ok Pong
  | x16 => Ok RegisterDevice
  | x17 => Ok RegisterResponse
  | x18 => Ok QueryAccountStatus
  | x19 => Ok AccountStatusResponse
  | x1a => Ok SendFriendRequest
  | x1b => Ok FriendRequestResult
  | x1c => Ok IncomingFriendRequest
  | x1d => Ok FriendRequestDecision
  | x1e => Ok RemoveFriend
  | x1f => Ok RemoveFriendResult
  | x20 => Ok FriendRemovedNotification
  | x21 => Ok FriendStatusUpdate
  | x22 => Ok SendTypingIndicator
  | x23 => Ok PublishE2eKey
  | x24 => Ok PublishE2eKeyResult
  | x25 => Ok FetchE2eKey
  | x26 => Ok E2eKeyResponse
  | x28 => Ok SendMessage
  | x29 => Ok DeliverMessage
  | x2a => Ok FetchQueuedMessages
  | x2b => Ok QueuedMessageDelivery
  | x2c => Ok AckQueuedMessage
  | x2d => Ok MessageStatusUpdate
  | x2e => Ok DeliveryReceipt
  | xfe => Ok Error
  | xff => Ok Close
  | other => Err (UnknownPacketType other)
  end.

(** [self as u8]: the discriminant the declaration gives each variant. *)
Definition PacketType_discriminant (self : PacketType) : Z :=
  match self with
  | ClientHello => 1
  | ServerHello => 2
  | ClientFinish => 3
  | ServerAccept => 4
  | AuthChallenge => 5
  | AuthResponse => 6
  | AuthAccept => 7
  | AuthReject => 8
  | Ping => 20
  | Pong => 21
  | RegisterDevice => 22
  | RegisterResponse => 23
  | QueryAccountStatus => 24
  | AccountStatusResponse => 25
  | SendFriendRequest => 26
  | FriendRequestResult => 27
  | IncomingFriendRequest => 28
  | FriendRequestDecision => 29
  | RemoveFriend => 30
  | RemoveFriendResult => 31
  | FriendRemovedNotification => 32
  | FriendStatusUpdate => 33
  | SendTypingIndicator => 34
  | PublishE2eKey => 35
  | PublishE2eKeyResult => 36
  | FetchE2eKey => 37
  | E2eKeyResponse => 38
  | SendMessage => 40
  | DeliverMessage => 41
  | FetchQueuedMessages => 42
  | QueuedMessageDelivery => 43
  | AckQueuedMessage => 44
  | MessageStatusUpdate => 45
  | DeliveryReceipt => 46
  | Error => 254
  | Close => 255
  end.

Definition PacketType_as_u8 (self : PacketType) : byte := byte_of (PacketType_discriminant self).

Definition PacketType_max_payload_size (self : PacketType) : Z :=
  match self with
  | ClientHello => 1300
  | ServerHello => as_u32 (32 + ML_KEM_768_CT_SIZE + ML_DSA_65_SIG_SIZE + 80)
  | ClientFinish | ServerAccept => 1
  | AuthChallenge => 32
  | AuthResponse => as_u32 (ML_DSA_65_VK_SIZE + ML_DSA_65_SIG_SIZE + 4 + 4096)
  | AuthAccept | AuthReject => 0
  | Ping | Pong => 8
  | SendMessage | DeliverMessage => 65536
  | RegisterDevice => 130
  | RegisterResponse => 259
  | QueryAccountStatus => 0
  | AccountStatusResponse => 268
  | SendFriendRequest | IncomingFriendRequest => 130
  | FriendRequestResult => 1
  | FriendRequestDecision => 131
  | RemoveFriend | FriendRemovedNotification | SendTypingIndicator => 130
  | RemoveFriendResult => 1
  | FriendStatusUpdate => 139
  | PublishE2eKey => as_u32 (32 + ML_KEM_768_EK_SIZE + ML_DSA_65_VK_SIZE)
  | PublishE2eKeyResult => 259
  | FetchE2eKey => 130
  | E2eKeyResponse => as_u32 (130 + 1 + 32 + ML_KEM_768_EK_SIZE + ML_DSA_65_VK_SIZE)
  | MessageStatusUpdate => 9
  | DeliveryReceipt => 8
  | FetchQueuedMessages => 0
  | QueuedMessageDelivery => 65536
  | AckQueuedMessage => 8
  | Error | Close => 1024
  end.

Definition PacketType_validate_payload_size (self : PacketType) (payload_len : Z)
    : outcome ProtocolError unit :=
  let max := PacketType_max_payload_size self in
  if max <? payload_len then Err (PayloadTooLarge payload_len max) else Ok tt.

Definition PacketType_direction (self : PacketType) : Direction :=
  match self with
  | ClientHello | ClientFinish | AuthResponse | SendMessage | RegisterDevice
  | QueryAccountStatus | SendFriendRequest | FriendRequestDecision | RemoveFriend
  | SendTypingIndicator | FetchQueuedMessages | AckQueuedMessage | DeliveryReceipt
  | PublishE2eKey | FetchE2eKey => ClientToServer

  | ServerHello | ServerAccept | AuthChallenge | AuthAccept | AuthReject
  | DeliverMessage | RegisterResponse | AccountStatusResponse | FriendRequestResult
  | IncomingFriendRequest | RemoveFriendResult | FriendRemovedNotification
  | FriendStatusUpdate | QueuedMessageDelivery | MessageStatusUpdate
  | PublishE2eKeyResult | E2eKeyResponse => ServerToClient

  | Ping | Pong | Close | Error => Bidirectional
  end.

(** ** Helper lemmas *)
Lemma from_as_u8 t : PacketType_from_u8 (PacketType_as_u8 t) = Ok t.
Proof. by destruct t. Qed.

Lemma from_u8_wp b :
  wp (fun t => PacketType_as_u8 t = b) (fun e => e = UnknownPacketType b)
    (PacketType_from_u8 b).
Proof. by destruct b. Qed.

Lemma as_u8_val t : byte_val (PacketType_as_u8 t) = PacketType_discriminant t.
Proof. by destruct t. Qed.

Lemma max_payload_size_range t : 0 <= PacketType_max_payload_size t <= 65536.
Proof. by destruct t. Qed.

(** ** Properties *)

(** The packet type byte determines the packet type and conversely:
    [from_u8] accepts [b] as [t] exactly when [t.as_u8()] is [b]; any other
    byte is refused with [UnknownPacketType] carrying that byte; and every
    declared discriminant fits a byte. *)
Lemma packet_type_bytes b t :
  (PacketType_from_u8 b = Ok t <-> PacketType_as_u8 t = b) /\
  ((forall t', PacketType_as_u8 t' <> b) <-> PacketType_from_u8 b = Err (UnknownPacketType b)) /\
  byte_val (PacketType_as_u8 t) = PacketType_discriminant t.
Proof.
  pose proof (from_u8_wp b) as Hw. split_and!.
  - split; [|intros <-; apply from_as_u8]. intros He. by rewrite He in Hw.
  - split.
    + intros Hn. destruct (PacketType_from_u8 b) as [t'| |]; cbn in Hw;
        [by destruct (Hn t')|by subst|done].
    + intros He t' <-. by rewrite from_as_u8 in He.
  - apply as_u8_val.
Qed.
