(* ===== verification/ConnectionState.v ===== *)
(** * [connection_state.rs]: the role-aware connection state machine

    [ConnectionState_validate_incoming] and [ConnectionState_advance] are the
    code's two methods. [receive] is their documented composition ("call only
    after [validate_incoming] has succeeded"), [run] folds it over the packets
    a connection receives, and [history] is the abstract specification of the
    packet orders the machine is proved to implement. *)
From S2P Require Import Prelude RustStd Errors PacketType.

Inductive Role := Client | Server.
#[export] Instance Role_eq_dec : EqDecision Role.
Proof. solve_decision. Defined.

Inductive ConnectionState :=
| AwaitingClientHello
| AwaitingClientFinish
| AwaitingAuth
| AwaitingServerHello
| AwaitingServerAccept
| AwaitingAuthChallenge
| AwaitingAuthResult
| Established
| Closing.
#[export] Instance ConnectionState_eq_dec : EqDecision ConnectionState.
Proof. solve_decision. Defined.

Definition ConnectionState_initial (role : Role) : ConnectionState :=
  match role with
  | Server => AwaitingClientHello
  | Client => AwaitingServerHello
  end.

Definition ConnectionState_validate_incoming
    (self : ConnectionState) (role : Role) (packet_type : PacketType)
    : outcome ProtocolError unit :=
  let direction_allowed :=
    match role, PacketType_direction packet_type with
    | Client, (ServerToClient | Bidirectional) => true
    | Server, (ClientToServer | Bidirectional) => true
    | _, _ => false
    end in
  if negb direction_allowed then Err InvalidStateTransition
  else
    let allowed :=
      match self with
      | AwaitingClientHello =>
          match packet_type with ClientHello => true | _ => false end
      | AwaitingClientFinish =>
          match packet_type with ClientFinish | Error => true | _ => false end
      | AwaitingAuth =>
          match packet_type with AuthResponse | Error => true | _ => false end
      | AwaitingServerHello =>
          match packet_type with ServerHello | Error => true | _ => false end
      | AwaitingServerAccept =>
          match packet_type with ServerAccept | Error => true | _ => false end
      | AwaitingAuthChallenge =>
          match packet_type with AuthChallenge | Error => true | _ => false end
      | AwaitingAuthResult =>
          match packet_type with AuthAccept | AuthReject | Error => true | _ => false end
      | Established =>
          match packet_type with
          | Ping | Pong | SendMessage | DeliverMessage | MessageStatusUpdate
          | DeliveryReceipt | RegisterDevice | RegisterResponse | QueryAccountStatus
          | AccountStatusResponse | FetchQueuedMessages | QueuedMessageDelivery
          | AckQueuedMessage | SendFriendRequest | FriendRequestResult
          | IncomingFriendRequest | FriendRequestDecision | RemoveFriend
          | RemoveFriendResult | FriendRemovedNotification | FriendStatusUpdate
          | SendTypingIndicator | PublishE2eKey | PublishE2eKeyResult | FetchE2eKey
          | E2eKeyResponse | Close | Error => true
          | _ => false
          end
      | Closing => false
      end in
    if allowed then Ok tt else Err InvalidStateTransition.

Definition ConnectionState_advance
    (self : ConnectionState) (packet_type : PacketType) : ConnectionState :=
  match self, packet_type with
  | AwaitingClientHello, ClientHello => AwaitingClientFinish
  | AwaitingClientFinish, ClientFinish => AwaitingAuth
  | AwaitingAuth, AuthResponse => Established
  | AwaitingServerHello, ServerHello => AwaitingServerAccept
  | AwaitingServerAccept, ServerAccept => AwaitingAuthChallenge
  | AwaitingAuthChallenge, AuthChallenge => AwaitingAuthResult
  | AwaitingAuthResult, AuthAccept => Established
  | AwaitingAuthResult, AuthReject => Closing
  | _, (Close | Error) => Closing
  | state, _ => state
  end.

(** ** The machine a connection runs *)

(** Validate, then advance; a refused packet leaves the state as it is. *)
Definition receive (role : Role) (s : ConnectionState) (t : PacketType)
    : outcome ProtocolError ConnectionState :=
  ConnectionState_validate_incoming s role t;; mret (ConnectionState_advance s t).

Inductive step (role : Role) : ConnectionState -> PacketType -> ConnectionState -> Prop :=
| step_receive s t :
    ConnectionState_validate_incoming s role t = Ok tt ->
    step role s t (ConnectionState_advance s t).

(** The states reached by accepted packets, with the packets in order. *)
Inductive reachable (role : Role) : list PacketType -> ConnectionState -> Prop :=
| reachable_initial : reachable role [] (ConnectionState_initial role)
| reachable_step ts s t s' :
    reachable role ts s -> step role s t s' -> reachable role (ts ++ [t]) s'.

Fixpoint run (role : Role) (s : ConnectionState) (ts : list PacketType)
    : outcome ProtocolError ConnectionState :=
  match ts with
  | [] => mret s
  | t :: ts' => s' ← receive role s t; run role s' ts'
  end.

Lemma receive_step role s t s' : receive role s t = Ok s' <-> step role s t s'.
Proof.
  unfold receive. split.
  - destruct (ConnectionState_validate_incoming s role t) as [[]| |] eqn:Hv; cbn; [|done..].
    intros [= <-]. by constructor.
  - destruct 1 as [s t Hv]. by rewrite Hv.
Qed.

(** The specification: the packets of a role's handshake, in order, then any
    traffic that role may receive. *)
Definition handshake (role : Role) : list PacketType :=
  match role with
  | Server => [ClientHello; ClientFinish; AuthResponse]
  | Client => [ServerHello; ServerAccept; AuthChallenge; AuthAccept]
  end.

(** The state after the first [n] packets of the handshake. *)
Definition phase (role : Role) (n : nat) : ConnectionState :=
  match role, n with
  | Server, 0%nat => AwaitingClientHello
  | Server, 1%nat => AwaitingClientFinish
  | Server, 2%nat => AwaitingAuth
  | Client, 0%nat => AwaitingServerHello
  | Client, 1%nat => AwaitingServerAccept
  | Client, 2%nat => AwaitingAuthChallenge
  | Client, 3%nat => AwaitingAuthResult
  | _, _ => Established
  end.

Definition terminating (t : PacketType) : bool :=
  match t with Close | Error => true | _ => false end.

Definition receivable (role : Role) (t : PacketType) : bool :=
  match role, PacketType_direction t with
  | Client, (ServerToClient | Bidirectional) => true
  | Server, (ClientToServer | Bidirectional) => true
  | _, _ => false
  end.

(** A packet that belongs to the handshake (of either role). *)
Definition handshake_packet (t : PacketType) : bool :=
  match t with
  | ClientHello | ServerHello | ClientFinish | ServerAccept
  | AuthChallenge | AuthResponse | AuthAccept | AuthReject => true
  | _ => false
  end.

Definition application_packet (role : Role) (t : PacketType) : bool :=
  receivable role t && negb (handshake_packet t).

(** The packets that end a connection, by the state they are accepted in. *)
Definition closes (s : ConnectionState) (t : PacketType) : Prop :=
  match t with
  | Error => s <> AwaitingClientHello /\ s <> Closing
  | Close => s = Established
  | AuthReject => s = AwaitingAuthResult
  | _ => False
  end.

(** What a history of accepted packets can look like in each state. *)
Inductive history (role : Role) : list PacketType -> ConnectionState -> Prop :=
| history_handshake n :
    (n < length (handshake role))%nat ->
    history role (take n (handshake role)) (phase role n)
| history_established app :
    Forall (fun t => application_packet role t = true /\ terminating t = false) app ->
    history role (handshake role ++ app) Established
| history_closing ts t s :
    history role ts s -> closes s t -> history role (ts ++ [t]) Closing.

(** *** Exhaustive facts about one step *)

(** What one step can be, from each state of the handshake, from
    [Established] and from [Closing]. *)
Lemma step_phase role n t s' :
  (n < length (handshake role))%nat ->
  step role (phase role n) t s' ->
  (handshake role !! n = Some t /\ s' = phase role (S n)) \/
  (closes (phase role n) t /\ s' = Closing).
Proof.
  intros Hn Hs. inversion Hs as [s t' Hv]; subst; clear Hs.
  destruct role; cbn in Hn;
    repeat (destruct n as [|n]; [destruct t; cbn in *; solve [discriminate | by left | by right]|]); lia.
Qed.

Lemma step_established role t s' :
  step role Established t s' ->
  application_packet role t = true /\
  (terminating t = false /\ s' = Established \/ closes Established t /\ s' = Closing).
Proof.
  intros Hs. inversion Hs as [s t' Hv]; subst; clear Hs.
  destruct role, t; cbn in *; solve [discriminate | auto | split; [done|by right]].
Qed.

Lemma step_closing role t s' : ~ step role Closing t s'.
Proof.
  intros Hs. inversion Hs as [s t' Hv]; subst; clear Hs. by destruct role, t.
Qed.

Lemma established_accepts role t :
  application_packet role t = true ->
  step role Established t (if terminating t then Closing else Established).
Proof.
  intros Ht. cut (step role Established t (ConnectionState_advance Established t)).
  - by destruct role, t.
  - constructor. by destruct role, t.
Qed.

Lemma phase_not_final role n :
  (n < length (handshake role))%nat -> phase role n <> Established /\ phase role n <> Closing.
Proof. destruct role; do 4 (destruct n as [|n]; [done || (cbn; lia)|]); cbn; lia. Qed.

Lemma phase_full role : phase role (length (handshake role)) = Established.
Proof. by destruct role. Qed.

Lemma phase_zero role : phase role 0 = ConnectionState_initial role.
Proof. by destruct role. Qed.

Lemma handshake_step role n t :
  handshake role !! n = Some t -> step role (phase role n) t (phase role (S n)).
Proof.
  intros Hn. cut (step role (phase role n) t (ConnectionState_advance (phase role n) t)).
  - by destruct role; do 5 (destruct n as [|n]; [by simplify_eq/=|]).
  - constructor. by destruct role; do 5 (destruct n as [|n]; [by simplify_eq/=|]).
Qed.

(** *** Every reachable state has a history of the specified form *)
Lemma reachable_history role ts s : reachable role ts s -> history role ts s.
Proof.
  induction 1 as [|ts s t s' Hr IH Hs].
  - rewrite <- phase_zero. apply (history_handshake role 0). destruct role; cbn; lia.
  - inversion IH as [n Hn|app Happ|ts' t' s0 Hh Hne Ht]; subst.
    + destruct (step_phase role n t s' Hn Hs) as [[Hl ->]|[Hc ->]].
      * rewrite <- take_S_r by done.
        destruct (decide (S n < length (handshake role))%nat); [by constructor|].
        assert (S n = length (handshake role)) as -> by lia.
        rewrite phase_full, take_ge, <- (app_nil_r (handshake role)) by lia.
        by constructor.
      * eapply history_closing; [by constructor|done].
    + apply step_established in Hs as [Ha [[Ht ->]|[Hc ->]]].
      * rewrite <- app_assoc. constructor. apply Forall_app. auto.
      * eapply history_closing; [by constructor|done].
    + by apply step_closing in Hs.
Qed.

Lemma reachable_handshake role n :
  (n <= length (handshake role))%nat -> reachable role (take n (handshake role)) (phase role n).
Proof.
  induction n as [|n IH]; intros Hn; [rewrite phase_zero; constructor|].
  destruct (lookup_lt_is_Some_2 (handshake role) n) as [t Ht]; [lia|].
  rewrite (take_S_r _ _ t) by done. eapply reachable_step; [apply IH; lia|].
  by apply handshake_step.
Qed.

Ltac not_closes H := exfalso; cbn [closes phase] in H; first [contradiction | congruence | destruct H; congruence].

Lemma closes_step role ts s t :
  reachable role ts s -> closes s t -> step role s t Closing.
Proof.
  intros Hr Hc. cut (step role s t (ConnectionState_advance s t)).
  - by destruct s, t.
  - constructor. apply reachable_history in Hr. destruct Hr as [n Hn|app Happ|ts' t' s' Hh Hc'].
    + destruct role; cbn in Hn;
        do 4 (destruct n as [|n]; [lia || (destruct t; solve [reflexivity | not_closes Hc])|]); lia.
    + destruct role, t; solve [reflexivity | not_closes Hc].
    + destruct t; not_closes Hc.
Qed.

Lemma established_run role ts :
  reachable role ts Established ->
  exists app, ts = handshake role ++ app /\
    Forall (fun t => application_packet role t = true /\ terminating t = false) app.
Proof.
  intros Hh%reachable_history. inversion Hh as [n Hn Heq Hs|app Happ|]; subst; [|eauto].
  apply (phase_not_final role) in Hn as []. congruence.
Qed.

Lemma reachable_established role app :
  Forall (fun t => application_packet role t = true /\ terminating t = false) app ->
  reachable role (handshake role ++ app) Established.
Proof.
  induction app as [|t app IH] using rev_ind; intros Happ.
  - rewrite app_nil_r, <- (phase_full role).
    rewrite <- (take_ge (handshake role) (length (handshake role))) at 1 by done.
    by apply reachable_handshake.
  - apply Forall_app in Happ as [Happ [[Ht Hn] _]%Forall_cons].
    rewrite app_assoc. eapply reachable_step; [by apply IH|].
    apply established_accepts in Ht. by rewrite Hn in Ht.
Qed.

Lemma run_snoc role s ts t :
  run role s (ts ++ [t]) = s' ← run role s ts; receive role s' t.
Proof.
  revert s. induction ts as [|t' ts IH]; intros s; cbn.
  - destruct (receive role s t) as [s'| |]; done.
  - destruct (receive role s t') as [s'| |]; cbn; done.
Qed.

Lemma run_reachable role ts s :
  run role (ConnectionState_initial role) ts = Ok s <-> reachable role ts s.
Proof.
  split.
  - revert s. induction ts as [|t ts IH] using rev_ind; intros s.
    + intros [= <-]. constructor.
    + rewrite run_snoc. destruct (run _ _ ts) as [s'| |] eqn:Hr; cbn; [|done..].
      intros Hs%receive_step. econstructor; eauto.
  - induction 1 as [|ts s t s' Hr IH Hs]; [done|].
    rewrite run_snoc, IH. cbn. by apply receive_step.
Qed.

Lemma receive_wp role s t :
  wp (fun s' => step role s t s') (fun e => e = InvalidStateTransition) (receive role s t).
Proof.
  destruct (receive role s t) as [s'|e|] eqn:Hr; cbn.
  - by apply receive_step.
  - unfold receive, ConnectionState_validate_incoming in Hr.
    destruct (negb _) in Hr; [by simplify_eq/=|].
    by destruct (match s with AwaitingClientHello => _ | _ => _ end) in Hr; simplify_eq/=.
  - unfold receive, ConnectionState_validate_incoming in Hr.
    destruct (negb _) in Hr; [by simplify_eq/=|].
    by destruct (match s with AwaitingClientHello => _ | _ => _ end) in Hr; simplify_eq/=.
Qed.

Lemma history_reachable role ts s : history role ts s -> reachable role ts s.
Proof.
  induction 1 as [n Hn|app Happ|ts t s Hh IH Hc].
  - apply reachable_handshake. lia.
  - by apply reachable_established.
  - eapply reachable_step; [done|]. by eapply closes_step.
Qed.

Lemma reachable_phase role ts s :
  reachable role ts s ->
  s = Established \/ s = Closing \/
  exists n, (n < length (handshake role))%nat /\ s = phase role n /\ ts = take n (handshake role).
Proof. intros Hh%reachable_history. destruct Hh; eauto 10. Qed.

(** Only an established connection accepts application packets. *)
Lemma application_established role ts s t s' :
  run role (ConnectionState_initial role) ts = Ok s ->
  receive role s t = Ok s' ->
  handshake_packet t = false -> t <> Error ->
  s = Established /\ exists app, ts = handshake role ++ app.
Proof.
  intros Hr%run_reachable Hs%receive_step Ht Hne.
  cut (s = Established).
  { intros ->. split; [done|]. apply established_run in Hr as (app & -> & _). by exists app. }
  apply reachable_phase in Hr as [->|[->|(n & Hn & -> & _)]]; [done|by apply step_closing in Hs|].
  apply step_phase in Hs as [[Hl _]|[Hc _]]; [| |done].
  - exfalso. destruct role; do 4 (destruct n as [|n]; [by simplify_eq/=|]); by simplify_eq/=.
  - exfalso. apply phase_not_final in Hn as [Hn _]. by destruct t.
Qed.

(** ** Properties *)

(** C12. The state machine implements exactly the specified histories: running
    [validate_incoming] then [advance] over a sequence of packets from the
    initial state ends in state [s] without a rejection if and only if the
    sequence is a prefix of the role's handshake, the full handshake followed
    by traffic that role may receive, or one of these closed by the one packet
    that may close it there. *)
Theorem run_iff_history role ts s :
  run role (ConnectionState_initial role) ts = Ok s <-> history role ts s.
Proof.
  rewrite run_reachable. split; [apply reachable_history|apply history_reachable].
Qed.

(** C13. No application packet is accepted before identity is proven: when a
    connection that has accepted [ts] accepts an application packet (other
    than a terminating [Error]), it is [Established] and [ts] starts with the
    role's complete handshake, ending in [AuthResponse] on the server and in
    [AuthAccept] on the client. *)
Theorem no_traffic_before_authentication role ts s t s' :
  run role (ConnectionState_initial role) ts = Ok s ->
  receive role s t = Ok s' ->
  handshake_packet t = false -> t <> Error ->
  s = Established /\ exists app, ts = handshake role ++ app.
Proof. apply application_established. Qed.

Lemma no_traffic_before_authentication_witness :
  run Server (ConnectionState_initial Server)
    [ClientHello; ClientFinish; AuthResponse; Ping] = Ok Established /\
  exists app, [ClientHello; ClientFinish; AuthResponse; Ping] = handshake Server ++ app.
Proof.
  split; [reflexivity|].
  refine (proj2 (no_traffic_before_authentication Server
    [ClientHello; ClientFinish; AuthResponse; Ping] Established SendMessage Established
    eq_refl eq_refl eq_refl _)). discriminate.
Defined.

(** Every connection can be ended: from any state a connection can be in
    there are at most two further packets that bring it to [Closing], and only
    a server that has not yet received its first packet needs two. *)
Lemma can_always_close role ts s :
  run role (ConnectionState_initial role) ts = Ok s -> s <> Closing ->
  exists ts', run role (ConnectionState_initial role) (ts ++ ts') = Ok Closing /\
    (length ts' <= 2)%nat /\ (s <> AwaitingClientHello -> ts' = [Error]).
Proof.
  intros Hr%run_reachable Hc. destruct (decide (s = AwaitingClientHello)) as [->|Hne].
  - exists [ClientHello; Error]. split_and!; [|cbn; lia|congruence]. apply run_reachable.
    change [ClientHello; Error] with ([ClientHello] ++ [Error]). rewrite app_assoc.
    assert (role = Server) as ->.
    { apply reachable_phase in Hr as [?|[?|(n & Hn & Hp & _)]]; [done..|].
      destruct role; [|done]. by do 4 (destruct n as [|n]; [done|]). }
    eapply reachable_step; [eapply reachable_step; [done|by constructor]|by constructor].
  - exists [Error]. split_and!; [|cbn; lia|done]. apply run_reachable.
    eapply reachable_step; [done|]. by eapply closes_step.
Qed.

Lemma can_always_close_witness :
  exists ts', run Client AwaitingServerHello ([ServerHello] ++ ts') = Ok Closing /\
    (length ts' <= 2)%nat /\ (AwaitingServerAccept <> AwaitingClientHello -> ts' = [Error]).
Proof.
  exact (can_always_close Client [ServerHello] AwaitingServerAccept eq_refl
    ltac:(discriminate)).
Defined.

(** C40. Accepting and refusing packets is total: in every state and for every
    packet type the machine either moves by one step or fails with
    [InvalidStateTransition]; [Close] is refused in every handshake state and
    [Error] in the server's first one. *)
Theorem receive_total role s t :
  wp (fun s' => s' = ConnectionState_advance s t /\ receivable role t = true)
     (fun e => e = InvalidStateTransition) (receive role s t) /\
  (s <> Established -> receive role s Close = Err InvalidStateTransition) /\
  receive Server AwaitingClientHello Error = Err InvalidStateTransition.
Proof.
  split_and!; [|by destruct s, role|done].
  eapply wp_mono; [apply receive_wp|intros s' Hs|done]. inversion Hs as [? ? V]; subst.
  split; [done|]. unfold ConnectionState_validate_incoming in V. unfold receivable.
  by destruct role, (PacketType_direction t).
Qed.
