(* ===== verification/Duplex.v ===== *)
(** * Two connections facing each other

    A client's and a server's state machine ([ConnectionState]) joined by two
    first-in first-out channels. An endpoint receives with [receive] and sends
    what the documented handshake makes it owe, application traffic once it is
    established, and at any time the one packet that ends the connection. The
    two machines are proved to be dual: no endpoint ever refuses what the other
    sends, no interleaving deadlocks, and the handshake ends. *)
From stdpp Require Import functions relations.
From S2P Require Import Prelude RustStd Errors PacketType ConnectionState.

Definition peer (role : Role) : Role :=
  match role with Client => Server | Server => Client end.

(** What a role sends unprompted, and the packets it may answer an accepted one
    with (the handshake of the crate's documentation: ClientHello,
    ServerHello, ClientFinish, ServerAccept, AuthChallenge, AuthResponse, and
    AuthAccept or AuthReject). *)
Definition opening (role : Role) : list PacketType :=
  match role with Client => [ClientHello] | Server => [] end.
Definition replies (t : PacketType) : list (list PacketType) :=
  match t with
  | ClientHello => [[ServerHello]]
  | ServerHello => [[ClientFinish]]
  | ClientFinish => [[ServerAccept; AuthChallenge]]
  | AuthChallenge => [[AuthResponse]]
  | AuthResponse => [[AuthAccept]; [AuthReject]]
  | _ => [[]]
  end.

(** After one of these its sender sends nothing more. *)
Definition ending (t : PacketType) : bool :=
  match t with Close | Error | AuthReject => true | _ => false end.

Record endpoint := mk_endpoint {
  conn : ConnectionState;
  owed : list PacketType;     (* handshake packets still to send, in order *)
  finished : bool             (* has sent the packet that ends the connection *)
}.

Inductive sends (role : Role) : endpoint -> PacketType -> endpoint -> Prop :=
| sends_owed s t ts :
    s <> Closing -> sends role (mk_endpoint s (t :: ts) false) t (mk_endpoint s ts (ending t))
| sends_application t :
    application_packet (peer role) t = true -> terminating t = false ->
    sends role (mk_endpoint Established [] false) t (mk_endpoint Established [] false)
| sends_close :
    sends role (mk_endpoint Established [] false) Close (mk_endpoint Established [] true)
| sends_error s ts :
    s <> Closing -> ClientHello ∉ ts ->
    sends role (mk_endpoint s ts false) Error (mk_endpoint s ts true).

Inductive receives (role : Role) : endpoint -> PacketType -> endpoint -> Prop :=
| receives_accepted s ts f t s' rs :
    receive role s t = Ok s' -> rs ∈ replies t ->
    receives role (mk_endpoint s ts f) t (mk_endpoint s' (ts ++ rs) f).

(** Both endpoints, and the packets on their way to each. *)
Record config := mk_config {
  ends : Role -> endpoint;
  inbox : Role -> list PacketType
}.

Definition config_initial : config :=
  mk_config (fun role => mk_endpoint (ConnectionState_initial role) (opening role) false)
    (fun _ => []).

Definition deliver (role : Role) (c : config) (e : endpoint) (ts : list PacketType) : config :=
  mk_config (<[role := e]> (ends c)) (<[role := ts]> (inbox c)).
Definition dispatch (role : Role) (c : config) (e : endpoint) (t : PacketType) : config :=
  mk_config (<[role := e]> (ends c)) (<[peer role := inbox c (peer role) ++ [t]]> (inbox c)).

Inductive config_step : config -> config -> Prop :=
| step_send role c t e :
    sends role (ends c role) t e -> config_step c (dispatch role c e t)
| step_deliver role c t ts e :
    inbox c role = t :: ts -> receives role (ends c role) t e ->
    config_step c (deliver role c e ts).

(** The steps of the handshake itself: what is owed is sent, what is on its way
    is received. *)
Inductive handshake_move : config -> config -> Prop :=
| move_send role c t ts e :
    owed (ends c role) = t :: ts -> sends role (ends c role) t e -> owed e = ts ->
    handshake_move c (dispatch role c e t)
| move_deliver role c t ts e :
    inbox c role = t :: ts -> receives role (ends c role) t e ->
    handshake_move c (deliver role c e ts).

Definition config_reachable : config -> Prop := rtc config_step config_initial.

(** ** The invariant *)

(** The handshake packets a role has sent or owes, by its state. *)
Definition due (role : Role) (s : ConnectionState) : list (list PacketType) :=
  match role, s with
  | Client, AwaitingServerHello => [take 1 (handshake Server)]
  | Client, (AwaitingServerAccept | AwaitingAuthChallenge) => [take 2 (handshake Server)]
  | Client, (AwaitingAuthResult | Established) => [handshake Server]
  | Server, AwaitingClientHello => [[]]
  | Server, AwaitingClientFinish => [take 1 (handshake Client)]
  | Server, AwaitingAuth => [take 3 (handshake Client)]
  | Server, Established => [handshake Client; take 3 (handshake Client) ++ [AuthReject]]
  | _, _ => []
  end.

(** [v] is the state the peer of [role] will be in once everything [role] has
    sent has reached it. *)
Definition in_step (role : Role) (e : endpoint) (v : ConnectionState) : Prop :=
  if finished e then v = Closing
  else exists n, v = phase (peer role) n /\
    (conn e <> Closing -> take n (handshake (peer role)) ++ owed e ∈ due role (conn e)).

Definition config_inv (c : config) : Prop :=
  forall role, exists v,
    run (peer role) (conn (ends c (peer role))) (inbox c (peer role)) = Ok v /\
    in_step role (ends c role) v.

Lemma peer_peer role : peer (peer role) = role.
Proof. by destruct role. Qed.
Lemma peer_ne role : peer role <> role.
Proof. by destruct role. Qed.
Lemma role_cases (P : Role -> Prop) role : P role -> P (peer role) -> forall r, P r.
Proof. destruct role; cbn; intros ? ? []; done. Qed.

Lemma config_inv_initial : config_inv config_initial.
Proof.
  intros role. exists (phase (peer role) 0). split; [by destruct role|].
  exists 0%nat. split; [done|]. intros _. destruct role; cbn; set_solver.
Qed.

Lemma phase_not_closing role n : phase role n <> Closing.
Proof. destruct role; do 4 (destruct n as [|n]; [done|]); done. Qed.

(** Membership in a list that is given by its elements. *)
Ltac due_cases :=
  repeat match goal with
  | H : _ ∈ _ |- _ => apply list_elem_of_In in H; cbn in H
  | |- _ ∈ _ => apply list_elem_of_In; cbn
  end;
  repeat match goal with H : _ \/ _ |- _ => destruct H end;
  simplify_eq/=; try contradiction; auto 10.

(** Owed packets continue the handshake of the peer, or reject it. *)
Lemma due_cons role s n t ts :
  take n (handshake (peer role)) ++ t :: ts ∈ due role s ->
  (handshake (peer role) !! n = Some t /\ ending t = false) \/
  (receive (peer role) (phase (peer role) n) t = Ok Closing /\ ending t = true).
Proof. destruct role, s, n as [|[|[|[|[|n]]]]]; intros Hd; by due_cases. Qed.

Lemma due_receive role s t s' d rs :
  receive role s t = Ok s' -> s' <> Closing -> d ∈ due role s -> rs ∈ replies t ->
  d ++ rs ∈ due role s'.
Proof.
  intros Hr Hc Hd Hrs. destruct role, s; try (exfalso; by due_cases);
    destruct t; cbn in Hr; try discriminate; injection Hr as <-; try done; by due_cases.
Qed.

Lemma established_due role n :
  take n (handshake (peer role)) ++ [] ∈ due role Established ->
  phase (peer role) n = Established.
Proof. destruct role, n as [|[|[|[|[|n]]]]]; intros Hd; by due_cases. Qed.

Lemma error_received role s n ts :
  take n (handshake (peer role)) ++ ts ∈ due role s -> ClientHello ∉ ts ->
  receive (peer role) (phase (peer role) n) Error = Ok Closing.
Proof.
  intros Hd Hh. destruct role; cbn [peer] in *.
  - destruct n as [|n]; [|by do 3 (try (destruct n as [|n]))].
    destruct Hh, s; by due_cases.
  - by do 4 (try (destruct n as [|n])).
Qed.

Lemma sends_in_step role e t e' v :
  sends role e t e' -> in_step role e v ->
  conn e' = conn e /\ exists v', receive (peer role) v t = Ok v' /\ in_step role e' v'.
Proof.
  intros Hs. destruct Hs as [s t ts Hs|t Ha Ht| |s ts Hs Hh];
    intros (n & -> & Hd); (split; [done|]); cbn in Hd; specialize (Hd ltac:(done)).
  - destruct (due_cons _ _ _ _ _ Hd) as [[Hn He]|[Hr He]].
    + exists (phase (peer role) (S n)). split; [by apply receive_step, handshake_step|].
      unfold in_step. cbn. rewrite He. exists (S n). split; [done|]. intros _.
      by rewrite (take_S_r _ _ t), <- app_assoc by done.
    + exists Closing. split; [done|]. unfold in_step. cbn. by rewrite He.
  - rewrite (established_due _ _ Hd). exists Established. split.
    + apply receive_step. pose proof (established_accepts _ _ Ha) as Hr. by rewrite Ht in Hr.
    + exists n. split; [symmetry; by apply established_due|done].
  - rewrite (established_due _ _ Hd). exists Closing. by destruct role.
  - exists Closing. split; [by eapply error_received|done].
Qed.

Lemma receives_in_step role e t e' v :
  receives role e t e' -> in_step role e v -> in_step role e' v.
Proof.
  intros Hr. destruct Hr as [s ts f t s' rs Hr Hrs]. unfold in_step. cbn.
  destruct f; [done|]. intros (n & -> & Hd). exists n. split; [done|]. intros Hc.
  rewrite app_assoc. eapply due_receive; [done|done| |done]. apply Hd.
  intros ->. by destruct role, t.
Qed.

Lemma config_step_inv c c' : config_step c c' -> config_inv c -> config_inv c'.
Proof.
  intros Hs Hi. destruct Hs as [role c t e Hs|role c t ts e Hin Hr];
    refine (role_cases _ role _ _); cbn [dispatch deliver ends inbox];
    rewrite ?peer_peer, ?fn_lookup_insert, ?fn_lookup_insert_ne by (pose proof (peer_ne role); congruence).
  - destruct (Hi role) as (v & Hrun & Hv).
    destruct (sends_in_step _ _ _ _ _ Hs Hv) as (_ & v' & Hr & Hv').
    exists v'. split; [|done]. by rewrite run_snoc, Hrun.
  - destruct (Hi (peer role)) as (v & Hrun & Hv). rewrite peer_peer in Hrun.
    exists v. split; [|done]. destruct (Hi role) as (v0 & _ & Hv0).
    by destruct (sends_in_step _ _ _ _ _ Hs Hv0) as [-> _].
  - destruct (Hi role) as (v & Hrun & Hv). exists v. split; [done|].
    by eapply receives_in_step.
  - destruct (Hi (peer role)) as (v & Hrun & Hv). rewrite peer_peer, Hin in Hrun.
    exists v. split; [|done]. destruct Hr as [s tl f t s' rs Hr _]. cbn in *.
    by rewrite Hr in Hrun.
Qed.

Lemma config_reachable_inv c : config_reachable c -> config_inv c.
Proof.
  intros Hr. pose proof config_inv_initial as Hi. revert Hi.
  induction Hr as [c|c c' c'' Hs _ IH]; [done|]. intros Hi. apply IH. by eapply config_step_inv.
Qed.

(** What is on its way is accepted. *)
Lemma inbox_accepted c role t ts :
  config_inv c -> inbox c role = t :: ts ->
  exists s', receive role (conn (ends c role)) t = Ok s'.
Proof.
  intros Hi Hin. destruct (Hi (peer role)) as (v & Hrun & _). rewrite peer_peer, Hin in Hrun.
  cbn in Hrun. destruct (receive role _ t) as [s'| |]; [eauto|done..].
Qed.

(** ** Quiescence and the measure *)

(** Nothing is on its way and nothing owed can be sent. *)
Definition quiet (c : config) : Prop :=
  forall role, inbox c role = [] /\
    (finished (ends c role) = false -> conn (ends c role) <> Closing -> owed (ends c role) = []).

Lemma inbox_moves c role t ts :
  config_inv c -> inbox c role = t :: ts -> exists c', handshake_move c c'.
Proof.
  intros Hi Hin. destruct (inbox_accepted _ _ _ _ Hi Hin) as (s' & Hr).
  assert (exists rs, rs ∈ replies t) as (rs & Hrs) by (destruct t; eexists; apply list_elem_of_here).
  destruct (ends c role) as [s o f] eqn:He.
  exists (deliver role c (mk_endpoint s' (o ++ rs) f) ts).
  apply move_deliver with t; [done|]. rewrite He. by constructor.
Qed.

Lemma owed_moves c role t ts :
  finished (ends c role) = false -> conn (ends c role) <> Closing ->
  owed (ends c role) = t :: ts -> exists c', handshake_move c c'.
Proof.
  destruct (ends c role) as [s o f] eqn:He. cbn. intros -> Hc ->.
  exists (dispatch role c (mk_endpoint s ts (ending t)) t).
  apply move_send with ts; rewrite ?He; [done| |done]. by constructor.
Qed.

Lemma moves_or_quiet c : config_inv c -> (exists c', handshake_move c c') \/ quiet c.
Proof.
  intros Hi.
  assert (forall role, (exists c', handshake_move c c') \/ inbox c role = [] /\
    (finished (ends c role) = false -> conn (ends c role) <> Closing -> owed (ends c role) = []))
    as Hr.
  { intros role. destruct (inbox c role) as [|t ts] eqn:Hin; [|left; by eapply inbox_moves].
    destruct (owed (ends c role)) as [|t ts] eqn:Ho; [by right|].
    destruct (finished (ends c role)) eqn:Hf; [by right|].
    destruct (decide (conn (ends c role) = Closing)); [by right|].
    left. by eapply owed_moves. }
  destruct (Hr Client) as [|Hc]; [by left|]. destruct (Hr Server) as [|Hs]; [by left|].
  right. by intros [].
Qed.

(** Twice the packets a role still has to send, were its peer to continue. *)
Definition weight (role : Role) (s : ConnectionState) : nat :=
  match role, s with
  | Server, AwaitingClientHello => 8
  | Server, AwaitingClientFinish => 6
  | Server, AwaitingAuth => 2
  | Client, AwaitingServerHello => 4
  | Client, (AwaitingServerAccept | AwaitingAuthChallenge) => 2
  | _, _ => 0
  end.
Definition energy (role : Role) (c : config) : nat :=
  weight role (conn (ends c role)) + 2 * length (owed (ends c role)) + length (inbox c role).
Definition config_energy (c : config) : nat := energy Client c + energy Server c.

Lemma config_energy_role role c : config_energy c = (energy role c + energy (peer role) c)%nat.
Proof. unfold config_energy. destruct role; cbn; lia. Qed.

Lemma receive_weight role s t s' rs :
  receive role s t = Ok s' -> rs ∈ replies t ->
  (weight role s' + 2 * length rs <= weight role s)%nat.
Proof.
  intros Hr Hrs. destruct role, s, t; cbn in Hr; try discriminate; injection Hr as <-;
    apply list_elem_of_In in Hrs; cbn in Hrs; destruct_or?; subst; cbn; lia || done.
Qed.

Lemma handshake_move_energy c c' : handshake_move c c' -> (config_energy c' < config_energy c)%nat.
Proof.
  intros Hm. destruct Hm as [role c t ts e Ho Hs He|role c t ts e Hin Hr];
    rewrite !(config_energy_role role); unfold energy; cbn [dispatch deliver ends inbox];
    rewrite ?fn_lookup_insert, ?fn_lookup_insert_ne by (pose proof (peer_ne role); congruence).
  - assert (conn e = conn (ends c role)) as -> by (by destruct Hs).
    rewrite Ho, He, length_app. cbn. lia.
  - destruct Hr as [s o f t s' rs Hr Hrs]. rewrite Hin. cbn [conn owed].
    pose proof (receive_weight _ _ _ _ _ Hr Hrs). rewrite length_app. cbn. lia.
Qed.

Lemma move_step c c' : handshake_move c c' -> config_step c c'.
Proof. destruct 1; econstructor; eauto. Qed.

(** The two states a quiescent pair of unfinished endpoints can be in. *)
Lemma due_dual m n :
  take n (handshake Server) ∈ due Client (phase Client m) ->
  take m (handshake Client) ∈ due Server (phase Server n) ->
  phase Client m = Established /\ phase Server n = Established.
Proof. destruct m as [|[|[|[|[|m]]]]], n as [|[|[|[|n]]]]; intros H1 H2; by due_cases. Qed.

Lemma config_quiet c :
  config_inv c -> quiet c ->
  (forall role, inbox c role = []) /\
  ((forall role, conn (ends c role) = Established /\ owed (ends c role) = [] /\
      finished (ends c role) = false) \/
   exists role, finished (ends c role) = true /\ conn (ends c (peer role)) = Closing).
Proof.
  intros Hi Hq. assert (forall role, inbox c role = []) as Hin by apply Hq.
  split; [done|].
  assert (forall role, in_step role (ends c role) (conn (ends c (peer role)))) as Hv.
  { intros role. destruct (Hi role) as (v & Hrun & Hv). rewrite Hin in Hrun. by injection Hrun as <-. }
  destruct (finished (ends c Client)) eqn:Fc.
  { right. exists Client. specialize (Hv Client). unfold in_step in Hv. by rewrite Fc in Hv. }
  destruct (finished (ends c Server)) eqn:Fs.
  { right. exists Server. specialize (Hv Server). unfold in_step in Hv. by rewrite Fs in Hv. }
  left. pose proof (Hv Client) as H1. pose proof (Hv Server) as H2. unfold in_step in H1, H2.
  rewrite Fc in H1. rewrite Fs in H2. cbn [peer] in H1, H2.
  destruct H1 as (n & En & H1), H2 as (m & Em & H2).
  assert (conn (ends c Client) <> Closing) as Nc by (rewrite Em; apply phase_not_closing).
  assert (conn (ends c Server) <> Closing) as Ns by (rewrite En; apply phase_not_closing).
  pose proof (proj2 (Hq Client) Fc Nc) as Oc. pose proof (proj2 (Hq Server) Fs Ns) as Os.
  specialize (H1 Nc). specialize (H2 Ns). rewrite Oc, app_nil_r, Em in H1. rewrite Os, app_nil_r, En in H2.
  destruct (due_dual _ _ H1 H2). intros []; split_and!; congruence.
Qed.

Lemma moves_energy n c :
  nsteps handshake_move n config_initial c ->
  config_inv c /\ (config_energy c + n <= config_energy config_initial)%nat.
Proof.
  pose proof config_inv_initial as Hi. revert Hi. generalize config_initial. intros c0 Hi Hn.
  induction Hn as [c0|n c0 c1 c Hm Hn IH]; [split; [done|lia]|].
  destruct IH as [Hc He]; [by eapply config_step_inv, Hi; apply move_step|].
  pose proof (handshake_move_energy _ _ Hm). split; [done|lia].
Qed.

(** In the handshake only the server can end the connection. *)
Definition client_continues (c : config) : Prop :=
  finished (ends c Client) = false /\ Forall (fun t => ending t = false) (owed (ends c Client)).

Lemma client_replies s t s' rs :
  receive Client s t = Ok s' -> rs ∈ replies t -> Forall (fun t => ending t = false) rs.
Proof.
  intros Hr Hrs. destruct s, t; cbn in Hr; try discriminate;
    apply list_elem_of_In in Hrs; cbn in Hrs; destruct_or?; subst; repeat constructor; done.
Qed.

Lemma client_continues_move c c' : handshake_move c c' -> client_continues c -> client_continues c'.
Proof.
  unfold client_continues. intros Hm [Hf Ho].
  destruct Hm as [[] c t ts e He Hs Hts|[] c t ts e Hin Hr]; cbn [dispatch deliver ends];
    rewrite ?fn_lookup_insert, ?fn_lookup_insert_ne by done; try done.
  - rewrite He in Ho. apply Forall_cons in Ho as [Ht Ho]. rewrite Hts. split; [|done].
    destruct Hs; cbn in *; done.
  - destruct Hr as [s o f t s' rs Hr Hrs]. cbn in *. split; [done|].
    apply Forall_app. split; [done|]. by eapply client_replies.
Qed.

Lemma client_continues_moves n c :
  nsteps handshake_move n config_initial c -> client_continues c.
Proof.
  assert (client_continues config_initial) as Hi by (split; [done|by repeat constructor]).
  revert Hi. generalize config_initial. intros c0 Hi Hn.
  induction Hn as [c0|n c0 c1 c Hm Hn IH]; [done|]. apply IH. by eapply client_continues_move.
Qed.

(** ** Properties *)

(** C14. The two machines are dual: however sending and receiving, application
    traffic and closing are interleaved between a client and a server that
    follow the documented order, every packet an endpoint finds in its channel
    is one its state machine accepts. In particular nothing is ever refused as
    out of order, and a connection that is [Closing] finds its channel empty. *)
Theorem duplex_no_refusal c role t ts :
  config_reachable c -> inbox c role = t :: ts ->
  conn (ends c role) <> Closing /\
  receive role (conn (ends c role)) t
  = Ok (ConnectionState_advance (conn (ends c role)) t).
Proof.
  intros Hc%config_reachable_inv Hin. destruct (inbox_accepted _ _ _ _ Hc Hin) as (s' & Hr).
  pose proof Hr as Hs%receive_step. inversion Hs as [? ? Hv]; subst. split; [|done].
  intros He. rewrite He in Hs. by apply step_closing in Hs.
Qed.

(** C16. No interleaving deadlocks: a reachable pair of connections in which no
    handshake packet can be sent and nothing can be received either has both
    ends [Established] with empty channels, or one end has ended the
    connection and the other has seen it and is [Closing]. *)
Theorem duplex_deadlock_free c :
  config_reachable c -> (forall c', ~ handshake_move c c') ->
  (forall role, inbox c role = []) /\
  ((forall role, conn (ends c role) = Established /\ owed (ends c role) = [] /\
      finished (ends c role) = false) \/
   exists role, finished (ends c role) = true /\ conn (ends c (peer role)) = Closing).
Proof.
  intros Hc%config_reachable_inv Hq. apply config_quiet; [done|].
  destruct (moves_or_quiet c Hc) as [(c' & Hm)|]; [|done]. by apply Hq in Hm.
Qed.

(** C15. The handshake terminates: every sequence of sends and receives that
    starts from a fresh client and server ends after at most 14 steps, seven
    packets sent and received, and where it ends both ends are [Established],
    or the server has rejected the client and the client is [Closing]. *)
Theorem handshake_terminates n c :
  nsteps handshake_move n config_initial c ->
  (n <= 14)%nat /\
  ((exists c', handshake_move c c') \/
   (forall role, inbox c role = []) /\
   ((forall role, conn (ends c role) = Established) \/
    finished (ends c Server) = true /\ finished (ends c Client) = false /\
    conn (ends c Client) = Closing)).
Proof.
  intros Hn. assert (config_inv c /\ (config_energy c + n <= 14)%nat) as [Hi He].
  { pose proof (moves_energy _ _ Hn) as [? He]. split; [done|]. exact He. }
  apply client_continues_moves in Hn as [Hf _].
  split; [lia|]. destruct (moves_or_quiet c Hi) as [|Hq]; [by left|]. right.
  destruct (config_quiet c Hi Hq) as [? [Ha|([] & Hfin & Hc)]]; (split; [done|]).
  - left. intros r. apply Ha.
  - congruence.
  - by right.
Qed.

(** ** Concrete runs *)

(** The client's hello is on its way. *)
Definition hello_sent : config :=
  dispatch Client config_initial (mk_endpoint AwaitingServerHello [] false) ClientHello.

Lemma hello_move : handshake_move config_initial hello_sent.
Proof. apply (move_send Client config_initial ClientHello []); [done| |done]. by constructor. Qed.

Lemma duplex_no_refusal_witness :
  conn (ends hello_sent Server) <> Closing /\
  receive Server (conn (ends hello_sent Server)) ClientHello
  = Ok (ConnectionState_advance (conn (ends hello_sent Server)) ClientHello).
Proof.
  refine (duplex_no_refusal hello_sent Server ClientHello [] _ eq_refl).
  apply rtc_once, move_step, hello_move.
Defined.

(** The client gives up right after its hello, and the server notices. *)
Definition given_up : config :=
  dispatch Client hello_sent (mk_endpoint AwaitingServerHello [] true) Error.
Definition hello_received : config :=
  deliver Server given_up (mk_endpoint AwaitingClientFinish [ServerHello] false) [Error].
Definition both_ended : config :=
  deliver Server hello_received (mk_endpoint Closing [ServerHello] false) [].

Lemma both_ended_reachable : config_reachable both_ended.
Proof.
  apply (rtc_l _ _ hello_sent); [apply move_step, hello_move|].
  apply (rtc_l _ _ given_up).
  { apply step_send. by apply sends_error; [|apply not_elem_of_nil]. }
  apply (rtc_l _ _ hello_received).
  { apply (step_deliver Server given_up ClientHello); [done|].
    by apply (receives_accepted Server AwaitingClientHello [] false ClientHello _ [ServerHello]);
      [|apply list_elem_of_here]. }
  apply rtc_once. apply (step_deliver Server hello_received Error); [done|].
  by apply (receives_accepted Server AwaitingClientFinish [ServerHello] false Error _ []);
    [|apply list_elem_of_here].
Qed.

Lemma both_ended_quiet c : ~ handshake_move both_ended c.
Proof.
  intros Hm. inversion Hm as [role ? t ts e Ho Hs|role ? t ts e Hin]; subst; destruct role;
    try discriminate. by inversion Hs.
Qed.

Lemma duplex_deadlock_free_witness :
  (forall role, inbox both_ended role = []) /\
  ((forall role, conn (ends both_ended role) = Established /\ owed (ends both_ended role) = [] /\
      finished (ends both_ended role) = false) \/
   exists role, finished (ends both_ended role) = true /\
     conn (ends both_ended (peer role)) = Closing).
Proof. exact (duplex_deadlock_free both_ended both_ended_reachable both_ended_quiet). Defined.

Ltac send_next role :=
  eapply nsteps_l; [eapply (move_send role); [reflexivity|by constructor|reflexivity]|].
Ltac receive_next role reply :=
  eapply nsteps_l; [eapply (move_deliver role); [reflexivity|
    eapply (receives_accepted _ _ _ _ _ _ reply); [reflexivity|apply list_elem_of_here]]|].

(** The whole handshake takes all of its fourteen steps. *)
Lemma full_handshake :
  exists c, nsteps handshake_move 14 config_initial c /\
    forall role, conn (ends c role) = Established.
Proof.
  eexists. split.
  - send_next Client. receive_next Server [ServerHello]. send_next Server.
    receive_next Client [ClientFinish]. send_next Client.
    receive_next Server [ServerAccept; AuthChallenge]. send_next Server. send_next Server.
    receive_next Client (@nil PacketType). receive_next Client [AuthResponse]. send_next Client.
    receive_next Server [AuthAccept]. send_next Server.
    receive_next Client (@nil PacketType). apply nsteps_O.
  - by intros [].
Qed.

Lemma handshake_terminates_witness :
  exists c, (forall role, conn (ends c role) = Established) /\
    ((exists c', handshake_move c c') \/
     (forall role, inbox c role = []) /\
     ((forall role, conn (ends c role) = Established) \/
      finished (ends c Server) = true /\ finished (ends c Client) = false /\
      conn (ends c Client) = Closing)).
Proof.
  destruct full_handshake as (c & Hn & Hc). exists c. split; [exact Hc|].
  exact (proj2 (handshake_terminates 14 c Hn)).
Defined.
