(* ===== verification/Common.v ===== *)
(** * [payloads/common.rs]: length-prefixed fields, and the payload interface

    The encoders and decoders of length-prefixed strings and byte strings that
    every payload module uses, with one [wp] rule and one evaluation lemma for
    each, and the interface [Payload]/[PayloadLaws] every payload type of the
    crate is an instance of. *)
From Stdlib Require Import String.
From S2P Require Import Prelude RustStd Sizes.

Definition encode_sized_string (value : bytes) : io_result bytes :=
  if u16_max <? zlen value then Err (Error_new InvalidInput "string too long")
  else Ok (to_be_bytes 2 (as_u16 (zlen value)) ++ value).

Definition decode_sized_string (bs : bytes) : io_result (bytes * Z) :=
  if zlen bs <? 2 then Err (Error_new InvalidData "payload too short for string length")
  else
    b0 ← index bs 0;
    b1 ← index bs 1;
    let str_len := from_be_bytes [b0; b1] in
    end_ ← ok_or (Error_new InvalidData "string length overflow")
             (checked_add usize_max 2 str_len);
    if zlen bs <? end_ then
      Err (Error_new InvalidData "payload too short for string bytes")
    else
      raw ← slice bs 2 end_;
      value ← ok_or (Error_new InvalidData "string is not valid UTF-8") (from_utf8 raw);
      mret (value, end_).

Definition encode_sized_bytes (bs : bytes) : io_result bytes :=
  if u32_max <? zlen bs then Err (Error_new InvalidInput "bytes too long")
  else Ok (to_be_bytes 4 (as_u32 (zlen bs)) ++ bs).

Definition decode_sized_bytes (bs : bytes) : io_result (bytes * Z) :=
  if zlen bs <? 4 then Err (Error_new InvalidData "missing length")
  else
    b0 ← index bs 0;
    b1 ← index bs 1;
    b2 ← index bs 2;
    b3 ← index bs 3;
    let len := from_be_bytes [b0; b1; b2; b3] in
    end_ ← ok_or (Error_new InvalidData "byte length overflow") (checked_add usize_max 4 len);
    if zlen bs <? end_ then Err (Error_new InvalidData "not enough bytes")
    else
      raw ← slice bs 4 end_;
      mret (raw, end_).

Definition require_fully_consumed (bs : bytes) (consumed : Z) (payload_name : string)
    : io_result unit :=
  if negb (zlen bs =? consumed) then
    Err (Error_new InvalidData (payload_name ++ " payload length mismatch"))
  else Ok tt.

Definition decode_bool (value : byte) (field_name : string) : io_result bool :=
  match value with
  | x00 => Ok false
  | x01 => Ok true
  | _ => Err (Error_new InvalidData (field_name ++ " must be encoded as 0 or 1"))
  end.

(** [if b { 1 } else { 0 }] *)
Definition bool_byte (b : bool) : byte := if b then x01 else x00.

(** ** Specification of the field formats *)
Definition sized_string (s : bytes) : bytes := to_be_bytes 2 (zlen s) ++ s.
Definition sized_bytes (s : bytes) : bytes := to_be_bytes 4 (zlen s) ++ s.

(** A Rust string, and one short enough for the wire. *)
Definition is_str (s : bytes) : Prop := utf8_valid s = true.
Definition str_fits (s : bytes) : Prop := zlen s <= u16_max.
Definition bytes_fit (s : bytes) : Prop := zlen s <= u32_max.

Lemma zlen_sized_string s : zlen (sized_string s) = 2 + zlen s.
Proof. unfold sized_string. by autorewrite with zlen. Qed.
Lemma zlen_sized_bytes s : zlen (sized_bytes s) = 4 + zlen s.
Proof. unfold sized_bytes. by autorewrite with zlen. Qed.
#[export] Hint Rewrite zlen_sized_string zlen_sized_bytes : zlen.

Lemma encode_sized_string_wp P (Q : io_error -> Prop) s :
  (str_fits s -> P (sized_string s)) ->
  (~ str_fits s -> Q (Error_new InvalidInput "string too long")) ->
  wp P Q (encode_sized_string s).
Proof.
  intros HP HQ. unfold str_fits, encode_sized_string in *. pose proof (zlen_nonneg s).
  destruct (Z.ltb_spec u16_max (zlen s)) as [Hlt|Hle]; cbn; [apply HQ; lia|].
  rewrite as_u16_id by done. by apply HP.
Qed.

Lemma encode_sized_bytes_wp P (Q : io_error -> Prop) s :
  (bytes_fit s -> P (sized_bytes s)) ->
  (~ bytes_fit s -> Q (Error_new InvalidInput "bytes too long")) ->
  wp P Q (encode_sized_bytes s).
Proof.
  intros HP HQ. unfold bytes_fit, encode_sized_bytes in *. pose proof (zlen_nonneg s).
  destruct (Z.ltb_spec u32_max (zlen s)) as [Hlt|Hle]; cbn; [apply HQ; lia|].
  rewrite as_u32_id by done. by apply HP.
Qed.

Lemma decode_sized_string_ok s rest :
  is_str s -> str_fits s ->
  decode_sized_string (sized_string s ++ rest) = Ok (s, 2 + zlen s).
Proof.
  intros Hu Hf. unfold str_fits, decode_sized_string in *.
  pose proof (zlen_nonneg s). pose proof (zlen_nonneg rest).
  rewrite zlen_app, zlen_sized_string.
  destruct (Z.ltb_spec (2 + zlen s + zlen rest) 2); [lia|].
  unfold sized_string, to_be_bytes. cbn [app].
  bytes_eval. cbn [mbind outcome_bind].
  change (from_be_bytes [_; _]) with (from_be_bytes (to_be_bytes 2 (zlen s))).
  rewrite from_be_u16 by done.
  unfold u16_max in *. rewrite checked_add_ok by (unfold usize_max, u64_max; lia). cbn.
  destruct (Z.ltb_spec (2 + zlen s + zlen rest) (2 + zlen s)); [lia|].
  rewrite !slice_skip_one by lia. rewrite slice_head by lia. cbn.
  unfold from_utf8. by rewrite Hu.
Qed.

Lemma decode_sized_bytes_ok s rest :
  bytes_fit s -> decode_sized_bytes (sized_bytes s ++ rest) = Ok (s, 4 + zlen s).
Proof.
  intros Hf. unfold bytes_fit, decode_sized_bytes in *.
  pose proof (zlen_nonneg s). pose proof (zlen_nonneg rest).
  rewrite zlen_app, zlen_sized_bytes.
  destruct (Z.ltb_spec (4 + zlen s + zlen rest) 4); [lia|].
  unfold sized_bytes, to_be_bytes. cbn [app].
  bytes_eval. cbn [mbind outcome_bind].
  change (from_be_bytes [_; _; _; _]) with (from_be_bytes (to_be_bytes 4 (zlen s))).
  rewrite from_be_u32 by done.
  unfold u32_max in *. rewrite checked_add_ok by (unfold usize_max, u64_max; lia). cbn.
  destruct (Z.ltb_spec (4 + zlen s + zlen rest) (4 + zlen s)); [lia|].
  rewrite !slice_skip_one by lia. by rewrite slice_head by lia.
Qed.

(** *** [wp] rules: what a decoder learns about its input *)
Lemma decode_sized_string_wp P (Q : io_error -> Prop) bs :
  (forall s rest, bs = sized_string s ++ rest -> is_str s -> str_fits s -> P (s, 2 + zlen s)) ->
  (forall e, kind e = InvalidData -> Q e) ->
  wp P Q (decode_sized_string bs).
Proof.
  intros HP HQ. unfold decode_sized_string.
  destruct (Z.ltb_spec (zlen bs) 2) as [|Hl]; [by apply HQ|].
  destruct (split_at bs 2) as (a & r & -> & Ha); [lia|].
  destruct (be_u16_view a Ha) as [Hr Hv]. unfold is_u16, u16_max in Hr.
  destruct a as [|a0 [|a1 [|]]]; try (exfalso; len_lia).
  cbn [app] in *. bytes_eval. cbn [mbind outcome_bind].
  set (n := from_be_bytes [a0; a1]) in *.
  rewrite checked_add_ok by (unfold usize_max, u64_max; lia). cbn [ok_or mbind outcome_bind].
  destruct (Z.ltb_spec (zlen (a0 :: a1 :: r)) (2 + n)) as [|Hn]; [by apply HQ|].
  destruct (split_at r n) as (s & rest & -> & Hs); [len_lia|].
  bytes_eval. cbn [mbind outcome_bind]. unfold from_utf8.
  destruct (utf8_valid s) eqn:Hu; cbn [ok_or mbind outcome_bind wp mret outcome_ret];
    [|by apply HQ].
  rewrite <- Hs. apply (HP s rest); [|done|unfold str_fits, u16_max; lia].
  unfold sized_string. rewrite Hs, Hv. done.
Qed.

Lemma decode_sized_bytes_wp P (Q : io_error -> Prop) bs :
  (forall s rest, bs = sized_bytes s ++ rest -> bytes_fit s -> P (s, 4 + zlen s)) ->
  (forall e, kind e = InvalidData -> Q e) ->
  wp P Q (decode_sized_bytes bs).
Proof.
  intros HP HQ. unfold decode_sized_bytes.
  destruct (Z.ltb_spec (zlen bs) 4) as [|Hl]; [by apply HQ|].
  destruct (split_at bs 4) as (a & r & -> & Ha); [lia|].
  destruct (be_u32_view a Ha) as [Hr Hv]. unfold is_u32, u32_max in Hr.
  destruct a as [|a0 [|a1 [|a2 [|a3 [|]]]]]; try (exfalso; len_lia).
  cbn [app] in *. bytes_eval. cbn [mbind outcome_bind].
  set (n := from_be_bytes [a0; a1; a2; a3]) in *.
  rewrite checked_add_ok by (unfold usize_max, u64_max; lia). cbn [ok_or mbind outcome_bind].
  destruct (Z.ltb_spec (zlen (a0 :: a1 :: a2 :: a3 :: r)) (4 + n)) as [|Hn]; [by apply HQ|].
  destruct (split_at r n) as (s & rest & -> & Hs); [len_lia|].
  bytes_eval. cbn [mbind outcome_bind wp mret outcome_ret].
  rewrite <- Hs. apply (HP s rest); [|unfold bytes_fit, u32_max; lia].
  unfold sized_bytes. rewrite Hs, Hv. done.
Qed.

Lemma decode_bool_wp P (Q : io_error -> Prop) b name :
  (forall v, b = bool_byte v -> P v) -> (forall e, kind e = InvalidData -> Q e) ->
  wp P Q (decode_bool b name).
Proof.
  intros HP HQ. destruct b; try (by apply HQ); [by apply (HP false)|by apply (HP true)].
Qed.

Lemma decode_bool_ok v name : decode_bool (bool_byte v) name = Ok v.
Proof. by destruct v. Qed.

Lemma bool_byte_inj a b : bool_byte a = bool_byte b -> a = b.
Proof. by destruct a, b. Qed.

Lemma require_fully_consumed_wp (P : unit -> Prop) (Q : io_error -> Prop) bs n name :
  (zlen bs = n -> P tt) -> (forall e, kind e = InvalidData -> Q e) ->
  wp P Q (require_fully_consumed bs n name).
Proof.
  intros HP HQ. unfold require_fully_consumed.
  destruct (Z.eqb_spec (zlen bs) n); cbn; auto.
Qed.

Lemma require_fully_consumed_ok bs n name :
  zlen bs = n -> require_fully_consumed bs n name = Ok tt.
Proof. intros <-. unfold require_fully_consumed. by rewrite Z.eqb_refl. Qed.

(** ** The payload interface *)

(** What a payload module provides. *)
Class Payload (A : Type) := {
  payload_encode : A -> io_result bytes;
  payload_decode : bytes -> io_result A
}.

(** What its wire format is: the invariant its field types give a value, the
    limit of its length prefixes, and the bytes of a value within it. *)
Class PayloadFormat (A : Type) := {
  payload_ok : A -> Prop;
  payload_fits : A -> Prop;
  payload_layout : A -> bytes
}.

(** The contract between the two. *)
Class PayloadLaws (A : Type) `{Payload A, PayloadFormat A} : Prop := {
  encode_spec (p : A) :
    wp (fun bs => payload_fits p /\ bs = payload_layout p)
       (fun e => ~ payload_fits p /\ kind e = InvalidInput) (payload_encode p);
  decode_spec (bs : bytes) :
    wp (fun p : A => payload_ok p /\ payload_fits p /\ bs = payload_layout p)
       (fun e => kind e = InvalidData) (payload_decode bs);
  decode_layout (p : A) :
    payload_ok p -> payload_fits p -> payload_decode (payload_layout p) = Ok p;
  layout_prefix_free (p q : A) x y :
    payload_ok p -> payload_fits p -> payload_ok q -> payload_fits q ->
    payload_layout p ++ x = payload_layout q ++ y -> p = q /\ x = y
}.

Section payload_facts.
Context {A : Type} `{PayloadLaws A}.
Implicit Types (p q : A) (bs x : bytes).

Lemma decode_iff bs p :
  payload_decode bs = Ok p <-> payload_ok p /\ payload_fits p /\ bs = payload_layout p.
Proof.
  split.
  - intros Hd. pose proof (decode_spec bs) as Hw. by rewrite Hd in Hw.
  - intros (Hok & Hf & ->). by apply decode_layout.
Qed.

Lemma encode_iff p bs :
  payload_encode p = Ok bs <-> payload_fits p /\ bs = payload_layout p.
Proof.
  pose proof (encode_spec p) as Hw. split.
  - intros He. by rewrite He in Hw.
  - intros [Hf ->]. destruct (payload_encode p) as [bs|e|]; cbn in Hw;
      [by destruct Hw as [_ ->]|by destruct Hw|done].
Qed.

Lemma encode_layout p : payload_fits p -> payload_encode p = Ok (payload_layout p).
Proof. intros Hf. by apply encode_iff. Qed.

(** A refused input is refused with [InvalidData]. *)
Lemma decode_refused bs :
  (forall p, payload_decode bs <> Ok p) ->
  exists e, payload_decode (A := A) bs = Err e /\ kind e = InvalidData.
Proof.
  intros Hn. pose proof (decode_spec bs) as Hw. destruct (payload_decode bs) as [p|e|].
  - by destruct (Hn p).
  - eauto.
  - done.
Qed.

Lemma decode_extension bs x p q :
  payload_decode bs = Ok p -> payload_decode (bs ++ x) = Ok q -> x = [].
Proof.
  rewrite !decode_iff. intros (Hp & Hfp & ->) (Hq & Hfq & He).
  rewrite <- (app_nil_r (payload_layout q)) in He.
  by apply layout_prefix_free in He as [_ ->].
Qed.
End payload_facts.

(** A [#[repr(u8)]] enum with its [from_u8] and [as u8]. *)
Class ByteCode (A : Type) := {
  code_as_u8 : A -> byte;
  code_from_u8 : byte -> io_result A
}.
Class ByteCodeLaws (A : Type) `{ByteCode A} : Prop := {
  from_as_code (a : A) : code_from_u8 (code_as_u8 a) = Ok a;
  from_code_wp (b : byte) :
    wp (fun a : A => b = code_as_u8 a) (fun e => kind e = InvalidData) (code_from_u8 b)
}.

Lemma code_wp {A} `{ByteCodeLaws A} (P : A -> Prop) (Q : io_error -> Prop) b :
  (forall a, b = code_as_u8 a -> P a) -> (forall e, kind e = InvalidData -> Q e) ->
  wp P Q (code_from_u8 b).
Proof. intros HP HQ. eapply wp_mono; [apply from_code_wp|apply HP|apply HQ]. Qed.

Lemma code_inj {A} `{ByteCodeLaws A} (a b : A) : code_as_u8 a = code_as_u8 b -> a = b.
Proof. intros He. pose proof (from_as_code a) as Ha. rewrite He, from_as_code in Ha. congruence. Qed.

(** ** Reading fields off two equal concatenations *)
Lemma sized_string_app_inj s s' x y :
  str_fits s -> str_fits s' -> sized_string s ++ x = sized_string s' ++ y -> s = s' /\ x = y.
Proof.
  unfold str_fits, u16_max, sized_string. intros Hs Hs' He.
  pose proof (zlen_nonneg s). pose proof (zlen_nonneg s').
  rewrite <- !app_assoc in He.
  apply zlen_inj_app in He as [Hl He]; [|by rewrite !zlen_to_be_bytes].
  apply to_be_bytes_inj in Hl; [|lia..]. by apply zlen_inj_app in He.
Qed.

Lemma sized_bytes_app_inj s s' x y :
  bytes_fit s -> bytes_fit s' -> sized_bytes s ++ x = sized_bytes s' ++ y -> s = s' /\ x = y.
Proof.
  unfold bytes_fit, u32_max, sized_bytes. intros Hs Hs' He.
  pose proof (zlen_nonneg s). pose proof (zlen_nonneg s').
  rewrite <- !app_assoc in He.
  apply zlen_inj_app in He as [Hl He]; [|by rewrite !zlen_to_be_bytes].
  apply to_be_bytes_inj in Hl; [|lia..]. by apply zlen_inj_app in He.
Qed.

Lemma cons_inj {A} (a b : A) x y : a :: x = b :: y -> a = b /\ x = y.
Proof. by intros [= -> ->]. Qed.

Lemma be_u64_app_inj n m x y :
  is_u64 n -> is_u64 m -> to_be_bytes 8 n ++ x = to_be_bytes 8 m ++ y -> n = m /\ x = y.
Proof.
  intros Hn Hm He. apply zlen_inj_app in He as [He ->]; [|by rewrite !zlen_to_be_bytes].
  split; [by apply to_be_u64_inj|done].
Qed.

(** ** Automation for payload modules *)

Ltac size_unfold :=
  unfold str_fits, bytes_fit, is_u64, is_u32, is_u16, usize_max, u64_max, u32_max, u16_max,
    Sizes.ML_KEM_768_EK_SIZE, Sizes.ML_KEM_768_CT_SIZE, Sizes.ML_DSA_65_SIG_SIZE,
    Sizes.ML_DSA_65_VK_SIZE in *.
Ltac size_lia := size_unfold; len_lia.

(** One step of a decoder's [wp]: learn the shape of the input from the
    primitive at the head, or evaluate it on the shape already known. *)
Ltac wp_step :=
  lazymatch goal with
  | |- wp _ _ (Err _) => reflexivity
  | |- wp _ _ (Ok _) => cbn [wp]
  | |- wp _ _ (mret _) => cbn [wp mret outcome_ret]
  | |- wp _ _ (mbind _ (Ok _)) => cbn [mbind outcome_bind]
  | |- wp _ _ (mbind _ (mret _)) => cbn [mbind outcome_bind mret outcome_ret]
  | |- wp _ _ (mbind _ _) => apply wp_bind
  | |- wp _ _ (if _ then _ else _) => apply wp_if; intros ?Hif; [reflexivity|]
  | |- wp _ _ (decode_sized_string _) =>
      apply decode_sized_string_wp; [intros ?s ?rest -> ? ?|done]
  | |- wp _ _ (decode_sized_bytes _) =>
      apply decode_sized_bytes_wp; [intros ?c ?rest -> ?|done]
  | |- wp _ _ (decode_bool _ _) => apply decode_bool_wp; [intros ?v ->|done]
  | |- wp _ _ (require_fully_consumed _ _ _) =>
      apply require_fully_consumed_wp; [intros ?Hlen|done]
  | |- wp _ _ (usize_add _ _) => rewrite usize_add_ok by size_lia
  | |- wp _ _ (ok_or _ (checked_add _ _ _)) =>
      rewrite checked_add_ok by size_lia; cbn [ok_or]
  | |- wp _ _ (ok_or _ (mbind _ (checked_add _ _ _))) =>
      rewrite checked_add_ok by size_lia; cbn [mbind option_bind]
  | |- wp _ _ (ok_or _ (try_into _ _)) => rewrite try_into_ok by size_lia; cbn [ok_or]
  | |- wp _ _ (copy_from_slice _ _) => rewrite copy_from_slice_ok by size_lia
  | |- wp _ _ (index _ _) => progress bytes_eval
  | |- wp _ _ (slice _ _ _) => progress bytes_eval
  | |- wp _ _ (slice_from _ _) => progress bytes_eval
  | |- wp _ _ (slice_to _ _) => progress bytes_eval
  | |- @wp _ ?A _ _ (?f ?b) =>
      change (f b) with (code_from_u8 (A := A) b);
      apply code_wp; [intros ?a ->|done]
  end.
Ltac wp_steps := repeat (wp_step; cbn beta iota).

(** One step of a decoder on the layout of a value: every check passes. *)
Lemma wp_eq {E A} (m : outcome E A) a : wp (eq a) (fun _ => False) m -> m = Ok a.
Proof. destruct m; cbn; [by intros ->|done..]. Qed.

Ltac eval_step :=
  lazymatch goal with
  | |- wp _ _ (Ok _) => cbn [wp]
  | |- wp _ _ (mret _) => cbn [wp mret outcome_ret]
  | |- wp _ _ (mbind _ (Ok _)) => cbn [mbind outcome_bind]
  | |- wp _ _ (mbind _ (mret _)) => cbn [mbind outcome_bind mret outcome_ret]
  | |- wp _ _ (mbind _ _) => apply wp_bind
  | |- wp _ _ (if _ then _ else _) =>
      apply wp_if; intros ?Hif; [exfalso; size_lia|]
  | |- wp _ _ (decode_sized_string (_ ++ _)) => rewrite decode_sized_string_ok by done
  | |- wp _ _ (decode_sized_string ?s) =>
      rewrite <- (app_nil_r s), decode_sized_string_ok by done
  | |- wp _ _ (decode_sized_bytes (_ ++ _)) => rewrite decode_sized_bytes_ok by done
  | |- wp _ _ (decode_sized_bytes ?s) =>
      rewrite <- (app_nil_r s), decode_sized_bytes_ok by done
  | |- wp _ _ (decode_bool _ _) => rewrite decode_bool_ok
  | |- wp _ _ (require_fully_consumed _ _ _) =>
      rewrite require_fully_consumed_ok by size_lia
  | |- wp _ _ (usize_add _ _) => rewrite usize_add_ok by size_lia
  | |- wp _ _ (ok_or _ (checked_add _ _ _)) =>
      rewrite checked_add_ok by size_lia; cbn [ok_or]
  | |- wp _ _ (ok_or _ (mbind _ (checked_add _ _ _))) =>
      rewrite checked_add_ok by size_lia; cbn [mbind option_bind]
  | |- wp _ _ (ok_or _ (try_into _ _)) => rewrite try_into_ok by size_lia; cbn [ok_or]
  | |- wp _ _ (copy_from_slice _ _) => rewrite copy_from_slice_ok by size_lia
  | |- wp _ _ (index _ _) => progress bytes_eval
  | |- wp _ _ (slice _ _ _) => progress bytes_eval
  | |- wp _ _ (slice_from _ _) => progress bytes_eval
  | |- wp _ _ (slice_to _ _) => progress bytes_eval
  | |- @wp _ ?A _ _ (?f (?g ?a)) =>
      change (f (g a)) with (code_from_u8 (code_as_u8 (A := A) a)); rewrite from_as_code
  end.
Ltac eval_more := repeat (eval_step; cbn beta iota).
Ltac eval_steps := apply wp_eq; eval_more.

(** An encoder's [wp]. *)
Ltac enc_step :=
  lazymatch goal with
  | |- wp _ _ (Ok _) => cbn [wp]
  | |- wp _ _ (mret _) => cbn [wp mret outcome_ret]
  | |- wp _ _ (mbind _ _) => apply wp_bind
  | |- wp _ _ (encode_sized_string _) =>
      apply encode_sized_string_wp; [intros ?Hfit|intros ?Hfit; split; [tauto|done]]
  | |- wp _ _ (encode_sized_bytes _) =>
      apply encode_sized_bytes_wp; [intros ?Hfit|intros ?Hfit; split; [tauto|done]]
  end.
Ltac enc_steps := repeat (enc_step; cbn beta iota).

(** The decoder consumed everything, so nothing follows the last field. *)
Ltac drop_rest r :=
  assert (r = []) as -> by (apply zlen_zero_nil; size_lia);
  rewrite ?app_nil_r in *.

Ltac payload_split :=
  split; cbn;
  [intros p|intros bs|intros p Hok Hfit|intros p q x y Hp Hfp Hq Hfq He].

(** Peels equal leading fields off [H : a1 ++ a2 ++ .. = b1 ++ b2 ++ ..]. *)
Ltac peel_step H :=
  rewrite <- ?app_assoc in H; cbn [app] in H;
  lazymatch type of H with
  | sized_string _ ++ _ = _ => apply sized_string_app_inj in H as [? H]; [|done..]
  | sized_bytes _ ++ _ = _ => apply sized_bytes_app_inj in H as [? H]; [|done..]
  | to_be_bytes 8 _ ++ _ = _ => apply be_u64_app_inj in H as [? H]; [|done..]
  | bool_byte _ :: _ = _ :: _ => apply cons_inj in H as [?%bool_byte_inj H]
  | _ :: _ = _ :: _ =>
      let E := fresh in
      apply cons_inj in H as [E H];
      lazymatch type of E with
      | _ ?a = _ ?b => first [ pose proof (code_inj a b E); clear E | idtac ]
      | _ => idtac
      end
  | _ ++ _ = _ ++ _ => apply zlen_inj_app in H as [? H]; [|congruence]
  end.
Ltac peel H := repeat peel_step H; subst; try done.
