(* ===== verification/PingPayloads.v ===== *)
(** * [payloads/ping_payloads.rs]: keepalives *)
From Stdlib Require Import String.
From S2P Require Import Prelude RustStd Common.

Record PingPayload := mk_PingPayload { ping_timestamp : Z (* u64 *) }.

Definition PingPayload_encode (self : PingPayload) : bytes :=
  to_be_bytes 8 (ping_timestamp self).

Definition PingPayload_decode (bs : bytes) : io_result PingPayload :=
  if negb (zlen bs =? 8) then
    Err (Error_new InvalidData
           ("invalid ping payload length: expected 8, got " ++ fmt_dec (zlen bs)))
  else
    arr ← ok_or (Error_new InvalidData "failed to decode ping payload") (try_into 8 bs);
    let timestamp := from_be_bytes arr in
    mret {| ping_timestamp := timestamp |}.

#[export] Instance PingPayload_payload : Payload PingPayload :=
  {| payload_encode := fun p => Ok (PingPayload_encode p);
     payload_decode := PingPayload_decode |}.
#[export] Instance PingPayload_format : PayloadFormat PingPayload :=
  {| payload_ok := fun p => is_u64 (ping_timestamp p);
     payload_fits := fun _ => True;
     payload_layout := fun p => to_be_bytes 8 (ping_timestamp p) |}.
#[export] Instance PingPayload_laws : PayloadLaws PingPayload.
Proof.
  payload_split.
  - done.
  - unfold PingPayload_decode. wp_steps. cbn.
    destruct (be_u64_view bs) as [? Hb]; [lia|]. by rewrite Hb.
  - unfold PingPayload_decode. eval_steps.
rewrite from_be_u64 by done. by destruct p.
  - destruct p, q. cbn in *. peel He.
Qed.

Record PongPayload := mk_PongPayload { pong_timestamp : Z (* u64 *) }.

Definition PongPayload_encode (self : PongPayload) : bytes :=
  to_be_bytes 8 (pong_timestamp self).

Definition PongPayload_decode (bs : bytes) : io_result PongPayload :=
  if negb (zlen bs =? 8) then
    Err (Error_new InvalidData
           ("invalid pong payload length: expected 8, got " ++ fmt_dec (zlen bs)))
  else
    arr ← ok_or (Error_new InvalidData "failed to decode pong payload") (try_into 8 bs);
    let timestamp := from_be_bytes arr in
    mret {| pong_timestamp := timestamp |}.

#[export] Instance PongPayload_payload : Payload PongPayload :=
  {| payload_encode := fun p => Ok (PongPayload_encode p);
     payload_decode := PongPayload_decode |}.
#[export] Instance PongPayload_format : PayloadFormat PongPayload :=
  {| payload_ok := fun p => is_u64 (pong_timestamp p);
     payload_fits := fun _ => True;
     payload_layout := fun p => to_be_bytes 8 (pong_timestamp p) |}.
#[export] Instance PongPayload_laws : PayloadLaws PongPayload.
Proof.
  payload_split.
  - done.
  - unfold PongPayload_decode. wp_steps. cbn.
    destruct (be_u64_view bs) as [? Hb]; [lia|]. by rewrite Hb.
  - unfold PongPayload_decode. eval_steps. rewrite from_be_u64 by done. by destruct p.
  - destruct p, q. cbn in *. peel He.
Qed.
