(* ===== verification/ErrorPayloads.v ===== *)
(** * [payloads/error_payloads.rs] *)
From Stdlib Require Import String.
From S2P Require Import Prelude RustStd Common.

Record ErrorPayload := mk_ErrorPayload { error_message : bytes (* String *) }.

Definition ErrorPayload_encode (self : ErrorPayload) : io_result bytes :=
  encode_sized_string (error_message self).

Definition ErrorPayload_decode (bs : bytes) : io_result ErrorPayload :=
  '(message, consumed) ← decode_sized_string bs;
  require_fully_consumed bs consumed "error";;
  mret {| error_message := message |}.

#[export] Instance ErrorPayload_payload : Payload ErrorPayload :=
  {| payload_encode := ErrorPayload_encode; payload_decode := ErrorPayload_decode |}.
#[export] Instance ErrorPayload_format : PayloadFormat ErrorPayload :=
  {| payload_ok := fun p => is_str (error_message p);
     payload_fits := fun p => str_fits (error_message p);
     payload_layout := fun p => sized_string (error_message p) |}.
#[export] Instance ErrorPayload_laws : PayloadLaws ErrorPayload.
Proof.
  payload_split.
  - unfold ErrorPayload_encode. enc_steps. done.
  - unfold ErrorPayload_decode. wp_steps. cbn. by drop_rest rest.
  - unfold ErrorPayload_decode. eval_steps. by destruct p.
  - destruct p, q. cbn in *. peel He.
Qed.
