(* ===== verification/ClosePayloads.v ===== *)
(** * [payloads/close_payloads.rs] *)
From Stdlib Require Import String.
From S2P Require Import Prelude RustStd Common.

Inductive CloseReason :=
| CloseReason_Normal
| CloseReason_ProtocolError
| CloseReason_Timeout
| CloseReason_ServerShutdown
| CloseReason_ClientRequest.

Definition CloseReason_from_u8 (value : byte) : io_result CloseReason :=
  match value with
  | x00 => Ok CloseReason_Normal
  | x01 => Ok CloseReason_ProtocolError
  | x02 => Ok CloseReason_Timeout
  | x03 => Ok CloseReason_ServerShutdown
  | x04 => Ok CloseReason_ClientRequest
  | _ => Err (Error_new InvalidData ("unknown close reason: " ++ fmt_dec (byte_val value)))
  end.

Definition CloseReason_as_u8 (self : CloseReason) : byte :=
  match self with
  | CloseReason_Normal => x00
  | CloseReason_ProtocolError => x01
  | CloseReason_Timeout => x02
  | CloseReason_ServerShutdown => x03
  | CloseReason_ClientRequest => x04
  end.

#[export] Instance CloseReason_code : ByteCode CloseReason :=
  {| code_as_u8 := CloseReason_as_u8; code_from_u8 := CloseReason_from_u8 |}.
#[export] Instance CloseReason_code_laws : ByteCodeLaws CloseReason.
Proof. by split; [intros []|intros []]. Qed.

Record ClosePayload := mk_ClosePayload {
  close_reason : CloseReason;
  close_message : bytes (* String *)
}.

Definition ClosePayload_encode (self : ClosePayload) : io_result bytes :=
  let out := [CloseReason_as_u8 (close_reason self)] in
  msg_bytes ← encode_sized_string (close_message self);
  mret (out ++ msg_bytes).

Definition ClosePayload_decode (bs : bytes) : io_result ClosePayload :=
  if zlen bs =? 0 then Err (Error_new InvalidData "close payload too short")
  else
    b0 ← index bs 0;
    reason ← CloseReason_from_u8 b0;
    tail ← slice_from bs 1;
    '(message, consumed) ← decode_sized_string tail;
    total ← usize_add 1 consumed;
    require_fully_consumed bs total "close";;
    mret {| close_reason := reason; close_message := message |}.

#[export] Instance ClosePayload_payload : Payload ClosePayload :=
  {| payload_encode := ClosePayload_encode; payload_decode := ClosePayload_decode |}.
#[export] Instance ClosePayload_format : PayloadFormat ClosePayload :=
  {| payload_ok := fun p => is_str (close_message p);
     payload_fits := fun p => str_fits (close_message p);
     payload_layout := fun p =>
       CloseReason_as_u8 (close_reason p) :: sized_string (close_message p) |}.
#[export] Instance ClosePayload_laws : PayloadLaws ClosePayload.
Proof.
  payload_split.
  - unfold ClosePayload_encode. enc_steps. done.
  - unfold ClosePayload_decode. wp_steps.
    destruct (split_one bs) as (b & tail & ->); [len_lia|]. wp_steps.
    cbn. by drop_rest rest.
  - unfold ClosePayload_decode. eval_steps. by destruct p.
  - destruct p, q. cbn in *. peel He.
Qed.
