(* ===== verification/RegistrationPayloads.v ===== *)
(** * [payloads/registration_payloads.rs] *)
From Stdlib Require Import String.
From S2P Require Import Prelude RustStd Common.

Record RegisterDevicePayload := mk_RegisterDevicePayload { rd_username : bytes (* String *) }.

Definition RegisterDevicePayload_encode (self : RegisterDevicePayload) : io_result bytes :=
  encode_sized_string (rd_username self).

Definition RegisterDevicePayload_decode (bs : bytes) : io_result RegisterDevicePayload :=
  '(username, consumed) ← decode_sized_string bs;
  require_fully_consumed bs consumed "register_device";;
  mret {| rd_username := username |}.

#[export] Instance RegisterDevicePayload_payload : Payload RegisterDevicePayload :=
  {| payload_encode := RegisterDevicePayload_encode;
     payload_decode := RegisterDevicePayload_decode |}.
#[export] Instance RegisterDevicePayload_format : PayloadFormat RegisterDevicePayload :=
  {| payload_ok := fun p => is_str (rd_username p);
     payload_fits := fun p => str_fits (rd_username p);
     payload_layout := fun p => sized_string (rd_username p) |}.
#[export] Instance RegisterDevicePayload_laws : PayloadLaws RegisterDevicePayload.
Proof.
  payload_split.
  - unfold RegisterDevicePayload_encode. enc_steps. done.
  - unfold RegisterDevicePayload_decode. wp_steps. cbn. by drop_rest rest.
  - unfold RegisterDevicePayload_decode. eval_steps. by destruct p.
  - destruct p, q. cbn in *. peel He.
Qed.

Record RegisterResponsePayload := mk_RegisterResponsePayload {
  rr_success : bool;
  rr_message : bytes (* String *)
}.

Definition RegisterResponsePayload_encode (self : RegisterResponsePayload) : io_result bytes :=
  message ← encode_sized_string (rr_message self);
  let out := [bool_byte (rr_success self)] in
  mret (out ++ message).

Definition RegisterResponsePayload_decode (bs : bytes) : io_result RegisterResponsePayload :=
  if zlen bs =? 0 then Err (Error_new InvalidData "register_response payload too short")
  else
    b0 ← index bs 0;
    success ← decode_bool b0 "register_response success";
    tail ← slice_from bs 1;
    '(message, consumed) ← decode_sized_string tail;
    total ← usize_add 1 consumed;
    require_fully_consumed bs total "register_response";;
    mret {| rr_success := success; rr_message := message |}.

#[export] Instance RegisterResponsePayload_payload : Payload RegisterResponsePayload :=
  {| payload_encode := RegisterResponsePayload_encode;
     payload_decode := RegisterResponsePayload_decode |}.
#[export] Instance RegisterResponsePayload_format : PayloadFormat RegisterResponsePayload :=
  {| payload_ok := fun p => is_str (rr_message p);
     payload_fits := fun p => str_fits (rr_message p);
     payload_layout := fun p => bool_byte (rr_success p) :: sized_string (rr_message p) |}.
#[export] Instance RegisterResponsePayload_laws : PayloadLaws RegisterResponsePayload.
Proof.
  payload_split.
  - unfold RegisterResponsePayload_encode. enc_steps. done.
  - unfold RegisterResponsePayload_decode. wp_steps.
    destruct (split_one bs) as (b & tail & ->); [len_lia|]. wp_steps. cbn. by drop_rest rest.
  - unfold RegisterResponsePayload_decode. eval_steps. by destruct p.
  - destruct p, q. cbn in *. peel He.
Qed.
