(* ===== verification/AccountPayloads.v ===== *)
(** * [payloads/account_payloads.rs] *)
From Stdlib Require Import String.
From S2P Require Import Prelude RustStd Common.

Record QueryAccountStatusPayload := mk_QueryAccountStatusPayload {}.

Definition QueryAccountStatusPayload_encode (self : QueryAccountStatusPayload) : bytes := [].

Definition QueryAccountStatusPayload_decode (bs : bytes) : io_result QueryAccountStatusPayload :=
  require_fully_consumed bs 0 "query_account_status";;
  mret mk_QueryAccountStatusPayload.

#[export] Instance QueryAccountStatusPayload_payload : Payload QueryAccountStatusPayload :=
  {| payload_encode := fun p => Ok (QueryAccountStatusPayload_encode p);
     payload_decode := QueryAccountStatusPayload_decode |}.
#[export] Instance QueryAccountStatusPayload_format : PayloadFormat QueryAccountStatusPayload :=
  {| payload_ok := fun _ => True; payload_fits := fun _ => True; payload_layout := fun _ => [] |}.
#[export] Instance QueryAccountStatusPayload_laws : PayloadLaws QueryAccountStatusPayload.
Proof.
  payload_split.
  - done.
  - unfold QueryAccountStatusPayload_decode. wp_steps. cbn. by apply zlen_zero_nil in Hlen.
  - unfold QueryAccountStatusPayload_decode. eval_steps. by destruct p.
  - by destruct p, q.
Qed.

Record AccountStatusResponsePayload := mk_AccountStatusResponsePayload {
  as_is_banned : bool;
  as_ban_reason : bytes;                       (* String *)
  as_subscription_active : bool;
  as_subscription_expiry_timestamp : Z         (* u64 *)
}.

Definition AccountStatusResponsePayload_encode (self : AccountStatusResponsePayload)
    : io_result bytes :=
  ban_reason ← encode_sized_string (as_ban_reason self);
  let out := [bool_byte (as_is_banned self)] in
  let out := out ++ ban_reason in
  let out := out ++ [bool_byte (as_subscription_active self)] in
  let out := out ++ to_be_bytes 8 (as_subscription_expiry_timestamp self) in
  mret out.

Definition AccountStatusResponsePayload_decode (bs : bytes)
    : io_result AccountStatusResponsePayload :=
  if zlen bs =? 0 then Err (Error_new InvalidData "account_status_response payload too short")
  else
    b0 ← index bs 0;
    is_banned ← decode_bool b0 "account_status_response is_banned";
    tail ← slice_from bs 1;
    '(ban_reason, consumed) ← decode_sized_string tail;
    start ← usize_add 1 consumed;
    rest ← slice_from bs start;
    if negb (zlen rest =? 9) then
      Err (Error_new InvalidData "account_status_response missing subscription fields")
    else
      r0 ← index rest 0;
      subscription_active ← decode_bool r0 "account_status_response subscription_active";
      raw ← slice rest 1 9;
      arr ← ok_or (Error_new InvalidData "failed to decode account_status_response expiry")
              (try_into 8 raw);
      let subscription_expiry_timestamp := from_be_bytes arr in
      c1 ← usize_add 1 consumed;
      total ← usize_add c1 9;
      require_fully_consumed bs total "account_status_response";;
      mret {| as_is_banned := is_banned;
              as_ban_reason := ban_reason;
              as_subscription_active := subscription_active;
              as_subscription_expiry_timestamp := subscription_expiry_timestamp |}.

#[export] Instance AccountStatusResponsePayload_payload : Payload AccountStatusResponsePayload :=
  {| payload_encode := AccountStatusResponsePayload_encode;
     payload_decode := AccountStatusResponsePayload_decode |}.
#[export] Instance AccountStatusResponsePayload_format
    : PayloadFormat AccountStatusResponsePayload :=
  {| payload_ok := fun p =>
       is_str (as_ban_reason p) /\ is_u64 (as_subscription_expiry_timestamp p);
     payload_fits := fun p => str_fits (as_ban_reason p);
     payload_layout := fun p =>
       bool_byte (as_is_banned p) :: sized_string (as_ban_reason p)
       ++ bool_byte (as_subscription_active p)
       :: to_be_bytes 8 (as_subscription_expiry_timestamp p) |}.
#[export] Instance AccountStatusResponsePayload_laws : PayloadLaws AccountStatusResponsePayload.
Proof.
  payload_split.
  - unfold AccountStatusResponsePayload_encode. enc_steps. split; [done|]. cbn.
    by rewrite <- !app_assoc.
  - unfold AccountStatusResponsePayload_decode. wp_steps.
    destruct (split_one bs) as (b & tail & ->); [len_lia|]. wp_steps.
    destruct (split_one rest) as (r0 & r & ->); [len_lia|].
    assert (zlen r = 8) as Hr by len_lia.
    destruct (be_u64_view r Hr) as [Hr1 Hr2]. wp_steps. cbn. by rewrite Hr2.
  - destruct Hok. unfold AccountStatusResponsePayload_decode. eval_steps.
    rewrite from_be_u64 by done. by destruct p.
  - destruct p, q. cbn in *. destruct Hp, Hq. peel He.
Qed.
