(* ===== verification/HelloPayloads.v ===== *)
(** * [payloads/hello_payloads.rs]: the handshake payloads *)
From Stdlib Require Import String.
From S2P Require Import Prelude RustStd Sizes Common.

(** ** [ClientHelloPayload] *)
Record ClientHelloPayload := mk_ClientHelloPayload {
  ch_client_id : bytes;           (* String *)
  ch_x25519_public_key : bytes;   (* [u8; 32] *)
  ch_ml_kem_ek : bytes            (* [u8; ML_KEM_768_EK_SIZE] *)
}.

Definition ClientHelloPayload_encode (self : ClientHelloPayload) : io_result bytes :=
  id ← encode_sized_string (ch_client_id self);
  let out := id in
  let out := out ++ ch_x25519_public_key self in
  let out := out ++ ch_ml_kem_ek self in
  mret out.

Definition ClientHelloPayload_decode (bs : bytes) : io_result ClientHelloPayload :=
  '(client_id, consumed) ← decode_sized_string bs;
  after_id ← slice_from bs consumed;
  if zlen after_id <? 32 + ML_KEM_768_EK_SIZE then
    Err (Error_new InvalidData "client_hello too short for key material")
  else
    raw ← slice_to after_id 32;
    x25519_public_key ← ok_or (Error_new InvalidData "invalid x25519 key length")
                          (try_into 32 raw);
    raw ← slice after_id 32 (32 + ML_KEM_768_EK_SIZE);
    ml_kem_ek ← copy_from_slice ML_KEM_768_EK_SIZE raw;
    c1 ← usize_add consumed 32;
    total ← usize_add c1 ML_KEM_768_EK_SIZE;
    require_fully_consumed bs total "client_hello";;
    mret {| ch_client_id := client_id;
            ch_x25519_public_key := x25519_public_key;
            ch_ml_kem_ek := ml_kem_ek |}.

#[export] Instance ClientHelloPayload_payload : Payload ClientHelloPayload :=
  {| payload_encode := ClientHelloPayload_encode; payload_decode := ClientHelloPayload_decode |}.
#[export] Instance ClientHelloPayload_format : PayloadFormat ClientHelloPayload :=
  {| payload_ok := fun p =>
       is_str (ch_client_id p) /\ zlen (ch_x25519_public_key p) = 32 /\
       zlen (ch_ml_kem_ek p) = ML_KEM_768_EK_SIZE;
     payload_fits := fun p => str_fits (ch_client_id p);
     payload_layout := fun p =>
       sized_string (ch_client_id p) ++ ch_x25519_public_key p ++ ch_ml_kem_ek p |}.
#[export] Instance ClientHelloPayload_laws : PayloadLaws ClientHelloPayload.
Proof.
  payload_split.
  - unfold ClientHelloPayload_encode. enc_steps. split; [done|]. by rewrite <- app_assoc.
  - unfold ClientHelloPayload_decode. wp_steps.
    destruct (split_at rest 32) as (k & r & -> & Hk); [size_lia|].
    destruct (split_at r ML_KEM_768_EK_SIZE) as (e & r' & -> & He); [size_lia|].
    wp_steps. cbn. by drop_rest r'.
  - destruct Hok as (? & ? & ?). unfold ClientHelloPayload_decode. eval_steps. by destruct p.
  - destruct p, q. cbn in *. destruct_and!. peel He.
Qed.

(** ** [ServerHelloPayload] *)
Record ServerHelloPayload := mk_ServerHelloPayload {
  sh_server_id : bytes;           (* String *)
  sh_x25519_public_key : bytes;   (* [u8; 32] *)
  sh_ml_kem_ciphertext : bytes;   (* [u8; ML_KEM_768_CT_SIZE] *)
  sh_signature : bytes            (* [u8; ML_DSA_65_SIG_SIZE] *)
}.

Definition ServerHelloPayload_encode (self : ServerHelloPayload) : io_result bytes :=
  id ← encode_sized_string (sh_server_id self);
  let out := id in
  let out := out ++ sh_x25519_public_key self in
  let out := out ++ sh_ml_kem_ciphertext self in
  let out := out ++ sh_signature self in
  mret out.

Definition ServerHelloPayload_decode (bs : bytes) : io_result ServerHelloPayload :=
  '(server_id, consumed) ← decode_sized_string bs;
  after_id ← slice_from bs consumed;
  let fixed_len := 32 + ML_KEM_768_CT_SIZE + ML_DSA_65_SIG_SIZE in
  if zlen after_id <? fixed_len then
    Err (Error_new InvalidData "server_hello too short for key material")
  else
    raw ← slice_to after_id 32;
    x25519_public_key ← ok_or (Error_new InvalidData "invalid x25519 key length")
                          (try_into 32 raw);
    let ml_kem_end := 32 + ML_KEM_768_CT_SIZE in
    raw ← slice after_id 32 ml_kem_end;
    ml_kem_ciphertext ← copy_from_slice ML_KEM_768_CT_SIZE raw;
    raw ← slice after_id ml_kem_end fixed_len;
    signature ← copy_from_slice ML_DSA_65_SIG_SIZE raw;
    total ← usize_add consumed fixed_len;
    require_fully_consumed bs total "server_hello";;
    mret {| sh_server_id := server_id;
            sh_x25519_public_key := x25519_public_key;
            sh_ml_kem_ciphertext := ml_kem_ciphertext;
            sh_signature := signature |}.

#[export] Instance ServerHelloPayload_payload : Payload ServerHelloPayload :=
  {| payload_encode := ServerHelloPayload_encode; payload_decode := ServerHelloPayload_decode |}.
#[export] Instance ServerHelloPayload_format : PayloadFormat ServerHelloPayload :=
  {| payload_ok := fun p =>
       is_str (sh_server_id p) /\ zlen (sh_x25519_public_key p) = 32 /\
       zlen (sh_ml_kem_ciphertext p) = ML_KEM_768_CT_SIZE /\
       zlen (sh_signature p) = ML_DSA_65_SIG_SIZE;
     payload_fits := fun p => str_fits (sh_server_id p);
     payload_layout := fun p =>
       sized_string (sh_server_id p) ++ sh_x25519_public_key p ++ sh_ml_kem_ciphertext p
       ++ sh_signature p |}.
#[export] Instance ServerHelloPayload_laws : PayloadLaws ServerHelloPayload.
Proof.
  payload_split.
  - unfold ServerHelloPayload_encode. enc_steps. split; [done|]. by rewrite <- !app_assoc.
  - unfold ServerHelloPayload_decode. wp_steps.
    destruct (split_at rest 32) as (k & r & -> & Hk); [size_lia|].
    destruct (split_at r ML_KEM_768_CT_SIZE) as (c & r' & -> & Hc); [size_lia|].
    destruct (split_at r' ML_DSA_65_SIG_SIZE) as (g & r'' & -> & Hg); [size_lia|].
    wp_steps. cbn. by drop_rest r''.
  - destruct Hok as (? & ? & ? & ?). unfold ServerHelloPayload_decode. eval_steps. by destruct p.
  - destruct p, q. cbn in *. destruct_and!. peel He.
Qed.

(** ** [ClientFinishPayload] and [ServerAcceptPayload] *)

(** The module's private copy of [decode_bool]. *)
Definition hello_decode_bool (value : byte) (field_name : string) : io_result bool :=
  match value with
  | x00 => Ok false
  | x01 => Ok true
  | _ => Err (Error_new InvalidData (field_name ++ " must be encoded as 0 or 1"))
  end.

Record ClientFinishPayload := mk_ClientFinishPayload { cf_ready : bool }.

Definition ClientFinishPayload_encode (self : ClientFinishPayload) : bytes :=
  [bool_byte (cf_ready self)].

Definition ClientFinishPayload_decode (bs : bytes) : io_result ClientFinishPayload :=
  if negb (zlen bs =? 1) then
    Err (Error_new InvalidData "client_finish payload must be exactly 1 byte")
  else
    b0 ← index bs 0;
    ready ← hello_decode_bool b0 "client_finish ready";
    mret {| cf_ready := ready |}.

#[export] Instance ClientFinishPayload_payload : Payload ClientFinishPayload :=
  {| payload_encode := fun p => Ok (ClientFinishPayload_encode p);
     payload_decode := ClientFinishPayload_decode |}.
#[export] Instance ClientFinishPayload_format : PayloadFormat ClientFinishPayload :=
  {| payload_ok := fun _ => True; payload_fits := fun _ => True;
     payload_layout := fun p => [bool_byte (cf_ready p)] |}.
#[export] Instance ClientFinishPayload_laws : PayloadLaws ClientFinishPayload.
Proof.
  payload_split.
  - done.
  - unfold ClientFinishPayload_decode. wp_steps.
    destruct bs as [|b [|]]; try (exfalso; len_lia).
    change hello_decode_bool with decode_bool. by wp_steps.
  - unfold ClientFinishPayload_decode. change hello_decode_bool with decode_bool.
    eval_steps. by destruct p.
  - destruct p, q. cbn in *. peel He.
Qed.

Record ServerAcceptPayload := mk_ServerAcceptPayload { sa_accepted : bool }.

Definition ServerAcceptPayload_encode (self : ServerAcceptPayload) : bytes :=
  [bool_byte (sa_accepted self)].

Definition ServerAcceptPayload_decode (bs : bytes) : io_result ServerAcceptPayload :=
  if negb (zlen bs =? 1) then
    Err (Error_new InvalidData "server_accept payload must be exactly 1 byte")
  else
    b0 ← index bs 0;
    accepted ← hello_decode_bool b0 "server_accept accepted";
    mret {| sa_accepted := accepted |}.

#[export] Instance ServerAcceptPayload_payload : Payload ServerAcceptPayload :=
  {| payload_encode := fun p => Ok (ServerAcceptPayload_encode p);
     payload_decode := ServerAcceptPayload_decode |}.
#[export] Instance ServerAcceptPayload_format : PayloadFormat ServerAcceptPayload :=
  {| payload_ok := fun _ => True; payload_fits := fun _ => True;
     payload_layout := fun p => [bool_byte (sa_accepted p)] |}.
#[export] Instance ServerAcceptPayload_laws : PayloadLaws ServerAcceptPayload.
Proof.
  payload_split.
  - done.
  - unfold ServerAcceptPayload_decode. wp_steps.
    destruct bs as [|b [|]]; try (exfalso; len_lia).
    change hello_decode_bool with decode_bool. by wp_steps.
  - unfold ServerAcceptPayload_decode. change hello_decode_bool with decode_bool.
    eval_steps. by destruct p.
  - destruct p, q. cbn in *. peel He.
Qed.
