(* ===== verification/AuthPayloads.v ===== *)
(** * [payloads/auth_payloads.rs]: the identity-proof payloads *)
From Stdlib Require Import String.
From S2P Require Import Prelude RustStd Sizes Common.

(** ** [AuthChallengePayload] *)
Record AuthChallengePayload := mk_AuthChallengePayload { ac_nonce : bytes (* [u8; 32] *) }.

Definition AuthChallengePayload_encode (self : AuthChallengePayload) : bytes := ac_nonce self.

Definition AuthChallengePayload_decode (bs : bytes) : io_result AuthChallengePayload :=
  if negb (zlen bs =? 32) then
    Err (Error_new InvalidData "auth_challenge must be exactly 32 bytes")
  else
    nonce ← copy_from_slice 32 bs;
    mret {| ac_nonce := nonce |}.

#[export] Instance AuthChallengePayload_payload : Payload AuthChallengePayload :=
  {| payload_encode := fun p => Ok (AuthChallengePayload_encode p);
     payload_decode := AuthChallengePayload_decode |}.
#[export] Instance AuthChallengePayload_format : PayloadFormat AuthChallengePayload :=
  {| payload_ok := fun p => zlen (ac_nonce p) = 32; payload_fits := fun _ => True;
     payload_layout := fun p => ac_nonce p |}.
#[export] Instance AuthChallengePayload_laws : PayloadLaws AuthChallengePayload.
Proof.
  payload_split.
  - done.
  - unfold AuthChallengePayload_decode. wp_steps. cbn. split_and!; [lia|done..].
  - unfold AuthChallengePayload_decode. eval_steps. by destruct p.
  - destruct p, q. cbn in *. peel He.
Qed.

(** ** [AuthResponsePayload] *)
Record AuthResponsePayload := mk_AuthResponsePayload {
  ar_public_key : bytes;          (* [u8; ML_DSA_65_VK_SIZE] *)
  ar_signature : bytes;           (* [u8; ML_DSA_65_SIG_SIZE] *)
  ar_attestation_token : bytes    (* Vec<u8> *)
}.

Definition AuthResponsePayload_FIXED : Z := ML_DSA_65_VK_SIZE + ML_DSA_65_SIG_SIZE.

Definition AuthResponsePayload_encode (self : AuthResponsePayload) : io_result bytes :=
  att ← encode_sized_bytes (ar_attestation_token self);
  let out := ar_public_key self in
  let out := out ++ ar_signature self in
  let out := out ++ att in
  mret out.

Definition AuthResponsePayload_decode (bs : bytes) : io_result AuthResponsePayload :=
  if zlen bs <? AuthResponsePayload_FIXED + 4 then
    Err (Error_new InvalidData "auth_response too short")
  else
    raw ← slice_to bs ML_DSA_65_VK_SIZE;
    public_key ← ok_or (Error_new InvalidData "invalid public key")
                   (try_into ML_DSA_65_VK_SIZE raw);
    raw ← slice bs ML_DSA_65_VK_SIZE AuthResponsePayload_FIXED;
    signature ← ok_or (Error_new InvalidData "invalid signature")
                  (try_into ML_DSA_65_SIG_SIZE raw);
    tail ← slice_from bs AuthResponsePayload_FIXED;
    '(attestation_token, att_consumed) ← decode_sized_bytes tail;
    total ← usize_add AuthResponsePayload_FIXED att_consumed;
    require_fully_consumed bs total "auth_response";;
    mret {| ar_public_key := public_key;
            ar_signature := signature;
            ar_attestation_token := attestation_token |}.

#[export] Instance AuthResponsePayload_payload : Payload AuthResponsePayload :=
  {| payload_encode := AuthResponsePayload_encode;
     payload_decode := AuthResponsePayload_decode |}.
#[export] Instance AuthResponsePayload_format : PayloadFormat AuthResponsePayload :=
  {| payload_ok := fun p =>
       zlen (ar_public_key p) = ML_DSA_65_VK_SIZE /\ zlen (ar_signature p) = ML_DSA_65_SIG_SIZE;
     payload_fits := fun p => bytes_fit (ar_attestation_token p);
     payload_layout := fun p =>
       ar_public_key p ++ ar_signature p ++ sized_bytes (ar_attestation_token p) |}.
#[export] Instance AuthResponsePayload_laws : PayloadLaws AuthResponsePayload.
Proof.
  payload_split.
  - unfold AuthResponsePayload_encode. enc_steps. split; [done|]. by rewrite <- app_assoc.
  - unfold AuthResponsePayload_decode, AuthResponsePayload_FIXED. wp_steps.
    destruct (split_at bs ML_DSA_65_VK_SIZE) as (k & r & -> & Hk); [size_lia|].
    destruct (split_at r ML_DSA_65_SIG_SIZE) as (g & r' & -> & Hg); [size_lia|].
    wp_steps. cbn. by drop_rest rest.
  - destruct Hok. unfold AuthResponsePayload_decode, AuthResponsePayload_FIXED.
    eval_steps. by destruct p.
  - destruct p, q. cbn in *. destruct_and!. peel He.
Qed.

(** ** [AuthAcceptPayload] and [AuthRejectPayload] *)
Record AuthAcceptPayload := mk_AuthAcceptPayload {}.

Definition AuthAcceptPayload_encode (self : AuthAcceptPayload) : bytes := [].

Definition AuthAcceptPayload_decode (bs : bytes) : io_result AuthAcceptPayload :=
  if negb (zlen bs =? 0) then Err (Error_new InvalidData "auth_accept payload must be empty")
  else mret mk_AuthAcceptPayload.

#[export] Instance AuthAcceptPayload_payload : Payload AuthAcceptPayload :=
  {| payload_encode := fun p => Ok (AuthAcceptPayload_encode p);
     payload_decode := AuthAcceptPayload_decode |}.
#[export] Instance AuthAcceptPayload_format : PayloadFormat AuthAcceptPayload :=
  {| payload_ok := fun _ => True; payload_fits := fun _ => True; payload_layout := fun _ => [] |}.
#[export] Instance AuthAcceptPayload_laws : PayloadLaws AuthAcceptPayload.
Proof.
  payload_split.
  - done.
  - unfold AuthAcceptPayload_decode. wp_steps. split_and!; [done..|].
    apply zlen_zero_nil. lia.
  - unfold AuthAcceptPayload_decode. eval_steps. by destruct p.
  - by destruct p, q.
Qed.

Record AuthRejectPayload := mk_AuthRejectPayload {}.

Definition AuthRejectPayload_encode (self : AuthRejectPayload) : bytes := [].

Definition AuthRejectPayload_decode (bs : bytes) : io_result AuthRejectPayload :=
  if negb (zlen bs =? 0) then Err (Error_new InvalidData "auth_reject payload must be empty")
  else mret mk_AuthRejectPayload.

#[export] Instance AuthRejectPayload_payload : Payload AuthRejectPayload :=
  {| payload_encode := fun p => Ok (AuthRejectPayload_encode p);
     payload_decode := AuthRejectPayload_decode |}.
#[export] Instance AuthRejectPayload_format : PayloadFormat AuthRejectPayload :=
  {| payload_ok := fun _ => True; payload_fits := fun _ => True; payload_layout := fun _ => [] |}.
#[export] Instance AuthRejectPayload_laws : PayloadLaws AuthRejectPayload.
Proof.
  payload_split.
  - done.
  - unfold AuthRejectPayload_decode. wp_steps. split_and!; [done..|].
    apply zlen_zero_nil. lia.
  - unfold AuthRejectPayload_decode. eval_steps. by destruct p.
  - by destruct p, q.
Qed.
