(* ===== verification/MessagePayloads.v ===== *)
(** * [payloads/message_payloads.rs]: messages and their delivery tracking *)
From Stdlib Require Import String.
From S2P Require Import Prelude RustStd Common.

(** ** [SendMessagePayload] *)
Record SendMessagePayload := mk_SendMessagePayload {
  sm_message_id : Z;        (* u64 *)
  sm_recipient_id : bytes;  (* String *)
  sm_content : bytes        (* Vec<u8> *)
}.

Definition SendMessagePayload_encode (self : SendMessagePayload) : io_result bytes :=
  recipient ← encode_sized_string (sm_recipient_id self);
  content ← encode_sized_bytes (sm_content self);
  let out := to_be_bytes 8 (sm_message_id self) in
  let out := out ++ recipient in
  let out := out ++ content in
  mret out.

Definition SendMessagePayload_decode (bs : bytes) : io_result SendMessagePayload :=
  if zlen bs <? 8 then Err (Error_new InvalidData "send_message too short for message_id")
  else
    raw ← slice_to bs 8;
    arr ← ok_or (Error_new InvalidData "failed to decode send_message message_id")
            (try_into 8 raw);
    let message_id := from_be_bytes arr in
    tail ← slice_from bs 8;
    '(recipient_id, recipient_consumed) ← decode_sized_string tail;
    start ← usize_add 8 recipient_consumed;
    tail ← slice_from bs start;
    '(content, content_consumed) ← decode_sized_bytes tail;
    consumed ← ok_or (Error_new InvalidData "send_message length overflow")
      (n ← checked_add usize_max 8 recipient_consumed;
       checked_add usize_max n content_consumed);
    if negb (zlen bs =? consumed) then
      Err (Error_new InvalidData "send_message payload length mismatch")
    else
      mret {| sm_message_id := message_id;
              sm_recipient_id := recipient_id;
              sm_content := content |}.

#[export] Instance SendMessagePayload_payload : Payload SendMessagePayload :=
  {| payload_encode := SendMessagePayload_encode; payload_decode := SendMessagePayload_decode |}.
#[export] Instance SendMessagePayload_format : PayloadFormat SendMessagePayload :=
  {| payload_ok := fun p => is_u64 (sm_message_id p) /\ is_str (sm_recipient_id p);
     payload_fits := fun p => str_fits (sm_recipient_id p) /\ bytes_fit (sm_content p);
     payload_layout := fun p =>
       to_be_bytes 8 (sm_message_id p) ++ sized_string (sm_recipient_id p)
       ++ sized_bytes (sm_content p) |}.
#[export] Instance SendMessagePayload_laws : PayloadLaws SendMessagePayload.
Proof.
  payload_split.
  - unfold SendMessagePayload_encode. enc_steps. split; [done|]. by rewrite <- app_assoc.
  - unfold SendMessagePayload_decode. wp_steps.
    destruct (split_at bs 8) as (m & r & -> & Hm); [len_lia|].
    destruct (be_u64_view m Hm) as [Hm1 Hm2]. wp_steps. cbn. rewrite Hm2. by drop_rest rest0.
  - destruct Hok, Hfit. unfold SendMessagePayload_decode. eval_steps.
    rewrite from_be_u64 by done. by destruct p.
  - destruct p, q. cbn in *. destruct_and!. peel He.
Qed.

(** ** [DeliverMessagePayload] *)
Record DeliverMessagePayload := mk_DeliverMessagePayload {
  dm_message_id : Z;        (* u64 *)
  dm_sender_id : bytes;     (* String *)
  dm_content : bytes        (* Vec<u8> *)
}.

Definition DeliverMessagePayload_encode (self : DeliverMessagePayload) : io_result bytes :=
  sender ← encode_sized_string (dm_sender_id self);
  content ← encode_sized_bytes (dm_content self);
  let out := to_be_bytes 8 (dm_message_id self) in
  let out := out ++ sender in
  let out := out ++ content in
  mret out.

Definition DeliverMessagePayload_decode (bs : bytes) : io_result DeliverMessagePayload :=
  if zlen bs <? 8 then Err (Error_new InvalidData "deliver_message too short for message_id")
  else
    raw ← slice_to bs 8;
    arr ← ok_or (Error_new InvalidData "failed to decode deliver_message message_id")
            (try_into 8 raw);
    let message_id := from_be_bytes arr in
    tail ← slice_from bs 8;
    '(sender_id, sender_consumed) ← decode_sized_string tail;
    start ← usize_add 8 sender_consumed;
    tail ← slice_from bs start;
    '(content, content_consumed) ← decode_sized_bytes tail;
    consumed ← ok_or (Error_new InvalidData "deliver_message length overflow")
      (n ← checked_add usize_max 8 sender_consumed;
       checked_add usize_max n content_consumed);
    if negb (zlen bs =? consumed) then
      Err (Error_new InvalidData "deliver_message payload length mismatch")
    else
      mret {| dm_message_id := message_id;
              dm_sender_id := sender_id;
              dm_content := content |}.

#[export] Instance DeliverMessagePayload_payload : Payload DeliverMessagePayload :=
  {| payload_encode := DeliverMessagePayload_encode;
     payload_decode := DeliverMessagePayload_decode |}.
#[export] Instance DeliverMessagePayload_format : PayloadFormat DeliverMessagePayload :=
  {| payload_ok := fun p => is_u64 (dm_message_id p) /\ is_str (dm_sender_id p);
     payload_fits := fun p => str_fits (dm_sender_id p) /\ bytes_fit (dm_content p);
     payload_layout := fun p =>
       to_be_bytes 8 (dm_message_id p) ++ sized_string (dm_sender_id p)
       ++ sized_bytes (dm_content p) |}.
#[export] Instance DeliverMessagePayload_laws : PayloadLaws DeliverMessagePayload.
Proof.
  payload_split.
  - unfold DeliverMessagePayload_encode. enc_steps. split; [done|]. by rewrite <- app_assoc.
  - unfold DeliverMessagePayload_decode. wp_steps.
    destruct (split_at bs 8) as (m & r & -> & Hm); [len_lia|].
    destruct (be_u64_view m Hm) as [Hm1 Hm2]. wp_steps. cbn. rewrite Hm2. by drop_rest rest0.
  - destruct Hok, Hfit. unfold DeliverMessagePayload_decode. eval_steps.
    rewrite from_be_u64 by done. by destruct p.
  - destruct p, q. cbn in *. destruct_and!. peel He.
Qed.

(** ** [MessageStatus] and [MessageStatusUpdatePayload] *)
Inductive MessageStatus :=
| MessageStatus_SentToServer
| MessageStatus_Delivered
| MessageStatus_Failed.

Definition MessageStatus_as_u8 (self : MessageStatus) : byte :=
  match self with
  | MessageStatus_SentToServer => x00
  | MessageStatus_Delivered => x01
  | MessageStatus_Failed => x02
  end.

Definition MessageStatus_from_u8 (v : byte) : io_result MessageStatus :=
  match v with
  | x00 => Ok MessageStatus_SentToServer
  | x01 => Ok MessageStatus_Delivered
  | x02 => Ok MessageStatus_Failed
  | _ => Err (Error_new InvalidData "unknown message_status value")
  end.

#[export] Instance MessageStatus_code : ByteCode MessageStatus :=
  {| code_as_u8 := MessageStatus_as_u8; code_from_u8 := MessageStatus_from_u8 |}.
#[export] Instance MessageStatus_code_laws : ByteCodeLaws MessageStatus.
Proof. by split; [intros []|intros []]. Qed.

Record MessageStatusUpdatePayload := mk_MessageStatusUpdatePayload {
  msu_message_id : Z;       (* u64 *)
  msu_status : MessageStatus
}.

Definition MessageStatusUpdatePayload_encode (self : MessageStatusUpdatePayload) : bytes :=
  let out := to_be_bytes 8 (msu_message_id self) in
  let out := out ++ [MessageStatus_as_u8 (msu_status self)] in
  out.

Definition MessageStatusUpdatePayload_decode (bs : bytes)
    : io_result MessageStatusUpdatePayload :=
  if negb (zlen bs =? 9) then
    Err (Error_new InvalidData
           ("message_status_update must be 9 bytes, got " ++ fmt_dec (zlen bs)))
  else
    raw ← slice_to bs 8;
    arr ← ok_or (Error_new InvalidData "failed to decode message_status_update message_id")
            (try_into 8 raw);
    let message_id := from_be_bytes arr in
    b8 ← index bs 8;
    status ← MessageStatus_from_u8 b8;
    mret {| msu_message_id := message_id; msu_status := status |}.

#[export] Instance MessageStatusUpdatePayload_payload : Payload MessageStatusUpdatePayload :=
  {| payload_encode := fun p => Ok (MessageStatusUpdatePayload_encode p);
     payload_decode := MessageStatusUpdatePayload_decode |}.
#[export] Instance MessageStatusUpdatePayload_format : PayloadFormat MessageStatusUpdatePayload :=
  {| payload_ok := fun p => is_u64 (msu_message_id p); payload_fits := fun _ => True;
     payload_layout := fun p =>
       to_be_bytes 8 (msu_message_id p) ++ [MessageStatus_as_u8 (msu_status p)] |}.
#[export] Instance MessageStatusUpdatePayload_laws : PayloadLaws MessageStatusUpdatePayload.
Proof.
  payload_split.
  - done.
  - unfold MessageStatusUpdatePayload_decode. wp_steps.
    destruct (split_exact bs 8 1) as (m & r & -> & Hm & Hr); [lia..|].
    destruct (be_u64_view m Hm) as [Hm1 Hm2].
    destruct r as [|b [|]]; try (exfalso; len_lia). wp_steps. cbn. by rewrite Hm2.
  - unfold MessageStatusUpdatePayload_decode. eval_steps.
    rewrite from_be_u64 by done. by destruct p.
  - destruct p, q. cbn in *. peel He.
Qed.

(** ** [DeliveryReceiptPayload] *)
Record DeliveryReceiptPayload := mk_DeliveryReceiptPayload { dr_message_id : Z (* u64 *) }.

Definition DeliveryReceiptPayload_encode (self : DeliveryReceiptPayload) : bytes :=
  to_be_bytes 8 (dr_message_id self).

Definition DeliveryReceiptPayload_decode (bs : bytes) : io_result DeliveryReceiptPayload :=
  if negb (zlen bs =? 8) then
    Err (Error_new InvalidData ("delivery_receipt must be 8 bytes, got " ++ fmt_dec (zlen bs)))
  else
    arr ← ok_or (Error_new InvalidData "failed to decode delivery_receipt message_id")
            (try_into 8 bs);
    let message_id := from_be_bytes arr in
    mret {| dr_message_id := message_id |}.

#[export] Instance DeliveryReceiptPayload_payload : Payload DeliveryReceiptPayload :=
  {| payload_encode := fun p => Ok (DeliveryReceiptPayload_encode p);
     payload_decode := DeliveryReceiptPayload_decode |}.
#[export] Instance DeliveryReceiptPayload_format : PayloadFormat DeliveryReceiptPayload :=
  {| payload_ok := fun p => is_u64 (dr_message_id p); payload_fits := fun _ => True;
     payload_layout := fun p => to_be_bytes 8 (dr_message_id p) |}.
#[export] Instance DeliveryReceiptPayload_laws : PayloadLaws DeliveryReceiptPayload.
Proof.
  payload_split.
  - done.
  - unfold DeliveryReceiptPayload_decode. wp_steps. cbn.
    destruct (be_u64_view bs) as [? Hb]; [lia|]. by rewrite Hb.
  - unfold DeliveryReceiptPayload_decode. eval_steps.
    rewrite from_be_u64 by done. by destruct p.
  - destruct p, q. cbn in *. peel He.
Qed.
