(* ===== verification/QueuePayloads.v ===== *)
(** * [payloads/queue_payloads.rs]: the offline message queue *)
From Stdlib Require Import String.
From S2P Require Import Prelude RustStd Common.

Record FetchQueuedMessagesPayload := mk_FetchQueuedMessagesPayload {}.

Definition FetchQueuedMessagesPayload_encode (self : FetchQueuedMessagesPayload) : bytes := [].

Definition FetchQueuedMessagesPayload_decode (bs : bytes)
    : io_result FetchQueuedMessagesPayload :=
  require_fully_consumed bs 0 "fetch_queued_messages";;
  mret mk_FetchQueuedMessagesPayload.

#[export] Instance FetchQueuedMessagesPayload_payload : Payload FetchQueuedMessagesPayload :=
  {| payload_encode := fun p => Ok (FetchQueuedMessagesPayload_encode p);
     payload_decode := FetchQueuedMessagesPayload_decode |}.
#[export] Instance FetchQueuedMessagesPayload_format : PayloadFormat FetchQueuedMessagesPayload :=
  {| payload_ok := fun _ => True; payload_fits := fun _ => True; payload_layout := fun _ => [] |}.
#[export] Instance FetchQueuedMessagesPayload_laws : PayloadLaws FetchQueuedMessagesPayload.
Proof.
  payload_split.
  - done.
  - unfold FetchQueuedMessagesPayload_decode. wp_steps. cbn. by apply zlen_zero_nil in Hlen.
  - unfold FetchQueuedMessagesPayload_decode. eval_steps. by destruct p.
  - by destruct p, q.
Qed.

Record QueuedMessageDeliveryPayload := mk_QueuedMessageDeliveryPayload {
  qm_queue_id : Z;        (* u64 *)
  qm_message_id : Z;      (* u64 *)
  qm_sender_id : bytes;   (* String *)
  qm_content : bytes      (* Vec<u8> *)
}.

Definition QueuedMessageDeliveryPayload_encode (self : QueuedMessageDeliveryPayload)
    : io_result bytes :=
  sender ← encode_sized_string (qm_sender_id self);
  content ← encode_sized_bytes (qm_content self);
  let out := to_be_bytes 8 (qm_queue_id self) in
  let out := out ++ to_be_bytes 8 (qm_message_id self) in
  let out := out ++ sender in
  let out := out ++ content in
  mret out.

Definition QueuedMessageDeliveryPayload_decode (bs : bytes)
    : io_result QueuedMessageDeliveryPayload :=
  if zlen bs <? 16 then
    Err (Error_new InvalidData "queued_message_delivery too short for ids")
  else
    raw ← slice_to bs 8;
    arr ← ok_or (Error_new InvalidData "failed to decode queued_message_delivery queue_id")
            (try_into 8 raw);
    let queue_id := from_be_bytes arr in
    raw ← slice bs 8 16;
    arr ← ok_or (Error_new InvalidData "failed to decode queued_message_delivery message_id")
            (try_into 8 raw);
    let message_id := from_be_bytes arr in
    tail ← slice_from bs 16;
    '(sender_id, sender_consumed) ← decode_sized_string tail;
    start ← usize_add 16 sender_consumed;
    tail ← slice_from bs start;
    '(content, content_consumed) ← decode_sized_bytes tail;
    consumed ← ok_or (Error_new InvalidData "queued_message_delivery length overflow")
      (n ← checked_add usize_max 16 sender_consumed;
       checked_add usize_max n content_consumed);
    require_fully_consumed bs consumed "queued_message_delivery";;
    mret {| qm_queue_id := queue_id;
            qm_message_id := message_id;
            qm_sender_id := sender_id;
            qm_content := content |}.

#[export] Instance QueuedMessageDeliveryPayload_payload : Payload QueuedMessageDeliveryPayload :=
  {| payload_encode := QueuedMessageDeliveryPayload_encode;
     payload_decode := QueuedMessageDeliveryPayload_decode |}.
#[export] Instance QueuedMessageDeliveryPayload_format
    : PayloadFormat QueuedMessageDeliveryPayload :=
  {| payload_ok := fun p =>
       is_u64 (qm_queue_id p) /\ is_u64 (qm_message_id p) /\ is_str (qm_sender_id p);
     payload_fits := fun p => str_fits (qm_sender_id p) /\ bytes_fit (qm_content p);
     payload_layout := fun p =>
       to_be_bytes 8 (qm_queue_id p) ++ to_be_bytes 8 (qm_message_id p)
       ++ sized_string (qm_sender_id p) ++ sized_bytes (qm_content p) |}.
#[export] Instance QueuedMessageDeliveryPayload_laws : PayloadLaws QueuedMessageDeliveryPayload.
Proof.
  payload_split.
  - unfold QueuedMessageDeliveryPayload_encode. enc_steps. split; [done|].
    by rewrite <- !app_assoc.
  - unfold QueuedMessageDeliveryPayload_decode. wp_steps.
    destruct (split_at bs 8) as (i & r & -> & Hi); [len_lia|].
    destruct (split_at r 8) as (m & r' & -> & Hm); [len_lia|].
    destruct (be_u64_view i Hi) as [Hi1 Hi2]. destruct (be_u64_view m Hm) as [Hm1 Hm2].
    wp_steps. cbn. rewrite Hi2, Hm2. by drop_rest rest0.
  - destruct Hok as (? & ? & ?), Hfit. unfold QueuedMessageDeliveryPayload_decode. eval_steps.
    rewrite !from_be_u64 by done. by destruct p.
  - destruct p, q. cbn in *. destruct_and!. peel He.
Qed.

Record AckQueuedMessagePayload := mk_AckQueuedMessagePayload { aq_queue_id : Z (* u64 *) }.

Definition AckQueuedMessagePayload_encode (self : AckQueuedMessagePayload) : bytes :=
  to_be_bytes 8 (aq_queue_id self).

Definition AckQueuedMessagePayload_decode (bs : bytes) : io_result AckQueuedMessagePayload :=
  if negb (zlen bs =? 8) then
    Err (Error_new InvalidData
           ("invalid ack_queued_message length: expected 8, got " ++ fmt_dec (zlen bs)))
  else
    arr ← ok_or (Error_new InvalidData "failed to decode ack_queued_message queue_id")
            (try_into 8 bs);
    let queue_id := from_be_bytes arr in
    mret {| aq_queue_id := queue_id |}.

#[export] Instance AckQueuedMessagePayload_payload : Payload AckQueuedMessagePayload :=
  {| payload_encode := fun p => Ok (AckQueuedMessagePayload_encode p);
     payload_decode := AckQueuedMessagePayload_decode |}.
#[export] Instance AckQueuedMessagePayload_format : PayloadFormat AckQueuedMessagePayload :=
  {| payload_ok := fun p => is_u64 (aq_queue_id p); payload_fits := fun _ => True;
     payload_layout := fun p => to_be_bytes 8 (aq_queue_id p) |}.
#[export] Instance AckQueuedMessagePayload_laws : PayloadLaws AckQueuedMessagePayload.
Proof.
  payload_split.
  - done.
  - unfold AckQueuedMessagePayload_decode. wp_steps. cbn.
    destruct (be_u64_view bs) as [? Hb]; [lia|]. by rewrite Hb.
  - unfold AckQueuedMessagePayload_decode. eval_steps.
    rewrite from_be_u64 by done. by destruct p.
  - destruct p, q. cbn in *. peel He.
Qed.
