(* ===== verification/FriendPayloads.v ===== *)
(** * [payloads/friend_payloads.rs]: friends, presence and typing *)
From Stdlib Require Import String.
From S2P Require Import Prelude RustStd Common.

(** ** [SendFriendRequestPayload] *)
Record SendFriendRequestPayload := mk_SendFriendRequestPayload { sfr_target_username : bytes (* String *) }.

Definition SendFriendRequestPayload_encode (self : SendFriendRequestPayload) : io_result bytes :=
  encode_sized_string (sfr_target_username self).

Definition SendFriendRequestPayload_decode (bs : bytes) : io_result SendFriendRequestPayload :=
  '(target_username, consumed) ← decode_sized_string bs;
  require_fully_consumed bs consumed "send_friend_request";;
  mret {| sfr_target_username := target_username |}.

#[export] Instance SendFriendRequestPayload_payload : Payload SendFriendRequestPayload :=
  {| payload_encode := SendFriendRequestPayload_encode; payload_decode := SendFriendRequestPayload_decode |}.
#[export] Instance SendFriendRequestPayload_format : PayloadFormat SendFriendRequestPayload :=
  {| payload_ok := fun p => is_str (sfr_target_username p);
     payload_fits := fun p => str_fits (sfr_target_username p);
     payload_layout := fun p => sized_string (sfr_target_username p) |}.
#[export] Instance SendFriendRequestPayload_laws : PayloadLaws SendFriendRequestPayload.
Proof.
  payload_split.
  - unfold SendFriendRequestPayload_encode. enc_steps. done.
  - unfold SendFriendRequestPayload_decode. wp_steps. cbn. by drop_rest rest.
  - unfold SendFriendRequestPayload_decode. eval_steps. by destruct p.
  - destruct p, q. cbn in *. peel He.
Qed.

(** ** [FriendRequestStatus] *)
Inductive FriendRequestStatus :=
| FriendRequestStatus_Accepted
| FriendRequestStatus_Rejected
| FriendRequestStatus_UserNotFound.

Definition FriendRequestStatus_as_u8 (self : FriendRequestStatus) : byte :=
  match self with
  | FriendRequestStatus_Accepted => x00
  | FriendRequestStatus_Rejected => x01
  | FriendRequestStatus_UserNotFound => x02
  end.

Definition FriendRequestStatus_from_u8 (v : byte) : io_result FriendRequestStatus :=
  match v with
  | x00 => Ok FriendRequestStatus_Accepted
  | x01 => Ok FriendRequestStatus_Rejected
  | x02 => Ok FriendRequestStatus_UserNotFound
  | _ => Err (Error_new InvalidData "unknown friend_request status")
  end.

#[export] Instance FriendRequestStatus_code : ByteCode FriendRequestStatus :=
  {| code_as_u8 := FriendRequestStatus_as_u8; code_from_u8 := FriendRequestStatus_from_u8 |}.
#[export] Instance FriendRequestStatus_code_laws : ByteCodeLaws FriendRequestStatus.
Proof. by split; [intros []|intros []]. Qed.

(** ** [FriendRequestResultPayload] *)
Record FriendRequestResultPayload := mk_FriendRequestResultPayload { frr_status : FriendRequestStatus }.

Definition FriendRequestResultPayload_encode (self : FriendRequestResultPayload) : bytes :=
  [FriendRequestStatus_as_u8 (frr_status self)].

Definition FriendRequestResultPayload_decode (bs : bytes) : io_result FriendRequestResultPayload :=
  if negb (zlen bs =? 1) then
    Err (Error_new InvalidData "friend_request_result must be exactly 1 byte")
  else
    b0 ← index bs 0;
    status ← FriendRequestStatus_from_u8 b0;
    mret {| frr_status := status |}.

#[export] Instance FriendRequestResultPayload_payload : Payload FriendRequestResultPayload :=
  {| payload_encode := fun p => Ok (FriendRequestResultPayload_encode p);
     payload_decode := FriendRequestResultPayload_decode |}.
#[export] Instance FriendRequestResultPayload_format : PayloadFormat FriendRequestResultPayload :=
  {| payload_ok := fun _ => True; payload_fits := fun _ => True;
     payload_layout := fun p => [FriendRequestStatus_as_u8 (frr_status p)] |}.
#[export] Instance FriendRequestResultPayload_laws : PayloadLaws FriendRequestResultPayload.
Proof.
  payload_split.
  - done.
  - unfold FriendRequestResultPayload_decode. wp_steps.
    destruct bs as [|b [|]]; try (exfalso; len_lia). by wp_steps.
  - unfold FriendRequestResultPayload_decode. eval_steps. by destruct p.
  - destruct p, q. cbn in *. peel He.
Qed.

(** ** [IncomingFriendRequestPayload] *)
Record IncomingFriendRequestPayload := mk_IncomingFriendRequestPayload { ifr_sender_username : bytes (* String *) }.

Definition IncomingFriendRequestPayload_encode (self : IncomingFriendRequestPayload) : io_result bytes :=
  encode_sized_string (ifr_sender_username self).

Definition IncomingFriendRequestPayload_decode (bs : bytes) : io_result IncomingFriendRequestPayload :=
  '(sender_username, consumed) ← decode_sized_string bs;
  require_fully_consumed bs consumed "incoming_friend_request";;
  mret {| ifr_sender_username := sender_username |}.

#[export] Instance IncomingFriendRequestPayload_payload : Payload IncomingFriendRequestPayload :=
  {| payload_encode := IncomingFriendRequestPayload_encode; payload_decode := IncomingFriendRequestPayload_decode |}.
#[export] Instance IncomingFriendRequestPayload_format : PayloadFormat IncomingFriendRequestPayload :=
  {| payload_ok := fun p => is_str (ifr_sender_username p);
     payload_fits := fun p => str_fits (ifr_sender_username p);
     payload_layout := fun p => sized_string (ifr_sender_username p) |}.
#[export] Instance IncomingFriendRequestPayload_laws : PayloadLaws IncomingFriendRequestPayload.
Proof.
  payload_split.
  - unfold IncomingFriendRequestPayload_encode. enc_steps. done.
  - unfold IncomingFriendRequestPayload_decode. wp_steps. cbn. by drop_rest rest.
  - unfold IncomingFriendRequestPayload_decode. eval_steps. by destruct p.
  - destruct p, q. cbn in *. peel He.
Qed.

(** ** [FriendRequestDecisionPayload] *)
Record FriendRequestDecisionPayload := mk_FriendRequestDecisionPayload {
  frd_sender_username : bytes;  (* String *)
  frd_accepted : bool
}.

Definition FriendRequestDecisionPayload_encode (self : FriendRequestDecisionPayload)
    : io_result bytes :=
  out ← encode_sized_string (frd_sender_username self);
  mret (out ++ [bool_byte (frd_accepted self)]).

Definition FriendRequestDecisionPayload_decode (bs : bytes)
    : io_result FriendRequestDecisionPayload :=
  '(sender_username, consumed) ← decode_sized_string bs;
  total ← usize_add consumed 1;
  if negb (zlen bs =? total) then
    Err (Error_new InvalidData "friend_request_decision payload length mismatch")
  else
    b ← index bs consumed;
    accepted ← decode_bool b "friend_request_decision accepted";
    mret {| frd_sender_username := sender_username; frd_accepted := accepted |}.

#[export] Instance FriendRequestDecisionPayload_payload : Payload FriendRequestDecisionPayload :=
  {| payload_encode := FriendRequestDecisionPayload_encode;
     payload_decode := FriendRequestDecisionPayload_decode |}.
#[export] Instance FriendRequestDecisionPayload_format
    : PayloadFormat FriendRequestDecisionPayload :=
  {| payload_ok := fun p => is_str (frd_sender_username p);
     payload_fits := fun p => str_fits (frd_sender_username p);
     payload_layout := fun p =>
       sized_string (frd_sender_username p) ++ [bool_byte (frd_accepted p)] |}.
#[export] Instance FriendRequestDecisionPayload_laws : PayloadLaws FriendRequestDecisionPayload.
Proof.
  payload_split.
  - unfold FriendRequestDecisionPayload_encode. enc_steps. done.
  - unfold FriendRequestDecisionPayload_decode. wp_steps.
    destruct rest as [|b [|]]; try (exfalso; size_lia). by wp_steps.
  - unfold FriendRequestDecisionPayload_decode. eval_steps. by destruct p.
  - destruct p, q. cbn in *. peel He.
Qed.

(** ** [RemoveFriendPayload] *)
Record RemoveFriendPayload := mk_RemoveFriendPayload { rf_friend_username : bytes (* String *) }.

Definition RemoveFriendPayload_encode (self : RemoveFriendPayload) : io_result bytes :=
  encode_sized_string (rf_friend_username self).

Definition RemoveFriendPayload_decode (bs : bytes) : io_result RemoveFriendPayload :=
  '(friend_username, consumed) ← decode_sized_string bs;
  require_fully_consumed bs consumed "remove_friend";;
  mret {| rf_friend_username := friend_username |}.

#[export] Instance RemoveFriendPayload_payload : Payload RemoveFriendPayload :=
  {| payload_encode := RemoveFriendPayload_encode; payload_decode := RemoveFriendPayload_decode |}.
#[export] Instance RemoveFriendPayload_format : PayloadFormat RemoveFriendPayload :=
  {| payload_ok := fun p => is_str (rf_friend_username p);
     payload_fits := fun p => str_fits (rf_friend_username p);
     payload_layout := fun p => sized_string (rf_friend_username p) |}.
#[export] Instance RemoveFriendPayload_laws : PayloadLaws RemoveFriendPayload.
Proof.
  payload_split.
  - unfold RemoveFriendPayload_encode. enc_steps. done.
  - unfold RemoveFriendPayload_decode. wp_steps. cbn. by drop_rest rest.
  - unfold RemoveFriendPayload_decode. eval_steps. by destruct p.
  - destruct p, q. cbn in *. peel He.
Qed.

(** ** [RemoveFriendStatus] *)
Inductive RemoveFriendStatus :=
| RemoveFriendStatus_Success
| RemoveFriendStatus_NotFound.

Definition RemoveFriendStatus_as_u8 (self : RemoveFriendStatus) : byte :=
  match self with
  | RemoveFriendStatus_Success => x00
  | RemoveFriendStatus_NotFound => x01
  end.

Definition RemoveFriendStatus_from_u8 (v : byte) : io_result RemoveFriendStatus :=
  match v with
  | x00 => Ok RemoveFriendStatus_Success
  | x01 => Ok RemoveFriendStatus_NotFound
  | _ => Err (Error_new InvalidData "unknown remove_friend status")
  end.

#[export] Instance RemoveFriendStatus_code : ByteCode RemoveFriendStatus :=
  {| code_as_u8 := RemoveFriendStatus_as_u8; code_from_u8 := RemoveFriendStatus_from_u8 |}.
#[export] Instance RemoveFriendStatus_code_laws : ByteCodeLaws RemoveFriendStatus.
Proof. by split; [intros []|intros []]. Qed.

(** ** [RemoveFriendResultPayload] *)
Record RemoveFriendResultPayload := mk_RemoveFriendResultPayload { rfr_status : RemoveFriendStatus }.

Definition RemoveFriendResultPayload_encode (self : RemoveFriendResultPayload) : bytes :=
  [RemoveFriendStatus_as_u8 (rfr_status self)].

Definition RemoveFriendResultPayload_decode (bs : bytes) : io_result RemoveFriendResultPayload :=
  if negb (zlen bs =? 1) then
    Err (Error_new InvalidData "remove_friend_result must be exactly 1 byte")
  else
    b0 ← index bs 0;
    status ← RemoveFriendStatus_from_u8 b0;
    mret {| rfr_status := status |}.

#[export] Instance RemoveFriendResultPayload_payload : Payload RemoveFriendResultPayload :=
  {| payload_encode := fun p => Ok (RemoveFriendResultPayload_encode p);
     payload_decode := RemoveFriendResultPayload_decode |}.
#[export] Instance RemoveFriendResultPayload_format : PayloadFormat RemoveFriendResultPayload :=
  {| payload_ok := fun _ => True; payload_fits := fun _ => True;
     payload_layout := fun p => [RemoveFriendStatus_as_u8 (rfr_status p)] |}.
#[export] Instance RemoveFriendResultPayload_laws : PayloadLaws RemoveFriendResultPayload.
Proof.
  payload_split.
  - done.
  - unfold RemoveFriendResultPayload_decode. wp_steps.
    destruct bs as [|b [|]]; try (exfalso; len_lia). by wp_steps.
  - unfold RemoveFriendResultPayload_decode. eval_steps. by destruct p.
  - destruct p, q. cbn in *. peel He.
Qed.

(** ** [FriendRemovedNotificationPayload] *)
Record FriendRemovedNotificationPayload := mk_FriendRemovedNotificationPayload { frn_removed_by_username : bytes (* String *) }.

Definition FriendRemovedNotificationPayload_encode (self : FriendRemovedNotificationPayload) : io_result bytes :=
  encode_sized_string (frn_removed_by_username self).

Definition FriendRemovedNotificationPayload_decode (bs : bytes) : io_result FriendRemovedNotificationPayload :=
  '(removed_by_username, consumed) ← decode_sized_string bs;
  require_fully_consumed bs consumed "friend_removed_notification";;
  mret {| frn_removed_by_username := removed_by_username |}.

#[export] Instance FriendRemovedNotificationPayload_payload : Payload FriendRemovedNotificationPayload :=
  {| payload_encode := FriendRemovedNotificationPayload_encode; payload_decode := FriendRemovedNotificationPayload_decode |}.
#[export] Instance FriendRemovedNotificationPayload_format : PayloadFormat FriendRemovedNotificationPayload :=
  {| payload_ok := fun p => is_str (frn_removed_by_username p);
     payload_fits := fun p => str_fits (frn_removed_by_username p);
     payload_layout := fun p => sized_string (frn_removed_by_username p) |}.
#[export] Instance FriendRemovedNotificationPayload_laws : PayloadLaws FriendRemovedNotificationPayload.
Proof.
  payload_split.
  - unfold FriendRemovedNotificationPayload_encode. enc_steps. done.
  - unfold FriendRemovedNotificationPayload_decode. wp_steps. cbn. by drop_rest rest.
  - unfold FriendRemovedNotificationPayload_decode. eval_steps. by destruct p.
  - destruct p, q. cbn in *. peel He.
Qed.

(** ** [FriendStatus] *)
Inductive FriendStatus :=
| FriendStatus_Online
| FriendStatus_Offline
| FriendStatus_IsTyping.

Definition FriendStatus_as_u8 (self : FriendStatus) : byte :=
  match self with
  | FriendStatus_Online => x00
  | FriendStatus_Offline => x01
  | FriendStatus_IsTyping => x02
  end.

Definition FriendStatus_from_u8 (v : byte) : io_result FriendStatus :=
  match v with
  | x00 => Ok FriendStatus_Online
  | x01 => Ok FriendStatus_Offline
  | x02 => Ok FriendStatus_IsTyping
  | _ => Err (Error_new InvalidData "unknown friend_status value")
  end.

#[export] Instance FriendStatus_code : ByteCode FriendStatus :=
  {| code_as_u8 := FriendStatus_as_u8; code_from_u8 := FriendStatus_from_u8 |}.
#[export] Instance FriendStatus_code_laws : ByteCodeLaws FriendStatus.
Proof. by split; [intros []|intros []]. Qed.

(** ** [FriendStatusUpdatePayload] *)
Record FriendStatusUpdatePayload := mk_FriendStatusUpdatePayload {
  fsu_friend_username : bytes;  (* String *)
  fsu_status : FriendStatus;
  fsu_last_seen : Z             (* u64 *)
}.

Definition FriendStatusUpdatePayload_encode (self : FriendStatusUpdatePayload)
    : io_result bytes :=
  out ← encode_sized_string (fsu_friend_username self);
  let out := out ++ [FriendStatus_as_u8 (fsu_status self)] in
  let out := out ++ to_be_bytes 8 (fsu_last_seen self) in
  mret out.

Definition FriendStatusUpdatePayload_decode (bs : bytes) : io_result FriendStatusUpdatePayload :=
  '(friend_username, consumed) ← decode_sized_string bs;
  rest ← slice_from bs consumed;
  if negb (zlen rest =? 9) then
    Err (Error_new InvalidData "friend_status_update missing status/last_seen fields")
  else
    r0 ← index rest 0;
    status ← FriendStatus_from_u8 r0;
    raw ← slice rest 1 9;
    arr ← ok_or (Error_new InvalidData "failed to decode friend_status_update last_seen")
            (try_into 8 raw);
    let last_seen := from_be_bytes arr in
    mret {| fsu_friend_username := friend_username;
            fsu_status := status;
            fsu_last_seen := last_seen |}.

#[export] Instance FriendStatusUpdatePayload_payload : Payload FriendStatusUpdatePayload :=
  {| payload_encode := FriendStatusUpdatePayload_encode;
     payload_decode := FriendStatusUpdatePayload_decode |}.
#[export] Instance FriendStatusUpdatePayload_format : PayloadFormat FriendStatusUpdatePayload :=
  {| payload_ok := fun p => is_str (fsu_friend_username p) /\ is_u64 (fsu_last_seen p);
     payload_fits := fun p => str_fits (fsu_friend_username p);
     payload_layout := fun p =>
       sized_string (fsu_friend_username p)
       ++ FriendStatus_as_u8 (fsu_status p) :: to_be_bytes 8 (fsu_last_seen p) |}.
#[export] Instance FriendStatusUpdatePayload_laws : PayloadLaws FriendStatusUpdatePayload.
Proof.
  payload_split.
  - unfold FriendStatusUpdatePayload_encode. enc_steps. split; [done|]. by rewrite <- !app_assoc.
  - unfold FriendStatusUpdatePayload_decode. wp_steps.
    destruct (split_one rest) as (r0 & r & ->); [len_lia|].
    assert (zlen r = 8) as Hr by len_lia.
    destruct (be_u64_view r Hr) as [Hr1 Hr2]. wp_steps. cbn. by rewrite Hr2.
  - destruct Hok. unfold FriendStatusUpdatePayload_decode. eval_steps.
    rewrite from_be_u64 by done. by destruct p.
  - destruct p, q. cbn in *. destruct_and!. peel He.
Qed.

(** ** [SendTypingIndicatorPayload] *)
Record SendTypingIndicatorPayload := mk_SendTypingIndicatorPayload { sti_recipient_username : bytes (* String *) }.

Definition SendTypingIndicatorPayload_encode (self : SendTypingIndicatorPayload) : io_result bytes :=
  encode_sized_string (sti_recipient_username self).

Definition SendTypingIndicatorPayload_decode (bs : bytes) : io_result SendTypingIndicatorPayload :=
  '(recipient_username, consumed) ← decode_sized_string bs;
  require_fully_consumed bs consumed "send_typing_indicator";;
  mret {| sti_recipient_username := recipient_username |}.

#[export] Instance SendTypingIndicatorPayload_payload : Payload SendTypingIndicatorPayload :=
  {| payload_encode := SendTypingIndicatorPayload_encode; payload_decode := SendTypingIndicatorPayload_decode |}.
#[export] Instance SendTypingIndicatorPayload_format : PayloadFormat SendTypingIndicatorPayload :=
  {| payload_ok := fun p => is_str (sti_recipient_username p);
     payload_fits := fun p => str_fits (sti_recipient_username p);
     payload_layout := fun p => sized_string (sti_recipient_username p) |}.
#[export] Instance SendTypingIndicatorPayload_laws : PayloadLaws SendTypingIndicatorPayload.
Proof.
  payload_split.
  - unfold SendTypingIndicatorPayload_encode. enc_steps. done.
  - unfold SendTypingIndicatorPayload_decode. wp_steps. cbn. by drop_rest rest.
  - unfold SendTypingIndicatorPayload_decode. eval_steps. by destruct p.
  - destruct p, q. cbn in *. peel He.
Qed.
