(* ===== verification/E2eKeyPayloads.v ===== *)
(** * [payloads/e2e_key_payloads.rs]: publishing and fetching E2E identity keys

    The record [E2ePublicKey] of [crypto/e2e.rs] is declared here, where it is
    first used; [E2e.v] and [SafetyNumber.v] take it from this file. *)
From Stdlib Require Import String.
From S2P Require Import Prelude RustStd Sizes Common.

Record E2ePublicKey := mk_E2ePublicKey {
  x25519_public : bytes;      (* [u8; 32] *)
  ml_kem_ek : bytes;          (* [u8; ML_KEM_768_EK_SIZE] *)
  dsa_verifying_key : bytes   (* [u8; ML_DSA_65_VK_SIZE] *)
}.
#[export] Instance E2ePublicKey_eq_dec : EqDecision E2ePublicKey.
Proof. solve_decision. Defined.

Definition E2ePublicKey_ok (k : E2ePublicKey) : Prop :=
  zlen (x25519_public k) = 32 /\ zlen (ml_kem_ek k) = ML_KEM_768_EK_SIZE /\
  zlen (dsa_verifying_key k) = ML_DSA_65_VK_SIZE.

Definition E2E_PUBLIC_KEY_SIZE : Z := 32 + ML_KEM_768_EK_SIZE + ML_DSA_65_VK_SIZE.

(** Appends to [out: &mut Vec<u8>], which it returns. *)
Definition encode_e2e_public_key (key : E2ePublicKey) (out : bytes) : bytes :=
  let out := out ++ x25519_public key in
  let out := out ++ ml_kem_ek key in
  let out := out ++ dsa_verifying_key key in
  out.

Definition decode_e2e_public_key (bs : bytes) : io_result E2ePublicKey :=
  if zlen bs <? E2E_PUBLIC_KEY_SIZE then
    Err (Error_new InvalidData "e2e public key bundle too short")
  else
    raw ← slice_to bs 32;
    x25519 ← ok_or (Error_new InvalidData "invalid x25519 key length") (try_into 32 raw);
    let ml_kem_end := 32 + ML_KEM_768_EK_SIZE in
    raw ← slice bs 32 ml_kem_end;
    ek ← copy_from_slice ML_KEM_768_EK_SIZE raw;
    raw ← slice bs ml_kem_end E2E_PUBLIC_KEY_SIZE;
    vk ← copy_from_slice ML_DSA_65_VK_SIZE raw;
    mret {| x25519_public := x25519; ml_kem_ek := ek; dsa_verifying_key := vk |}.

(** The bundle's layout. *)
Definition key_layout (k : E2ePublicKey) : bytes :=
  x25519_public k ++ ml_kem_ek k ++ dsa_verifying_key k.

Lemma zlen_key_layout k : E2ePublicKey_ok k -> zlen (key_layout k) = E2E_PUBLIC_KEY_SIZE.
Proof. intros (H1 & H2 & H3). unfold key_layout. rewrite !zlen_app, H1, H2, H3. done. Qed.

Lemma encode_key_layout k out : encode_e2e_public_key k out = out ++ key_layout k.
Proof. unfold encode_e2e_public_key, key_layout. by rewrite <- !app_assoc. Qed.

Lemma decode_key_wp P (Q : io_error -> Prop) bs :
  (forall k rest, bs = key_layout k ++ rest -> E2ePublicKey_ok k -> P k) ->
  (forall e, kind e = InvalidData -> Q e) ->
  wp P Q (decode_e2e_public_key bs).
Proof.
  intros HP HQ. unfold decode_e2e_public_key. apply wp_if; [intros; by apply HQ|].
  unfold E2E_PUBLIC_KEY_SIZE. intros Hl.
  destruct (split_at bs 32) as (a & r & -> & Ha); [size_lia|].
  destruct (split_at r ML_KEM_768_EK_SIZE) as (b & r' & -> & Hb); [size_lia|].
  destruct (split_at r' ML_DSA_65_VK_SIZE) as (c & rest & -> & Hc); [size_lia|].
  wp_steps. apply (HP _ rest); [|done]. unfold key_layout. cbn. by rewrite <- !app_assoc.
Qed.

Lemma decode_key_ok k rest :
  E2ePublicKey_ok k -> decode_e2e_public_key (key_layout k ++ rest) = Ok k.
Proof.
  intros (H1 & H2 & H3). unfold decode_e2e_public_key, key_layout, E2E_PUBLIC_KEY_SIZE.
  rewrite <- !app_assoc. eval_steps. by destruct k.
Qed.

Lemma key_layout_inj k k' x y :
  E2ePublicKey_ok k -> E2ePublicKey_ok k' ->
  key_layout k ++ x = key_layout k' ++ y -> k = k' /\ x = y.
Proof.
  intros Hk Hk' He. destruct k, k'. unfold key_layout, E2ePublicKey_ok in *. cbn in *.
  destruct_and!. peel He.
Qed.

(** ** [PublishE2eKeyPayload] *)
Record PublishE2eKeyPayload := mk_PublishE2eKeyPayload { pk_key : E2ePublicKey }.

Definition PublishE2eKeyPayload_encode (self : PublishE2eKeyPayload) : bytes :=
  encode_e2e_public_key (pk_key self) [].

Definition PublishE2eKeyPayload_decode (bs : bytes) : io_result PublishE2eKeyPayload :=
  key ← decode_e2e_public_key bs;
  require_fully_consumed bs E2E_PUBLIC_KEY_SIZE "publish_e2e_key";;
  mret {| pk_key := key |}.

#[export] Instance PublishE2eKeyPayload_payload : Payload PublishE2eKeyPayload :=
  {| payload_encode := fun p => Ok (PublishE2eKeyPayload_encode p);
     payload_decode := PublishE2eKeyPayload_decode |}.
#[export] Instance PublishE2eKeyPayload_format : PayloadFormat PublishE2eKeyPayload :=
  {| payload_ok := fun p => E2ePublicKey_ok (pk_key p); payload_fits := fun _ => True;
     payload_layout := fun p => key_layout (pk_key p) |}.
#[export] Instance PublishE2eKeyPayload_laws : PayloadLaws PublishE2eKeyPayload.
Proof.
  payload_split.
  - split; [done|]. exact (encode_key_layout (pk_key p) []).
  - unfold PublishE2eKeyPayload_decode. apply wp_bind, decode_key_wp; [|done].
    intros k rest -> Hk. wp_steps. cbn. pose proof (zlen_key_layout k Hk). by drop_rest rest.
  - unfold PublishE2eKeyPayload_decode. rewrite <- (app_nil_r (key_layout _)).
    rewrite decode_key_ok by done. cbn [mbind outcome_bind].
    pose proof (zlen_key_layout _ Hok). eval_steps. by destruct p.
  - destruct p, q. cbn in *. by apply key_layout_inj in He as [-> ->].
Qed.

(** ** [PublishE2eKeyResultPayload] *)
Record PublishE2eKeyResultPayload := mk_PublishE2eKeyResultPayload {
  pkr_success : bool;
  pkr_message : bytes (* String *)
}.

Definition PublishE2eKeyResultPayload_encode (self : PublishE2eKeyResultPayload)
    : io_result bytes :=
  message ← encode_sized_string (pkr_message self);
  let out := [bool_byte (pkr_success self)] in
  mret (out ++ message).

Definition PublishE2eKeyResultPayload_decode (bs : bytes)
    : io_result PublishE2eKeyResultPayload :=
  if zlen bs =? 0 then Err (Error_new InvalidData "publish_e2e_key_result payload too short")
  else
    b0 ← index bs 0;
    success ← decode_bool b0 "publish_e2e_key_result success";
    tail ← slice_from bs 1;
    '(message, consumed) ← decode_sized_string tail;
    total ← usize_add 1 consumed;
    require_fully_consumed bs total "publish_e2e_key_result";;
    mret {| pkr_success := success; pkr_message := message |}.

#[export] Instance PublishE2eKeyResultPayload_payload : Payload PublishE2eKeyResultPayload :=
  {| payload_encode := PublishE2eKeyResultPayload_encode;
     payload_decode := PublishE2eKeyResultPayload_decode |}.
#[export] Instance PublishE2eKeyResultPayload_format : PayloadFormat PublishE2eKeyResultPayload :=
  {| payload_ok := fun p => is_str (pkr_message p);
     payload_fits := fun p => str_fits (pkr_message p);
     payload_layout := fun p => bool_byte (pkr_success p) :: sized_string (pkr_message p) |}.
#[export] Instance PublishE2eKeyResultPayload_laws : PayloadLaws PublishE2eKeyResultPayload.
Proof.
  payload_split.
  - unfold PublishE2eKeyResultPayload_encode. enc_steps. done.
  - unfold PublishE2eKeyResultPayload_decode. wp_steps.
    destruct (split_one bs) as (b & tail & ->); [len_lia|]. wp_steps. cbn. by drop_rest rest.
  - unfold PublishE2eKeyResultPayload_decode. eval_steps. by destruct p.
  - destruct p, q. cbn in *. peel He.
Qed.

(** ** [FetchE2eKeyPayload] *)
Record FetchE2eKeyPayload := mk_FetchE2eKeyPayload { fk_target_username : bytes (* String *) }.

Definition FetchE2eKeyPayload_encode (self : FetchE2eKeyPayload) : io_result bytes :=
  encode_sized_string (fk_target_username self).

Definition FetchE2eKeyPayload_decode (bs : bytes) : io_result FetchE2eKeyPayload :=
  '(target_username, consumed) ← decode_sized_string bs;
  require_fully_consumed bs consumed "fetch_e2e_key";;
  mret {| fk_target_username := target_username |}.

#[export] Instance FetchE2eKeyPayload_payload : Payload FetchE2eKeyPayload :=
  {| payload_encode := FetchE2eKeyPayload_encode; payload_decode := FetchE2eKeyPayload_decode |}.
#[export] Instance FetchE2eKeyPayload_format : PayloadFormat FetchE2eKeyPayload :=
  {| payload_ok := fun p => is_str (fk_target_username p);
     payload_fits := fun p => str_fits (fk_target_username p);
     payload_layout := fun p => sized_string (fk_target_username p) |}.
#[export] Instance FetchE2eKeyPayload_laws : PayloadLaws FetchE2eKeyPayload.
Proof.
  payload_split.
  - unfold FetchE2eKeyPayload_encode. enc_steps. done.
  - unfold FetchE2eKeyPayload_decode. wp_steps. cbn. by drop_rest rest.
  - unfold FetchE2eKeyPayload_decode. eval_steps. by destruct p.
  - destruct p, q. cbn in *. peel He.
Qed.

(** ** [E2eKeyStatus] and [E2eKeyResponsePayload] *)
Inductive E2eKeyStatus := E2eKeyStatus_Found | E2eKeyStatus_NotFound.

Definition E2eKeyStatus_as_u8 (self : E2eKeyStatus) : byte :=
  match self with E2eKeyStatus_Found => x00 | E2eKeyStatus_NotFound => x01 end.

Definition E2eKeyStatus_from_u8 (v : byte) : io_result E2eKeyStatus :=
  match v with
  | x00 => Ok E2eKeyStatus_Found
  | x01 => Ok E2eKeyStatus_NotFound
  | _ => Err (Error_new InvalidData "unknown e2e_key status")
  end.

#[export] Instance E2eKeyStatus_code : ByteCode E2eKeyStatus :=
  {| code_as_u8 := E2eKeyStatus_as_u8; code_from_u8 := E2eKeyStatus_from_u8 |}.
#[export] Instance E2eKeyStatus_code_laws : ByteCodeLaws E2eKeyStatus.
Proof. by split; [intros []|intros []]. Qed.

Record E2eKeyResponsePayload := mk_E2eKeyResponsePayload {
  kr_username : bytes;            (* String *)
  kr_key : option E2ePublicKey
}.

Definition E2eKeyResponsePayload_encode (self : E2eKeyResponsePayload) : io_result bytes :=
  out ← encode_sized_string (kr_username self);
  mret
    match kr_key self with
    | Some key =>
        let out := out ++ [E2eKeyStatus_as_u8 E2eKeyStatus_Found] in
        encode_e2e_public_key key out
    | None => out ++ [E2eKeyStatus_as_u8 E2eKeyStatus_NotFound]
    end.

Definition E2eKeyResponsePayload_decode (bs : bytes) : io_result E2eKeyResponsePayload :=
  '(username, consumed) ← decode_sized_string bs;
  rest ← slice_from bs consumed;
  if zlen rest =? 0 then Err (Error_new InvalidData "e2e_key_response missing status byte")
  else
    r0 ← index rest 0;
    status ← E2eKeyStatus_from_u8 r0;
    match status with
    | E2eKeyStatus_Found =>
        tail ← slice_from rest 1;
        key ← decode_e2e_public_key tail;
        c1 ← usize_add consumed 1;
        total ← usize_add c1 E2E_PUBLIC_KEY_SIZE;
        require_fully_consumed bs total "e2e_key_response";;
        mret {| kr_username := username; kr_key := Some key |}
    | E2eKeyStatus_NotFound =>
        total ← usize_add consumed 1;
        require_fully_consumed bs total "e2e_key_response";;
        mret {| kr_username := username; kr_key := None |}
    end.

#[export] Instance E2eKeyResponsePayload_payload : Payload E2eKeyResponsePayload :=
  {| payload_encode := E2eKeyResponsePayload_encode;
     payload_decode := E2eKeyResponsePayload_decode |}.
#[export] Instance E2eKeyResponsePayload_format : PayloadFormat E2eKeyResponsePayload :=
  {| payload_ok := fun p =>
       is_str (kr_username p) /\ match kr_key p with Some k => E2ePublicKey_ok k | None => True end;
     payload_fits := fun p => str_fits (kr_username p);
     payload_layout := fun p =>
       sized_string (kr_username p) ++
       match kr_key p with
       | Some k => x00 :: key_layout k
       | None => [x01]
       end |}.
#[export] Instance E2eKeyResponsePayload_laws : PayloadLaws E2eKeyResponsePayload.
Proof.
  payload_split.
  - unfold E2eKeyResponsePayload_encode. enc_steps. split; [done|].
    destruct (kr_key p); [|done]. by rewrite encode_key_layout, <- app_assoc.
  - unfold E2eKeyResponsePayload_decode. wp_steps.
    destruct (split_one rest) as (r0 & r & ->); [len_lia|]. wp_steps. destruct a; wp_steps.
    + apply decode_key_wp; [|done]. intros k rest -> Hk. unfold E2E_PUBLIC_KEY_SIZE.
      pose proof (zlen_key_layout k Hk) as Hl. unfold E2E_PUBLIC_KEY_SIZE in Hl.
      wp_steps. cbn. by drop_rest rest.
    + cbn. by drop_rest r.
  - destruct Hok as [Hs Hk]. destruct p as [u [k|]]; cbn in *;
      unfold E2eKeyResponsePayload_decode; eval_steps.
    + cbn [wp E2eKeyStatus_from_u8]. eval_more.
      pose proof (zlen_key_layout k Hk) as Hl. unfold E2E_PUBLIC_KEY_SIZE in *.
      rewrite <- (app_nil_r (key_layout k)) at 1. rewrite decode_key_ok by done.
      cbn [wp]. by eval_more.
    + cbn [wp E2eKeyStatus_from_u8]. by eval_more.
  - destruct p as [u [k|]], q as [u' [k'|]]; cbn in *; destruct Hp, Hq;
      peel_step He; subst; peel_step He; try discriminate.
    + by apply key_layout_inj in He as [-> ->].
    + by subst.
Qed.
