(* ===== verification/Payloads.v ===== *)
(** * [payloads/mod.rs]: the payload of every packet type

    [payload_type] assigns to each [PacketType] the payload struct of the
    crate that travels under it, so a theorem quantified over the packet type
    is about the 36 encoders and decoders of the payload modules. *)
From Stdlib Require Import String.
From S2P Require Import Prelude RustStd Sizes Errors PacketType Common.
From S2P Require Import PingPayloads ErrorPayloads ClosePayloads RegistrationPayloads.
From S2P Require Import AccountPayloads HelloPayloads AuthPayloads MessagePayloads.
From S2P Require Import QueuePayloads FriendPayloads E2eKeyPayloads.

Definition payload_type (t : PacketType) : Type :=
  match t with
  | ClientHello => ClientHelloPayload
  | ServerHello => ServerHelloPayload
  | ClientFinish => ClientFinishPayload
  | ServerAccept => ServerAcceptPayload
  | AuthChallenge => AuthChallengePayload
  | AuthResponse => AuthResponsePayload
  | AuthAccept => AuthAcceptPayload
  | AuthReject => AuthRejectPayload
  | Ping => PingPayload
  | Pong => PongPayload
  | RegisterDevice => RegisterDevicePayload
  | RegisterResponse => RegisterResponsePayload
  | QueryAccountStatus => QueryAccountStatusPayload
  | AccountStatusResponse => AccountStatusResponsePayload
  | SendFriendRequest => SendFriendRequestPayload
  | FriendRequestResult => FriendRequestResultPayload
  | IncomingFriendRequest => IncomingFriendRequestPayload
  | FriendRequestDecision => FriendRequestDecisionPayload
  | RemoveFriend => RemoveFriendPayload
  | RemoveFriendResult => RemoveFriendResultPayload
  | FriendRemovedNotification => FriendRemovedNotificationPayload
  | FriendStatusUpdate => FriendStatusUpdatePayload
  | SendTypingIndicator => SendTypingIndicatorPayload
  | PublishE2eKey => PublishE2eKeyPayload
  | PublishE2eKeyResult => PublishE2eKeyResultPayload
  | FetchE2eKey => FetchE2eKeyPayload
  | E2eKeyResponse => E2eKeyResponsePayload
  | SendMessage => SendMessagePayload
  | DeliverMessage => DeliverMessagePayload
  | FetchQueuedMessages => FetchQueuedMessagesPayload
  | QueuedMessageDelivery => QueuedMessageDeliveryPayload
  | AckQueuedMessage => AckQueuedMessagePayload
  | MessageStatusUpdate => MessageStatusUpdatePayload
  | DeliveryReceipt => DeliveryReceiptPayload
  | Error => ErrorPayload
  | Close => ClosePayload
  end.

#[export] Instance payload_type_payload (t : PacketType) : Payload (payload_type t) :=
  match t with
  | ClientHello => ClientHelloPayload_payload
  | ServerHello => ServerHelloPayload_payload
  | ClientFinish => ClientFinishPayload_payload
  | ServerAccept => ServerAcceptPayload_payload
  | AuthChallenge => AuthChallengePayload_payload
  | AuthResponse => AuthResponsePayload_payload
  | AuthAccept => AuthAcceptPayload_payload
  | AuthReject => AuthRejectPayload_payload
  | Ping => PingPayload_payload
  | Pong => PongPayload_payload
  | RegisterDevice => RegisterDevicePayload_payload
  | RegisterResponse => RegisterResponsePayload_payload
  | QueryAccountStatus => QueryAccountStatusPayload_payload
  | AccountStatusResponse => AccountStatusResponsePayload_payload
  | SendFriendRequest => SendFriendRequestPayload_payload
  | FriendRequestResult => FriendRequestResultPayload_payload
  | IncomingFriendRequest => IncomingFriendRequestPayload_payload
  | FriendRequestDecision => FriendRequestDecisionPayload_payload
  | RemoveFriend => RemoveFriendPayload_payload
  | RemoveFriendResult => RemoveFriendResultPayload_payload
  | FriendRemovedNotification => FriendRemovedNotificationPayload_payload
  | FriendStatusUpdate => FriendStatusUpdatePayload_payload
  | SendTypingIndicator => SendTypingIndicatorPayload_payload
  | PublishE2eKey => PublishE2eKeyPayload_payload
  | PublishE2eKeyResult => PublishE2eKeyResultPayload_payload
  | FetchE2eKey => FetchE2eKeyPayload_payload
  | E2eKeyResponse => E2eKeyResponsePayload_payload
  | SendMessage => SendMessagePayload_payload
  | DeliverMessage => DeliverMessagePayload_payload
  | FetchQueuedMessages => FetchQueuedMessagesPayload_payload
  | QueuedMessageDelivery => QueuedMessageDeliveryPayload_payload
  | AckQueuedMessage => AckQueuedMessagePayload_payload
  | MessageStatusUpdate => MessageStatusUpdatePayload_payload
  | DeliveryReceipt => DeliveryReceiptPayload_payload
  | Error => ErrorPayload_payload
  | Close => ClosePayload_payload
  end.

#[export] Instance payload_type_format (t : PacketType) : PayloadFormat (payload_type t) :=
  match t with
  | ClientHello => ClientHelloPayload_format
  | ServerHello => ServerHelloPayload_format
  | ClientFinish => ClientFinishPayload_format
  | ServerAccept => ServerAcceptPayload_format
  | AuthChallenge => AuthChallengePayload_format
  | AuthResponse => AuthResponsePayload_format
  | AuthAccept => AuthAcceptPayload_format
  | AuthReject => AuthRejectPayload_format
  | Ping => PingPayload_format
  | Pong => PongPayload_format
  | RegisterDevice => RegisterDevicePayload_format
  | RegisterResponse => RegisterResponsePayload_format
  | QueryAccountStatus => QueryAccountStatusPayload_format
  | AccountStatusResponse => AccountStatusResponsePayload_format
  | SendFriendRequest => SendFriendRequestPayload_format
  | FriendRequestResult => FriendRequestResultPayload_format
  | IncomingFriendRequest => IncomingFriendRequestPayload_format
  | FriendRequestDecision => FriendRequestDecisionPayload_format
  | RemoveFriend => RemoveFriendPayload_format
  | RemoveFriendResult => RemoveFriendResultPayload_format
  | FriendRemovedNotification => FriendRemovedNotificationPayload_format
  | FriendStatusUpdate => FriendStatusUpdatePayload_format
  | SendTypingIndicator => SendTypingIndicatorPayload_format
  | PublishE2eKey => PublishE2eKeyPayload_format
  | PublishE2eKeyResult => PublishE2eKeyResultPayload_format
  | FetchE2eKey => FetchE2eKeyPayload_format
  | E2eKeyResponse => E2eKeyResponsePayload_format
  | SendMessage => SendMessagePayload_format
  | DeliverMessage => DeliverMessagePayload_format
  | FetchQueuedMessages => FetchQueuedMessagesPayload_format
  | QueuedMessageDelivery => QueuedMessageDeliveryPayload_format
  | AckQueuedMessage => AckQueuedMessagePayload_format
  | MessageStatusUpdate => MessageStatusUpdatePayload_format
  | DeliveryReceipt => DeliveryReceiptPayload_format
  | Error => ErrorPayload_format
  | Close => ClosePayload_format
  end.

#[export] Instance payload_type_laws (t : PacketType) : PayloadLaws (payload_type t).
Proof. destruct t; exact _. Qed.

(** The length limits the comments of [max_payload_size] give the variable
    fields of each payload. Where the comment gives a total ([SendMessage] and
    its class, [Error], [Close]) or a rounded constant ([ClientHello]) the
    limit on the field is what the total leaves. *)
Definition payload_within (t : PacketType) : payload_type t -> Prop :=
  match t with
  | ClientHello => fun p => zlen (ch_client_id p) <= 82
  | ServerHello => fun p => zlen (sh_server_id p) <= 78
  | AuthResponse => fun p => zlen (ar_attestation_token p) <= 4096
  | RegisterDevice => fun p => zlen (rd_username p) <= 128
  | RegisterResponse => fun p => zlen (rr_message p) <= 256
  | AccountStatusResponse => fun p => zlen (as_ban_reason p) <= 256
  | SendFriendRequest => fun p => zlen (sfr_target_username p) <= 128
  | IncomingFriendRequest => fun p => zlen (ifr_sender_username p) <= 128
  | FriendRequestDecision => fun p => zlen (frd_sender_username p) <= 128
  | RemoveFriend => fun p => zlen (rf_friend_username p) <= 128
  | FriendRemovedNotification => fun p => zlen (frn_removed_by_username p) <= 128
  | FriendStatusUpdate => fun p => zlen (fsu_friend_username p) <= 128
  | SendTypingIndicator => fun p => zlen (sti_recipient_username p) <= 128
  | PublishE2eKeyResult => fun p => zlen (pkr_message p) <= 256
  | FetchE2eKey => fun p => zlen (fk_target_username p) <= 128
  | E2eKeyResponse => fun p => zlen (kr_username p) <= 128
  | SendMessage => fun p => zlen (sm_recipient_id p) + zlen (sm_content p) <= 65536 - 14
  | DeliverMessage => fun p => zlen (dm_sender_id p) + zlen (dm_content p) <= 65536 - 14
  | QueuedMessageDelivery => fun p =>
      zlen (qm_sender_id p) + zlen (qm_content p) <= 65536 - 22
  | Error => fun p => zlen (error_message p) <= 1022
  | Close => fun p => zlen (close_message p) <= 1021
  | _ => fun _ => True
  end.

(** What the budgets let through beyond those limits: an [E2eKeyResponse]
    without a key has the room of the missing key for a longer username. *)
Definition keyless_overlong (t : PacketType) : payload_type t -> Prop :=
  match t with
  | E2eKeyResponse => fun p =>
      match kr_key p with
      | Some _ => False
      | None => 128 < zlen (kr_username p) <= 128 + E2E_PUBLIC_KEY_SIZE
      end
  | _ => fun _ => False
  end.

(** What the budgets let through. *)
Definition within_budget (t : PacketType) (p : payload_type t) : Prop :=
  payload_within t p \/ keyless_overlong t p.

(** Evaluates the casts of the constants [max_payload_size] computes. *)
Ltac eval_casts :=
  repeat match goal with
  | |- context [as_u32 ?z] =>
      let v := eval vm_compute in (as_u32 z) in change (as_u32 z) with v
  end.

Lemma layout_within t (p : payload_type t) :
  payload_ok p ->
  (zlen (payload_layout p) <= PacketType_max_payload_size t
   <-> within_budget t p).
Proof.
  intros Hok. unfold within_budget. destruct t; cbn in p, Hok |- *;
    try (destruct (kr_key p) as [k|]; [pose proof (zlen_key_layout k (proj2 Hok))|]);
    try pose proof (zlen_key_layout _ Hok);
    destruct_and?; eval_casts;
    unfold E2E_PUBLIC_KEY_SIZE, NONCE_LEN in *; size_unfold; autorewrite with zlen in *;
    len_pose; lia.
Qed.

Lemma within_fits t (p : payload_type t) : within_budget t p -> payload_fits p.
Proof.
  unfold within_budget. destruct t; cbn in p |- *;
    try (destruct (kr_key p));
    unfold E2E_PUBLIC_KEY_SIZE in *; size_unfold; intros; try split; len_pose; lia || done.
Qed.

(** ** Properties *)

(** An example the witnesses below use: a [SendMessage] payload. *)
Definition example_message : SendMessagePayload :=
  {| sm_message_id := 7; sm_recipient_id := list_byte_of_string "bob";
     sm_content := [x01; xff] |}.

Lemma example_message_ok : payload_ok (A := payload_type SendMessage) example_message.
Proof. by split. Defined.

(** C24. Encode, then decode: for every packet type, a payload whose fields
    have the values Rust's types allow decodes from its own encoding. *)
Theorem payload_roundtrip t (p : payload_type t) bs :
  payload_ok p -> payload_encode p = Ok bs -> payload_decode bs = Ok p.
Proof. intros Hok [Hf ->]%encode_iff. by apply decode_layout. Qed.

Lemma payload_roundtrip_witness :
  payload_decode (A := payload_type SendMessage)
    [x00; x00; x00; x00; x00; x00; x00; x07; x00; x03; x62; x6f; x62;
     x00; x00; x00; x02; x01; xff] = Ok example_message.
Proof. exact (payload_roundtrip SendMessage example_message _ example_message_ok eq_refl). Defined.

(** C25. The wire format is canonical: whatever byte string a decoder accepts is
    exactly what the encoder writes for the decoded value, and that value
    satisfies its type's invariant. In particular no two byte strings decode
    to the same payload. *)
Theorem payload_canonical t bs (p : payload_type t) :
  payload_decode bs = Ok p -> payload_ok p /\ payload_encode p = Ok bs.
Proof. intros (Hok & Hf & ->)%decode_iff. split; [done|]. by apply encode_iff. Qed.

Lemma payload_canonical_witness :
  payload_ok (A := payload_type Pong) (mk_PongPayload 258) /\
  payload_encode (A := payload_type Pong) (mk_PongPayload 258)
  = Ok [x00; x00; x00; x00; x00; x00; x01; x02].
Proof.
  exact (payload_canonical Pong [x00; x00; x00; x00; x00; x00; x01; x02]
    (mk_PongPayload 258) eq_refl).
Defined.

(** C26. Decoding hostile input is total: on every byte string, every decoder
    either returns a payload or fails with [InvalidData]; it never panics (no
    index, slice or addition in it can go out of range). *)
Theorem payload_decode_total t bs :
  wp (fun p : payload_type t => payload_ok p)
     (fun e => kind e = InvalidData) (payload_decode bs).
Proof. eapply wp_mono; [apply decode_spec|by intros p (? & _)|done]. Qed.

(** Encoding is total, and fails exactly when a string field is longer than
    65535 bytes or a byte field longer than [u32::MAX] bytes, with
    [InvalidInput]; it never truncates a length. *)
Lemma payload_encode_total t (p : payload_type t) :
  wp (fun _ => payload_fits p) (fun e => ~ payload_fits p /\ kind e = InvalidInput)
    (payload_encode p).
Proof. eapply wp_mono; [apply encode_spec|by intros bs []|done]. Qed.

(** The formats are self-delimiting: no accepted input has an accepted
    proper extension, so trailing bytes after a payload, and any truncation of
    one, are refused with [InvalidData]. *)
Lemma payload_self_delimiting t bs (p : payload_type t) x :
  payload_decode bs = Ok p -> x <> [] ->
  exists e, payload_decode (A := payload_type t) (bs ++ x) = Err e /\ kind e = InvalidData.
Proof.
  intros Hd Hx. apply decode_refused. intros q Hq.
  by apply Hx, (decode_extension bs x p q).
Qed.

Lemma payload_self_delimiting_witness :
  exists e, payload_decode (A := payload_type ClientFinish) ([x01] ++ [x00]) = Err e
            /\ kind e = InvalidData.
Proof.
  exact (payload_self_delimiting ClientFinish [x01] (mk_ClientFinishPayload true) [x00]
    eq_refl ltac:(discriminate)).
Defined.

(** C30. The size budget of every packet type against the formats: an
    encoded payload passes [validate_payload_size] exactly when its variable
    fields respect the limits the budget documents, so no conforming payload
    is refused for its size and no oversized one passes, with one exception:
    an [E2eKeyResponse] without a key passes with a username of up to 3296
    bytes where 128 are documented. *)
Theorem payload_size_budget t (p : payload_type t) bs :
  payload_ok p -> payload_encode p = Ok bs ->
  (PacketType_validate_payload_size t (zlen bs) = Ok tt
   <-> payload_within t p \/ keyless_overlong t p).
Proof.
  intros Hok [_ ->]%encode_iff. change (payload_within t p \/ keyless_overlong t p) with (within_budget t p).
  rewrite <- layout_within by done.
  unfold PacketType_validate_payload_size.
  destruct (Z.ltb_spec (PacketType_max_payload_size t) (zlen (payload_layout p)));
    split; (done || lia).
Qed.

(** A keyless response with a username of 129 bytes. *)
Definition example_keyless : E2eKeyResponsePayload :=
  {| kr_username := repeat x61 129; kr_key := None |}.

Lemma payload_size_budget_witness :
  PacketType_validate_payload_size E2eKeyResponse 132 = Ok tt /\
  ~ payload_within E2eKeyResponse example_keyless.
Proof.
  split; [|by vm_compute].
  apply (payload_size_budget E2eKeyResponse example_keyless _ (conj eq_refl I) eq_refl).
  right. by vm_compute.
Defined.
