(* ===== verification/Primitives.v ===== *)
(** * Interfaces of the libraries the crate calls

    Each class states the functions of a third-party library the crate uses
    (tokio, ring, sha2, hkdf, x25519-dalek, ml-kem, ml-dsa); each [Laws] class
    states the documented behaviour the crate relies on. Nothing is assumed of
    the strength of any primitive: no law says a tag, a signature or a hash
    cannot be forged. Random values are arguments of the operations that
    sample them. *)
From S2P Require Import Prelude RustStd Sizes.

(** ** [tokio::io]: byte streams *)
Class AsyncRead (R : Type) := {
  (** [reader.read_exact(&mut [0; n])] *)
  read_exact : R -> Z -> io_result bytes * R
}.

Class AsyncReadLaws (R : Type) `{AsyncRead R} : Prop := {
  (** [Ok] means the buffer was filled. *)
  read_exact_spec (r : R) n :
    0 <= n -> wp (fun bs => zlen bs = n) (fun _ => True) (fst (read_exact r n))
}.

(** A reader whose remaining input is a known byte string and that only fails
    at its end, with [UnexpectedEof]. *)
Class InputStream (R : Type) `{AsyncRead R} := { pending : R -> bytes }.
Class InputStreamLaws (R : Type) `{InputStream R} : Prop := {
  read_exact_pending (r : R) bs rest :
    pending r = bs ++ rest ->
    exists r', read_exact r (zlen bs) = (Ok bs, r') /\ pending r' = rest;
  read_exact_eof (r : R) n :
    zlen (pending r) < n ->
    exists e r', read_exact r n = (Err e, r') /\ kind e = UnexpectedEof
}.

Class AsyncWrite (W : Type) := {
  write_all : W -> bytes -> io_result unit * W;
  flush : W -> io_result unit * W
}.

Class AsyncWriteLaws (W : Type) `{AsyncWrite W} : Prop := {
  write_all_spec (w : W) bs : wp (fun _ => True) (fun _ => True) (fst (write_all w bs));
  flush_spec (w : W) : wp (fun _ => True) (fun _ => True) (fst (flush w))
}.

(** A writer that accepts everything and keeps it. *)
Class OutputStream (W : Type) `{AsyncWrite W} := { written : W -> bytes }.
Class OutputStreamLaws (W : Type) `{OutputStream W} : Prop := {
  write_all_written (w : W) bs :
    exists w', write_all w bs = (Ok tt, w') /\ written w' = written w ++ bs;
  flush_written (w : W) :
    exists w', flush w = (Ok tt, w') /\ written w' = written w
}.

(** In-memory streams are lawful readers and writers. *)
#[export] Instance input_stream_read_laws {R} `{InputStreamLaws R} : AsyncReadLaws R.
Proof.
  split. intros r n Hn. destruct (Z.ltb_spec (zlen (pending r)) n) as [Hlt|Hge].
  - destruct (read_exact_eof r n Hlt) as (e & r' & -> & _). done.
  - destruct (split_at (pending r) n) as (a & b & Hp & <-); [done|].
    by destruct (read_exact_pending r a b Hp) as (r' & -> & _).
Qed.
#[export] Instance output_stream_write_laws {W} `{OutputStreamLaws W} : AsyncWriteLaws W.
Proof.
  split.
  - intros w bs. by destruct (write_all_written w bs) as (w' & -> & _).
  - intros w. by destruct (flush_written w) as (w' & -> & _).
Qed.

(** ** [ring::aead] with [AES_256_GCM] *)
Class Aead := {
  aead_key : Type;
  (** [LessSafeKey::new(UnboundKey::new(&AES_256_GCM, key)?)] *)
  aead_key_new : bytes -> option aead_key;
  (** [seal_in_place_append_tag(nonce, aad, buffer)]: the buffer afterwards. *)
  aead_seal : aead_key -> bytes -> bytes -> bytes -> option bytes;
  (** [open_in_place(nonce, aad, buffer)]: the plaintext. *)
  aead_open : aead_key -> bytes -> bytes -> bytes -> option bytes
}.

(** The largest input AES-GCM accepts: [2^36 - 32] bytes. *)
Definition AEAD_MAX : Z := 68719476704.

Class AeadLaws `{Aead} : Prop := {
  aead_key_new_32 k : zlen k = 32 -> is_Some (aead_key_new k);
  aead_seal_total k nonce aad pt : zlen pt <= AEAD_MAX -> is_Some (aead_seal k nonce aad pt);
  (** The tag is appended. *)
  aead_seal_len k nonce aad pt ct :
    aead_seal k nonce aad pt = Some ct -> zlen ct = zlen pt + GCM_TAG_LEN;
  (** Decryption inverts encryption, and accepts nothing encryption does not
      produce (AES-GCM recomputes the tag of the decrypted text). *)
  aead_open_iff k nonce aad pt ct :
    aead_open k nonce aad ct = Some pt <-> aead_seal k nonce aad pt = Some ct
}.

(** ** [sha2::Sha256] *)
Class Sha256 := {
  hasher : Type;
  sha_new : hasher;
  sha_update : hasher -> bytes -> hasher;
  sha_finalize : hasher -> bytes
}.
Class Sha256Laws `{Sha256} : Prop := {
  (** Hashing is incremental: two updates are one of the concatenation. *)
  sha_update_app h a b : sha_update (sha_update h a) b = sha_update h (a ++ b);
  zlen_sha_finalize h : zlen (sha_finalize h) = 32
}.
Definition sha256 `{Sha256} (m : bytes) : bytes := sha_finalize (sha_update sha_new m).
(** Two particular messages that break collision resistance. Collisions exist;
    the theorems name the two messages that would be one. *)
Definition collision `{Sha256} (m m' : bytes) : Prop := m <> m' /\ sha256 m = sha256 m'.
Lemma equal_or_collision `{Sha256} m m' : sha256 m = sha256 m' -> m = m' \/ collision m m'.
Proof. intros Hs. destruct (decide (m = m')); [by left|by right]. Qed.

(** ** [hkdf::Hkdf<Sha256>] *)
Class Hkdf := {
  hkdf : Type;
  (** [Hkdf::new(None, ikm)] *)
  hkdf_new : bytes -> hkdf;
  (** [hk.expand(info, &mut [0; n])] *)
  hkdf_expand : hkdf -> bytes -> Z -> option bytes
}.
Class HkdfLaws `{Hkdf} : Prop := {
  hkdf_expand_total hk info n : 0 <= n <= 255 * 32 -> is_Some (hkdf_expand hk info n);
  hkdf_expand_len hk info n out : hkdf_expand hk info n = Some out -> zlen out = n
}.

(** ** [x25519_dalek]: secrets and public keys are 32 bytes *)
Class X25519 := {
  x25519_secret : Type;
  (** [StaticSecret::from([u8; 32])] and [to_bytes] *)
  x25519_secret_from : bytes -> x25519_secret;
  x25519_secret_bytes : x25519_secret -> bytes;
  (** [PublicKey::from(&secret).to_bytes()] *)
  x25519_public_of : x25519_secret -> bytes;
  (** [secret.diffie_hellman(&PublicKey::from(pk)).as_bytes()] *)
  diffie_hellman : x25519_secret -> bytes -> bytes
}.
Class X25519Laws `{X25519} : Prop := {
  zlen_x25519_public s : zlen (x25519_public_of s) = 32;
  zlen_x25519_secret s : zlen (x25519_secret_bytes s) = 32;
  x25519_secret_roundtrip s : x25519_secret_from (x25519_secret_bytes s) = s;
  diffie_hellman_comm a b :
    diffie_hellman a (x25519_public_of b) = diffie_hellman b (x25519_public_of a)
}.

(** ** [ml_kem]: ML-KEM-768 *)
Class MlKem := {
  kem_dk : Type;
  kem_ek : Type;
  kem_coins : Type;
  (** [DecapsulationKey768::from_seed] *)
  kem_from_seed : bytes -> kem_dk;
  (** [dk.encapsulation_key()], [ek.to_bytes()], [EncapsulationKey768::new] *)
  kem_ek_of : kem_dk -> kem_ek;
  kem_ek_bytes : kem_ek -> bytes;
  kem_ek_new : bytes -> option kem_ek;
  (** [ek.encapsulate()]: ciphertext and shared secret *)
  kem_encapsulate : kem_ek -> kem_coins -> bytes * bytes;
  kem_decapsulate : kem_dk -> bytes -> bytes
}.
Class MlKemLaws `{MlKem} : Prop := {
  zlen_kem_ek ek : zlen (kem_ek_bytes ek) = ML_KEM_768_EK_SIZE;
  zlen_kem_ct ek coins : zlen (fst (kem_encapsulate ek coins)) = ML_KEM_768_CT_SIZE;
  kem_ek_roundtrip ek : kem_ek_new (kem_ek_bytes ek) = Some ek
}.
(** ML-KEM decapsulation recovers the secret except with negligible
    probability over the coins; the theorems that need it say for which. *)
Definition kem_agrees `{MlKem} (dk : kem_dk) (coins : kem_coins) : Prop :=
  kem_decapsulate dk (fst (kem_encapsulate (kem_ek_of dk) coins))
  = snd (kem_encapsulate (kem_ek_of dk) coins).

(** ** [ml_dsa]: ML-DSA-65 *)
Class MlDsa := {
  dsa_sk : Type;
  dsa_vk : Type;
  dsa_sig : Type;
  (** [SigningKey::from_seed], [to_seed], [verifying_key] *)
  dsa_from_seed : bytes -> dsa_sk;
  dsa_to_seed : dsa_sk -> bytes;
  dsa_vk_of : dsa_sk -> dsa_vk;
  (** [VerifyingKey::encode], [decode] *)
  dsa_vk_encode : dsa_vk -> bytes;
  dsa_vk_decode : bytes -> dsa_vk;
  (** [Signature::encode], [decode] *)
  dsa_sig_encode : dsa_sig -> bytes;
  dsa_sig_decode : bytes -> option dsa_sig;
  dsa_sign : dsa_sk -> bytes -> dsa_sig;
  dsa_verify : dsa_vk -> bytes -> dsa_sig -> bool
}.
Class MlDsaLaws `{MlDsa} : Prop := {
  zlen_dsa_seed sk : zlen (dsa_to_seed sk) = 32;
  dsa_seed_roundtrip sk : dsa_from_seed (dsa_to_seed sk) = sk;
  zlen_dsa_vk vk : zlen (dsa_vk_encode vk) = ML_DSA_65_VK_SIZE;
  dsa_vk_roundtrip vk : dsa_vk_decode (dsa_vk_encode vk) = vk;
  zlen_dsa_sig sig : zlen (dsa_sig_encode sig) = ML_DSA_65_SIG_SIZE;
  dsa_sig_roundtrip sig : dsa_sig_decode (dsa_sig_encode sig) = Some sig;
  dsa_verify_sign sk m : dsa_verify (dsa_vk_of sk) m (dsa_sign sk m) = true
}.

#[export] Hint Rewrite @zlen_sha_finalize @zlen_x25519_public @zlen_x25519_secret
  @zlen_kem_ek @zlen_kem_ct @zlen_dsa_seed @zlen_dsa_vk @zlen_dsa_sig using (exact _) : zlen.
