(* ===== verification/ByteStreams.v ===== *)
(** * Byte strings as streams

    A byte string stands for an in-memory reader, whose input it is, and for an
    in-memory writer, whose output it is: Rust's [Cursor] and [Vec]. Two ends
    of a connection are joined by such strings, one written, the other read. *)
From Stdlib Require Import String.
From S2P Require Import Prelude RustStd Sizes Primitives.

#[export] Instance bytes_read : AsyncRead bytes := {
  read_exact r n :=
    if zlen r <? n then (Err (Error_new UnexpectedEof EmptyString), [])
    else (Ok (take (Z.to_nat n) r), drop (Z.to_nat n) r)
}.
#[export] Instance bytes_input : InputStream bytes := { pending r := r }.
#[export] Instance bytes_write : AsyncWrite bytes := {
  write_all w bs := (Ok tt, w ++ bs);
  flush w := (Ok tt, w)
}.
#[export] Instance bytes_output : OutputStream bytes := { written w := w }.

#[export] Instance bytes_input_laws : InputStreamLaws bytes.
Proof.
  split; unfold pending, bytes_input, read_exact, bytes_read.
  - intros r bs rest ->. rewrite zlen_app. pose proof (zlen_nonneg rest).
    destruct (Z.ltb_spec (zlen bs + zlen rest) (zlen bs)); [lia|].
    unfold zlen. rewrite Nat2Z.id, take_app_length, drop_app_length. eauto.
  - intros r n Hn. destruct (Z.ltb_spec (zlen r) n); [eauto|lia].
Qed.
#[export] Instance bytes_output_laws : OutputStreamLaws bytes.
Proof. split; cbn; eauto. Qed.
