(* ===== verification/Instances.v ===== *)
(** * Concrete instances of the library interfaces

    Small arithmetic functions in the place of each primitive. They have no
    cryptographic strength; they show that the laws of [Primitives] can hold
    together, and the examples evaluate on them. *)
From Stdlib Require Import String.
From S2P Require Import Prelude RustStd Sizes Primitives.

(** ** Arithmetic primitives *)

(** The [n] low bytes of the number a byte string denotes. *)
Definition fold_to (n : Z) (bs : bytes) : bytes := to_be_bytes (Z.to_nat n) (from_be_bytes bs).

Lemma zlen_fold_to n bs : 0 <= n -> zlen (fold_to n bs) = n.
Proof. intros. unfold fold_to. rewrite zlen_to_be_bytes. lia. Qed.

Definition toy_tag (nonce aad pt : bytes) : bytes := fold_to GCM_TAG_LEN (nonce ++ aad ++ pt).

Definition toy_open (k nonce aad ct : bytes) : option bytes :=
  let n := (length ct - 16)%nat in
  if bool_decide (ct = take n ct ++ toy_tag nonce aad (take n ct)) then Some (take n ct) else None.

#[export] Instance toy_aead : Aead := {
  aead_key := bytes;
  aead_key_new k := if zlen k =? 32 then Some k else None;
  aead_seal k nonce aad pt := Some (pt ++ toy_tag nonce aad pt);
  aead_open := toy_open
}.

#[export] Instance toy_aead_laws : AeadLaws.
Proof.
  split; cbn.
  - intros k ->. eauto.
  - eauto.
  - intros k nonce aad pt ct [= <-]. unfold toy_tag. by rewrite zlen_app, zlen_fold_to.
  - intros k nonce aad pt ct. unfold toy_open. split.
    + case_bool_decide as Hct; [|done]. intros [= <-]. by rewrite <- Hct.
    + intros [= <-].
      assert (length (toy_tag nonce aad pt) = 16%nat) as Hl.
      { unfold toy_tag. pose proof (zlen_fold_to GCM_TAG_LEN (nonce ++ aad ++ pt)) as H.
        unfold zlen, GCM_TAG_LEN in *. lia. }
      rewrite length_app, Hl, Nat.add_sub, take_app_length.
      by rewrite bool_decide_true.
Qed.

Lemma toy_seal_inv key nonce aad aad' pt pt' body :
  aead_seal (Aead := toy_aead) key nonce aad pt = Some body ->
  aead_seal (Aead := toy_aead) key nonce aad' pt' = Some body ->
  pt = pt' /\ toy_tag nonce aad pt = toy_tag nonce aad' pt'.
Proof.
  cbn. intros [= <-] [= He]. symmetry in He. apply app_inj_2; [|done].
  apply Nat2Z.inj. unfold toy_tag.
  pose proof (zlen_fold_to GCM_TAG_LEN (nonce ++ aad ++ pt)) as H1.
  pose proof (zlen_fold_to GCM_TAG_LEN (nonce ++ aad' ++ pt')) as H2.
  unfold zlen, GCM_TAG_LEN in *. lia.
Qed.

#[export] Instance toy_sha : Sha256 := {
  hasher := bytes;
  sha_new := [];
  sha_update h m := h ++ m;
  sha_finalize h := fold_to 32 (x01 :: h)
}.
#[export] Instance toy_sha_laws : Sha256Laws.
Proof.
  split; [intros; symmetry; apply app_assoc|].
  intros h. by apply zlen_fold_to.
Qed.

#[export] Instance toy_hkdf : Hkdf := {
  hkdf := bytes;
  hkdf_new ikm := ikm;
  hkdf_expand hk info n :=
    if (0 <=? n) && (n <=? 255 * 32) then Some (fold_to n (hk ++ info)) else None
}.
#[export] Instance toy_hkdf_laws : HkdfLaws.
Proof.
  split; cbn -[Z.leb].
  - intros hk info n Hn. replace (_ && _) with true by lia. eauto.
  - intros hk info n out. destruct (_ && _) eqn:Hb; [|done].
    intros [= <-]. apply zlen_fold_to. lia.
Qed.

(** [[u8; n]], with its length. *)
Record array (n : Z) := mk_array { array_bytes : bytes; array_len : (zlen array_bytes =? n) = true }.
Arguments mk_array {n} _ _.
Arguments array_bytes {n} _.
Arguments array_len {n} _.

Lemma zlen_array {n} (a : array n) : zlen (array_bytes a) = n.
Proof. apply Z.eqb_eq, array_len. Qed.

Lemma array_eq {n} (a b : array n) : array_bytes a = array_bytes b -> a = b.
Proof.
  destruct a as [a Ha], b as [b Hb]. cbn. intros <-. f_equal. apply (proof_irrel Ha Hb).
Qed.

Definition array_of (n : Z) (Hn : 0 <= n) (bs : bytes) : array n :=
  mk_array (fold_to n bs) (proj2 (Z.eqb_eq _ _) (zlen_fold_to n bs Hn)).

Definition array_32 : bytes -> array 32 := array_of 32 ltac:(discriminate).

Lemma from_be_zeros n bs : from_be_bytes (repeat x00 n ++ bs) = from_be_bytes bs.
Proof.
  induction n as [|n IH]; [done|]. cbn [repeat app]. by rewrite from_be_bytes_cons, IH.
Qed.

Lemma array_32_zeros n (a : array 32) : array_32 (repeat x00 n ++ array_bytes a) = a.
Proof.
  apply array_eq. cbn. unfold fold_to. rewrite from_be_zeros.
  apply (to_from_be_bytes 32), zlen_array.
Qed.

(** Diffie-Hellman as addition. *)
#[export] Instance toy_x25519 : X25519 := {
  x25519_secret := array 32;
  x25519_secret_from := array_32;
  x25519_secret_bytes := array_bytes;
  x25519_public_of := array_bytes;
  diffie_hellman s pk := to_be_bytes 32 (from_be_bytes (array_bytes s) + from_be_bytes pk)
}.
#[export] Instance toy_x25519_laws : X25519Laws.
Proof.
  split; cbn.
  - apply zlen_array.
  - apply zlen_array.
  - apply (array_32_zeros 0).
  - intros a b. by rewrite Z.add_comm.
Qed.

(** A KEM whose encapsulation key is the padded seed. *)
Definition toy_ek_new (bs : bytes) : option (array ML_KEM_768_EK_SIZE) :=
  match decide ((zlen bs =? ML_KEM_768_EK_SIZE) = true) with
  | left H => Some (mk_array bs H)
  | right _ => None
  end.
Definition toy_shared (ek ct : bytes) : bytes :=
  to_be_bytes 32 (from_be_bytes ek + from_be_bytes ct).

#[export] Instance toy_kem : MlKem := {
  kem_dk := bytes;
  kem_ek := array ML_KEM_768_EK_SIZE;
  kem_coins := bytes;
  kem_from_seed seed := seed;
  kem_ek_of := array_of ML_KEM_768_EK_SIZE ltac:(discriminate);
  kem_ek_bytes := array_bytes;
  kem_ek_new := toy_ek_new;
  kem_encapsulate ek coins :=
    (fold_to ML_KEM_768_CT_SIZE coins,
     toy_shared (array_bytes ek) (fold_to ML_KEM_768_CT_SIZE coins));
  kem_decapsulate dk ct := toy_shared (fold_to ML_KEM_768_EK_SIZE dk) ct
}.
#[export] Instance toy_kem_laws : MlKemLaws.
Proof.
  split; cbn.
  - apply zlen_array.
  - intros ek coins. by apply zlen_fold_to.
  - intros ek. unfold toy_ek_new. destruct (decide _) as [H|H].
    + f_equal. by apply array_eq.
    + by destruct (H (array_len ek)).
Qed.
Lemma toy_kem_agrees dk coins : kem_agrees dk coins.
Proof. done. Defined.

(** A signature scheme whose signature is a checksum of key and message. *)
Definition toy_sign (vk : array 32) (m : bytes) : array 32 :=
  array_32 (array_bytes vk ++ x01 :: m).

#[export] Instance toy_dsa : MlDsa := {
  dsa_sk := array 32;
  dsa_vk := array 32;
  dsa_sig := array 32;
  dsa_from_seed := array_32;
  dsa_to_seed := array_bytes;
  dsa_vk_of sk := sk;
  dsa_vk_encode vk := repeat x00 1920 ++ array_bytes vk;
  dsa_vk_decode := array_32;
  dsa_sig_encode sig := repeat x00 3277 ++ array_bytes sig;
  dsa_sig_decode bs := Some (array_32 bs);
  dsa_sign := toy_sign;
  dsa_verify vk m sig := bool_decide (array_bytes sig = array_bytes (toy_sign vk m))
}.
#[export] Instance toy_dsa_laws : MlDsaLaws.
Proof.
  split; cbn -[repeat].
  - apply zlen_array.
  - apply (array_32_zeros 0).
  - intros vk. by rewrite zlen_app, zlen_repeat, zlen_array.
  - intros vk. apply array_32_zeros.
  - intros sig. by rewrite zlen_app, zlen_repeat, zlen_array.
  - intros sig. f_equal. apply array_32_zeros.
  - intros sk m. by apply bool_decide_true.
Qed.
