(* ===== verification/Codec.v ===== *)
(** * [codec.rs], [raw_packet.rs]: the packet codec

    [PacketCodec_read_packet] and [PacketCodec_write_packet] are the code's two
    methods, over any lawful reader or writer and any AEAD. [delivers] and
    [frame_error] are the abstract specification of reading: which bytes on
    the wire make a packet, and which rule a refused header broke. *)
From S2P Require Import Prelude RustStd Sizes Errors Header PacketType Primitives.

(** ** [raw_packet.rs] *)
Record RawPacket := mk_RawPacket { header : PacketHeader; payload : bytes }.

Definition RawPacket_new (header : PacketHeader) (payload : bytes) : RawPacket :=
  {| header := header; payload := payload |}.

(** ** State *)
Record SessionCipher := mk_SessionCipher {
  outbound_key : bytes;  (* [u8; 32] *)
  inbound_key : bytes    (* [u8; 32] *)
}.

(** [impl Drop]: what the cipher's memory holds when its codec is dropped or
    given new keys. *)
Definition SessionCipher_drop (self : SessionCipher) : SessionCipher :=
  {| outbound_key := zeroize (outbound_key self); inbound_key := zeroize (inbound_key self) |}.

Lemma SessionCipher_drop_wipes self :
  zlen (outbound_key self) = 32 -> zlen (inbound_key self) = 32 ->
  SessionCipher_drop self = mk_SessionCipher (zeros 32) (zeros 32).
Proof. intros Ho Hi. unfold SessionCipher_drop, zeroize. by rewrite Ho, Hi. Qed.

Record PacketCodec := mk_PacketCodec {
  last_recv_seq : option Z;          (* Option<u64> *)
  next_send_seq : Z;                 (* u64 *)
  session : option SessionCipher
}.

Definition PacketCodec_new : PacketCodec :=
  {| last_recv_seq := None; next_send_seq := 1; session := None |}.
(** [impl Default] *)
Definition PacketCodec_default : PacketCodec := PacketCodec_new.

Definition PacketCodec_establish_session (self : PacketCodec) (outbound_key inbound_key : bytes)
    : PacketCodec :=
  {| last_recv_seq := last_recv_seq self;
     next_send_seq := next_send_seq self;
     session := Some {| outbound_key := outbound_key; inbound_key := inbound_key |} |}.

Definition set_last_recv_seq (seq : Z) (self : PacketCodec) : PacketCodec :=
  {| last_recv_seq := Some seq; next_send_seq := next_send_seq self; session := session self |}.
Definition set_next_send_seq (seq : Z) (self : PacketCodec) : PacketCodec :=
  {| last_recv_seq := last_recv_seq self; next_send_seq := seq; session := session self |}.

Definition PacketCodec_validate_sequence (seq : Z) : ST PacketCodec ProtocolError unit :=
  self ← st_get;
  (match last_recv_seq self with
   | Some last => if seq <=? last then st_err (SequenceViolation seq last) else mret tt
   | None => mret tt
   end);;
  st_put (set_last_recv_seq seq self).

Definition seq_nonce (seq : Z) : outcome ProtocolError bytes :=
  copy_into (zeros 12) 4 12 (to_be_bytes 8 seq).

Definition header_aad (packet_type flags : byte) : bytes := [packet_type; flags].

(** A method body runs on the codec and the reader or writer it was given. *)
Abbreviation codec_m T := (ST (PacketCodec * T) ProtocolError).

Definition on_self {T A} (m : ST PacketCodec ProtocolError A) : codec_m T A :=
  fun s => let '(o, c) := m (fst s) in (o, (c, snd s)).
Definition on_io {T A} (op : T -> io_result A * T) : codec_m T A :=
  fun s => let '(o, t) := op (snd s) in (from_io o, (fst s, t)).

(** The ceiling [read_packet] puts on [payload_len]. *)
Definition max_for_type (header : PacketHeader) (packet_type : PacketType) : Z :=
  if PacketHeader_is_encrypted header
  then saturating_add_u32 (PacketType_max_payload_size packet_type) (as_u32 GCM_TAG_LEN)
  else PacketType_max_payload_size packet_type.

(** [header.payload_len = n] *)
Definition with_payload_len (n : Z) (h : PacketHeader) : PacketHeader :=
  {| magic := magic h; version := version h; packet_type := packet_type h; flags := flags h;
     header_len := header_len h; payload_len := n; sequence := sequence h;
     reserved := reserved h |}.

Section codec.
Context `{Aead}.

Definition PacketCodec_read_packet {R} `{AsyncRead R} : codec_m R RawPacket :=
  header_bytes ← on_io (fun reader => read_exact reader CHATIX_HEADER_SIZE);
  header ← st_lift (PacketHeader_from_bytes header_bytes);
  st_lift (PacketHeader_validate header);;
  self ← on_self st_get;
  (if bool_decide (is_Some (session self)) && negb (PacketHeader_is_encrypted header)
   then st_err EncryptionRequired else mret tt);;
  packet_type ← st_lift (PacketType_from_u8 (packet_type header));
  let max_for_type := max_for_type header packet_type in
  (if max_for_type <? payload_len header
   then st_err (PayloadTooLarge (payload_len header) max_for_type) else mret tt);;
  on_self (PacketCodec_validate_sequence (sequence header));;
  payload ← (if 0 <? payload_len header
             then on_io (fun reader => read_exact reader (payload_len header))
             else mret (zeros (payload_len header)));
  if PacketHeader_is_encrypted header then
    self ← on_self st_get;
    cipher ← st_lift (ok_or CryptoError (session self));
    nonce ← st_lift (seq_nonce (sequence header));
    opening_key ← st_lift (ok_or CryptoError (aead_key_new (inbound_key cipher)));
    plaintext ← st_lift (ok_or CryptoError
      (aead_open opening_key nonce
         (header_aad (Header.packet_type header) (flags header)) payload));
    let plaintext_len := zlen plaintext in
    mret (RawPacket_new (with_payload_len (as_u32 plaintext_len) header) plaintext)
  else mret (RawPacket_new header payload).

Definition PacketCodec_write_packet {W} `{AsyncWrite W}
    (packet_type : PacketType) (flags : byte) (payload : bytes) : codec_m W unit :=
  self ← on_self st_get;
  let seq := next_send_seq self in
  next ← st_lift (ok_or CryptoError (checked_add u64_max (next_send_seq self) 1));
  on_self (st_put (set_next_send_seq next self));;
  '(flags, payload) ←
    match session self with
    | Some cipher =>
        let flags := flag_or flags ENCRYPTED in
        nonce ← st_lift (seq_nonce seq);
        sealing_key ← st_lift (ok_or CryptoError (aead_key_new (outbound_key cipher)));
        sealed ← st_lift (ok_or CryptoError
          (aead_seal sealing_key nonce (header_aad (PacketType_as_u8 packet_type) flags)
             payload));
        mret (flags, sealed)
    | None => mret (flags, payload)
    end;
  let header :=
    PacketHeader_new (PacketType_as_u8 packet_type) flags (as_u32 (zlen payload)) seq in
  header_bytes ← st_lift (PacketHeader_to_bytes header);
  on_io (fun writer => write_all writer header_bytes);;
  on_io (fun writer => write_all writer payload);;
  on_io flush;;
  mret tt.
End codec.

(** ** Nonces *)
Definition nonce_of (seq : Z) : bytes := repeat x00 4 ++ to_be_bytes 8 seq.

Lemma seq_nonce_ok seq : seq_nonce seq = Ok (nonce_of seq).
Proof.
  unfold seq_nonce, nonce_of. change (zeros 12) with (repeat x00 4 ++ repeat x00 8 ++ []).
  rewrite copy_into_app by (by rewrite ?zlen_repeat, ?zlen_be_8). by rewrite app_nil_r.
Qed.

Lemma nonce_of_inj a b : is_u64 a -> is_u64 b -> nonce_of a = nonce_of b -> a = b.
Proof. intros Ha Hb Heq%app_inv_head. by apply to_be_u64_inj. Qed.

(** ** Reasoning about a codec method *)
Section codec_wp.
Context {T A : Type}.
Implicit Types (P : A -> PacketCodec * T -> Prop) (Q : ProtocolError -> PacketCodec * T -> Prop).

Lemma st_wp_on_io P Q (op : T -> io_result A * T) c t :
  wp (fun a => P a (c, snd (op t))) (fun e => Q (Io e) (c, snd (op t))) (fst (op t)) ->
  st_wp P Q (on_io op) (c, t).
Proof. unfold st_wp, on_io. cbn. destruct (op t) as [[] t']; done. Qed.
End codec_wp.

Lemma st_wp_get_self {T} (P : PacketCodec -> PacketCodec * T -> Prop) Q c t :
  P c (c, t) -> st_wp P Q (on_self st_get) (c, t).
Proof. done. Qed.

Lemma st_wp_put_self {T} (P : unit -> PacketCodec * T -> Prop) Q c c' t :
  P tt (c', t) -> st_wp P Q (on_self (st_put c')) (c, t).
Proof. done. Qed.

Lemma st_wp_guard {S E} (P : unit -> S -> Prop) (Q : E -> S -> Prop) (b : bool) e s :
  (b = false -> P tt s) -> (b = true -> Q e s) ->
  st_wp P Q (if b then st_err e else mret tt) s.
Proof. destruct b; intros HP HQ; [by apply HQ|by apply HP]. Qed.

(** ** The specification of reading *)
Definition encryption_ok (c : PacketCodec) (h : PacketHeader) : Prop :=
  is_Some (session c) -> PacketHeader_is_encrypted h = true.

(** A header [read_packet] goes on with, as a packet of type [t]. *)
Definition admissible (c : PacketCodec) (h : PacketHeader) (t : PacketType) : Prop :=
  header_valid h /\ encryption_ok c h /\ PacketType_as_u8 t = packet_type h /\
  payload_len h <= max_for_type h t /\
  (forall last, last_recv_seq c = Some last -> last < sequence h).

(** The rule a refused header broke, the rules before it being respected. *)
Definition frame_error (c : PacketCodec) (h : PacketHeader) (e : ProtocolError) : Prop :=
  header_error h e \/
  header_valid h /\
  match e with
  | EncryptionRequired => ~ encryption_ok c h
  | UnknownPacketType b =>
      encryption_ok c h /\ b = packet_type h /\ forall t, PacketType_as_u8 t <> b
  | PayloadTooLarge size max =>
      encryption_ok c h /\
      exists t, PacketType_as_u8 t = packet_type h /\
        size = payload_len h /\ max = max_for_type h t /\ max < size
  | SequenceViolation got last =>
      encryption_ok c h /\
      (exists t, PacketType_as_u8 t = packet_type h /\ payload_len h <= max_for_type h t) /\
      got = sequence h /\ last_recv_seq c = Some last /\ got <= last
  | _ => False
  end.

Lemma as_u8_inj t t' : PacketType_as_u8 t = PacketType_as_u8 t' -> t = t'.
Proof. intros He. pose proof (from_as_u8 t) as Ht. rewrite He, from_as_u8 in Ht. congruence. Qed.

Lemma header_error_invalid h e : header_error h e -> ~ header_valid h.
Proof.
  intros He (?&?&?&?&?). destruct e; cbn in He; try contradiction; destruct_and?; subst;
    congruence || lia.
Qed.

Lemma admissible_no_error c h t e : admissible c h t -> ~ frame_error c h e.
Proof.
  intros (Hv & He & Ht & Hl & Hs) [Herr|[_ Herr]]; [by eapply header_error_invalid|].
  destruct e; try contradiction.
  - destruct Herr as (_ & t' & Ht' & -> & -> & Hlt).
    assert (t' = t) as -> by (apply as_u8_inj; congruence). lia.
  - destruct Herr as (_ & -> & Hn). by destruct (Hn t).
  - destruct Herr as (_ & _ & -> & Hlast & Hle). specialize (Hs _ Hlast). lia.
Qed.

Lemma max_for_type_range h t :
  PacketType_max_payload_size t <= max_for_type h t <= PacketType_max_payload_size t + GCM_TAG_LEN
  /\ max_for_type h t <= 65536 + GCM_TAG_LEN.
Proof.
  pose proof (max_payload_size_range t). unfold max_for_type, saturating_add_u32, u32_max.
  change (as_u32 GCM_TAG_LEN) with GCM_TAG_LEN. unfold GCM_TAG_LEN.
  destruct (PacketHeader_is_encrypted h); lia.
Qed.

Lemma validate_sequence_wp {T} (P : unit -> PacketCodec * T -> Prop) Q seq c t :
  ((forall last, last_recv_seq c = Some last -> last < seq) ->
   P tt (set_last_recv_seq seq c, t)) ->
  (forall last, last_recv_seq c = Some last -> seq <= last ->
   Q (SequenceViolation seq last) (c, t)) ->
  st_wp P Q (on_self (PacketCodec_validate_sequence seq)) (c, t).
Proof.
  intros HP HQ. unfold st_wp, on_self, PacketCodec_validate_sequence. cbn.
  unfold mbind, ST_bind, st_get. cbn. destruct (last_recv_seq c) as [last|] eqn:Hl; cbn.
  - destruct (Z.leb_spec seq last); cbn; [by apply HQ|]. apply HP. by intros ? [= <-].
  - by apply HP.
Qed.

Section read_spec.
Context `{Aead} {R : Type} `{AsyncRead R}.

(** What the payload bytes of a frame stand for. *)
Definition opens (c : PacketCodec) (h : PacketHeader) (body plaintext : bytes) : Prop :=
  if PacketHeader_is_encrypted h then
    exists cipher key,
      session c = Some cipher /\ aead_key_new (inbound_key cipher) = Some key /\
      aead_open key (nonce_of (sequence h)) (header_aad (packet_type h) (flags h)) body
      = Some plaintext
  else plaintext = body.

(** [r] yields the header [h] and is then in the state [r1]. *)
Definition header_read (r : R) (h : PacketHeader) (r1 : R) : Prop :=
  header_ok h /\ read_exact r CHATIX_HEADER_SIZE = (Ok (header_layout h), r1).

Definition body_read (r1 : R) (h : PacketHeader) (body : bytes) (r2 : R) : Prop :=
  if 0 <? payload_len h then read_exact r1 (payload_len h) = (Ok body, r2)
  else body = [] /\ r2 = r1.

(** Everything one call of [read_packet] can do. *)
Inductive delivers (c : PacketCodec) (r : R)
    : outcome ProtocolError RawPacket -> PacketCodec * R -> Prop :=
| no_header e r1 :
    read_exact r CHATIX_HEADER_SIZE = (Err e, r1) ->
    delivers c r (Err (Io e)) (c, r1)
| refused h r1 e :
    header_read r h r1 -> frame_error c h e ->
    delivers c r (Err e) (c, r1)
| no_body h t r1 e r2 :
    header_read r h r1 -> admissible c h t ->
    0 < payload_len h -> read_exact r1 (payload_len h) = (Err e, r2) ->
    delivers c r (Err (Io e)) (set_last_recv_seq (sequence h) c, r2)
| unopened h t r1 body r2 :
    header_read r h r1 -> admissible c h t -> body_read r1 h body r2 ->
    (forall plaintext, ~ opens c h body plaintext) ->
    delivers c r (Err CryptoError) (set_last_recv_seq (sequence h) c, r2)
| delivered h t r1 body r2 plaintext :
    header_read r h r1 -> admissible c h t -> body_read r1 h body r2 ->
    opens c h body plaintext ->
    delivers c r (Ok (RawPacket_new (with_payload_len (zlen plaintext) h) plaintext))
      (set_last_recv_seq (sequence h) c, r2).
End read_spec.

Lemma with_payload_len_id h : with_payload_len (payload_len h) h = h.
Proof. by destruct h. Qed.

Lemma header_layout_inj h h' :
  header_ok h -> header_ok h' -> header_layout h = header_layout h' -> h = h'.
Proof.
  intros Hok Hok' He. pose proof (from_bytes_layout h Hok) as Hh.
  rewrite He, from_bytes_layout in Hh by done. congruence.
Qed.

Section read_laws.
Context `{AeadLaws} {R : Type} `{AsyncReadLaws R}.
Implicit Types (c : PacketCodec) (r : R) (h : PacketHeader).

Lemma body_read_len r1 h body r2 :
  header_ok h -> body_read r1 h body r2 -> zlen body = payload_len h.
Proof.
  intros (_ & Hp & _). unfold body_read, is_u32 in *.
  destruct (Z.ltb_spec 0 (payload_len h)) as [Hlt|].
  - pose proof (read_exact_spec r1 (payload_len h) ltac:(lia)) as Hw.
    intros Hr. by rewrite Hr in Hw.
  - intros [-> _]. rewrite zlen_nil. lia.
Qed.

Lemma opens_len c h body pt :
  opens c h body pt ->
  zlen body = zlen pt + if PacketHeader_is_encrypted h then GCM_TAG_LEN else 0.
Proof.
  unfold opens. destruct (PacketHeader_is_encrypted h).
  - intros (cipher & key & _ & _ & Ho%aead_open_iff). by apply aead_seal_len in Ho.
  - intros ->. lia.
Qed.

Lemma opens_as_u32 c h t body pt :
  header_ok h -> admissible c h t -> zlen body = payload_len h -> opens c h body pt ->
  as_u32 (zlen pt) = zlen pt.
Proof.
  intros _ (_ & _ & _ & Hl & _) Hb Ho%opens_len. apply as_u32_id.
  pose proof (max_for_type_range h t) as [_ Hm]. pose proof (zlen_nonneg pt).
  unfold is_u32, u32_max, GCM_TAG_LEN in *. destruct (PacketHeader_is_encrypted h); lia.
Qed.

(** The steps of [read_packet] after the header is admitted. *)
Lemma body_read_wp (P : bytes -> PacketCodec * R -> Prop) Q c h r1 :
  header_ok h ->
  (forall e r2, 0 < payload_len h -> read_exact r1 (payload_len h) = (Err e, r2) ->
     Q (Io e) (c, r2)) ->
  (forall body r2, body_read r1 h body r2 -> P body (c, r2)) ->
  st_wp P Q (if 0 <? payload_len h
             then on_io (fun reader => read_exact reader (payload_len h))
             else mret (zeros (payload_len h))) (c, r1).
Proof.
  intros (_ & Hp & _) Hio Hk. unfold body_read, is_u32 in *.
  destruct (Z.ltb_spec 0 (payload_len h)) as [Hlt|Hge].
  - apply st_wp_on_io. pose proof (read_exact_spec r1 (payload_len h) ltac:(lia)) as Hw.
    destruct (read_exact r1 (payload_len h)) as [[body|e|] r2] eqn:Hr; cbn in *; auto.
  - apply st_wp_ret. replace (payload_len h) with 0 by lia. by apply Hk.
Qed.

Lemma open_wp (P : RawPacket -> PacketCodec * R -> Prop) Q c h body s :
  session (fst s) = session c -> zlen body = payload_len h ->
  (forall pt, opens c h body pt ->
     P (RawPacket_new (with_payload_len
          (if PacketHeader_is_encrypted h then as_u32 (zlen pt) else zlen pt) h) pt) s) ->
  ((forall pt, ~ opens c h body pt) -> PacketHeader_is_encrypted h = true ->
   Q CryptoError s) ->
  st_wp P Q
    (if PacketHeader_is_encrypted h then
       self ← on_self st_get;
       cipher ← st_lift (ok_or CryptoError (session self));
       nonce ← st_lift (seq_nonce (sequence h));
       opening_key ← st_lift (ok_or CryptoError (aead_key_new (inbound_key cipher)));
       plaintext ← st_lift (ok_or CryptoError
         (aead_open opening_key nonce (header_aad (packet_type h) (flags h)) body));
       let plaintext_len := zlen plaintext in
       mret (RawPacket_new (with_payload_len (as_u32 plaintext_len) h) plaintext)
     else mret (RawPacket_new h body)) s.
Proof.
  intros Hses Hb HP HQ. destruct s as [c' r]. cbn in Hses. unfold opens in *.
  destruct (PacketHeader_is_encrypted h).
  2:{ apply st_wp_ret. rewrite <- (with_payload_len_id h), <- Hb at 1. by apply HP. }
  apply st_wp_bind, st_wp_get_self. rewrite Hses, seq_nonce_ok.
  apply st_wp_bind, st_wp_lift, wp_ok_or; [intros cipher Hc|intros Hc; apply HQ; [|done]; intros ? (?&?&?&?&?); congruence].
  apply st_wp_bind, st_wp_lift. cbn [wp].
  apply st_wp_bind, st_wp_lift, wp_ok_or; [intros key Hk|intros Hk; apply HQ; [|done]; intros ? (?&?&?&?&?); congruence].
  apply st_wp_bind, st_wp_lift, wp_ok_or; [intros pt Ho|intros Ho; apply HQ; [|done]; intros ? (?&?&?&?&?); congruence].
  apply st_wp_ret, HP. eauto.
Qed.

(** The checks of a parsed header, up to the sequence number. *)
Lemma admit_wp {A} (P : A -> PacketCodec * R -> Prop) Q c h r1 k :
  (forall t, header_valid h -> encryption_ok c h -> PacketType_as_u8 t = packet_type h ->
     payload_len h <= max_for_type h t -> st_wp P Q (k t) (c, r1)) ->
  (forall e, frame_error c h e -> Q e (c, r1)) ->
  st_wp P Q
    (st_lift (PacketHeader_validate h);;
     self ← on_self st_get;
     (if bool_decide (is_Some (session self)) && negb (PacketHeader_is_encrypted h)
      then st_err EncryptionRequired else mret tt);;
     packet_type ← st_lift (PacketType_from_u8 (packet_type h));
     let max_for_type := max_for_type h packet_type in
     (if max_for_type <? payload_len h
      then st_err (PayloadTooLarge (payload_len h) max_for_type) else mret tt);;
     k packet_type) (c, r1).
Proof.
  intros Hk HQ. apply st_wp_bind, st_wp_lift.
  eapply wp_mono; [apply validate_wp|intros [] Hv|intros e He; apply HQ; by left].
  apply st_wp_bind, st_wp_get_self.
  apply st_wp_bind, st_wp_guard; intros Henc.
  2:{ apply HQ. right. split; [done|]. cbn. unfold encryption_ok.
      apply andb_true_iff in Henc as [Hs%bool_decide_eq_true Hn%negb_true_iff].
      rewrite Hn. intros Hx. by specialize (Hx Hs). }
  assert (encryption_ok c h) as He.
  { intros Hs. rewrite bool_decide_true in Henc by done. by apply negb_false_iff. }
  clear Henc. apply st_wp_bind, st_wp_lift.
  pose proof (from_u8_wp (packet_type h)) as Hu.
  destruct (PacketType_from_u8 (packet_type h)) as [t|e|] eqn:Ht; cbn in Hu |- *; [| |done].
  2:{ subst e. apply HQ. right. split; [done|].
      split_and!; [done..|]. intros t Ht'. by rewrite <- Ht', from_as_u8 in Ht. }
  apply st_wp_bind, st_wp_guard; intros Hmax.
  2:{ apply HQ. right. split; [done|]. split; [done|].
      exists t. split_and!; [done..|]. by apply Z.ltb_lt. }
  apply Hk; [done..|]. by apply Z.ltb_ge.
Qed.

Lemma read_packet_wp c r :
  st_wp (fun pkt s' => delivers c r (Ok pkt) s') (fun e s' => delivers c r (Err e) s')
    PacketCodec_read_packet (c, r).
Proof.
  unfold PacketCodec_read_packet. apply st_wp_bind, st_wp_on_io.
  pose proof (read_exact_spec r CHATIX_HEADER_SIZE ltac:(done)) as Hw.
  destruct (read_exact r CHATIX_HEADER_SIZE) as [[bs|e|] r1] eqn:Hr; cbn [fst snd wp] in *;
    [|by apply no_header|done].
  destruct (from_bytes_ok bs Hw) as (h & Hp & Hok & <-).
  assert (header_read r h r1) as Hh by done.
  rewrite Hp. apply st_wp_bind, st_wp_lift. cbn [wp].
  apply admit_wp; [intros t Hv He Ht Hmax|intros e He; by eapply refused].
  apply st_wp_bind, validate_sequence_wp.
  2:{ intros last Hl Hle. apply (refused _ _ h); [done|right; split; [done|]].
      cbn. eauto 10. }
  intros Hseq. assert (admissible c h t) as Hadm by done.
  apply st_wp_bind, body_read_wp; [done|intros e r2; by eapply no_body|].
  intros body r2 Hbody. pose proof (body_read_len _ _ _ _ Hok Hbody) as Hb.
  apply (open_wp _ _ c); [done..| |].
  - intros pt Ho. pose proof (opens_as_u32 _ _ _ _ _ Hok Hadm Hb Ho) as Hu32.
    rewrite Hu32. destruct (PacketHeader_is_encrypted h); by eapply delivered.
  - intros Hno _. by eapply unopened.
Qed.

(** The specification determines the outcome. *)
Lemma frame_error_fun c h e e' : frame_error c h e -> frame_error c h e' -> e = e'.
Proof.
  intros [He|[Hv He]] [He'|[Hv' He']];
    try (exfalso; eapply header_error_invalid; eassumption).
  - destruct e, e'; cbn in He, He'; try contradiction; destruct_and?; subst; congruence || lia.
  - destruct e, e'; cbn in He, He'; try contradiction;
      repeat match goal with H : _ /\ _ |- _ => destruct H | H : exists _, _ |- _ => destruct H end;
      subst; try (exfalso; eauto; fail);
      repeat match goal with
      | Ht : PacketType_as_u8 ?t = ?b, Ht' : PacketType_as_u8 ?t' = ?b |- _ =>
          assert (t = t') as <- by (apply as_u8_inj; congruence); clear Ht'
      end; congruence || lia.
Qed.

Lemma header_read_fun r h r1 h' r1' :
  header_read r h r1 -> header_read r h' r1' -> h = h' /\ r1 = r1'.
Proof.
  intros [Hok Hr] [Hok' Hr']. rewrite Hr in Hr'. simplify_eq.
  split; [by apply header_layout_inj|done].
Qed.

Lemma body_read_fun r1 h b r2 b' r2' :
  body_read r1 h b r2 -> body_read r1 h b' r2' -> b = b' /\ r2 = r2'.
Proof.
  unfold body_read. destruct (0 <? payload_len h).
  - intros Hr Hr'. rewrite Hr in Hr'. by simplify_eq.
  - by intros [-> ->] [-> ->].
Qed.

Lemma body_read_ok r1 h b r2 e r2' :
  0 < payload_len h -> body_read r1 h b r2 -> read_exact r1 (payload_len h) <> (Err e, r2').
Proof. unfold body_read. intros Hlt. destruct (Z.ltb_spec 0 (payload_len h)); [congruence|lia]. Qed.

Lemma opens_fun c h b p p' : opens c h b p -> opens c h b p' -> p = p'.
Proof.
  unfold opens. destruct (PacketHeader_is_encrypted h); [|congruence].
  intros (ci & k & Hs & Hk & Ho) (ci' & k' & Hs' & Hk' & Ho'). congruence.
Qed.

Lemma delivers_fun c r o s o' s' : delivers c r o s -> delivers c r o' s' -> o = o' /\ s = s'.
Proof.
  intros Hd Hd'.
  destruct Hd; destruct Hd';
    repeat match goal with
    | Hh : header_read ?r ?h _, Hh' : header_read ?r ?h' _ |- _ =>
        destruct (header_read_fun _ _ _ _ _ Hh Hh') as [<- <-]; clear Hh'
    | Hb : body_read ?r ?h _ _, Hb' : body_read ?r ?h _ _ |- _ =>
        destruct (body_read_fun _ _ _ _ _ _ Hb Hb') as [<- <-]; clear Hb'
    | Ho : opens ?c ?h ?b ?p, Ho' : opens ?c ?h ?b ?p' |- _ =>
        pose proof (opens_fun _ _ _ _ _ Ho Ho') as <-; clear Ho'
    | Ha : admissible ?c ?h _, He : frame_error ?c ?h _ |- _ =>
        by destruct (admissible_no_error _ _ _ _ Ha He)
    | He : frame_error ?c ?h ?e, He' : frame_error ?c ?h ?e' |- _ =>
        pose proof (frame_error_fun _ _ _ _ He He') as <-; clear He'
    | Hl : 0 < payload_len ?h, Hb : body_read ?r ?h _ _, Hr : read_exact ?r _ = (Err _, _) |- _ =>
        by destruct (body_read_ok _ _ _ _ _ _ Hl Hb Hr)
    | Hn : (forall pt, ~ opens ?c ?h ?b pt), Ho : opens ?c ?h ?b _ |- _ =>
        by destruct (Hn _ Ho)
    | Hr : read_exact ?r _ = (Err _, _), Hh : header_read ?r _ _ |- _ =>
        destruct Hh as [_ Hh]; congruence
    end; split; congruence.
Qed.

Lemma read_packet_delivers c r o s :
  PacketCodec_read_packet (c, r) = (o, s) <-> delivers c r o s.
Proof.
  assert (forall o' s', PacketCodec_read_packet (c, r) = (o', s') -> delivers c r o' s') as Hfwd.
  { intros o' s' He. pose proof (read_packet_wp c r) as Hw. unfold st_wp in Hw.
    rewrite He in Hw. by destruct o'. }
  split; [apply Hfwd|]. intros Hd.
  destruct (PacketCodec_read_packet (c, r)) as [o' s'] eqn:He.
  by destruct (delivers_fun _ _ _ _ _ _ Hd (Hfwd _ _ eq_refl)) as [-> ->].
Qed.
End read_laws.

(** ** The specification of writing *)
Section write_spec.
Context `{Aead}.

(** The flags and the body of the frame that carries [payload]. *)
Definition seals (c : PacketCodec) (t : PacketType) (flags : byte) (payload : bytes)
    (flags' : byte) (body : bytes) : Prop :=
  match session c with
  | Some cipher =>
      flags' = flag_or flags ENCRYPTED /\
      exists key, aead_key_new (outbound_key cipher) = Some key /\
        aead_seal key (nonce_of (next_send_seq c)) (header_aad (PacketType_as_u8 t) flags')
          payload = Some body
  | None => flags' = flags /\ body = payload
  end.

Definition frame_header (c : PacketCodec) (t : PacketType) (flags' : byte) (body : bytes)
    : PacketHeader :=
  PacketHeader_new (PacketType_as_u8 t) flags' (as_u32 (zlen body)) (next_send_seq c).

Context {W : Type} `{AsyncWrite W}.

(** The I/O of one frame: header, body, flush. *)
Inductive sends (w : W) (head body : bytes) : outcome ProtocolError unit -> W -> Prop :=
| head_failed e w1 : write_all w head = (Err e, w1) -> sends w head body (Err (Io e)) w1
| body_failed w1 e w2 :
    write_all w head = (Ok tt, w1) -> write_all w1 body = (Err e, w2) ->
    sends w head body (Err (Io e)) w2
| flush_failed w1 w2 e w3 :
    write_all w head = (Ok tt, w1) -> write_all w1 body = (Ok tt, w2) ->
    flush w2 = (Err e, w3) -> sends w head body (Err (Io e)) w3
| sent w1 w2 w3 :
    write_all w head = (Ok tt, w1) -> write_all w1 body = (Ok tt, w2) ->
    flush w2 = (Ok tt, w3) -> sends w head body (Ok tt) w3.

(** Everything one call of [write_packet] can do. *)
Inductive transmits (c : PacketCodec) (w : W) (t : PacketType) (flags : byte) (payload : bytes)
    : outcome ProtocolError unit -> PacketCodec * W -> Prop :=
| exhausted :
    u64_max <= next_send_seq c -> transmits c w t flags payload (Err CryptoError) (c, w)
| unsealed :
    next_send_seq c < u64_max ->
    (forall flags' body, ~ seals c t flags payload flags' body) ->
    transmits c w t flags payload (Err CryptoError)
      (set_next_send_seq (next_send_seq c + 1) c, w)
| transmitted flags' body o w' :
    next_send_seq c < u64_max -> seals c t flags payload flags' body ->
    sends w (header_layout (frame_header c t flags' body)) body o w' ->
    transmits c w t flags payload o (set_next_send_seq (next_send_seq c + 1) c, w').
End write_spec.

Section write_laws.
Context `{AeadLaws}.
Implicit Types (c : PacketCodec) (t : PacketType) (fl : byte) (pl : bytes).

Lemma seals_wp {T} c t fl pl (P : byte * bytes -> PacketCodec * T -> Prop) Q s :
  (forall fl' body, seals c t fl pl fl' body -> P (fl', body) s) ->
  ((forall fl' body, ~ seals c t fl pl fl' body) -> Q CryptoError s) ->
  st_wp P Q
    (match session c with
     | Some cipher =>
         let flags := flag_or fl ENCRYPTED in
         nonce ← st_lift (seq_nonce (next_send_seq c));
         sealing_key ← st_lift (ok_or CryptoError (aead_key_new (outbound_key cipher)));
         sealed ← st_lift (ok_or CryptoError
           (aead_seal sealing_key nonce (header_aad (PacketType_as_u8 t) flags) pl));
         mret (flags, sealed)
     | None => mret (fl, pl)
     end) s.
Proof.
  intros HP HQ. unfold seals in *. destruct (session c) as [cipher|].
  2:{ apply st_wp_ret. by apply HP. }
  rewrite seq_nonce_ok. apply st_wp_bind, st_wp_lift. cbn [wp].
  apply st_wp_bind, st_wp_lift, wp_ok_or; [intros key Hk|intros Hk; apply HQ].
  2:{ intros fl' body (_ & key & Hk' & _). congruence. }
  apply st_wp_bind, st_wp_lift, wp_ok_or; [intros ct Hs|intros Hs; apply HQ].
  2:{ intros fl' body (-> & key' & Hk' & Hs'). congruence. }
  apply st_wp_ret, HP. eauto.
Qed.

Lemma seals_total c t fl pl :
  (forall cipher, session c = Some cipher -> zlen (outbound_key cipher) = 32) ->
  zlen pl <= AEAD_MAX -> exists fl' body, seals c t fl pl fl' body.
Proof.
  intros Hk Hl. unfold seals. destruct (session c) as [cipher|]; [|eauto].
  destruct (aead_key_new_32 (outbound_key cipher)) as [key Hkey]; [by apply Hk|].
  destruct (aead_seal_total key (nonce_of (next_send_seq c))
    (header_aad (PacketType_as_u8 t) (flag_or fl ENCRYPTED)) pl Hl) as [ct Hct]. eauto 10.
Qed.

Lemma seals_len c t fl pl fl' body :
  seals c t fl pl fl' body ->
  zlen body = zlen pl + match session c with Some _ => GCM_TAG_LEN | None => 0 end.
Proof.
  unfold seals. destruct (session c).
  - intros (_ & key & _ & Hs). by apply aead_seal_len in Hs.
  - intros [_ ->]. lia.
Qed.

Context {W : Type} `{AsyncWriteLaws W}.

Lemma write_packet_wp c (w : W) t fl pl :
  st_wp (fun u s' => transmits c w t fl pl (Ok u) s')
    (fun e s' => transmits c w t fl pl (Err e) s')
    (PacketCodec_write_packet t fl pl) (c, w).
Proof.
  unfold PacketCodec_write_packet. apply st_wp_bind, st_wp_get_self.
  apply st_wp_bind, st_wp_lift. unfold checked_add.
  destruct (Z.leb_spec (next_send_seq c + 1) u64_max) as [Hn|Hn]; cbn [ok_or wp];
    [|apply exhausted; lia].
  apply st_wp_bind, st_wp_put_self.
  apply st_wp_bind, seals_wp; [intros fl' body Hs|intros Hno; apply unsealed; [lia|done]].
  cbn beta iota zeta. rewrite to_bytes_layout by done.
  assert (forall o w', sends w (header_layout (frame_header c t fl' body)) body o w' ->
    transmits c w t fl pl o (set_next_send_seq (next_send_seq c + 1) c, w')) as Ht.
  { intros o w' Hw. eapply transmitted; [lia|done..]. }
  apply st_wp_bind, st_wp_lift. cbn [wp].
  change (PacketHeader_new _ _ _ _) with (frame_header c t fl' body).
  apply st_wp_bind, st_wp_on_io. pose proof (write_all_spec w
    (header_layout (frame_header c t fl' body))) as Hw1.
  destruct (write_all w _) as [[[]|e|] w1] eqn:E1; cbn [fst snd wp] in *;
    [|by apply Ht, head_failed|done].
  apply st_wp_bind, st_wp_on_io. pose proof (write_all_spec w1 body) as Hw2.
  destruct (write_all w1 body) as [[[]|e|] w2] eqn:E2; cbn [fst snd wp] in *;
    [|by apply Ht; eapply body_failed|done].
  apply st_wp_bind, st_wp_on_io. pose proof (flush_spec w2) as Hw3.
  destruct (flush w2) as [[[]|e|] w3] eqn:E3; cbn [fst snd wp] in *;
    [|by apply Ht; eapply flush_failed|done].
  apply st_wp_ret. apply Ht. by eapply sent.
Qed.

Lemma write_packet_transmits c (w : W) t fl pl o s :
  PacketCodec_write_packet t fl pl (c, w) = (o, s) -> transmits c w t fl pl o s.
Proof.
  intros He. pose proof (write_packet_wp c w t fl pl) as Hw. unfold st_wp in Hw.
  rewrite He in Hw. by destruct o.
Qed.
End write_laws.

(** ** Reading and writing in memory *)
Section in_memory.
Context `{AeadLaws}.

Lemma header_read_pending {R} `{InputStreamLaws R} (r : R) h rest :
  header_ok h -> pending r = header_layout h ++ rest ->
  exists r1, header_read r h r1 /\ pending r1 = rest.
Proof.
  intros Hok Hp. destruct (read_exact_pending r _ _ Hp) as (r1 & Hr & Hp1).
  rewrite zlen_header_layout in Hr by apply Hok. exists r1. by split.
Qed.

Lemma body_read_pending {R} `{InputStreamLaws R} (r1 : R) h body rest :
  pending r1 = body ++ rest -> payload_len h = zlen body ->
  exists r2, body_read r1 h body r2 /\ pending r2 = rest.
Proof.
  intros Hp Hl. unfold body_read. rewrite Hl. destruct (Z.ltb_spec 0 (zlen body)) as [Hlt|Hge].
  - destruct (read_exact_pending r1 _ _ Hp) as (r2 & Hr & Hp2). eauto.
  - assert (body = []) as -> by (apply zlen_zero_nil; pose proof (zlen_nonneg body); lia).
    exists r1. done.
Qed.

(** Conversely, what was read is what was pending. *)
Lemma read_exact_inv {R} `{InputStreamLaws R} (r : R) n bs r' :
  0 <= n -> read_exact r n = (Ok bs, r') -> pending r = bs ++ pending r'.
Proof.
  intros Hn Hr. destruct (Z.ltb_spec (zlen (pending r)) n) as [Hlt|Hge].
  - destruct (read_exact_eof r n Hlt) as (e & r1 & He & _). congruence.
  - destruct (split_at (pending r) n) as (a & b & Hp & <-); [done|].
    destruct (read_exact_pending r a b Hp) as (r1 & Hr1 & <-). congruence.
Qed.

Lemma frame_pending {R} `{InputStreamLaws R} (r : R) h r1 body r2 :
  header_read r h r1 -> body_read r1 h body r2 ->
  pending r = header_layout h ++ body ++ pending r2.
Proof.
  intros [Hok Hr] Hb. apply read_exact_inv in Hr as ->; [|done]. f_equal.
  destruct Hok as (_ & Hl & _). unfold body_read, is_u32 in *.
  destruct (0 <? payload_len h); [|by destruct Hb as [-> ->]].
  apply (read_exact_inv r1 (payload_len h)); [lia|done].
Qed.

Lemma sends_written {W} `{OutputStreamLaws W} (w : W) head body o w' :
  sends w head body o w' -> o = Ok tt /\ written w' = written w ++ head ++ body.
Proof.
  intros Hs. destruct Hs as [e w1 Ha|w1 e w2 Ha Hb|w1 w2 e w3 Ha Hb Hc|w1 w2 w3 Ha Hb Hc];
    repeat match goal with
    | Hw : write_all ?w ?b = _ |- _ =>
        let w' := fresh in let E := fresh in let Ew := fresh "Hw" in
        destruct (write_all_written w b) as (w' & E & Ew);
        rewrite E in Hw; clear E; simplify_eq
    | Hw : flush ?w = _ |- _ =>
        let w' := fresh in let E := fresh in let Ew := fresh "Hw" in
        destruct (flush_written w) as (w' & E & Ew); rewrite E in Hw; clear E; simplify_eq
    end.
  split; [done|]. rewrite app_assoc. congruence.
Qed.

Lemma write_packet_ok {W} `{OutputStreamLaws W} c (w : W) t fl pl fl' body :
  next_send_seq c < u64_max -> seals c t fl pl fl' body ->
  exists w', PacketCodec_write_packet t fl pl (c, w)
    = (Ok tt, (set_next_send_seq (next_send_seq c + 1) c, w')) /\
    written w' = written w ++ header_layout (frame_header c t fl' body) ++ body.
Proof.
  intros Hn Hs. destruct (PacketCodec_write_packet t fl pl (c, w)) as [o s] eqn:He.
  apply write_packet_transmits in He. destruct He as [?|? Hno|fl1 b1 o w' _ Hs' Hw].
  - lia.
  - by destruct (Hno _ _ Hs).
  - assert (fl1 = fl' /\ b1 = body) as [-> ->].
    { unfold seals in *. destruct (session c); [|destruct_and!; split; congruence].
      destruct Hs as (-> & k & Hk & Hsl), Hs' as (-> & k' & Hk' & Hsl'). by simplify_eq. }
    apply sends_written in Hw as [-> Hw]. eauto.
Qed.
End in_memory.

(** ** Frames a peer could have written *)
Lemma flag_or_id f : Z.odd (byte_val f) = true -> flag_or f ENCRYPTED = f.
Proof. by destruct f. Qed.

Lemma header_valid_new h :
  header_valid h ->
  h = PacketHeader_new (packet_type h) (flags h) (payload_len h) (sequence h).
Proof.
  intros (Hm & Hv & Hl & _ & Hr). destruct h. cbn in *. by subst.
Qed.

(** The codec at the other end of [cipher]'s inbound direction, about to use
    the sequence number [seq]. *)
Definition peer_codec (cipher : SessionCipher) (seq : Z) : PacketCodec :=
  {| last_recv_seq := None; next_send_seq := seq;
     session := Some {| outbound_key := inbound_key cipher;
                        inbound_key := outbound_key cipher |} |}.

(** What is delivered in a session is authentic: the bytes consumed are exactly
    the frame that the holder of the matching key writes for this very packet
    type, flags, sequence number and payload. *)
Lemma session_frame_inv `{AeadLaws} {R} `{InputStreamLaws R}
    (c : PacketCodec) (r : R) cipher pkt c' r' :
  session c = Some cipher ->
  PacketCodec_read_packet (c, r) = (Ok pkt, (c', r')) ->
  let peer := peer_codec cipher (sequence (header pkt)) in
  exists t body,
    PacketType_as_u8 t = packet_type (header pkt) /\
    seals peer t (flags (header pkt)) (payload pkt) (flags (header pkt)) body /\
    pending r = header_layout (frame_header peer t (flags (header pkt)) body)
                ++ body ++ pending r'.
Proof.
  intros Hses Hd%read_packet_delivers peer.
  inversion Hd as [| | | |h t r1 body r2 pt Hh Ha Hb Ho]; subst.
  pose proof (body_read_len _ _ _ _ (proj1 Hh) Hb) as Hlen.
  destruct Ha as (Hv & He & Ht & Hl & Hs). specialize (He ltac:(by rewrite Hses)).
  rewrite is_encrypted_odd in He.
  exists t, body. split_and!; [done| |].
  - unfold opens in Ho. rewrite is_encrypted_odd, He in Ho.
    destruct Ho as (cipher' & key & Hc & Hk & Hopen%aead_open_iff).
    rewrite Hses in Hc. injection Hc as <-.
    unfold seals, peer. cbn. rewrite flag_or_id, Ht by done. eauto.
  - rewrite (frame_pending _ _ _ _ _ Hh Hb). f_equal. f_equal.
    unfold frame_header, peer. cbn. rewrite Ht, as_u32_id.
    + rewrite Hlen. by apply header_valid_new.
    + rewrite Hlen. apply Hh.
Qed.

(** A reader that records the size of every request made to it. *)
Record Logged (R : Type) := mk_Logged { inner : R; requests : list Z }.
Arguments mk_Logged {R} _ _.
Arguments inner {R} _.
Arguments requests {R} _.
#[export] Instance logged_read {R} `{AsyncRead R} : AsyncRead (Logged R) := {
  read_exact r n :=
    let '(o, r') := read_exact (inner r) n in (o, mk_Logged r' (requests r ++ [n]))
}.
#[export] Instance logged_read_laws {R} `{AsyncReadLaws R} : AsyncReadLaws (Logged R).
Proof.
  split. intros r n Hn. cbn. pose proof (read_exact_spec (inner r) n Hn) as Hw.
  by destruct (read_exact (inner r) n).
Qed.

Lemma logged_requests {R} `{AsyncRead R} (r : Logged R) n o r' :
  read_exact r n = (o, r') -> requests r' = requests r ++ [n].
Proof. cbn. destruct (read_exact (inner r) n). by intros [= _ <-]. Qed.

(** ** Properties *)

(** C8. [read_packet] refines its specification: over any reader it never
    panics, and its outcome and the state it leaves are the one [delivers]
    allows. A header that cannot be read or breaks a rule is refused with the
    error of the first rule broken, in the code's order, without changing the
    codec or reading a payload byte; an admitted one always advances the last
    received sequence number, and is delivered exactly when its payload is
    read and, if encrypted, opens under the inbound key, the nonce of its
    sequence number and its own type and flags. *)
Theorem read_packet_refines `{AeadLaws} {R} `{AsyncReadLaws R} (c : PacketCodec) (r : R) :
  exists o s', PacketCodec_read_packet (c, r) = (o, s') /\ o <> Panic /\
    forall o' s'', delivers c r o' s'' <-> o' = o /\ s'' = s'.
Proof.
  destruct (PacketCodec_read_packet (c, r)) as [o s'] eqn:He. exists o, s'.
  pose proof (proj1 (read_packet_delivers c r o s') He) as Hd. split_and!; [done| |].
  - intros ->. inversion Hd.
  - intros o' s''. split; [|by intros [-> ->]]. intros Hd'. by eapply delivers_fun.
Qed.

(** Every packet [read_packet] returns satisfies the protocol's rules: its
    header is valid, its length field is the length of the payload returned,
    its type is known and the payload within that type's limit, it is
    encrypted if a session is established, its sequence number is above every
    earlier one, and that number is all the call changed in the codec. *)
Lemma accepted_packet `{AeadLaws} {R} `{AsyncReadLaws R} (c : PacketCodec) (r : R) pkt c' r' :
  PacketCodec_read_packet (c, r) = (Ok pkt, (c', r')) ->
  header_valid (header pkt) /\
  payload_len (header pkt) = zlen (payload pkt) /\
  (exists t, PacketType_as_u8 t = packet_type (header pkt) /\
     zlen (payload pkt) <= PacketType_max_payload_size t) /\
  (is_Some (session c) -> PacketHeader_is_encrypted (header pkt) = true) /\
  (forall last, last_recv_seq c = Some last -> last < sequence (header pkt)) /\
  c' = set_last_recv_seq (sequence (header pkt)) c.
Proof.
  intros Hd%read_packet_delivers. inversion Hd as [| | | |h t r1 body r2 pt Hh Ha Hb Ho]; subst.
  pose proof (body_read_len _ _ _ _ (proj1 Hh) Hb) as Hlen. apply opens_len in Ho.
  destruct Ha as (Hv & He & Ht & Hl & Hs). pose proof (max_payload_size_range t).
  assert (zlen pt <= PacketType_max_payload_size t) as Hmax.
  { unfold max_for_type, saturating_add_u32 in Hl. change (as_u32 GCM_TAG_LEN) with GCM_TAG_LEN in Hl.
    destruct (PacketHeader_is_encrypted h); lia. }
  split_and!; [|done|by exists t|done..].
  destruct Hv as (?&?&?&?&?). repeat split; [done..| |done].
  cbn. unfold MAX_PAYLOAD_LEN. lia.
Qed.

(** Plaintext injection: once a session is established, a frame whose
    ENCRYPTED bit is clear is refused with [EncryptionRequired] whatever else
    it holds, and neither the codec nor the frame's payload is touched; before
    that, a frame with the bit set is never delivered. *)
Lemma plaintext_injection_refused `{AeadLaws} {R} `{InputStreamLaws R}
    (c : PacketCodec) (r : R) h rest :
  header_ok h -> header_valid h -> pending r = header_layout h ++ rest ->
  (is_Some (session c) -> PacketHeader_is_encrypted h = false ->
   exists r', PacketCodec_read_packet (c, r) = (Err EncryptionRequired, (c, r')) /\
     pending r' = rest) /\
  (session c = None -> PacketHeader_is_encrypted h = true ->
   forall pkt s', PacketCodec_read_packet (c, r) <> (Ok pkt, s')).
Proof.
  intros Hok Hv Hp. destruct (header_read_pending r h rest Hok Hp) as (r1 & Hh & Hr1).
  split.
  - intros Hs He. exists r1. split; [|done]. apply read_packet_delivers.
    eapply refused; [done|]. right. split; [done|]. intros Hx. by rewrite (Hx Hs) in He.
  - intros Hs He pkt s' Hd%read_packet_delivers.
    inversion Hd as [| | | |h' t r1' body r2 pt Hh' Ha Hb Ho]; subst.
    destruct (header_read_fun _ _ _ _ _ Hh Hh') as [<- <-].
    unfold opens in Ho. rewrite He in Ho. destruct Ho as (? & ? & Hses & _). congruence.
Qed.

(** C9. [write_packet] refines its specification over any writer, failing ones
    included: it never panics; when the sequence space is exhausted it fails
    with [CryptoError] before writing anything; otherwise it consumes exactly
    one sequence number, whatever happens next, and the bytes it hands to the
    writer are the header (with that number, the type, and the flags with
    ENCRYPTED added in a session) and the payload, sealed in a session under
    the outbound key, the number's nonce, and the type and flags sent. *)
Theorem write_packet_refines `{AeadLaws} {W} `{AsyncWriteLaws W}
    (c : PacketCodec) (w : W) t fl pl :
  exists o s', PacketCodec_write_packet t fl pl (c, w) = (o, s') /\
    transmits c w t fl pl o s' /\ o <> Panic /\
    (next_send_seq c = u64_max -> o = Err CryptoError /\ s' = (c, w)) /\
    (next_send_seq c < u64_max -> fst s' = set_next_send_seq (next_send_seq c + 1) c).
Proof.
  destruct (PacketCodec_write_packet t fl pl (c, w)) as [o s'] eqn:He. exists o, s'.
  apply write_packet_transmits in He. split_and!; [done..| | |].
  - intros ->. by inversion He as [| |? ? ? ? ? ? Hs]; inversion Hs.
  - intros Hn. inversion He; [done|lia..].
  - intros Hn. inversion He; [lia|done..].
Qed.

(** [write_packet] does not enforce the size limits, its peer does: a
    payload above its type's limit (and up to the AEAD's) is written, and the
    peer's [read_packet] refuses the frame with [PayloadTooLarge] and keeps its
    state. *)
Lemma oversized_frame_refused `{AeadLaws} {W} `{OutputStreamLaws W} {R} `{InputStreamLaws R}
    (cs cr : PacketCodec) (w : W) (r : R) t fl pl rest :
  (forall cipher, session cs = Some cipher -> zlen (outbound_key cipher) = 32) ->
  is_Some (session cs) -> is_u64 (next_send_seq cs) -> next_send_seq cs < u64_max ->
  PacketType_max_payload_size t < zlen pl <= u32_max - GCM_TAG_LEN ->
  exists frame s' w',
    PacketCodec_write_packet t fl pl (cs, w) = (Ok tt, (s', w')) /\
    written w' = written w ++ frame /\
    (pending r = frame ++ rest ->
     exists size max r', PacketCodec_read_packet (cr, r)
       = (Err (PayloadTooLarge size max), (cr, r'))).
Proof.
  intros Hk [cipher Hses] Hseq Hn Hl.
  destruct (seals_total cs t fl pl Hk) as (fl' & body & Hs); [unfold AEAD_MAX, GCM_TAG_LEN, u32_max in *; lia|].
  destruct (write_packet_ok cs w t fl pl fl' body Hn Hs) as (w' & Hw & Hw').
  pose proof (seals_len _ _ _ _ _ _ Hs) as Hb. rewrite Hses in Hb.
  cbn beta iota in Hb.
  set (h := frame_header cs t fl' body) in *.
  exists (header_layout h ++ body), (set_next_send_seq (next_send_seq cs + 1) cs), w'.
  split_and!; [done..|]. rewrite <- app_assoc. intros Hp.
  assert (is_u32 (zlen body)) as Hu by (unfold is_u32; pose proof (zlen_nonneg body); lia).
  assert (header_ok h) as Hok.
  { unfold h, frame_header. apply header_new_ok; [by apply as_u32_range|done]. }
  destruct (header_read_pending r h _ Hok Hp) as (r1 & Hh & _).
  assert (payload_len h = zlen body) as Hlen by (cbn; by apply as_u32_id).
  destruct (Z.ltb_spec MAX_PAYLOAD_LEN (zlen body)) as [Hm|Hm].
  - exists (zlen body), MAX_PAYLOAD_LEN, r1. apply read_packet_delivers.
    eapply refused; [done|]. left. by split_and!.
  - exists (zlen body), (max_for_type h t), r1. apply read_packet_delivers.
    eapply refused; [done|]. right.
    assert (PacketHeader_is_encrypted h = true) as He.
    { rewrite is_encrypted_odd. unfold seals in Hs. rewrite Hses in Hs.
      destruct Hs as [-> _]. apply flag_or_odd. }
    split; [by apply header_new_valid; rewrite as_u32_id|].
    split; [by intros _|]. exists t. split_and!; [done..|].
    pose proof (max_for_type_range h t) as [[_ Hmax] _]. lia.
Qed.

(** C22. Resource bound: one call asks its reader for the 24 header bytes and
    then at most once more, for between 1 and 65552 bytes (65536 and an AEAD
    tag), whatever length the header claims; so that is the largest buffer an
    unauthenticated peer can make it allocate. *)
Theorem read_requests_bounded `{AeadLaws} {R} `{AsyncReadLaws R}
    (c c' : PacketCodec) (r r' : Logged R) o :
  PacketCodec_read_packet (c, r) = (o, (c', r')) ->
  exists more, requests r' = requests r ++ CHATIX_HEADER_SIZE :: more /\
    (more = [] \/ exists n, more = [n] /\ 1 <= n <= 65536 + GCM_TAG_LEN).
Proof.
  intros Hd%read_packet_delivers.
  assert (forall h t r1 o1 r2, header_read r h r1 -> admissible c h t -> 0 < payload_len h ->
    read_exact r1 (payload_len h) = (o1, r2) -> requests r2 = requests r ++ [24; payload_len h] /\
    1 <= payload_len h <= 65536 + GCM_TAG_LEN) as Htwo.
  { intros h t r1 o1 r2 [_ Hh%logged_requests] (_ & _ & _ & Ha & _) Hlt Hr%logged_requests.
    rewrite Hr, Hh, <- app_assoc. split; [done|].
    pose proof (max_for_type_range h t). lia. }
  assert (forall h t r1 body r2, header_read r h r1 -> admissible c h t -> body_read r1 h body r2 ->
    exists more, requests r2 = requests r ++ 24 :: more /\
    (more = [] \/ exists n, more = [n] /\ 1 <= n <= 65536 + GCM_TAG_LEN)) as Hbody.
  { intros h t r1 body r2 Hh Ha Hb. unfold body_read in Hb.
    destruct (Z.ltb_spec 0 (payload_len h)) as [Hlt|].
    - destruct (Htwo _ _ _ _ _ Hh Ha Hlt Hb). eauto 10.
    - destruct Hb as [-> ->]. destruct Hh as [_ ->%logged_requests]. eauto. }
  inversion Hd as [e r1 Hr|h r1 e [_ Hr] _|h t r1 e r2 Hh Ha Hlt Hr|h t r1 b r2 Hh Ha Hb _
    |h t r1 b r2 pt Hh Ha Hb _]; subst; try by eapply Hbody.
  - apply logged_requests in Hr as ->. eauto.
  - apply logged_requests in Hr as ->. eauto.
  - destruct (Htwo _ _ _ _ _ Hh Ha Hlt Hr). eauto 10.
Qed.
