(* ===== verification/Async.v ===== *)
(** * The codec's [async fn]s, await by await

    [Codec] gives the two methods as functions that run to completion. Here
    they are futures: trees whose nodes are the [.await]s of the code, each
    with the request made to the stream and the codec as it is while the call
    is suspended. [block_on] drives a future against a stream and is proved to
    compute the functions of [Codec]; [dropped] is the cancellation of a call
    at one of its awaits. *)
From Stdlib Require Import String.
From S2P Require Import Prelude RustStd Sizes Errors Header PacketType Primitives Codec.

(** A future that makes requests [E] answered by [io_result X]. The codec is
    borrowed by the future: [self] at an await is what is left of it when the
    future is dropped there. *)
Inductive future (E X A : Type) : Type :=
| ready (o : outcome ProtocolError A) (self : PacketCodec)
| await (e : E) (self : PacketCodec) (resume : io_result X -> future E X A).
Arguments ready {E X A} o self.
Arguments await {E X A} e self resume.

(** An [async] method of the codec. *)
Definition async (E X A : Type) : Type := PacketCodec -> future E X A.

Fixpoint future_bind {E X A B} (f : future E X A) (k : A -> async E X B) : future E X B :=
  match f with
  | ready (Ok a) self => k a self
  | ready (Err e) self => ready (Err e) self
  | ready Panic self => ready Panic self
  | await e self resume => await e self (fun x => future_bind (resume x) k)
  end.

#[export] Instance async_ret E X : MRet (async E X) := fun A a self => ready (Ok a) self.
#[export] Instance async_bind E X : MBind (async E X) :=
  fun A B k m self => future_bind (m self) k.

Definition async_lift {E X A} (o : outcome ProtocolError A) : async E X A :=
  fun self => ready o self.
Definition async_err {E X A} (e : ProtocolError) : async E X A := async_lift (Err e).
(** Code between two awaits. *)
Definition async_self {E X A} (m : ST PacketCodec ProtocolError A) : async E X A :=
  fun self => let '(o, self') := m self in ready o self'.
(** [request.await?] *)
Definition async_io {E X} (e : E) : async E X X :=
  fun self => await e self (fun x => ready (from_io x) self).

(** The requests of a writer; a reader is asked for a number of bytes. *)
Inductive write_op :=
| WriteAll (bs : bytes)
| Flush.

Abbreviation reading := (async Z bytes).
Abbreviation writing := (async write_op unit).

Section methods.
Context `{Aead}.

Definition read_packet_async : reading RawPacket :=
  header_bytes ← async_io CHATIX_HEADER_SIZE;
  header ← async_lift (PacketHeader_from_bytes header_bytes);
  async_lift (PacketHeader_validate header);;
  self ← async_self st_get;
  (if bool_decide (is_Some (session self)) && negb (PacketHeader_is_encrypted header)
   then async_err EncryptionRequired else mret tt);;
  packet_type ← async_lift (PacketType_from_u8 (packet_type header));
  let max_for_type := max_for_type header packet_type in
  (if max_for_type <? payload_len header
   then async_err (PayloadTooLarge (payload_len header) max_for_type) else mret tt);;
  async_self (PacketCodec_validate_sequence (sequence header));;
  payload ← (if 0 <? payload_len header
             then async_io (payload_len header)
             else mret (zeros (payload_len header)));
  if PacketHeader_is_encrypted header then
    self ← async_self st_get;
    cipher ← async_lift (ok_or CryptoError (session self));
    nonce ← async_lift (seq_nonce (sequence header));
    opening_key ← async_lift (ok_or CryptoError (aead_key_new (inbound_key cipher)));
    plaintext ← async_lift (ok_or CryptoError
      (aead_open opening_key nonce
         (header_aad (Header.packet_type header) (flags header)) payload));
    let plaintext_len := zlen plaintext in
    mret (RawPacket_new (with_payload_len (as_u32 plaintext_len) header) plaintext)
  else mret (RawPacket_new header payload).

Definition write_packet_async (packet_type : PacketType) (flags : byte) (payload : bytes)
    : writing unit :=
  self ← async_self st_get;
  let seq := next_send_seq self in
  next ← async_lift (ok_or CryptoError (checked_add u64_max (next_send_seq self) 1));
  async_self (st_put (set_next_send_seq next self));;
  '(flags, payload) ←
    match session self with
    | Some cipher =>
        let flags := flag_or flags ENCRYPTED in
        nonce ← async_lift (seq_nonce seq);
        sealing_key ← async_lift (ok_or CryptoError (aead_key_new (outbound_key cipher)));
        sealed ← async_lift (ok_or CryptoError
          (aead_seal sealing_key nonce (header_aad (PacketType_as_u8 packet_type) flags)
             payload));
        mret (flags, sealed)
    | None => mret (flags, payload)
    end;
  let header :=
    PacketHeader_new (PacketType_as_u8 packet_type) flags (as_u32 (zlen payload)) seq in
  header_bytes ← async_lift (PacketHeader_to_bytes header);
  async_io (WriteAll header_bytes);;
  async_io (WriteAll payload);;
  async_io Flush;;
  mret tt.
End methods.

(** ** Driving a future to completion *)
Fixpoint block_on {E X A T} (answer : E -> T -> io_result X * T) (f : future E X A) (t : T)
    : outcome ProtocolError A * (PacketCodec * T) :=
  match f with
  | ready o self => (o, (self, t))
  | await e self resume => let '(x, t') := answer e t in block_on answer (resume x) t'
  end.

Definition reader_answer {R} `{AsyncRead R} (n : Z) (r : R) : io_result bytes * R :=
  read_exact r n.
Definition writer_answer {W} `{AsyncWrite W} (op : write_op) (w : W) : io_result unit * W :=
  match op with WriteAll bs => write_all w bs | Flush => flush w end.

(** [m] driven against a stream is the function [m']. *)
Definition drives {E X A T} (answer : E -> T -> io_result X * T) (m : async E X A)
    (m' : codec_m T A) : Prop :=
  forall self t, block_on answer (m self) t = m' (self, t).

Section drives.
Context {E X T : Type} (answer : E -> T -> io_result X * T).

Lemma block_on_bind {A B} (f : future E X A) (k : A -> async E X B) t :
  block_on answer (future_bind f k) t =
  match block_on answer f t with
  | (Ok a, (self, t')) => block_on answer (k a self) t'
  | (Err e, s) => (Err e, s)
  | (Panic, s) => (Panic, s)
  end.
Proof.
  revert t. induction f as [o self|e self resume IH]; intros t; cbn.
  - by destruct o.
  - by destruct (answer e t) as [x t'].
Qed.

Lemma drives_bind {A B} (m : async E X A) m' (k : A -> async E X B) k' :
  drives answer m m' -> (forall a, drives answer (k a) (k' a)) ->
  drives answer (m ≫= k) (m' ≫= k').
Proof.
  intros Hm Hk self t. unfold mbind, async_bind, ST_bind. rewrite block_on_bind, Hm.
  destruct (m' (self, t)) as [[a|e|] [self' t']]; [apply Hk|done..].
Qed.

Lemma drives_ret {A} (a : A) : drives answer (mret a) (mret a).
Proof. done. Qed.
Lemma drives_lift {A} (o : outcome ProtocolError A) : drives answer (async_lift o) (st_lift o).
Proof. done. Qed.
Lemma drives_err {A} e : drives answer (@async_err E X A e) (st_err e).
Proof. done. Qed.
Lemma drives_self {A} (m : ST PacketCodec ProtocolError A) :
  drives answer (async_self m) (on_self m).
Proof. intros self t. unfold async_self, on_self. cbn. by destruct (m self). Qed.
Lemma drives_io e : drives answer (async_io e) (on_io (answer e)).
Proof. intros self t. unfold async_io, on_io. cbn. by destruct (answer e t). Qed.
Lemma drives_if {A} (b : bool) (m n : async E X A) m' n' :
  drives answer m m' -> drives answer n n' ->
  drives answer (if b then m else n) (if b then m' else n').
Proof. by destruct b. Qed.
End drives.

Create HintDb drives.
#[export] Hint Resolve drives_ret drives_lift drives_err drives_self drives_io drives_if
  : drives.
Ltac drives_steps :=
  repeat first
    [ apply drives_bind; [|intros ?] | apply drives_if | exact (drives_io _ _) | solve [auto with drives]
    | match goal with |- drives _ (match ?x with _ => _ end) _ => destruct x end ].

(** ** Dropping a future

    [answers e x]: a stream may answer the request [e] with [x]. *)
Class Answers (E X : Type) := answers : E -> io_result X -> Prop.
#[export] Instance read_answers : Answers Z bytes :=
  fun n x => wp (fun bs => zlen bs = n) (fun _ => True) x.
#[export] Instance write_answers : Answers write_op unit :=
  fun _ x => wp (fun _ => True) (fun _ => True) x.

(** The codec after the future was dropped at one of its awaits. *)
Inductive dropped {E X A} `{Answers E X} : future E X A -> PacketCodec -> Prop :=
| dropped_here e self resume : dropped (await e self resume) self
| dropped_later e self resume x self' :
    answers e x -> dropped (resume x) self' -> dropped (await e self resume) self'.

(** The future completes after at most [n] awaits, whatever is answered. *)
Fixpoint ends_within {E X A} (n : nat) (f : future E X A) {struct f} : Prop :=
  match f with
  | ready _ _ => True
  | await _ _ resume =>
      match n with O => False | S n' => forall x, ends_within n' (resume x) end
  end.

(** A failed request ends the call at once: nothing runs after the await. *)
Fixpoint fails_fast {E X A} (f : future E X A) : Prop :=
  match f with
  | ready _ _ => True
  | await _ self resume =>
      (forall e, resume (Err e) = ready (Err (Io e)) self) /\ forall x, fails_fast (resume x)
  end.

Section futures.
Context {E X : Type}.

Lemma ends_within_mono {A} n n' (f : future E X A) :
  (n <= n')%nat -> ends_within n f -> ends_within n' f.
Proof.
  revert n n'. induction f as [|e self resume IH]; intros n n' Hle; [done|].
  destruct n as [|n]; [done|]. destruct n' as [|n']; [lia|]. cbn.
  intros Hf x. apply (IH x n); [lia|done].
Qed.

Lemma ends_within_bind {A B} n m (f : future E X A) (k : A -> async E X B) :
  ends_within n f -> (forall a self, ends_within m (k a self)) ->
  ends_within (n + m) (future_bind f k).
Proof.
  intros Hf Hk. revert n Hf. induction f as [[a|e|] self|e self resume IH]; intros n Hf; cbn; try done.
  - eapply ends_within_mono; [|apply Hk]. lia.
  - destruct n as [|n]; [done|]. cbn in *. eauto.
Qed.

Lemma fails_fast_bind {A B} (f : future E X A) (k : A -> async E X B) :
  fails_fast f -> (forall a self, fails_fast (k a self)) -> fails_fast (future_bind f k).
Proof.
  induction f as [[a|e|] self|e self resume IH]; cbn; auto.
  intros [Hf Hr] Hk. split; [|auto]. intros e'. by rewrite Hf.
Qed.
End futures.

(** A stream that gives the listed answers and then fails. *)
Definition script X : Type := list (io_result X).
Definition closed : io_error := Error_new UnexpectedEof EmptyString.
Definition next_answer {X} (s : script X) : io_result X * script X :=
  match s with x :: s' => (x, s') | [] => (Err closed, []) end.

#[export] Instance script_read : AsyncRead (script bytes) := {
  read_exact s n :=
    let '(x, s') := next_answer s in
    (match x with
     | Ok bs => if zlen bs =? n then Ok bs else Err closed
     | Err e => Err e
     | Panic => Err closed
     end, s')
}.
#[export] Instance script_write : AsyncWrite (script unit) := {
  write_all s _ := let '(x, s') := next_answer s in
    (match x with Ok u => Ok u | Err e => Err e | Panic => Err closed end, s');
  flush s := let '(x, s') := next_answer s in
    (match x with Ok u => Ok u | Err e => Err e | Panic => Err closed end, s')
}.
#[export] Instance script_read_laws : AsyncReadLaws (script bytes).
Proof.
  split. intros [|[bs| |] s] n Hn; cbn; [done| |done..].
  destruct (Z.eqb_spec (zlen bs) n); done.
Qed.
#[export] Instance script_write_laws : AsyncWriteLaws (script unit).
Proof. by split; intros [|[[]| |] s]. Qed.

(** A stream that can be scripted: it gives any answer it may give. *)
Definition scripted {E X} `{Answers E X} (answer : E -> script X -> io_result X * script X) :=
  (forall e x s, answers e x -> answer e (x :: s) = (x, s)) /\
  (forall e, answer e [] = (Err closed, [])).

Lemma reader_scripted : scripted (E := Z) (X := bytes) reader_answer.
Proof.
  split; [|done]. intros n [bs|e|] s Ha; cbn in *; [|done..].
  by rewrite Ha, Z.eqb_refl.
Qed.
Lemma writer_scripted : scripted (E := write_op) (X := unit) writer_answer.
Proof. split; [|by intros []]. by intros [] [[]| |] s Ha. Qed.

Lemma dropped_block_on {E X A} `{Answers E X} answer (f : future E X A) self' :
  scripted answer -> fails_fast f -> dropped f self' ->
  exists s, block_on answer f s = (Err (Io closed), (self', [])).
Proof.
  intros [Hs Hn] Hf Hd. induction Hd as [e self resume|e self resume x self' Ha Hd IH].
  - exists []. cbn. rewrite Hn. by rewrite (proj1 Hf).
  - destruct IH as (s & IH); [apply Hf|]. exists (x :: s). cbn. by rewrite Hs.
Qed.

(** Both disciplines, for an [async] method from any state. *)
Definition disciplined {E X A} (n : nat) (m : async E X A) : Prop :=
  forall self, ends_within n (m self) /\ fails_fast (m self).

Section disciplined.
Context {E X : Type}.

Lemma disciplined_bind {A B} n m (f : async E X A) (k : A -> async E X B) :
  disciplined n f -> (forall a, disciplined m (k a)) -> disciplined (n + m) (f ≫= k).
Proof.
  intros Hf Hk self. destruct (Hf self) as [He Hs]. split.
  - apply ends_within_bind; [done|]. intros a self'. apply Hk.
  - apply fails_fast_bind; [done|]. intros a self'. apply Hk.
Qed.
Lemma disciplined_ret {A} n (a : A) : disciplined n (mret (M := async E X) a).
Proof. done. Qed.
Lemma disciplined_lift {A} n (o : outcome ProtocolError A) : disciplined n (@async_lift E X A o).
Proof. done. Qed.
Lemma disciplined_err {A} n e : disciplined n (@async_err E X A e).
Proof. done. Qed.
Lemma disciplined_self {A} n (m : ST PacketCodec ProtocolError A) :
  disciplined n (@async_self E X A m).
Proof. intros self. unfold async_self. by destruct (m self). Qed.
Lemma disciplined_io n e : disciplined (S n) (@async_io E X e).
Proof. done. Qed.
Lemma disciplined_if {A} n (b : bool) (f g : async E X A) :
  disciplined n f -> disciplined n g -> disciplined n (if b then f else g).
Proof. by destruct b. Qed.
End disciplined.

#[export] Hint Resolve disciplined_ret disciplined_lift disciplined_err disciplined_self
  disciplined_io disciplined_if : drives.
(** Count no await where there is none, one otherwise. *)
Ltac disciplined_steps :=
  repeat first
    [ solve [auto with drives] | apply disciplined_if
    | match goal with |- disciplined _ (match ?x with _ => _ end) => destruct x end
    | apply (disciplined_bind 0); [solve [disciplined_steps]|intros ?]
    | apply (disciplined_bind 1); [solve [disciplined_steps]|intros ?] ].

Section methods_laws.
Context `{AeadLaws}.

Lemma read_packet_drives {R} `{AsyncRead R} :
  drives (T := R) reader_answer read_packet_async PacketCodec_read_packet.
Proof. unfold read_packet_async, PacketCodec_read_packet. drives_steps. Qed.

Lemma write_packet_drives {W} `{AsyncWrite W} t fl pl :
  drives (T := W) writer_answer (write_packet_async t fl pl) (PacketCodec_write_packet t fl pl).
Proof. unfold write_packet_async, PacketCodec_write_packet. drives_steps. Qed.

Lemma read_packet_disciplined : disciplined 2 read_packet_async.
Proof. unfold read_packet_async. disciplined_steps. Qed.

Lemma write_packet_disciplined t fl pl : disciplined 3 (write_packet_async t fl pl).
Proof. unfold write_packet_async. disciplined_steps. Qed.

(** What a dropped call leaves behind, a failing stream could have left. *)
Lemma dropped_read self self' :
  dropped (read_packet_async self) self' ->
  exists s : script bytes, PacketCodec_read_packet (self, s) = (Err (Io closed), (self', [])).
Proof.
  intros Hd. destruct (dropped_block_on _ _ _ reader_scripted (proj2 (read_packet_disciplined self)) Hd)
    as (s & Hs). exists s. by rewrite <- read_packet_drives.
Qed.

Lemma dropped_write t fl pl self self' :
  dropped (write_packet_async t fl pl self) self' ->
  exists s : script unit,
    PacketCodec_write_packet t fl pl (self, s) = (Err (Io closed), (self', [])).
Proof.
  intros Hd.
  destruct (dropped_block_on _ _ _ writer_scripted (proj2 (write_packet_disciplined t fl pl self)) Hd)
    as (s & Hs). exists s. by rewrite <- write_packet_drives.
Qed.
(** A read awaits its header, and after an admissible one with a payload it
    awaits the payload, with the frame's number received. *)
Lemma read_awaits c h t :
  header_ok h -> admissible c h t -> 0 < payload_len h ->
  exists resume resume',
    read_packet_async c = await CHATIX_HEADER_SIZE c resume /\
    resume (Ok (header_layout h))
    = await (payload_len h) (set_last_recv_seq (sequence h) c) resume'.
Proof.
  intros Hok (Hv & He & Ht & Hl & Hs) Hp. do 2 eexists. split; [reflexivity|].
  cbn [future_bind from_io map_err]. unfold mbind, async_bind, async_lift, async_self.
  rewrite from_bytes_layout by done. cbn [future_bind]. rewrite validate_ok by done.
  cbn [future_bind st_get].
  replace (bool_decide (is_Some (session c)) && negb (PacketHeader_is_encrypted h)) with false.
  2:{ case_bool_decide as Hses; [|done]. by rewrite He. }
  cbn [future_bind mret async_ret]. rewrite <- Ht, from_as_u8. cbn [future_bind].
  destruct (Z.ltb_spec (max_for_type h t) (payload_len h)); [lia|]. cbn [future_bind mret async_ret].
  assert (PacketCodec_validate_sequence (sequence h) c = (Ok tt, set_last_recv_seq (sequence h) c))
    as ->.
  { unfold PacketCodec_validate_sequence, mbind, ST_bind, st_get.
    destruct (last_recv_seq c) as [last|] eqn:E; [|done].
    specialize (Hs last eq_refl). by destruct (Z.leb_spec (sequence h) last); [lia|]. }
  cbn [future_bind]. destruct (Z.ltb_spec 0 (payload_len h)); [reflexivity|lia].
Qed.

(** Where a read can be dropped: at its first await, and at its second once a
    header with a payload has been admitted. *)
Lemma read_awaits_payload c h t :
  header_ok h -> admissible c h t -> 0 < payload_len h ->
  dropped (read_packet_async c) (set_last_recv_seq (sequence h) c).
Proof.
  intros Hok Ha Hp. destruct (read_awaits c h t Hok Ha Hp) as (k & k' & -> & Hk).
  apply (dropped_later _ _ _ (Ok (header_layout h))); [by apply zlen_header_layout, Hok|].
  rewrite Hk. apply dropped_here.
Qed.

(** A write that has sealed its payload waits for its header to be written. *)
Lemma write_awaits_header t fl pl c fl' body :
  next_send_seq c < u64_max -> seals c t fl pl fl' body ->
  dropped (write_packet_async t fl pl c) (set_next_send_seq (next_send_seq c + 1) c).
Proof.
  intros Hn Hs. unfold write_packet_async, mbind, async_bind, async_lift, async_self.
  cbn [future_bind st_get]. rewrite checked_add_ok by lia. cbn [ok_or future_bind st_put].
  unfold seals in Hs. destruct (session c) as [cipher|].
  - destruct Hs as (-> & key & Hk & Ha). rewrite seq_nonce_ok. cbn [future_bind].
    rewrite Hk. cbn [ok_or future_bind]. rewrite Ha. cbn [ok_or future_bind mret async_ret].
    rewrite to_bytes_layout by done. apply dropped_here.
  - cbn [future_bind mret async_ret]. rewrite to_bytes_layout by done. apply dropped_here.
Qed.
End methods_laws.

(** ** Properties *)

(** Await-by-await semantics: driving either [async] method against any
    reader or writer computes exactly the run-to-completion function of
    [Codec], so every theorem about those functions holds of the futures. *)
Lemma blocking_equivalence `{Aead} {R W} `{AsyncRead R, AsyncWrite W} c t fl pl :
  (forall r : R, block_on reader_answer (read_packet_async c) r = PacketCodec_read_packet (c, r)) /\
  (forall w : W, block_on writer_answer (write_packet_async t fl pl c) w
    = PacketCodec_write_packet t fl pl (c, w)).
Proof. split; intros; [apply read_packet_drives|apply write_packet_drives]. Qed.

(** Every call terminates: whatever bytes or errors the stream answers,
    lawful or not, [read_packet] completes after at most two awaits and
    [write_packet] after at most three, and an I/O error ends the call at the
    await it is reported to. *)
Lemma calls_terminate `{Aead} c t fl pl :
  (ends_within 2 (read_packet_async c) /\ fails_fast (read_packet_async c)) /\
  (ends_within 3 (write_packet_async t fl pl c) /\ fails_fast (write_packet_async t fl pl c)).
Proof. split; [apply read_packet_disciplined|apply write_packet_disciplined]. Qed.

(** C17. Cancellation, exactly: a [read_packet] dropped at an await (by a
    timeout or a [select!]) leaves the codec as it was or, once it waits for
    the payload of an admissible frame, with that frame's number as the last
    received one; a dropped [write_packet] has sealed its payload and consumed
    exactly one sequence number. Neither touches the keys, and each of these
    outcomes does occur. *)
Theorem cancelled_call_effect `{AeadLaws} c t fl pl c' :
  (dropped (read_packet_async c) c' <->
   c' = c \/
   exists h t, header_ok h /\ admissible c h t /\ 0 < payload_len h /\
     c' = set_last_recv_seq (sequence h) c) /\
  (dropped (write_packet_async t fl pl c) c' <->
   next_send_seq c < u64_max /\ (exists fl' body, seals c t fl pl fl' body) /\
   c' = set_next_send_seq (next_send_seq c + 1) c).
Proof.
  split; split.
  - intros (s & Hd%read_packet_delivers)%dropped_read.
    inversion Hd as [|h r1 e Hh [He|[_ He]]|h t' r1 e r2 Hh Ha Hl| |]; subst; try done; auto.
    right. exists h, t'. split_and!; [apply Hh|done..].
  - intros [->|(h & t' & Hok & Ha & Hp & ->)]; [apply dropped_here|by eapply read_awaits_payload].
  - intros (s & Hd%write_packet_transmits)%dropped_write.
    by inversion Hd; subst; split_and!; eauto; lia.
  - intros (Hn & (fl' & body & Hs) & ->). by eapply write_awaits_header.
Qed.
