(* ===== verification/Sealing.v ===== *)
(** * What a call seals

    Which seals a call obtains from the AEAD library is read off the call
    itself, not off its specification: a call has made a seal when it comes out
    differently with a library that refuses just that one. [write_seals]
    computes the seals of a write, completed or dropped. *)
From S2P Require Import Prelude RustStd Sizes Errors Header PacketType Primitives Codec Async.

(** What [seal_in_place_append_tag] is given, the key apart. *)
Record seal_query := mk_seal_query { q_nonce : bytes; q_aad : bytes; q_text : bytes }.

#[export] Instance seal_query_eq_dec : EqDecision seal_query.
Proof. solve_decision. Defined.

Section seals.
Context `{A : Aead}.

(** The library, but failing on one query. *)
Definition refusing (q : seal_query) : Aead :=
  {| aead_key := aead_key; aead_key_new := aead_key_new;
     aead_seal key nonce aad text :=
       if decide (mk_seal_query nonce aad text = q) then None else aead_seal key nonce aad text;
     aead_open := aead_open |}.

(** [run] obtains the seal [q] from the library. *)
Definition makes_seal {T} (run : Aead -> T) (q : seal_query) : Prop := run (refusing q) <> run A.

(** [qs] are the seals [run] makes. *)
Definition seals_made {T} (run : Aead -> T) (qs : list seal_query) : Prop :=
  NoDup qs /\ forall q, q ∈ qs <-> makes_seal run q.

(** The two ways a write can go: to its end over a writer, or dropped. *)
Definition write_run {W} `{AsyncWrite W} c (w : W) t fl pl (L : Aead) :=
  @PacketCodec_write_packet L W _ t fl pl (c, w).
Definition write_future c t fl pl (L : Aead) := @write_packet_async L t fl pl c.

(** The seals of [write_packet]: at most one. *)
Definition write_seals (c : PacketCodec) (t : PacketType) (fl : byte) (pl : bytes)
    : list seal_query :=
  match session c with
  | Some cipher =>
      if next_send_seq c <? u64_max then
        let aad := header_aad (PacketType_as_u8 t) (flag_or fl ENCRYPTED) in
        let nonce := nonce_of (next_send_seq c) in
        match key ← aead_key_new (outbound_key cipher); aead_seal key nonce aad pl with
        | Some _ => [mk_seal_query nonce aad pl]
        | None => []
        end
      else []
  | None => []
  end.

(** A refused query is missed when it is the write's own, and only then. *)
Lemma write_future_refused c t fl pl q :
  q ∈ write_seals c t fl pl ->
  write_future c t fl pl (refusing q)
  = ready (Err CryptoError) (set_next_send_seq (next_send_seq c + 1) c).
Proof.
  unfold write_seals, write_future, write_packet_async, mbind, async_bind, async_self, async_lift.
  destruct (session c) as [cipher|] eqn:Ec; [|by intros ?%elem_of_nil].
  destruct (Z.ltb_spec (next_send_seq c) u64_max); [|by intros ?%elem_of_nil].
  cbn. destruct (aead_key_new (outbound_key cipher)) as [key|] eqn:Ek; cbn;
    [|by intros ?%elem_of_nil].
  destruct (aead_seal _ _ _ _) as [ct|]; [|by intros ?%elem_of_nil].
  intros ->%list_elem_of_singleton. rewrite checked_add_ok by lia. cbn.
  rewrite Ec, seq_nonce_ok. cbn. rewrite Ek. cbn. by rewrite decide_True.
Qed.

Lemma write_future_unrefused c t fl pl q :
  q ∉ write_seals c t fl pl -> write_future c t fl pl (refusing q) = write_future c t fl pl A.
Proof.
  unfold write_seals, write_future, write_packet_async, mbind, async_bind, async_self, async_lift.
  cbn. destruct (session c) as [cipher|] eqn:Ec.
  2:{ intros _. destruct (checked_add _ _ _); cbn; by rewrite ?Ec. }
  destruct (Z.ltb_spec (next_send_seq c) u64_max).
  2:{ intros _. unfold checked_add. by destruct (Z.leb_spec (next_send_seq c + 1) u64_max); [lia|]. }
  rewrite checked_add_ok by lia. cbn. rewrite seq_nonce_ok. cbn.
  destruct (aead_key_new (outbound_key cipher)) as [key|]; cbn; [|done].
  case_decide as Hq; [|done]. subst q.
  by destruct (aead_seal _ _ _ _) as [ct|]; [intros []; left|].
Qed.

Lemma seals_made_perm {T} (run : Aead -> T) qs qs' :
  seals_made run qs -> seals_made run qs' -> qs ≡ₚ qs'.
Proof. intros [Hd Hq] [Hd' Hq']. apply NoDup_Permutation; [done..|]. intros q. by rewrite Hq, Hq'. Qed.

(** A write makes no seal, or one with its number's nonce. *)
Lemma write_seals_cases c t fl pl :
  write_seals c t fl pl = [] \/
  next_send_seq c < u64_max /\
  write_seals c t fl pl = [mk_seal_query (nonce_of (next_send_seq c))
    (header_aad (PacketType_as_u8 t) (flag_or fl ENCRYPTED)) pl].
Proof.
  unfold write_seals. destruct (session c) as [cipher|]; [|by left].
  destruct (Z.ltb_spec (next_send_seq c) u64_max); [|by left].
  destruct (_ ≫= _); [by right|by left].
Qed.

Lemma made_write_seals {T} (run : Aead -> T) c t fl pl qs :
  seals_made run (write_seals c t fl pl) -> seals_made run qs -> qs = write_seals c t fl pl.
Proof.
  intros Hw Hq. pose proof (seals_made_perm _ _ _ Hq Hw) as Hp.
  destruct (write_seals_cases c t fl pl) as [E|[_ E]]; rewrite E in *.
  - by apply Permutation_nil_r in Hp.
  - by apply Permutation_singleton_r in Hp.
Qed.

(** A computation in which exactly a write's own refusal is noticed. *)
Lemma seals_made_intro {T} (run : Aead -> T) c t fl pl :
  (forall q, q ∈ write_seals c t fl pl -> run (refusing q) <> run A) ->
  (forall q, q ∉ write_seals c t fl pl -> run (refusing q) = run A) ->
  seals_made run (write_seals c t fl pl).
Proof.
  intros Hin Hout. split.
  - destruct (write_seals_cases c t fl pl) as [->|[_ ->]]; [constructor|apply NoDup_singleton].
  - intros q. split; [apply Hin|]. intros Hm.
    destruct (decide (q ∈ write_seals c t fl pl)) as [|Hn]; [done|by destruct Hm; apply Hout].
Qed.

(** A seal made is one the specification of writing asks for. *)
Lemma write_seals_seals c t fl pl q :
  q ∈ write_seals c t fl pl ->
  next_send_seq c < u64_max /\ exists fl' body, seals c t fl pl fl' body.
Proof.
  unfold write_seals, seals. destruct (session c) as [cipher|]; [|by intros ?%elem_of_nil].
  destruct (Z.ltb_spec (next_send_seq c) u64_max); [|by intros ?%elem_of_nil].
  destruct (aead_key_new (outbound_key cipher)) as [key|] eqn:Ek; cbn; [|by intros ?%elem_of_nil].
  destruct (aead_seal _ _ _ _) as [ct|] eqn:Es; [|by intros ?%elem_of_nil]. eauto 10.
Qed.
End seals.

Section writes.
Context `{AeadLaws}.

Lemma write_future_seals c t fl pl :
  seals_made (write_future c t fl pl) (write_seals c t fl pl).
Proof.
  apply seals_made_intro; [|apply write_future_unrefused].
  intros q Hq. rewrite write_future_refused by done.
  destruct (write_seals_seals _ _ _ _ _ Hq) as (Hn & fl' & body & Hs).
  pose proof (write_awaits_header t fl pl c fl' body Hn Hs) as Hd. intros He.
  unfold write_future in He. rewrite <- He in Hd. inversion Hd.
Qed.

Lemma write_run_seals {W} `{AsyncWriteLaws W} c (w : W) t fl pl :
  seals_made (write_run c w t fl pl) (write_seals c t fl pl).
Proof.
  assert (forall L, write_run c w t fl pl L = block_on writer_answer (write_future c t fl pl L) w)
    as Hb by (intros L; symmetry; apply write_packet_drives).
  apply seals_made_intro; intros q Hq.
  - rewrite (Hb (refusing q)), write_future_refused by done. cbn.
    destruct (write_seals_seals _ _ _ _ _ Hq) as (Hn & fl' & body & Hs).
    intros Hd%eq_sym%write_packet_transmits. inversion Hd as [|? Hno|? ? ? ? ? ? Hw]; subst.
    + match goal with E : c = _ |- _ => apply (f_equal next_send_seq) in E; cbn in E; lia end.
    + by destruct (Hno fl' body).
    + inversion Hw.
  - by rewrite !Hb, write_future_unrefused.
Qed.

(** Reading seals nothing. *)
Lemma read_seals {R} `{AsyncRead R} c (r : R) :
  seals_made (fun L : Aead => @PacketCodec_read_packet L R _ (c, r)) [].
Proof.
  split; [constructor|]. intros q. split; [by intros ?%elem_of_nil|]. intros Hm. by destruct Hm.
Qed.
End writes.
