(* ===== verification/Interrupted.v ===== *)
(** * Reads interrupted in the middle of a frame

    A [read_packet] dropped while it waits ([Async]) has taken some bytes from
    its stream, which are gone: [read_exact] keeps what it has read in the
    dropped call. [interrupted] is that: a future, the bytes the stream held,
    the codec and the bytes that are left. The theorems say exactly where a
    read can be interrupted, and what the next read makes of a stream that was
    left inside a header. *)
From Stdlib Require Import String.
From S2P Require Import Prelude RustStd Sizes Errors Header PacketType Primitives ByteStreams.
From S2P Require Import Codec Async.

(** The future is dropped while an await has taken [taken] of the bytes it
    asked for, fewer than all of them. *)
Inductive interrupted {A} : future Z bytes A -> bytes -> PacketCodec -> bytes -> Prop :=
| interrupted_here n self resume taken rest :
    zlen taken < n -> interrupted (await n self resume) (taken ++ rest) self rest
| interrupted_later n self resume bs more self' rest :
    zlen bs = n -> interrupted (resume (Ok bs)) more self' rest ->
    interrupted (await n self resume) (bs ++ more) self' rest.

Lemma interrupted_dropped {A} (f : future Z bytes A) p self rest :
  interrupted f p self rest -> dropped f self.
Proof.
  induction 1 as [n self resume taken rest Hl|n self resume bs more self' rest Hl Hi IH].
  - apply dropped_here.
  - by eapply (dropped_later _ _ _ (Ok bs)).
Qed.

(** An interrupted call is one that met the end of what it had taken. *)
Lemma interrupted_at_end {A} (f : future Z bytes A) p self rest :
  fails_fast f -> interrupted f p self rest ->
  exists used, p = used ++ rest /\
    block_on reader_answer f used = (Err (Io closed), (self, [])).
Proof.
  intros Hf Hi. induction Hi as [n self resume taken rest Hl|n self resume bs more self' rest Hl Hi IH].
  - exists taken. split; [done|]. cbn.
    destruct (Z.ltb_spec (zlen taken) n); [|lia]. cbn. by rewrite (proj1 Hf).
  - destruct IH as (used & -> & IH); [apply Hf|]. exists (bs ++ used).
    split; [by rewrite app_assoc|]. cbn. rewrite zlen_app. pose proof (zlen_nonneg used).
    destruct (Z.ltb_spec (zlen bs + zlen used) n); [lia|]. cbn. rewrite <- Hl.
    unfold zlen. by rewrite Nat2Z.id, take_app_length, drop_app_length.
Qed.

(** ** The bytes of a header *)
Lemma byte_of_small z : 0 <= z < 256 -> byte_val (byte_of z) = z.
Proof. intros. rewrite byte_val_of. by apply Z.mod_small. Qed.

Lemma byte_of_ne z b : 0 <= z < 256 -> z <> byte_val b -> byte_of z <> b.
Proof. intros Hz Hn <-. by rewrite byte_of_small in Hn. Qed.

Lemma type_not_magic t : PacketType_as_u8 t <> x43.
Proof. by destruct t. Qed.

Lemma be_4 z : to_be_bytes 4 z =
  [byte_of (Z.shiftr z 24); byte_of (Z.shiftr z 16); byte_of (Z.shiftr z 8); byte_of (Z.shiftr z 0)].
Proof. reflexivity. Qed.
Lemma be_8 z : to_be_bytes 8 z =
  [byte_of (Z.shiftr z 56); byte_of (Z.shiftr z 48); byte_of (Z.shiftr z 40);
   byte_of (Z.shiftr z 32)] ++ to_be_bytes 4 z.
Proof. reflexivity. Qed.

Lemma shiftr_range z n m : 0 <= n -> 0 <= m -> 0 <= z < m * 2 ^ n -> 0 <= Z.shiftr z n < m.
Proof.
  intros Hn Hm Hz. rewrite Z.shiftr_div_pow2 by done. split; [apply Z.div_pos; lia|].
  apply Z.div_lt_upper_bound; lia.
Qed.
Lemma shiftr_zero z n : 0 <= n -> 0 <= z < 2 ^ n -> Z.shiftr z n = 0.
Proof. intros. pose proof (shiftr_range z n 1). lia. Qed.

(** The 24 bytes of a valid header with a number below [2^30]: ["C"] occurs
    first, and where it may occur again the bytes after it are not ["HTX"]. *)
Lemma header_bytes h t :
  header_ok h -> header_valid h -> PacketType_as_u8 t = packet_type h -> sequence h < 2 ^ 30 ->
  exists ty fl p1 p2 p3 q0 q1 q2 q3,
    header_layout h = [x43; x48; x54; x58; x01; ty; fl; x18; x00; p1; p2; p3;
                       x00; x00; x00; x00; q0; q1; q2; q3; x00; x00; x00; x00] /\
    ty <> x43 /\ p1 <> x43 /\ q0 <> x43.
Proof.
  intros (_ & Hp & Hs & _) (Hm & Hv & Hl & Hlen & Hr) Ht Hseq.
  unfold is_u32, is_u64, MAX_PAYLOAD_LEN in *.
  unfold header_layout. rewrite Hm, Hv, Hl, Hr, <- Ht, be_8, !be_4.
  rewrite (shiftr_zero (payload_len h) 24), (shiftr_zero (sequence h) 56),
    (shiftr_zero (sequence h) 48), (shiftr_zero (sequence h) 40), (shiftr_zero (sequence h) 32)
    by lia.
  do 9 eexists. split; [reflexivity|]. split; [apply type_not_magic|].
  pose proof (shiftr_range (payload_len h) 16 17). pose proof (shiftr_range (sequence h) 24 64).
  change (byte_val x43) with 67. split; (apply byte_of_ne; [lia|change (byte_val x43) with 67; lia]).
Qed.

(** No proper suffix of such a header begins with the magic bytes. *)
Lemma header_suffix h t taken suffix more :
  header_ok h -> header_valid h -> PacketType_as_u8 t = packet_type h -> sequence h < 2 ^ 30 ->
  header_layout h = taken ++ suffix -> taken <> [] -> suffix <> [] ->
  take 4 (suffix ++ more) <> CHATIX_MAGIC.
Proof.
  intros Hok Hv Ht Hs. destruct (header_bytes h t Hok Hv Ht Hs)
    as (ty & fl & p1 & p2 & p3 & q0 & q1 & q2 & q3 & -> & N1 & N2 & N3).
  intros He Ht' Hs'. unfold CHATIX_MAGIC.
  destruct taken as [|b taken]; [done|]. injection He as <- He.
  do 23 (destruct taken as [|? taken];
    [cbn in He; subst suffix; cbn; intros [=]; congruence|injection He as <- He]).
  by destruct taken, suffix.
Qed.

(** ** What is left of the codec and of the stream *)
Section interrupted_read.
Context `{AeadLaws}.

(** A read of a byte string fails only at its end. *)
Lemma read_short (p : bytes) n e p' : read_exact p n = (Err e, p') -> zlen p < n.
Proof. cbn. by destruct (Z.ltb_spec (zlen p) n). Qed.

Lemma interrupted_read_inv c p c' rest :
  interrupted (read_packet_async c) p c' rest ->
  exists used, p = used ++ rest /\
    (c' = c /\ zlen used < CHATIX_HEADER_SIZE \/
     exists h t taken, header_ok h /\ admissible c h t /\ used = header_layout h ++ taken /\
       zlen taken < payload_len h /\ c' = set_last_recv_seq (sequence h) c).
Proof.
  intros Hi.
  destruct (interrupted_at_end _ _ _ _ (proj2 (read_packet_disciplined c)) Hi) as (used & -> & Hb).
  exists used. split; [done|]. rewrite read_packet_drives in Hb.
  apply read_packet_delivers in Hb.
  inversion Hb as [e r1 Hr|h r1 e Hh [He|[_ He]]|h t r1 e r2 Hh Ha Hl Hr| |]; subst; try done.
  - left. split; [done|]. by eapply (read_short used).
  - right. destruct Hh as [Hok Hh].
    pose proof (read_exact_inv used CHATIX_HEADER_SIZE _ _ ltac:(done) Hh) as Hu. cbn in Hu.
    exists h, t, r1. split_and!; [done|done|done|by eapply (read_short r1)|done].
Qed.

Lemma interrupted_read_occurs c h t taken rest :
  header_ok h -> admissible c h t -> zlen taken < payload_len h ->
  interrupted (read_packet_async c) (header_layout h ++ taken ++ rest)
    (set_last_recv_seq (sequence h) c) rest.
Proof.
  intros Hok Ha Hl. pose proof (zlen_nonneg taken).
  destruct (read_awaits c h t Hok Ha ltac:(lia)) as (k & k' & -> & Hk).
  apply interrupted_later; [by apply zlen_header_layout, Hok|]. rewrite Hk.
  by apply interrupted_here.
Qed.
End interrupted_read.

(** ** Properties *)

(** C18. An interrupted read, exactly: a [read_packet] dropped while the stream
    held [p] has either taken fewer bytes than a header and left the codec as
    it was, or taken the whole header of an admissible frame and fewer bytes
    than its payload, and left that frame's number as the last received one.
    Each of these does occur; the bytes taken are gone, and nothing beyond
    them is touched. So the frame is lost: its number is refused from now on,
    and what is left of it stays in front of the next one. *)
Theorem interrupted_read_effect `{AeadLaws} c p c' rest :
  interrupted (read_packet_async c) p c' rest <->
  (exists taken, p = taken ++ rest /\ zlen taken < CHATIX_HEADER_SIZE /\ c' = c) \/
  (exists h t taken, header_ok h /\ admissible c h t /\ zlen taken < payload_len h /\
     p = header_layout h ++ taken ++ rest /\ c' = set_last_recv_seq (sequence h) c).
Proof.
  split.
  - intros (used & -> & [[-> Hl]|(h & t & taken & Hok & Ha & -> & Hl & ->)])%interrupted_read_inv.
    + left. by exists used.
    + right. exists h, t, taken. split_and!; [done|done|done|by rewrite <- app_assoc|done].
  - intros [(taken & -> & Hl & ->)|(h & t & taken & Hok & Ha & Hl & -> & ->)].
    + by apply interrupted_here.
    + by apply (interrupted_read_occurs c h t).
Qed.

(** C19. A stream left inside a header is not misread: when a read of a frame
    whose number is below [2^30] is interrupted after at least one byte of its
    header and before the last, the next [read_packet] on what is left fails
    with [InvalidMagic], or with an I/O error if the stream ends, and leaves the
    codec as it was before the frame. It never takes bytes from the middle of
    a header for a packet. *)
Theorem interrupted_header_detected `{AeadLaws} {R} `{InputStreamLaws R} c h t more c' rest (r : R) :
  header_ok h -> header_valid h -> PacketType_as_u8 t = packet_type h -> sequence h < 2 ^ 30 ->
  interrupted (read_packet_async c) (header_layout h ++ more) c' rest ->
  zlen more < zlen rest < CHATIX_HEADER_SIZE + zlen more ->
  pending r = rest ->
  c' = c /\ exists e r', PacketCodec_read_packet (c', r) = (Err e, (c, r')) /\
    (CHATIX_HEADER_SIZE <= zlen rest -> e = InvalidMagic) /\
    (zlen rest < CHATIX_HEADER_SIZE -> exists io, e = Io io /\ kind io = UnexpectedEof).
Proof.
  intros Hok Hv Ht Hs Hi Hlen Hp.
  pose proof (zlen_header_layout h (proj1 Hok)) as Hhl.
  apply interrupted_read_inv in Hi as (used & He & Hc).
  pose proof (f_equal zlen He) as Hl. rewrite !zlen_app, Hhl in Hl.
  assert (c' = c) as ->.
  { destruct Hc as [[-> _]|(h' & t' & taken & Hok' & _ & -> & _)]; [done|].
    rewrite zlen_app, (zlen_header_layout h') in Hl by apply Hok'.
    pose proof (zlen_nonneg taken). lia. }
  split; [done|].
  destruct (split_at rest (zlen rest - zlen more)) as (suffix & tail & -> & Hsl);
    [pose proof (zlen_nonneg more); lia|].
  rewrite zlen_app in *. rewrite app_assoc in He.
  apply zlen_inj_app_r in He as [He <-]; [|lia].
  destruct (Z.ltb_spec (zlen suffix + zlen more) CHATIX_HEADER_SIZE) as [Hlt|Hge].
  - destruct (read_exact_eof r CHATIX_HEADER_SIZE) as (io & r' & Hr & Hk);
      [by rewrite Hp, zlen_app|].
    exists (Io io), r'. split; [by apply read_packet_delivers, no_header|].
    split; [lia|]. intros _. by exists io.
  - destruct (split_at (suffix ++ more) CHATIX_HEADER_SIZE) as (hd & tl & Hsp & Hhd);
      [rewrite zlen_app; split; [done|exact Hge]|].
    destruct (from_bytes_ok hd Hhd) as (h' & _ & Hok' & Hlay).
    destruct (header_read_pending r h' tl Hok') as (r' & Hh & _); [by rewrite Hp, Hsp, Hlay|].
    exists InvalidMagic, r'. split; [|split; [done|intros; exfalso; lia]].
    apply read_packet_delivers. eapply refused; [exact Hh|]. left. cbn. intros Hmagic.
    eapply (header_suffix h t used suffix more); try done.
    + intros ->. rewrite zlen_nil in *. lia.
    + intros ->. rewrite zlen_nil in *. lia.
    + rewrite Hsp, <- Hlay. unfold header_layout. rewrite Hmagic. reflexivity.
Qed.
