(* ===== verification/Stream.v ===== *)
(** * Streams of packets: sequences of calls on one or two codecs

    [codec_steps] is the life of one codec: any interleaving of
    [read_packet], [write_packet] and [establish_session] calls, over any
    readers and writers, failing calls and calls cancelled at an await
    included. [write_packets] and
    [read_packets] run a sender and a receiver over a whole conversation. *)
From S2P Require Import Prelude RustStd Sizes Errors Header PacketType Primitives Codec Async.
From S2P Require Import Sealing.
From Stdlib Require Import Sorting.Sorted.

(** ** The life of a codec

    An event of a write carries the seals the call made, as [Sealing] reads
    them off the call. *)
Inductive codec_event :=
| Received (o : outcome ProtocolError RawPacket)
| Wrote (sealed : list seal_query) (o : outcome ProtocolError unit)
| Read_dropped
| Write_dropped (sealed : list seal_query)
| Established_session.

Inductive codec_steps `{Aead} (R W : Type) `{AsyncRead R, AsyncWrite W}
    : PacketCodec -> list codec_event -> PacketCodec -> Prop :=
| steps_nil c : codec_steps R W c [] c
| steps_read c (r : R) o c' r' evs c'' :
    PacketCodec_read_packet (c, r) = (o, (c', r')) ->
    codec_steps R W c' evs c'' -> codec_steps R W c (Received o :: evs) c''
| steps_write c (w : W) t fl pl qs o c' w' evs c'' :
    PacketCodec_write_packet t fl pl (c, w) = (o, (c', w')) ->
    seals_made (write_run c w t fl pl) qs ->
    codec_steps R W c' evs c'' -> codec_steps R W c (Wrote qs o :: evs) c''
| steps_read_dropped c c' evs c'' :
    dropped (read_packet_async c) c' ->
    codec_steps R W c' evs c'' -> codec_steps R W c (Read_dropped :: evs) c''
| steps_write_dropped c t fl pl qs c' evs c'' :
    dropped (write_packet_async t fl pl c) c' ->
    seals_made (write_future c t fl pl) qs ->
    codec_steps R W c' evs c'' -> codec_steps R W c (Write_dropped qs :: evs) c''
| steps_establish c out_key in_key evs c'' :
    zlen out_key = 32 -> zlen in_key = 32 ->
    codec_steps R W (PacketCodec_establish_session c out_key in_key) evs c'' ->
    codec_steps R W c (Established_session :: evs) c''.

Definition accepted_sequence (ev : codec_event) : option Z :=
  match ev with Received (Ok pkt) => Some (sequence (header pkt)) | _ => None end.
Definition event_seals (ev : codec_event) : list seal_query :=
  match ev with Wrote qs _ | Write_dropped qs => qs | _ => [] end.
Definition is_write (ev : codec_event) : bool :=
  match ev with Wrote _ _ | Write_dropped _ => true | _ => false end.

(** The nonces of every seal made, and the calls of [write_packet]. *)
Definition nonces_sealed (evs : list codec_event) : list bytes := q_nonce <$> (evs ≫= event_seals).
Definition write_calls (evs : list codec_event) : Z := zlen (List.filter is_write evs).

Definition above (last : option Z) (seq : Z) : Prop := forall l, last = Some l -> l < seq.

(** What reading, completed or cancelled, may do to a codec. *)
Definition read_effect (c c' : PacketCodec) : Prop :=
  next_send_seq c' = next_send_seq c /\ session c' = session c /\
  (c' = c \/ exists seq, c' = set_last_recv_seq seq c /\ above (last_recv_seq c) seq).

(** What writing, completed or cancelled, may do to a codec. *)
Definition write_effect (c c' : PacketCodec) : Prop :=
  last_recv_seq c' = last_recv_seq c /\ session c' = session c /\
  next_send_seq c' = Z.max (next_send_seq c) (Z.min u64_max (next_send_seq c + 1)).

Section one_call.
Context `{AeadLaws}.

Lemma read_packet_effect {R} `{AsyncReadLaws R} c (r : R) o c' r' :
  PacketCodec_read_packet (c, r) = (o, (c', r')) ->
  read_effect c c' /\
  (forall pkt, o = Ok pkt ->
     c' = set_last_recv_seq (sequence (header pkt)) c /\
     above (last_recv_seq c) (sequence (header pkt))).
Proof.
  intros Hd%read_packet_delivers. unfold read_effect, above.
  inversion Hd as [| |h t ? ? ? ? Ha|h t ? ? ? ? Ha|h t ? ? ? ? ? Ha]; subst;
    split_and!; try done; eauto;
    destruct Ha as (_ & _ & _ & _ & Hs); try (right; by exists (sequence h)).
  by intros pkt [= <-].
Qed.

Lemma read_dropped_effect c c' : dropped (read_packet_async c) c' -> read_effect c c'.
Proof. by intros (s & [He _]%read_packet_effect)%dropped_read. Qed.

Lemma write_packet_effect {W} `{AsyncWriteLaws W} c (w : W) t fl pl o c' w' :
  PacketCodec_write_packet t fl pl (c, w) = (o, (c', w')) -> write_effect c c'.
Proof.
  intros Hd%write_packet_transmits. unfold write_effect.
  inversion Hd; subst; cbn; split_and!; try done; lia.
Qed.

Lemma write_dropped_effect c t fl pl c' :
  dropped (write_packet_async t fl pl c) c' -> write_effect c c'.
Proof. by intros (s & He%write_packet_effect)%dropped_write. Qed.

Lemma write_effect_u64 c c' :
  write_effect c c' -> is_u64 (next_send_seq c) -> is_u64 (next_send_seq c').
Proof. intros (_ & _ & ->). unfold is_u64. lia. Qed.

End one_call.

(** A life, by what each call may do to the codec. *)
Inductive codec_life `{Aead} : PacketCodec -> list codec_event -> PacketCodec -> Prop :=
| life_nil c : codec_life c [] c
| life_read c c' ev evs c'' :
    read_effect c c' ->
    (forall seq, accepted_sequence ev = Some seq ->
       is_u64 seq /\ c' = set_last_recv_seq seq c /\ above (last_recv_seq c) seq) ->
    event_seals ev = [] -> is_write ev = false ->
    codec_life c' evs c'' -> codec_life c (ev :: evs) c''
| life_write c c' ev evs c'' t fl pl :
    write_effect c c' ->
    accepted_sequence ev = None -> event_seals ev = write_seals c t fl pl -> is_write ev = true ->
    codec_life c' evs c'' -> codec_life c (ev :: evs) c''
| life_establish c ok ik evs c'' :
    codec_life (PacketCodec_establish_session c ok ik) evs c'' ->
    codec_life c (Established_session :: evs) c''.

Lemma codec_steps_life `{AeadLaws} {R W} `{AsyncReadLaws R, AsyncWriteLaws W} c evs c' :
  codec_steps R W c evs c' -> codec_life c evs c'.
Proof.
  induction 1 as [c|c r o c' r' evs c'' Hr Hs IH|c w t fl pl qs o c' w' evs c'' Hw Hq Hs IH
    |c c' evs c'' Hd Hs IH|c t fl pl qs c' evs c'' Hd Hq Hs IH|c ok ik evs c'' _ _ Hs IH];
    [constructor| | | | |by eapply life_establish].
  - pose proof (read_packet_effect _ _ _ _ _ Hr) as (He & Ho). eapply life_read; [done| |done..].
    intros seq. destruct o as [pkt| |]; cbn; [|done..]. intros [= <-].
    split; [|by apply Ho]. apply read_packet_delivers in Hr.
    inversion Hr as [| | | |h t ? ? ? ? [Hok _]]; subst. apply Hok.
  - eapply life_write; [by eapply write_packet_effect|done| |done..].
    by eapply made_write_seals; [apply write_run_seals|].
  - eapply life_read; [by apply read_dropped_effect|done..].
  - eapply life_write; [by eapply write_dropped_effect|done| |done..].
    by eapply made_write_seals; [apply write_future_seals|].
Qed.

Section codec_life.
Context `{Aead}.
Implicit Types c : PacketCodec.

Lemma read_effect_above c c' seqs :
  read_effect c c' -> Forall (above (last_recv_seq c')) seqs ->
  Forall (above (last_recv_seq c)) seqs.
Proof.
  intros (_ & _ & [->|(seq & -> & Ha)]); [done|]. intros Hf. eapply Forall_impl; [exact Hf|].
  cbn. unfold above in *. intros x Hx l Hl. specialize (Hx seq eq_refl). specialize (Ha l Hl). lia.
Qed.

Lemma accepted_sequences_above c evs c' :
  codec_life c evs c' ->
  Forall (above (last_recv_seq c)) (omap accepted_sequence evs).
Proof.
  induction 1 as [c|c c' ev evs c'' He Ho Hq Hw Hs IH|c c' ev evs c'' t fl pl He Ho Hq Hw Hs IH|]; [done| | |done].
  - apply (read_effect_above _ _ _ He) in IH.
    cbn. destruct (accepted_sequence ev) as [seq|]; [|done]. constructor; [by apply Ho|done].
  - destruct He as (<- & _). cbn. by rewrite Ho.
Qed.

Lemma accepted_sequences_u64 c evs c' :
  codec_life c evs c' -> Forall is_u64 (omap accepted_sequence evs).
Proof.
  induction 1 as [c|c c' ev evs c'' He Ho Hq Hw Hs IH|c c' ev evs c'' t fl pl He Ho Hq Hw Hs IH|]; [done| | |done].
  - cbn.
    destruct (accepted_sequence ev) as [seq|]; [|done]. constructor; [by apply Ho|done].
  - cbn. by rewrite Ho.
Qed.

Lemma accepted_sequences_sorted c evs c' :
  codec_life c evs c' -> StronglySorted Z.lt (omap accepted_sequence evs).
Proof.
  induction 1 as [c|c c' ev evs c'' He Ho Hq Hw Hs IH|c c' ev evs c'' t fl pl He Ho Hq Hw Hs IH|]; [constructor| | |done].
  - cbn.
    destruct (accepted_sequence ev) as [seq|]; [|done]. constructor; [done|].
    destruct (Ho seq eq_refl) as (_ & -> & _).
    eapply Forall_impl; [by eapply accepted_sequences_above|]. intros x Hx. by apply Hx.
  - cbn. by rewrite Ho.
Qed.

(** The last number received never goes down. *)
Definition not_below (last last' : option Z) : Prop :=
  forall l, last = Some l -> exists l', last' = Some l' /\ l <= l'.

Lemma last_recv_not_below c evs c' :
  codec_life c evs c' -> not_below (last_recv_seq c) (last_recv_seq c').
Proof.
  induction 1 as [c|c c' ev evs c'' He Ho Hq Hw Hs IH|c c' ev evs c'' t fl pl He Ho Hq Hw Hs IH|]; [| | |done].
  - intros l Hl. by exists l.
  - intros l Hl. destruct He as (_ & _ & [->|(seq & -> & Ha)]); [by apply IH|].
    destruct (IH seq eq_refl) as (l' & -> & ?). exists l'. specialize (Ha l Hl). split; [done|lia].
  - by destruct He as (<- & _).
Qed.

Lemma accepted_sequences_below c evs c' :
  codec_life c evs c' ->
  Forall (fun seq => exists l, last_recv_seq c' = Some l /\ seq <= l) (omap accepted_sequence evs).
Proof.
  induction 1 as [c|c c' ev evs c'' He Ho Hq Hw Hs IH|c c' ev evs c'' t fl pl He Ho Hq Hw Hs IH|]; [done| | |done].
  - cbn.
    destruct (accepted_sequence ev) as [seq|]; [|done]. constructor; [|done].
    destruct (Ho seq eq_refl) as (_ & -> & _). by apply (last_recv_not_below _ _ _ Hs).
  - cbn. by rewrite Ho.
Qed.

(** Every call of [write_packet] takes a number, until they run out. *)
Lemma next_send_seq_life c evs c' :
  codec_life c evs c' -> next_send_seq c <= u64_max ->
  next_send_seq c' = Z.min u64_max (next_send_seq c + write_calls evs).
Proof.
  unfold write_calls.
  induction 1 as [c|c c' ev evs c'' He Ho Hq Hw Hs IH|c c' ev evs c'' t fl pl He Ho Hq Hw Hs IH|]; [| | |done].
  - intros Hn. cbn [List.filter]. rewrite zlen_nil. lia.
  - intros Hn. destruct He as (He & _). cbn. rewrite Hw. rewrite IH; lia.
  - intros Hn. destruct He as (_ & _ & He). cbn.
    rewrite Hw, zlen_cons, IH, He by lia. pose proof (zlen_nonneg (List.filter is_write evs)). lia.
Qed.

(** Distinct nonces, made of the numbers from [lo] up to but not including [hi]. *)
Definition nonces_within (lo hi : Z) (ns : list bytes) : Prop :=
  NoDup ns /\ Forall (fun n => exists seq, lo <= seq < hi /\ n = nonce_of seq) ns.

Lemma nonces_within_mono lo lo' hi ns :
  lo <= lo' -> nonces_within lo' hi ns -> nonces_within lo hi ns.
Proof.
  intros Hle [Hd Hf]. split; [done|]. eapply Forall_impl; [exact Hf|].
  cbn. intros n (seq & ? & ->). exists seq. split; [lia|done].
Qed.

Lemma nonces_within_cons lo hi ns :
  0 <= lo < hi -> hi <= u64_max -> nonces_within (lo + 1) hi ns ->
  nonces_within lo hi (nonce_of lo :: ns).
Proof.
  intros Hlo Hhi Hn. split; constructor; [|apply Hn| |eapply nonces_within_mono; [|done]; lia].
  - destruct Hn as [_ Hf]. rewrite Forall_forall in Hf. intros Hin.
    destruct (Hf _ Hin) as (seq & Hseq & Heq). apply nonce_of_inj in Heq; unfold is_u64; lia.
  - exists lo. split; [lia|done].
Qed.

Lemma nonces_sealed_within c evs c' :
  codec_life c evs c' -> is_u64 (next_send_seq c) ->
  nonces_within (next_send_seq c) (next_send_seq c') (nonces_sealed evs).
Proof.
  unfold nonces_sealed.
  induction 1 as [c|c c' ev evs c'' He Ho Hq Hw Hs IH|c c' ev evs c'' t fl pl He Ho Hq Hw Hs IH|]; [| | |done].
  - intros _. split; constructor.
  - intros Hn. destruct He as (He & _). cbn. rewrite Hq, <- He. apply IH. by rewrite He.
  - intros Hn. cbn. rewrite Hq, fmap_app.
    pose proof (write_effect_u64 _ _ He Hn) as Hn'. specialize (IH Hn').
    assert (next_send_seq c'' = Z.min u64_max (next_send_seq c' + write_calls evs)) as Hl
      by (apply (next_send_seq_life _ _ _ Hs), Hn').
    pose proof (zlen_nonneg (List.filter is_write evs)) as Hz. unfold write_calls, is_u64 in *.
    destruct He as (_ & _ & He).
    destruct (write_seals_cases c t fl pl) as [->|[Hlt ->]].
    + eapply nonces_within_mono; [|exact IH]. lia.
    + apply nonces_within_cons; [lia..|].
      by replace (next_send_seq c + 1) with (next_send_seq c') by lia.
Qed.
End codec_life.

(** ** A conversation: one sender, one receiver *)
Record outgoing := mk_outgoing { out_type : PacketType; out_flags : byte; out_payload : bytes }.

Section conversation.
Context `{Aead}.

(** Write the packets in order; stop at the first error. *)
Fixpoint write_packets {W} `{AsyncWrite W} (ps : list outgoing) : codec_m W unit :=
  match ps with
  | [] => mret tt
  | p :: ps' =>
      PacketCodec_write_packet (out_type p) (out_flags p) (out_payload p);; write_packets ps'
  end.

(** Read [n] packets; stop at the first error. *)
Fixpoint read_packets {R} `{AsyncRead R} (n : nat) : codec_m R (list RawPacket) :=
  match n with
  | O => mret []
  | S n' => pkt ← PacketCodec_read_packet; pkts ← read_packets n'; mret (pkt :: pkts)
  end.
End conversation.

(** The packet [p] as the receiver sees it when sent with number [seq]. *)
Definition received (encrypted : bool) (seq : Z) (p : outgoing) : RawPacket :=
  RawPacket_new
    (PacketHeader_new (PacketType_as_u8 (out_type p))
       (if encrypted then flag_or (out_flags p) ENCRYPTED else out_flags p)
       (zlen (out_payload p)) seq)
    (out_payload p).

Fixpoint received_all (encrypted : bool) (seq : Z) (ps : list outgoing) : list RawPacket :=
  match ps with
  | [] => []
  | p :: ps' => received encrypted seq p :: received_all encrypted (seq + 1) ps'
  end.

Definition in_session (c : PacketCodec) : bool := bool_decide (is_Some (session c)).

(** A payload within its type's limit; outside a session the caller must not
    set the ENCRYPTED flag. *)
Definition conforming (c : PacketCodec) (p : outgoing) : Prop :=
  zlen (out_payload p) <= PacketType_max_payload_size (out_type p) /\
  (in_session c = false -> Z.odd (byte_val (out_flags p)) = false).

(** [cs] sends to [cr]: they agree on the key of that direction, and [cr] has
    not seen a number [cs] has yet to use. *)
Definition linked (cs cr : PacketCodec) : Prop :=
  0 <= next_send_seq cs /\
  (forall last, last_recv_seq cr = Some last -> last < next_send_seq cs) /\
  match session cs, session cr with
  | None, None => True
  | Some a, Some b => outbound_key a = inbound_key b /\ zlen (outbound_key a) = 32
  | _, _ => False
  end.

Lemma linked_new : linked PacketCodec_new PacketCodec_new.
Proof. by split. Qed.

Lemma linked_establish cs cr k k' :
  linked cs cr -> zlen k = 32 ->
  linked (PacketCodec_establish_session cs k k') (PacketCodec_establish_session cr k' k).
Proof. by intros (Hp & Hl & _) Hk. Qed.

Section delivery.
Context `{AeadLaws} {R W : Type} `{InputStreamLaws R, OutputStreamLaws W}.

Lemma linked_next cs cr :
  linked cs cr ->
  linked (set_next_send_seq (next_send_seq cs + 1) cs)
    (set_last_recv_seq (next_send_seq cs) cr).
Proof.
  intros (Hp & Hl & Hs). split; [cbn; lia|]. split; [|done]. intros last [= <-]. cbn. lia.
Qed.

(** What [cs] seals, [cr] opens. *)
Lemma seals_opens cs cr t fl pl fl' body h :
  linked cs cr -> seals cs t fl pl fl' body ->
  sequence h = next_send_seq cs -> packet_type h = PacketType_as_u8 t -> flags h = fl' ->
  (in_session cs = false -> Z.odd (byte_val fl) = false) ->
  opens cr h body pl /\ (is_Some (session cr) -> PacketHeader_is_encrypted h = true) /\
  fl' = (if in_session cs then flag_or fl ENCRYPTED else fl) /\
  PacketHeader_is_encrypted h = in_session cs.
Proof.
  intros (_ & _ & Hk) Hs Hseq Ht Hf Hodd. unfold seals, opens, in_session in *.
  rewrite is_encrypted_odd, Hseq, Ht, Hf.
  destruct (session cs) as [a|] eqn:Ea, (session cr) as [b|] eqn:Eb; try done; cbn in *.
  - destruct Hs as (-> & key & Hkey & Hseal). rewrite flag_or_odd.
    split_and!; try done. exists b, key. rewrite <- (proj1 Hk). by rewrite aead_open_iff.
  - destruct Hs as [-> ->]. rewrite Hodd by done. split_and!; try done.
Qed.

Lemma deliver_one cs cr p :
  linked cs cr -> conforming cs p -> next_send_seq cs < u64_max ->
  exists wire,
    (forall w : W, exists w',
       PacketCodec_write_packet (out_type p) (out_flags p) (out_payload p) (cs, w)
       = (Ok tt, (set_next_send_seq (next_send_seq cs + 1) cs, w')) /\
       written w' = written w ++ wire) /\
    (forall (r : R) rest, pending r = wire ++ rest ->
       exists r', PacketCodec_read_packet (cr, r)
         = (Ok (received (in_session cs) (next_send_seq cs) p),
            (set_last_recv_seq (next_send_seq cs) cr, r')) /\ pending r' = rest).
Proof.
  intros Hlk [Hlen Hfl] Hn. destruct p as [t fl pl]. cbn in *.
  pose proof (max_payload_size_range t) as Hmax.
  assert (forall cipher, session cs = Some cipher -> zlen (outbound_key cipher) = 32) as Hk.
  { intros cipher Hc. destruct Hlk as (_ & _ & Hl). rewrite Hc in Hl.
    by destruct (session cr); [apply Hl|]. }
  destruct (seals_total cs t fl pl Hk) as (fl' & body & Hs); [unfold AEAD_MAX; lia|].
  pose proof (seals_len _ _ _ _ _ _ Hs) as Hb. set (h := frame_header cs t fl' body).
  destruct (seals_opens cs cr t fl pl fl' body h Hlk Hs eq_refl eq_refl eq_refl Hfl)
    as (Ho & He & Hfl' & Henc).
  assert (zlen body <= PacketType_max_payload_size t +
    if in_session cs then GCM_TAG_LEN else 0) as Hbody.
  { unfold in_session. destruct (session cs); cbn; lia. }
  assert (is_u32 (zlen body)) as Hu.
  { pose proof (zlen_nonneg body). unfold is_u32, u32_max, GCM_TAG_LEN in *.
    destruct (in_session cs); lia. }
  assert (payload_len h = zlen body) as Hhl by by apply as_u32_id.
  assert (header_ok h) as Hok.
  { apply header_new_ok; [by apply as_u32_range|]. destruct Hlk. unfold is_u64. lia. }
  assert (admissible cr h t) as Hadm.
  { split_and!; [|done|done| |apply Hlk].
    - apply header_new_valid. rewrite as_u32_id by done. unfold MAX_PAYLOAD_LEN, GCM_TAG_LEN in *.
      destruct (in_session cs); lia.
    - rewrite Hhl. pose proof (max_for_type_range h t). unfold max_for_type in *.
      rewrite Henc in *. destruct (in_session cs); [|lia].
      unfold saturating_add_u32. change (as_u32 GCM_TAG_LEN) with GCM_TAG_LEN.
      unfold u32_max, GCM_TAG_LEN in *. lia. }
  exists (header_layout h ++ body). split; [intros w; by apply write_packet_ok|].
  intros r rest Hp. rewrite <- app_assoc in Hp.
  destruct (header_read_pending r h _ Hok Hp) as (r1 & Hh & Hp1).
  destruct (body_read_pending r1 h body rest Hp1 Hhl) as (r2 & Hbd & Hp2).
  exists r2. split; [|done]. apply read_packet_delivers.
  replace (received _ _ _) with (RawPacket_new (with_payload_len (zlen pl) h) pl).
  - by eapply delivered.
  - unfold received, h, frame_header. cbn. by rewrite <- Hfl'.
Qed.

(** A delivered packet uses up its header and at least its payload. *)
Lemma read_packet_consumes c (r : R) pkt c' r' :
  PacketCodec_read_packet (c, r) = (Ok pkt, (c', r')) ->
  CHATIX_HEADER_SIZE + zlen (payload pkt) + zlen (pending r') <= zlen (pending r).
Proof.
  intros Hd%read_packet_delivers. inversion Hd as [| | | |h t r1 body r2 pt Hh Ha Hb Ho]; subst.
  rewrite (frame_pending _ _ _ _ _ Hh Hb). apply opens_len in Ho.
  rewrite !zlen_app, zlen_header_layout by apply Hh. cbn [payload RawPacket_new].
  unfold GCM_TAG_LEN in Ho. destruct (PacketHeader_is_encrypted h); lia.
Qed.
End delivery.

(** ** Properties *)

(** C20. The two counters over the whole life of a codec, whatever the peer
    or the network sends and however reads, writes, failures, cancelled calls and
    key changes are interleaved. Each call of [write_packet], successful or not,
    takes exactly one number until they run out; the counter then stays at
    [u64::MAX] and never wraps around. The numbers of the delivered packets
    strictly increase, start above the last one received before and end at or
    below the last one received now, so no frame is delivered twice and none
    out of order. *)
Theorem codec_numbers `{AeadLaws} {R W} `{AsyncReadLaws R, AsyncWriteLaws W} c evs c' :
  codec_steps R W c evs c' -> is_u64 (next_send_seq c) ->
  next_send_seq c' = Z.min u64_max (next_send_seq c + write_calls evs) /\
  StronglySorted Z.lt (omap accepted_sequence evs) /\
  Forall (fun seq => (forall last, last_recv_seq c = Some last -> last < seq) /\
                     exists last, last_recv_seq c' = Some last /\ seq <= last)
    (omap accepted_sequence evs).
Proof.
  intros Hs%codec_steps_life Hn. split_and!; [apply (next_send_seq_life _ _ _ Hs), Hn|by eapply accepted_sequences_sorted|].
  apply Forall_and. split; [by eapply accepted_sequences_above|by eapply accepted_sequences_below].
Qed.

(** C7. No nonce is used twice: over the whole life of a codec, failed and
    cancelled writes and changes of the session key included, the nonces the
    calls pass to the AEAD (those whose refusal by the library would change
    the call) are distinct, so no key is ever used with the same nonce twice.
    Each encodes a sequence number the codec had not used before; when the
    numbers run out sealing stops instead of wrapping around. *)
Theorem nonces_never_reused `{AeadLaws} {R W} `{AsyncReadLaws R, AsyncWriteLaws W} c evs c' :
  codec_steps R W c evs c' -> is_u64 (next_send_seq c) ->
  NoDup (nonces_sealed evs) /\
  Forall (fun nonce => exists seq, next_send_seq c <= seq < next_send_seq c' /\
                                   nonce = repeat x00 4 ++ to_be_bytes 8 seq)
    (nonces_sealed evs).
Proof. intros Hs%codec_steps_life. by apply nonces_sealed_within. Qed.

(** C23. A receive loop ends: over a stream with [k] bytes left, whatever they
    are, fewer than [k / 24 + 1] packets can be read before [read_packet]
    returns an error (never a panic), so a loop that reads until the first
    error runs at most that often. *)
Theorem receive_loop_ends `{AeadLaws} {R} `{InputStreamLaws R} (c : PacketCodec) (r : R) n :
  zlen (pending r) < CHATIX_HEADER_SIZE * Z.of_nat n ->
  exists e s', read_packets n (c, r) = (Err e, s').
Proof.
  revert c r. induction n as [|n IH]; intros c r Hn.
  - pose proof (zlen_nonneg (pending r)). lia.
  - cbn. unfold mbind, ST_bind.
    destruct (PacketCodec_read_packet (c, r)) as [[pkt|e|] [c' r']] eqn:Hr; [|by eauto|].
    + apply read_packet_consumes in Hr. pose proof (zlen_nonneg (payload pkt)).
      destruct (IH c' r') as (e & s' & ->); [lia|]. by eauto.
    + apply read_packet_delivers in Hr. inversion Hr.
Qed.

(** C6. End-to-end delivery: when the two codecs agree on the session (or
    neither has one) and the receiver has not seen the sender's next number,
    writing any list of conforming packets succeeds and produces bytes from
    which the receiver reads back exactly those packets, in order, with their
    types, flags and payloads and consecutive sequence numbers, consuming
    nothing of what follows; afterwards the two codecs still agree. *)
Theorem stream_roundtrip `{AeadLaws} {R W} `{InputStreamLaws R, OutputStreamLaws W} cs cr ps :
  linked cs cr -> Forall (conforming cs) ps -> next_send_seq cs + zlen ps <= u64_max ->
  exists wire cs',
    (forall w : W, exists w', write_packets ps (cs, w) = (Ok tt, (cs', w')) /\
       written w' = written w ++ wire) /\
    (forall (r : R) rest, pending r = wire ++ rest ->
       exists cr' r', read_packets (length ps) (cr, r)
         = (Ok (received_all (in_session cs) (next_send_seq cs) ps), (cr', r')) /\
         pending r' = rest /\ linked cs' cr').
Proof.
  intros Hlk Hps. revert cs cr Hlk Hps. induction ps as [|p ps IH]; intros cs cr Hlk Hps Hn.
  - exists [], cs. split.
    + intros w. exists w. by rewrite app_nil_r.
    + intros r rest Hp. by exists cr, r.
  - apply Forall_cons in Hps as [Hp Hps]. rewrite zlen_cons in Hn. pose proof (zlen_nonneg ps).
    destruct (deliver_one cs cr p Hlk Hp ltac:(lia)) as (wire1 & Hw1 & Hr1).
    destruct (IH _ _ (linked_next _ _ Hlk)) as (wire2 & cs' & Hw2 & Hr2);
      [done|cbn; lia|].
    exists (wire1 ++ wire2), cs'. split.
    + intros w. destruct (Hw1 w) as (w1 & Hs1 & Hl1). destruct (Hw2 w1) as (w2 & Hs2 & Hl2).
      exists w2. cbn. unfold mbind, ST_bind. rewrite Hs1. split; [done|].
      by rewrite Hl2, Hl1, app_assoc.
    + intros r rest Hpd. rewrite <- app_assoc in Hpd.
      destruct (Hr1 r _ Hpd) as (r1 & Hs1 & Hl1).
      destruct (Hr2 r1 _ Hl1) as (cr' & r2 & Hs2 & Hl2 & Hlk').
      exists cr', r2. cbn. unfold mbind, ST_bind. rewrite Hs1, Hs2. done.
Qed.

(** C21. What a frame that fails authentication costs: an admissible encrypted
    frame whose body does not open is refused with [CryptoError] and consumed
    whole, and its claimed sequence number is kept as the last received one;
    so from then on every packet delivered, in any continuation, has a higher
    number, and after a forged number [u64::MAX] none is delivered at all. *)
Theorem unauthenticated_frame_effect `{AeadLaws} {R W} `{InputStreamLaws R, AsyncWriteLaws W}
    c h t body (r : R) rest :
  header_ok h -> admissible c h t -> PacketHeader_is_encrypted h = true ->
  payload_len h = zlen body -> pending r = header_layout h ++ body ++ rest ->
  (forall plaintext, ~ opens c h body plaintext) ->
  exists r', PacketCodec_read_packet (c, r)
      = (Err CryptoError, (set_last_recv_seq (sequence h) c, r')) /\ pending r' = rest /\
    forall evs c', codec_steps R W (set_last_recv_seq (sequence h) c) evs c' ->
      Forall (fun seq => sequence h < seq) (omap accepted_sequence evs) /\
      (sequence h = u64_max -> omap accepted_sequence evs = []).
Proof.
  intros Hok Ha Henc Hl Hp Hno.
  destruct (header_read_pending r h _ Hok Hp) as (r1 & Hh & Hp1).
  destruct (body_read_pending r1 h body rest Hp1 Hl) as (r2 & Hb & Hp2).
  exists r2. split; [|split; [done|]].
  - apply read_packet_delivers. by eapply unopened.
  - intros evs c' Hs. apply codec_steps_life in Hs. pose proof (accepted_sequences_above _ _ _ Hs) as Hab.
    pose proof (accepted_sequences_u64 _ _ _ Hs) as Hu.
    assert (Forall (fun seq => sequence h < seq) (omap accepted_sequence evs)) as Hlt.
    { eapply Forall_impl; [exact Hab|]. intros x Hx. by apply Hx. }
    split; [done|]. intros Hm. destruct (omap accepted_sequence evs) as [|x xs]; [done|].
    apply Forall_cons in Hlt as [Hx _]. apply Forall_cons in Hu as [Hx' _].
    unfold is_u64 in Hx'. lia.
Qed.
