(* ===== verification/Channel.v ===== *)
(** * A secured direction, against an active network

    The sender's codec and the receiver's codec of one direction of a session,
    with a network between them that may drop, reorder, replay, relabel and
    invent frames: the receiver's calls read from any streams. [sender_log]
    lists the frames the sender sealed, [receiver_log] the frames the receiver
    delivered. Integrity of AES-GCM is the hypothesis [no_forged_frame] on each
    delivered ciphertext, nothing more. *)
From Stdlib Require Import Sorting.Sorted.
From S2P Require Import Prelude RustStd Sizes Errors Header PacketType Primitives Codec Async.
From S2P Require Import Stream.

(** A frame before sealing: what the header says of it, and its plaintext. *)
Record frame := mk_frame {
  fr_sequence : Z;
  fr_type : byte;
  fr_flags : byte;
  fr_payload : bytes
}.
Definition frame_of (pkt : RawPacket) : frame :=
  mk_frame (sequence (header pkt)) (packet_type (header pkt)) (flags (header pkt)) (payload pkt).
Definition frame_nonce (f : frame) : bytes := nonce_of (fr_sequence f).
Definition frame_aad (f : frame) : bytes := header_aad (fr_type f) (fr_flags f).
Definition frame_lt (f g : frame) : Prop := fr_sequence f < fr_sequence g.

(** What a call of [write_packet] seals: one frame in a session, until the
    numbers run out. *)
Definition seals_frame (c : PacketCodec) (t : PacketType) (fl : byte) (pl : bytes) : list frame :=
  if in_session c && (next_send_seq c <? u64_max)
  then [mk_frame (next_send_seq c) (PacketType_as_u8 t) (flag_or fl ENCRYPTED) pl] else [].

Section logs.
Context `{Aead} (R W : Type) `{AsyncRead R, AsyncWrite W}.

(** The frames a codec seals, calls that fail or are cancelled included. *)
Inductive sender_log : PacketCodec -> list frame -> PacketCodec -> Prop :=
| sender_nil c : sender_log c [] c
| sender_write c (w : W) t fl pl o c' w' log c'' :
    PacketCodec_write_packet t fl pl (c, w) = (o, (c', w')) ->
    sender_log c' log c'' -> sender_log c (seals_frame c t fl pl ++ log) c''
| sender_write_dropped c t fl pl c' log c'' :
    dropped (write_packet_async t fl pl c) c' ->
    sender_log c' log c'' -> sender_log c (seals_frame c t fl pl ++ log) c''
| sender_read c (r : R) o c' r' log c'' :
    PacketCodec_read_packet (c, r) = (o, (c', r')) -> sender_log c' log c'' -> sender_log c log c''
| sender_read_dropped c c' log c'' :
    dropped (read_packet_async c) c' -> sender_log c' log c'' -> sender_log c log c''.

(** The frames a codec delivers, each with the body that stood for it on the wire. *)
Inductive receiver_log `{InputStream R} : PacketCodec -> list (frame * bytes) -> PacketCodec -> Prop :=
| receiver_nil c : receiver_log c [] c
| receiver_packet c (r : R) pkt head body c' r' log c'' :
    PacketCodec_read_packet (c, r) = (Ok pkt, (c', r')) ->
    pending r = head ++ body ++ pending r' -> zlen head = CHATIX_HEADER_SIZE ->
    receiver_log c' log c'' -> receiver_log c ((frame_of pkt, body) :: log) c''
| receiver_error c (r : R) e c' r' log c'' :
    PacketCodec_read_packet (c, r) = (Err e, (c', r')) ->
    receiver_log c' log c'' -> receiver_log c log c''
| receiver_read_dropped c c' log c'' :
    dropped (read_packet_async c) c' -> receiver_log c' log c'' -> receiver_log c log c''
| receiver_write c (w : W) t fl pl o c' w' log c'' :
    PacketCodec_write_packet t fl pl (c, w) = (o, (c', w')) ->
    receiver_log c' log c'' -> receiver_log c log c''
| receiver_write_dropped c t fl pl c' log c'' :
    dropped (write_packet_async t fl pl c) c' ->
    receiver_log c' log c'' -> receiver_log c log c''.

(** The ciphertext [body] is no forgery: if it opens at this nonce and with this
    associated data, the sender sealed it, at the same nonce and with the same
    associated data. *)
Definition no_forged_frame (key : aead_key) (log : list frame) (received : frame * bytes) : Prop :=
  let '(f, body) := received in
  is_Some (aead_open key (frame_nonce f) (frame_aad f) body) ->
  exists g, g ∈ log /\ frame_nonce g = frame_nonce f /\ frame_aad g = frame_aad f /\
    aead_seal key (frame_nonce g) (frame_aad g) (fr_payload g) = Some body.
End logs.

(** ** Lists in strict order *)
Lemma sorted_subset_sublist (l k : list frame) :
  StronglySorted frame_lt l -> StronglySorted frame_lt k -> l ⊆ k -> sublist l k.
Proof.
  intros Hl Hk. revert l Hl. induction Hk as [|y k Hk IH Hy]; intros l Hl Hsub.
  - destruct l as [|x l]; [constructor|]. exfalso.
    apply (not_elem_of_nil x), Hsub, list_elem_of_here.
  - rewrite Forall_forall in Hy.
    assert (forall l', StronglySorted frame_lt l' -> l' ⊆ y :: k -> Forall (frame_lt y) l' ->
      sublist l' k) as Htail.
    { intros l' Hs Hin Hgt. apply IH; [done|]. intros x Hx. rewrite Forall_forall in Hgt.
      specialize (Hgt x Hx). apply Hin, elem_of_cons in Hx as [->|]; [|done].
      unfold frame_lt in Hgt. lia. }
    destruct Hl as [|x l Hl Hx]; [constructor; apply sublist_nil_l|].
    assert (x ∈ y :: k) as [->|Hxk]%elem_of_cons by apply Hsub, list_elem_of_here.
    + apply sublist_skip, Htail; [done| |done]. intros z Hz. by apply Hsub, list_elem_of_further.
    + apply sublist_cons, Htail; [by constructor|done|]. specialize (Hy x Hxk).
      constructor; [done|]. eapply Forall_impl; [exact Hx|]. cbn. unfold frame_lt in *. intros; lia.
Qed.

(** ** What the two logs say of the codecs *)
Section log_laws.
Context `{AeadLaws} {R W : Type} `{InputStreamLaws R, AsyncWriteLaws W}.

Definition logged_after (c : PacketCodec) (log : list frame) : Prop :=
  StronglySorted frame_lt log /\
  Forall (fun f => next_send_seq c <= fr_sequence f /\ is_u64 (fr_sequence f)) log.

Lemma logged_after_write c c' t fl pl log :
  write_effect c c' -> is_u64 (next_send_seq c) -> logged_after c' log ->
  logged_after c (seals_frame c t fl pl ++ log).
Proof.
  intros (_ & _ & He) Hn [Hs Hf]. unfold seals_frame, logged_after, is_u64 in *.
  destruct (in_session c), (Z.ltb_spec (next_send_seq c) u64_max); cbn [app andb]; unfold u64_max in *.
  - split; constructor; cbn; [done| |lia|];
      (eapply Forall_impl; [exact Hf|]; cbn; unfold frame_lt; cbn; intros; lia).
  - split; [done|]. eapply Forall_impl; [exact Hf|]. cbn. intros; lia.
  - split; [done|]. eapply Forall_impl; [exact Hf|]. cbn. intros; lia.
  - split; [done|]. eapply Forall_impl; [exact Hf|]. cbn. intros; lia.
Qed.

Lemma sender_log_after c log c' :
  sender_log R W c log c' -> is_u64 (next_send_seq c) -> logged_after c log.
Proof.
  induction 1 as [|c w t fl pl o c' w' log c'' Hw%write_packet_effect Hs IH
    |c t fl pl c' log c'' Hd%write_dropped_effect Hs IH
    |c r o c' r' log c'' [Hr _]%read_packet_effect Hs IH
    |c c' log c'' Hr%read_dropped_effect Hs IH]; intros Hn.
  - split; constructor.
  - eapply logged_after_write; [done..|]. by apply IH, (write_effect_u64 _ _ Hw).
  - eapply logged_after_write; [done..|]. by apply IH, (write_effect_u64 _ _ Hd).
  - destruct Hr as (E & _). unfold logged_after in *. rewrite E in IH. by apply IH.
  - destruct Hr as (E & _). unfold logged_after in *. rewrite E in IH. by apply IH.
Qed.

(** The receiver delivers with increasing numbers, above the last it saw. *)
Lemma receiver_log_sorted c log c' :
  receiver_log R W c log c' ->
  StronglySorted frame_lt (fst <$> log) /\
  Forall (fun f => above (last_recv_seq c) (fr_sequence f)) (fst <$> log).
Proof.
  assert (forall c c' (fs : list frame), read_effect c c' ->
    Forall (fun f => above (last_recv_seq c') (fr_sequence f)) fs ->
    Forall (fun f => above (last_recv_seq c) (fr_sequence f)) fs) as Hread.
  { intros c0 c0' fs He. intros Hf. apply (Forall_fmap fr_sequence (above (last_recv_seq c0))).
    eapply read_effect_above; [exact He|]. by apply Forall_fmap. }
  induction 1 as [c|c r pkt hd body c' r' log c'' Hr _ _ Hs [IHs IHf]
    |c r e c' r' log c'' Hr Hs [IHs IHf]|c c' log c'' Hd Hs [IHs IHf]
    |c w t fl pl o c' w' log c'' Hw Hs [IHs IHf]|c t fl pl c' log c'' Hd Hs [IHs IHf]].
  - split; constructor.
  - apply read_packet_effect in Hr as [He Ho]. destruct (Ho pkt eq_refl) as [-> Ha].
    split; constructor; [done| |done|by eapply Hread].
    eapply Forall_impl; [exact IHf|]. intros f Hf. by apply Hf.
  - apply read_packet_effect in Hr as [He _]. split; [done|]. by eapply Hread.
  - apply read_dropped_effect in Hd. split; [done|]. by eapply Hread.
  - apply write_packet_effect in Hw as (<- & _). done.
  - apply write_dropped_effect in Hd as (<- & _). done.
Qed.

(** Every frame delivered in a session opens. *)
Lemma receiver_log_opens c log c' cipher key :
  receiver_log R W c log c' -> session c = Some cipher ->
  aead_key_new (inbound_key cipher) = Some key ->
  Forall (fun '(f, body) => is_u64 (fr_sequence f) /\
            aead_open key (frame_nonce f) (frame_aad f) body = Some (fr_payload f)) log.
Proof.
  induction 1 as [c|c r pkt hd body c' r' log c'' Hr Hp Hh Hs IH
    |c r e c' r' log c'' Hr Hs IH|c c' log c'' Hd Hs IH
    |c w t fl pl o c' w' log c'' Hw Hs IH|c t fl pl c' log c'' Hd Hs IH]; intros Hses Hkey.
  - constructor.
  - assert (is_u64 (sequence (header pkt))) as Hq.
    { apply read_packet_delivers in Hr. inversion Hr as [| | | |h t ? ? ? ? [Hok _]]; subst. apply Hok. }
    destruct (session_frame_inv _ _ _ _ _ _ Hses Hr) as (t & body' & Ht & Hseal & Hp').
    destruct (read_packet_effect _ _ _ _ _ Hr) as [(_ & E & _) _].
    constructor; [split; [done|]|by apply IH; [rewrite E|]].
    rewrite Hp in Hp'. apply zlen_inj_app in Hp' as [_ Hb]; [|by rewrite Hh, zlen_header_layout].
    apply app_inv_tail in Hb as ->.
    unfold seals in Hseal. cbn in Hseal. destruct Hseal as (_ & key' & Hk' & Hseal).
    rewrite Hkey in Hk'. injection Hk' as <-. apply aead_open_iff.
    unfold frame_nonce, frame_aad, frame_of. cbn. by rewrite <- Ht.
  - apply read_packet_effect in Hr as [(_ & E & _) _]. by apply IH; [rewrite E|].
  - apply read_dropped_effect in Hd as (_ & E & _). by apply IH; [rewrite E|].
  - apply write_packet_effect in Hw as (_ & E & _). by apply IH; [rewrite E|].
  - apply write_dropped_effect in Hd as (_ & E & _). by apply IH; [rewrite E|].
Qed.
End log_laws.

(** ** Properties *)

(** C4. Integrity of a session's direction against an active network: take any
    life of the receiving codec, reading from any streams whatever the network
    put there, with failed and cancelled calls and its own sending in between,
    and any life of the sending codec. If no ciphertext the receiver delivered
    was forged, then the frames it delivered are a subsequence of the frames
    the sender sealed: same sequence numbers, types, flags and payloads, in the
    order of sending, none twice, none reordered, none relabelled. *)
Theorem channel_integrity `{AeadLaws} {R W} `{InputStreamLaws R, AsyncWriteLaws W}
    cs cs' cr cr' cipher key sent got :
  session cr = Some cipher -> aead_key_new (inbound_key cipher) = Some key ->
  is_u64 (next_send_seq cs) ->
  sender_log R W cs sent cs' -> receiver_log R W cr got cr' ->
  Forall (no_forged_frame key sent) got ->
  sublist (fst <$> got) sent.
Proof.
  intros Hses Hkey Hn Hs Hr Hnf.
  destruct (sender_log_after _ _ _ Hs Hn) as [Hsort Hsent].
  destruct (receiver_log_sorted _ _ _ Hr) as [Hgot _].
  apply sorted_subset_sublist; [done..|]. intros f ((f' & body) & -> & Hin)%list_elem_of_fmap.
  pose proof (receiver_log_opens _ _ _ _ _ Hr Hses Hkey) as Ho.
  rewrite Forall_forall in Hnf, Ho. specialize (Ho _ Hin) as [Hq Hopen]. cbn.
  destruct (Hnf _ Hin) as (g & Hg & Hnonce & Haad & Hseal); [by rewrite Hopen|].
  pose proof (proj2 (proj1 (Forall_forall _ _) Hsent g Hg)) as Hgq.
  apply nonce_of_inj in Hnonce; [|done..]. apply aead_open_iff in Hseal.
  destruct f' as [q t fl pl], g as [q' t' fl' pl']. cbn in *. subst q'.
  unfold frame_aad, header_aad in *. cbn in *. injection Haad as -> ->.
  unfold frame_nonce in *. cbn in *. congruence.
Qed.
