(* ===== verification/Connection.v ===== *)
(** * One end of a connection: codec, state machine and payload decoding

    The receiving pipeline the crate's documentation prescribes: a packet is
    read by the codec, its type checked against the state machine
    ([validate_incoming]), the machine advanced ([advance], "call only after
    [validate_incoming] has succeeded"), and its payload decoded by the struct
    of its type. [connection_steps] is the life of such an end, with writes,
    key establishment and cancelled calls in between. *)
From Stdlib Require Import Sorting.Sorted.
From S2P Require Import Prelude RustStd Sizes Errors Header PacketType ConnectionState Common.
From S2P Require Import Payloads Primitives Codec Async Sealing Stream.

Record Connection := mk_Connection {
  c_role : Role;
  c_state : ConnectionState;
  c_codec : PacketCodec
}.

Definition Connection_new (role : Role) : Connection :=
  mk_Connection role (ConnectionState_initial role) PacketCodec_new.
Definition with_state (s : ConnectionState) (c : Connection) : Connection :=
  mk_Connection (c_role c) s (c_codec c).
Definition with_codec (codec : PacketCodec) (c : Connection) : Connection :=
  mk_Connection (c_role c) (c_state c) codec.

(** A packet whose payload has been decoded as the struct of its type. *)
Record decoded := mk_decoded {
  d_sequence : Z;
  d_type : PacketType;
  d_payload : payload_type d_type
}.

Abbreviation connection_m T := (ST (Connection * T) ProtocolError).

Definition on_codec {T A} (m : codec_m T A) : connection_m T A :=
  fun s => let '(o, (codec, t)) := m (c_codec (fst s), snd s) in (o, (with_codec codec (fst s), t)).
Definition on_state {T} (f : ConnectionState -> outcome ProtocolError ConnectionState)
    : connection_m T unit :=
  fun s => match f (c_state (fst s)) with
           | Ok s' => (Ok tt, (with_state s' (fst s), snd s))
           | Err e => (Err e, s)
           | Panic => (Panic, s)
           end.

Section connection.
Context `{Aead}.

(** Read a packet and let the state machine accept its type. *)
Definition Connection_accept {R} `{AsyncRead R} : connection_m R (PacketType * RawPacket) :=
  pkt ← on_codec PacketCodec_read_packet;
  packet_type ← st_lift (PacketType_from_u8 (packet_type (header pkt)));
  self ← st_get;
  on_state (fun s => receive (c_role (fst self)) s packet_type);;
  mret (packet_type, pkt).

Definition Connection_receive {R} `{AsyncRead R} : connection_m R decoded :=
  '(packet_type, pkt) ← Connection_accept;
  payload ← st_lift (from_io (payload_decode (A := payload_type packet_type) (payload pkt)));
  mret (mk_decoded (sequence (header pkt)) packet_type payload).
End connection.

(** Everything one [Connection_receive] can do. *)
Inductive receives_packet `{Aead} {R} `{AsyncRead R} (c : Connection) (r : R)
    : outcome ProtocolError decoded -> Connection * R -> Prop :=
| codec_refused e codec' r' :
    PacketCodec_read_packet (c_codec c, r) = (Err e, (codec', r')) ->
    receives_packet c r (Err e) (with_codec codec' c, r')
| state_refused pkt t codec' r' :
    PacketCodec_read_packet (c_codec c, r) = (Ok pkt, (codec', r')) ->
    PacketType_as_u8 t = packet_type (header pkt) ->
    receive (c_role c) (c_state c) t = Err InvalidStateTransition ->
    receives_packet c r (Err InvalidStateTransition) (with_codec codec' c, r')
| payload_refused pkt t codec' r' s' e :
    PacketCodec_read_packet (c_codec c, r) = (Ok pkt, (codec', r')) ->
    PacketType_as_u8 t = packet_type (header pkt) ->
    receive (c_role c) (c_state c) t = Ok s' ->
    payload_decode (A := payload_type t) (payload pkt) = Err e ->
    receives_packet c r (Err (Io e)) (with_state s' (with_codec codec' c), r')
| packet_accepted pkt t codec' r' s' p :
    PacketCodec_read_packet (c_codec c, r) = (Ok pkt, (codec', r')) ->
    PacketType_as_u8 t = packet_type (header pkt) ->
    receive (c_role c) (c_state c) t = Ok s' ->
    payload_decode (payload pkt) = Ok p ->
    receives_packet c r (Ok (mk_decoded (sequence (header pkt)) t p))
      (with_state s' (with_codec codec' c), r').

Section connection_laws.
Context `{AeadLaws} {R : Type} `{AsyncReadLaws R}.

Lemma read_packet_ok_type c (r : R) o s' :
  PacketCodec_read_packet (c, r) = (o, s') ->
  o <> Panic /\
  forall pkt, o = Ok pkt -> exists t, PacketType_as_u8 t = packet_type (header pkt).
Proof.
  intros Hd%read_packet_delivers.
  inversion Hd as [| | | |h t ? ? ? ? ? Ha]; subst; split; try done.
  intros pkt [= <-]. exists t. apply Ha.
Qed.

Lemma Connection_receive_spec c (r : R) o s' :
  Connection_receive (c, r) = (o, s') -> receives_packet c r o s'.
Proof.
  unfold Connection_receive, Connection_accept, mbind, ST_bind, on_codec. cbn.
  destruct (PacketCodec_read_packet (c_codec c, r)) as [[pkt|e|] [codec' r']] eqn:Hr.
  - destruct (proj2 (read_packet_ok_type _ _ _ _ Hr) pkt eq_refl) as (t & Ht).
    cbn. rewrite <- Ht, from_as_u8. cbn. unfold on_state. cbn.
    pose proof (receive_wp (c_role c) (c_state c) t) as Hw.
    destruct (receive (c_role c) (c_state c) t) as [s1|e|] eqn:Hs; cbn in *; [| |done].
    + pose proof (decode_spec (A := payload_type t) (payload pkt)) as Hp. unfold st_lift, from_io.
      destruct (payload_decode (payload pkt)) as [p|e|] eqn:Hd; cbn in *; [| |done].
      * intros [= <- <-]. by eapply packet_accepted.
      * intros [= <- <-]. by eapply payload_refused.
    + subst. intros [= <- <-]. by eapply state_refused.
  - intros [= <- <-]. by apply codec_refused.
  - by destruct (proj1 (read_packet_ok_type _ _ _ _ Hr)).
Qed.

(** A packet the codec delivers with the encoding of a payload is received. *)
Lemma connection_receive_ok c (r : R) pkt t (p : payload_type t) s' codec' r' :
  PacketCodec_read_packet (c_codec c, r) = (Ok pkt, (codec', r')) ->
  packet_type (header pkt) = PacketType_as_u8 t -> payload pkt = payload_layout p ->
  payload_ok p -> payload_fits p -> receive (c_role c) (c_state c) t = Ok s' ->
  Connection_receive (c, r)
  = (Ok (mk_decoded (sequence (header pkt)) t p), (with_state s' (with_codec codec' c), r')).
Proof.
  intros Hr Ht Hp Hok Hf Hst.
  unfold Connection_receive, Connection_accept, mbind, ST_bind, on_codec. cbn. rewrite Hr. cbn.
  rewrite Ht, from_as_u8. cbn. unfold on_state. cbn. rewrite Hst. cbn. rewrite Hp.
  by rewrite decode_layout.
Qed.
End connection_laws.

(** ** The life of a connection *)
Inductive connection_steps `{Aead} (R W : Type) `{AsyncRead R, AsyncWrite W}
    : Connection -> list (outcome ProtocolError decoded) -> Connection -> Prop :=
| connection_nil c : connection_steps R W c [] c
| connection_receive c (r : R) o c' r' os c'' :
    Connection_receive (c, r) = (o, (c', r')) ->
    connection_steps R W c' os c'' -> connection_steps R W c (o :: os) c''
| connection_write c (w : W) t fl pl o codec' w' os c'' :
    PacketCodec_write_packet t fl pl (c_codec c, w) = (o, (codec', w')) ->
    connection_steps R W (with_codec codec' c) os c'' -> connection_steps R W c os c''
| connection_establish c out_key in_key os c'' :
    zlen out_key = 32 -> zlen in_key = 32 ->
    connection_steps R W
      (with_codec (PacketCodec_establish_session (c_codec c) out_key in_key) c) os c'' ->
    connection_steps R W c os c''
| connection_read_dropped c codec' os c'' :
    dropped (read_packet_async (c_codec c)) codec' ->
    connection_steps R W (with_codec codec' c) os c'' -> connection_steps R W c os c''
| connection_write_dropped c t fl pl codec' os c'' :
    dropped (write_packet_async t fl pl (c_codec c)) codec' ->
    connection_steps R W (with_codec codec' c) os c'' -> connection_steps R W c os c''.

Definition delivered_packet (o : outcome ProtocolError decoded) : option decoded :=
  match o with Ok d => Some d | _ => None end.

Section connection_life.
Context `{AeadLaws} {R W : Type} `{AsyncReadLaws R, AsyncWriteLaws W}.

(** The codec of a connection lives as [Stream] describes. *)
Lemma connection_codec_steps c os c' :
  connection_steps R W c os c' ->
  exists evs, codec_steps R W (c_codec c) evs (c_codec c') /\
    sublist (d_sequence <$> omap delivered_packet os) (omap accepted_sequence evs).
Proof.
  induction 1 as [c|c r o c' r' os c'' Hr Hs (evs & He & Hl)|c w t fl pl o codec' w' os c'' Hw Hs (evs & He & Hl)
    |c ok ik os c'' ? ? Hs (evs & He & Hl)|c codec' os c'' Hd Hs (evs & He & Hl)
    |c t fl pl codec' os c'' Hd Hs (evs & He & Hl)].
  - exists []. split; constructor.
  - apply Connection_receive_spec in Hr.
    inversion Hr; subst; cbn in *;
      (eexists; split; [eapply steps_read; eassumption|]); cbn; try done;
      by constructor.
  - exists (Wrote (write_seals (c_codec c) t fl pl) o :: evs).
    split; [eapply steps_write; [exact Hw|apply write_run_seals|exact He]|done].
  - exists (Established_session :: evs). split; [by eapply (steps_establish R W _ ok ik)|done].
  - exists (Read_dropped :: evs). split; [by eapply steps_read_dropped|done].
  - exists (Write_dropped (write_seals (c_codec c) t fl pl) :: evs).
    split; [eapply steps_write_dropped; [exact Hd|apply write_future_seals|exact He]|done].
Qed.

(** The state machine of a connection has run over the accepted packets. *)
Definition state_run (role : Role) (ts0 : list PacketType) (os : list (outcome ProtocolError decoded))
    (c' : Connection) : Prop :=
  exists ts, run role (ConnectionState_initial role) (ts0 ++ ts) = Ok (c_state c') /\
    sublist (d_type <$> omap delivered_packet os) ts /\
    Forall (fun d => handshake_packet (d_type d) = false -> d_type d <> Error ->
              exists app, ts0 ++ ts = handshake role ++ app) (omap delivered_packet os).

Lemma state_run_accept role ts0 s t os c' :
  run role (ConnectionState_initial role) ts0 = Ok s ->
  forall o s', receive role s t = Ok s' -> (forall d, o = Ok d -> d_type d = t) ->
  state_run role (ts0 ++ [t]) os c' -> state_run role ts0 (o :: os) c'.
Proof.
  intros Hrun o s' Hr Hd (ts & Hts & Hl & Hf). rewrite <- app_assoc in Hts.
  exists (t :: ts). split; [done|]. split.
  - destruct o as [d| |]; cbn; [rewrite (Hd d eq_refl)|..]; by constructor.
  - assert (Forall (fun d => handshake_packet (d_type d) = false -> d_type d <> Error ->
      exists app, ts0 ++ t :: ts = handshake role ++ app) (omap delivered_packet os)) as Hos.
    { eapply Forall_impl; [exact Hf|]. cbn. intros x Hx Hh He.
      rewrite <- app_assoc in Hx. by apply Hx. }
    destruct o as [d| |]; cbn; [|done..]. constructor; [|done]. rewrite (Hd d eq_refl). intros Hh He.
    destruct (application_established role ts0 s t s' Hrun Hr Hh He) as (_ & app & ->).
    exists (app ++ t :: ts). by rewrite app_assoc.
Qed.

Lemma connection_state_run c os c' :
  connection_steps R W c os c' ->
  c_role c' = c_role c /\
  forall ts0, run (c_role c) (ConnectionState_initial (c_role c)) ts0 = Ok (c_state c) ->
    state_run (c_role c) ts0 os c'.
Proof.
  induction 1 as [c|c r o c' r' os c'' Hr Hs [Hro IH]| | | |]; [|idtac|assumption..].
  { split; [done|]. intros ts0 Hr. exists []. rewrite app_nil_r. split_and!; [done|constructor..]. }
  apply Connection_receive_spec in Hr.
  inversion Hr as [e codec' r1 Hc|pkt t codec' r1 Hc Ht Hst|pkt t codec' r1 s' e Hc Ht Hst Hp
    |pkt t codec' r1 s' p Hc Ht Hst Hp]; subst; (split; [done|]); intros ts0 Hrun; cbn in IH.
  - by apply IH.
  - by apply IH.
  - apply (state_run_accept _ _ _ _ _ _ Hrun (Err (Io e)) s' Hst); [done|]. apply IH. by rewrite run_snoc, Hrun.
  - apply (state_run_accept _ _ _ _ _ _ Hrun (Ok (mk_decoded _ t p)) s' Hst).
    + by intros d' [= <-].
    + apply IH. by rewrite run_snoc, Hrun.
Qed.
End connection_life.

Lemma sorted_sublist {A} (R : A -> A -> Prop) l k :
  sublist l k -> StronglySorted R k -> StronglySorted R l.
Proof.
  induction 1 as [|x l k Hs IH|x l k Hs IH]; intros Hk; [done| |];
    apply StronglySorted_inv in Hk as [Hk Hx]; [|by apply IH].
  constructor; [by apply IH|]. rewrite Forall_forall in *.
  intros y Hy. apply Hx. by eapply elem_of_sublist.
Qed.

Lemma receive_receivable role s t s' : receive role s t = Ok s' -> receivable role t = true.
Proof.
  unfold receive, ConnectionState_validate_incoming, receivable.
  by destruct role, (PacketType_direction t).
Qed.

(** ** Properties *)

(** C11. Over the whole life of a connection end, from its creation, with any
    interleaving of received packets, refused packets, I/O errors, writes, key
    changes and cancelled calls: the sequence numbers of the payloads handed
    to the application strictly increase, its state is the one its machine
    reaches over the packets accepted, the handed-over packets are among those
    in order, and an application payload is among them only if the role's
    whole handshake, the peer's authentication included, came first. *)
Theorem connection_life_safe `{AeadLaws} {R W} `{AsyncReadLaws R, AsyncWriteLaws W} role os c :
  connection_steps R W (Connection_new role) os c ->
  StronglySorted Z.lt (d_sequence <$> omap delivered_packet os) /\
  exists ts, run role (ConnectionState_initial role) ts = Ok (c_state c) /\
    sublist (d_type <$> omap delivered_packet os) ts /\
    Forall (fun d => handshake_packet (d_type d) = false -> d_type d <> Error ->
              exists app, ts = handshake role ++ app) (omap delivered_packet os).
Proof.
  intros Hs. split.
  - destruct (connection_codec_steps _ _ _ Hs) as (evs & He & Hl).
    eapply sorted_sublist; [exact Hl|]. by eapply accepted_sequences_sorted, codec_steps_life.
  - apply connection_state_run in Hs as [_ Hs]. by apply (Hs []).
Qed.

(** C10. What a connection hands to its application in a session is authentic
    down to the payload's fields: the bytes consumed are exactly the frame
    that the holder of the matching key writes for this packet type, this
    sequence number and the encoding of this very payload; the payload is
    well-formed, its type may travel in this direction, and the state machine
    was in a state that accepts it. *)
Theorem received_payload_authentic `{AeadLaws} {R} `{InputStreamLaws R} c (r : R) cipher d c' r' :
  session (c_codec c) = Some cipher ->
  Connection_receive (c, r) = (Ok d, (c', r')) ->
  let peer := peer_codec cipher (d_sequence d) in
  payload_ok (d_payload d) /\
  receivable (c_role c) (d_type d) = true /\
  receive (c_role c) (c_state c) (d_type d) = Ok (c_state c') /\
  exists fl bs body,
    payload_encode (d_payload d) = Ok bs /\
    seals peer (d_type d) fl bs fl body /\
    pending r = header_layout (frame_header peer (d_type d) fl body) ++ body ++ pending r'.
Proof.
  intros Hses Hr%Connection_receive_spec. inversion Hr as [| | |pkt t codec' r1 s' p Hc Ht Hst Hp]; subst.
  cbn. apply decode_iff in Hp as (Hok & Hf & Hl). split; [done|]. split.
  { by eapply receive_receivable. }
  split; [done|].
  destruct (session_frame_inv _ _ _ _ _ _ Hses Hc) as (t' & body & Ht' & Hse & Hpe).
  assert (t' = t) as -> by (apply as_u8_inj; congruence).
  exists (flags (header pkt)), (payload pkt), body.
  split; [apply encode_iff; by split|]. by split.
Qed.

(** One payload, end to end: a well-formed payload within the limits of its
    type, encoded and written by a codec linked to the connection's, is
    received as exactly that payload with the sender's number whenever the
    connection's state accepts its type; the state machine advances, and
    nothing beyond the frame is consumed. *)
Lemma connection_transfer `{AeadLaws} {R W} `{InputStreamLaws R, OutputStreamLaws W}
    (cs : PacketCodec) (c : Connection) t (p : payload_type t) s' :
  linked cs (c_codec c) -> next_send_seq cs < u64_max ->
  payload_ok p -> within_budget t p ->
  receive (c_role c) (c_state c) t = Ok s' ->
  exists bs wire, payload_encode p = Ok bs /\
    (forall w : W, exists cs' w', PacketCodec_write_packet t x00 bs (cs, w) = (Ok tt, (cs', w')) /\
       written w' = written w ++ wire) /\
    (forall (r : R) rest, pending r = wire ++ rest ->
       exists codec' r', Connection_receive (c, r)
         = (Ok (mk_decoded (next_send_seq cs) t p), (with_state s' (with_codec codec' c), r')) /\
         pending r' = rest).
Proof.
  intros Hlk Hn Hok Hw Hst. pose proof (within_fits _ _ Hw) as Hf.
  destruct (deliver_one (R := R) (W := W) cs (c_codec c) (mk_outgoing t x00 (payload_layout p)) Hlk)
    as (wire & Hwr & Hrd); [split; [by apply layout_within|done]|done|].
  exists (payload_layout p), wire. split; [by apply encode_iff|]. split.
  - intros w. destruct (Hwr w) as (w' & ? & ?). eauto.
  - intros r rest Hp. destruct (Hrd r rest Hp) as (r' & Hr & Hp'). do 2 eexists. split; [|exact Hp'].
    unfold Connection_receive, Connection_accept, mbind, ST_bind, on_codec. cbn. rewrite Hr. cbn.
    rewrite from_as_u8. cbn. unfold on_state. cbn. rewrite Hst. cbn.
    by rewrite decode_layout.
Qed.
