(* ===== verification/Traffic.v ===== *)
(** * Two established ends joined by two byte streams

    The application traffic of a connection in both directions at once. The
    detailed system is a [network]: two [Connection]s and, for each, the bytes
    on their way to it; a [Send] encodes a payload and writes it through the
    codec, a [Receive] reads a packet, asks the state machine and decodes. The
    abstract system is a pair of first-in first-out queues of payloads. From
    established, linked ends every schedule of legal operations gets the same
    answers from both: no byte, number, key or state of the detailed system
    shows through. *)
From stdpp Require Import functions.
From Stdlib Require Import String.
From S2P Require Import Prelude RustStd Sizes Errors Header PacketType ConnectionState Duplex.
From S2P Require Import Common Payloads Primitives ByteStreams Codec Stream Connection.

Inductive operation :=
| Send (role : Role) (t : PacketType) (p : payload_type t)
| Receive (role : Role).

(** What an operation answers: nothing to a [Send], a packet to a [Receive]. *)
Abbreviation answer := (outcome ProtocolError (option decoded)).

(** ** The detailed system *)
Record network := mk_network { node : Role -> Connection; pipe : Role -> bytes }.

Section network.
Context `{Aead}.

Definition network_send (role : Role) (t : PacketType) (p : payload_type t) (n : network)
    : answer * network :=
  match from_io (payload_encode p) with
  | Ok body =>
      let c := node n role in
      let '(o, (codec, w)) :=
        PacketCodec_write_packet t x00 body (c_codec c, pipe n (peer role)) in
      (_ ← o; mret None,
       mk_network (<[role := with_codec codec c]> (node n)) (<[peer role := w]> (pipe n)))
  | Err e => (Err e, n)
  | Panic => (Panic, n)
  end.

Definition network_receive (role : Role) (n : network) : answer * network :=
  let '(o, (c, r)) := Connection_receive (node n role, pipe n role) in
  (d ← o; mret (Some d), mk_network (<[role := c]> (node n)) (<[role := r]> (pipe n))).

Definition network_step (op : operation) : network -> answer * network :=
  match op with
  | Send role t p => network_send role t p
  | Receive role => network_receive role
  end.

Fixpoint network_run (ops : list operation) (n : network) : list answer * network :=
  match ops with
  | [] => ([], n)
  | op :: ops' =>
      let '(a, n') := network_step op n in
      let '(answers, n'') := network_run ops' n' in (a :: answers, n'')
  end.
End network.

(** ** The abstract system *)

(** The packets on their way to each role, the number of the next packet each
    role sends, and whether it has sent the one that ends the connection. *)
Record queues := mk_queues {
  queue : Role -> list decoded;
  next : Role -> Z;
  ended : Role -> bool
}.

(** The end of the stream, which a reader finds when nothing is on its way. *)
Definition end_of_stream : answer := Err (Io (Error_new UnexpectedEof EmptyString)).

Definition queues_step (op : operation) (q : queues) : answer * queues :=
  match op with
  | Send role t p =>
      (Ok None,
       mk_queues (<[peer role := queue q (peer role) ++ [mk_decoded (next q role) t p]]> (queue q))
         (<[role := next q role + 1]> (next q))
         (<[role := terminating t]> (ended q)))
  | Receive role =>
      match queue q role with
      | [] => (end_of_stream, q)
      | d :: ds => (Ok (Some d), mk_queues (<[role := ds]> (queue q)) (next q) (ended q))
      end
  end.

Fixpoint queues_run (ops : list operation) (q : queues) : list answer * queues :=
  match ops with
  | [] => ([], q)
  | op :: ops' =>
      let '(a, q') := queues_step op q in
      let '(answers, q'') := queues_run ops' q' in (a :: answers, q'')
  end.

(** What a role may send: an application packet its peer may receive, within
    the size budget of its type, until it has ended the connection. *)
Definition legal (op : operation) (q : queues) : Prop :=
  match op with
  | Send role t p =>
      application_packet (peer role) t = true /\ payload_ok p /\ within_budget t p /\
      ended q role = false /\ next q role < u64_max
  | Receive _ => True
  end.
Fixpoint legal_run (ops : list operation) (q : queues) : Prop :=
  match ops with
  | [] => True
  | op :: ops' => legal op q /\ legal_run ops' (snd (queues_step op q))
  end.

(** ** Frames on the wire *)
Section frames.
Context `{AeadLaws}.

Definition sender_at (session : option SessionCipher) (seq : Z) : PacketCodec :=
  mk_PacketCodec None seq session.

(** The frame of a packet, by the keys of its sender. *)
Definition wire_of (session : option SessionCipher) (d : decoded) : bytes :=
  snd (snd (PacketCodec_write_packet (d_type d) x00 (payload_layout (d_payload d))
    (sender_at session (d_sequence d), []))).

Definition fine (d : decoded) : Prop :=
  payload_ok (d_payload d) /\ within_budget (d_type d) (d_payload d).

(** Writing a packet appends its frame, whatever the writer has received. *)
Lemma write_wire cs t (p : payload_type t) (w : bytes) :
  (forall cipher, session cs = Some cipher -> zlen (outbound_key cipher) = 32) ->
  next_send_seq cs < u64_max -> payload_ok p -> within_budget t p ->
  PacketCodec_write_packet t x00 (payload_layout p) (cs, w)
  = (Ok tt, (set_next_send_seq (next_send_seq cs + 1) cs,
             w ++ wire_of (session cs) (mk_decoded (next_send_seq cs) t p))).
Proof.
  intros Hk Hn Hok Hw. apply (layout_within t p Hok) in Hw.
  pose proof (max_payload_size_range t) as Hmax.
  destruct (seals_total cs t x00 (payload_layout p) Hk) as (fl & body & Hs);
    [unfold AEAD_MAX; lia|].
  destruct (write_packet_ok cs w t x00 (payload_layout p) fl body Hn Hs) as (w1 & He1 & Hw1).
  destruct (write_packet_ok (sender_at (session cs) (next_send_seq cs)) ([] : bytes) t x00
    (payload_layout p) fl body Hn Hs) as (w2 & He2 & Hw2).
  rewrite He1. unfold wire_of. cbn [d_type d_sequence d_payload]. rewrite He2. cbn in Hw1, Hw2 |- *.
  by rewrite Hw1, Hw2.
Qed.

(** Reading a frame of a linked sender gives its packet. *)
Lemma read_wire ses d (c : Connection) s' rest :
  linked (sender_at ses (d_sequence d)) (c_codec c) -> d_sequence d < u64_max -> fine d ->
  receive (c_role c) (c_state c) (d_type d) = Ok s' ->
  Connection_receive (c, wire_of ses d ++ rest)
  = (Ok d, (with_state s' (with_codec (set_last_recv_seq (d_sequence d) (c_codec c)) c), rest)).
Proof.
  intros Hl Hn [Hok Hw] Hst.
  destruct (deliver_one (R := bytes) (W := bytes) _ _
    (mk_outgoing (d_type d) x00 (payload_layout (d_payload d))) Hl) as (wire & Hwr & Hrd);
    [split; [by apply layout_within|done]|done|].
  destruct (Hwr []) as (w & He & Hw'). cbn in He, Hw'.
  assert (wire_of ses d = wire) as -> by (unfold wire_of; rewrite He; exact Hw').
  destruct (Hrd (wire ++ rest) rest eq_refl) as (r' & Hr & Hp). cbn in Hp. subst r'.
  destruct d as [seq t p]. cbn [d_type d_sequence d_payload] in *.
  eapply connection_receive_ok in Hr; [exact Hr|done..|by apply (within_fits t p)|done].
Qed.
End frames.

(** ** The relation between the two systems *)
Fixpoint numbered (start : Z) (ds : list decoded) : Prop :=
  match ds with
  | [] => True
  | d :: ds' => d_sequence d = start /\ numbered (start + 1) ds'
  end.

Lemma numbered_snoc start ds d :
  numbered start ds -> d_sequence d = start + zlen ds -> numbered start (ds ++ [d]).
Proof.
  revert start. induction ds as [|x ds IH]; intros start; cbn.
  - rewrite zlen_nil. intros _ ->. split; [lia|done].
  - rewrite zlen_cons. intros [-> Hn] Hd. split; [done|]. apply IH; [done|lia].
Qed.

Lemma types_snoc ds d : d_type <$> (ds ++ [d]) = (d_type <$> ds) ++ [d_type d].
Proof. by rewrite fmap_app. Qed.

Section simulation.
Context `{AeadLaws}.

(** The bytes [wire] on their way from [cs] to [cr] are the frames of [ds],
    which are all that [cs] has sent and [cr] has not received. *)
Definition direction (cs cr : PacketCodec) (wire : bytes) (ds : list decoded) : Prop :=
  exists start,
    linked (sender_at (session cs) start) cr /\ numbered start ds /\
    next_send_seq cs = start + zlen ds /\ Forall fine ds /\
    wire = concat (wire_of (session cs) <$> ds).

Definition simulates (n : network) (q : queues) : Prop :=
  forall role,
    let c := node n role in
    c_role c = role /\
    direction (c_codec (node n (peer role))) (c_codec c) (pipe n role) (queue q role) /\
    next q role = next_send_seq (c_codec c) /\ next q role <= u64_max /\
    run role (c_state c) (d_type <$> queue q role)
    = Ok (if ended q (peer role) then Closing else Established).

Lemma direction_keys cs cr wire ds cipher :
  direction cs cr wire ds -> session cs = Some cipher -> zlen (outbound_key cipher) = 32.
Proof.
  intros (start & (_ & _ & Hk) & _) Hc. cbn in Hk. rewrite Hc in Hk.
  destruct (session cr); [apply Hk|done].
Qed.

Lemma direction_send cs cr wire ds t (p : payload_type t) :
  direction cs cr wire ds -> payload_ok p -> within_budget t p ->
  let d := mk_decoded (next_send_seq cs) t p in
  direction (set_next_send_seq (next_send_seq cs + 1) cs) cr (wire ++ wire_of (session cs) d)
    (ds ++ [d]).
Proof.
  intros (start & Hl & Hs & Hn & Hf & ->) Hok Hw d. exists start. split_and!.
  - done.
  - by apply numbered_snoc.
  - cbn. rewrite zlen_app, zlen_cons, zlen_nil. lia.
  - apply Forall_app. split; [done|]. by constructor.
  - rewrite fmap_app, concat_app. cbn. by rewrite app_nil_r.
Qed.

Lemma direction_receive cs (c : Connection) wire d ds s' :
  direction cs (c_codec c) wire (d :: ds) -> next_send_seq cs <= u64_max ->
  receive (c_role c) (c_state c) (d_type d) = Ok s' ->
  exists codec wire',
    Connection_receive (c, wire) = (Ok d, (with_state s' (with_codec codec c), wire')) /\
    direction cs codec wire' ds /\
    session codec = session (c_codec c) /\ next_send_seq codec = next_send_seq (c_codec c).
Proof.
  intros (start & Hl & [Hd Hs] & Hn & [Hf Hfs]%Forall_cons & ->) Hmax Hst.
  rewrite zlen_cons in Hn. pose proof (zlen_nonneg ds). subst start.
  exists (set_last_recv_seq (d_sequence d) (c_codec c)), (concat (wire_of (session cs) <$> ds)).
  split_and!; [|exists (d_sequence d + 1); split_and!|done|done].
  - apply read_wire; [done|lia|done..].
  - by apply linked_next in Hl.
  - done.
  - lia.
  - done.
  - done.
Qed.

Lemma linked_receiver cs cr cr' wire ds :
  last_recv_seq cr' = last_recv_seq cr -> session cr' = session cr ->
  direction cs cr wire ds -> direction cs cr' wire ds.
Proof. intros E1 E2 (start & Hl & Hr). exists start. unfold linked in *. by rewrite E1, E2. Qed.
Lemma linked_sender cs cs' cr wire ds :
  next_send_seq cs' = next_send_seq cs -> session cs' = session cs ->
  direction cs cr wire ds -> direction cs' cr wire ds.
Proof. intros E1 E2. unfold direction. by rewrite E1, E2. Qed.

Lemma send_simulated role t p n q :
  simulates n q -> legal (Send role t p) q ->
  fst (network_send role t p n) = Ok None /\
  simulates (snd (network_send role t p n)) (snd (queues_step (Send role t p) q)).
Proof.
  intros Hs (Happ & Hok & Hw & Hend & Hlt).
  destruct (Hs role) as (Hr & Hin & Hn & Hmax & Hrun).
  destruct (Hs (peer role)) as (Hr' & Hout & Hn' & Hmax' & Hrun'). rewrite peer_peer in Hout, Hrun'.
  cbn zeta in *. unfold network_send.
  change (payload_encode p) with (payload_encode (A := payload_type t) p).
  rewrite (encode_layout p) by by apply within_fits. cbn [from_io map_err].
  rewrite write_wire; [|intros cipher; by apply (direction_keys _ _ _ _ _ Hout)|lia|done..].
  split; [done|]. cbn [snd queues_step]. rewrite Hn.
  refine (role_cases _ role _ _); unfold simulates; cbn [node pipe queue next ended];
    rewrite ?peer_peer, ?fn_lookup_insert, ?fn_lookup_insert_ne
      by (pose proof (peer_ne role); congruence).
  - split_and!; [done| |done|lia|done]. by eapply linked_receiver.
  - split_and!; [done|by apply direction_send|done|done|].
    rewrite types_snoc, run_snoc, Hrun', Hend. apply receive_step. by apply established_accepts.
Qed.

(** At the end of the stream nothing changes. *)
Lemma receive_nothing (c : Connection) :
  Connection_receive (c, [] : bytes)
  = (Err (Io (Error_new UnexpectedEof EmptyString)), (c, [])).
Proof. by destruct c. Qed.

Lemma receive_simulated role n q :
  simulates n q ->
  fst (network_receive role n) = fst (queues_step (Receive role) q) /\
  simulates (snd (network_receive role n)) (snd (queues_step (Receive role) q)).
Proof.
  intros Hs. destruct (Hs role) as (Hr & Hin & Hn & Hmax & Hrun).
  destruct (Hs (peer role)) as (Hr' & Hout & Hn' & Hmax' & Hrun'). rewrite peer_peer in Hout, Hrun'.
  cbn zeta in *. unfold network_receive, queues_step.
  destruct (queue q role) as [|d ds] eqn:Hq.
  - assert (pipe n role = []) as Hp by (by destruct Hin as (? & _ & _ & _ & _ & ->)).
    rewrite Hp, receive_nothing. split; [done|]. cbn [snd].
    intros r. specialize (Hs r). cbn zeta in *. cbn [node pipe].
    destruct (decide (r = role)) as [->|Hne].
    + rewrite !fn_lookup_insert. rewrite fn_lookup_insert_ne by (pose proof (peer_ne role); congruence).
      by rewrite Hp in Hs.
    + rewrite !(fn_lookup_insert_ne _ role r) by done.
      destruct (decide (peer r = role)) as [<-|]; [by rewrite fn_lookup_insert|].
      by rewrite fn_lookup_insert_ne.
  - rewrite fmap_cons in Hrun. cbn in Hrun.
    destruct (receive role _ (d_type d)) as [s'| |] eqn:Hst; [|done..]. cbn in Hrun.
    rewrite <- Hr in Hst at 1.
    destruct (direction_receive _ _ _ _ _ _ Hin ltac:(lia) Hst)
      as (codec & wire & Hrc & Hd & Es & En).
    rewrite Hrc. split; [done|]. cbn [snd].
    refine (role_cases _ role _ _); cbn [node pipe queue next ended];
      rewrite ?peer_peer, ?fn_lookup_insert, ?fn_lookup_insert_ne
        by (pose proof (peer_ne role); congruence).
    + split_and!; [done|done|by cbn; rewrite En|done|done].
    + split_and!; [done| |done..]. by eapply linked_sender.
Qed.
End simulation.

(** ** Properties *)

(** Two ends of a connection whose handshake is behind them, nothing on its way. *)
Definition established (n : network) : Prop :=
  forall role,
    let c := node n role in
    c_role c = role /\ c_state c = Established /\ pipe n role = [] /\
    linked (c_codec c) (c_codec (node n (peer role))) /\ next_send_seq (c_codec c) <= u64_max.

(** Two ends with nothing on its way. *)
Definition joined (client server : Connection) : network :=
  mk_network (fun role => match role with Client => client | Server => server end) (fun _ => []).

Lemma joined_established client server :
  c_role client = Client -> c_role server = Server ->
  c_state client = Established -> c_state server = Established ->
  linked (c_codec client) (c_codec server) -> linked (c_codec server) (c_codec client) ->
  next_send_seq (c_codec client) <= u64_max -> next_send_seq (c_codec server) <= u64_max ->
  established (joined client server).
Proof. by intros ? ? ? ? ? ? ? ? []. Qed.

Definition queues_initial (n : network) : queues :=
  mk_queues (fun _ => []) (fun role => next_send_seq (c_codec (node n role))) (fun _ => false).

Lemma established_simulates `{AeadLaws} n : established n -> simulates n (queues_initial n).
Proof.
  intros He role. destruct (He role) as (Hr & Hs & Hp & _ & Hm).
  destruct (He (peer role)) as (_ & _ & _ & Hl & _). rewrite peer_peer in Hl.
  cbn in *. rewrite Hp, Hs. split_and!; [done| |done|done|done].
  exists (next_send_seq (c_codec (node n (peer role)))).
  split_and!; [exact Hl|done|rewrite zlen_nil; lia|done|done].
Qed.

Lemma step_simulated `{AeadLaws} op n q :
  simulates n q -> legal op q ->
  fst (network_step op n) = fst (queues_step op q) /\
  simulates (snd (network_step op n)) (snd (queues_step op q)).
Proof.
  intros Hs Hl. destruct op as [role t p|role]; [by apply send_simulated|by apply receive_simulated].
Qed.

Lemma run_simulated `{AeadLaws} ops n q :
  simulates n q -> legal_run ops q ->
  fst (network_run ops n) = fst (queues_run ops q) /\
  simulates (snd (network_run ops n)) (snd (queues_run ops q)).
Proof.
  revert n q. induction ops as [|op ops IH]; intros n q Hs; cbn; [done|]. intros [Hl Hls].
  destruct (step_simulated op n q Hs Hl) as [Ha Hn].
  destruct (network_step op n) as [a n'], (queues_step op q) as [a' q']. cbn in *. subst a'.
  destruct (IH n' q' Hn Hls) as [Has Hns].
  destruct (network_run ops n') as [l n''], (queues_run ops q') as [l' q'']. cbn in *.
  by subst l'.
Qed.

Lemma simulates_closing `{AeadLaws} n q role :
  simulates n q ->
  c_state (node n role) = Closing <-> ended q (peer role) = true /\ queue q role = [].
Proof.
  intros Hs. destruct (Hs role) as (Hr & _ & _ & _ & Hrun). cbn zeta in *.
  destruct (queue q role) as [|d ds]; cbn in Hrun.
  - injection Hrun as ->. by destruct (ended q (peer role)); split; [| |intros|intros []].
  - split; [|by intros [_ ?]]. intros Hc. rewrite Hc in Hrun.
    destruct (receive role Closing (d_type d)) as [s| |] eqn:Hst; [|done..].
    by apply receive_step, step_closing in Hst.
Qed.

(** C5. Established connections are two queues: joined by two byte streams, the
    two ends answer every schedule of legal sends and receives of either role
    exactly as a pair of first-in first-out queues of payloads does. Each
    [Receive] yields the oldest packet not yet received, with its type, its
    number and its payload intact, or finds the end of the stream when there
    is none; no legal [Send] fails and nothing sent is ever refused, whatever
    the interleaving; and an end is [Closing] exactly when its peer has ended
    the connection and everything it sent has been received. *)
Theorem traffic_refines_queues `{AeadLaws} n ops :
  established n -> legal_run ops (queues_initial n) ->
  fst (network_run ops n) = fst (queues_run ops (queues_initial n)) /\
  forall role, c_state (node (snd (network_run ops n)) role) = Closing <->
    let q := snd (queues_run ops (queues_initial n)) in
    ended q (peer role) = true /\ queue q role = [].
Proof.
  intros He Hl.
  destruct (run_simulated ops n _ (established_simulates n He) Hl) as [Ha Hs].
  split; [exact Ha|]. intros role. by apply simulates_closing.
Qed.
