(* ===== verification/Session.v ===== *)
(** * [crypto/session.rs]: transport session key derivation

    The hybrid handshake: X25519 and ML-KEM-768, combined by HKDF-SHA256. The
    values the code samples ([EphemeralSecret::random], [generate_keypair],
    the coins of [encapsulate]) are arguments. Of zeroisation the
    value a dropped [SessionKeys] leaves behind is modelled. *)
From Stdlib Require Import String.
From S2P Require Import Prelude RustStd Sizes Errors Primitives.

(** [b"chatix-c2s-v1"] and [b"chatix-s2c-v1"] *)
Definition C2S_LABEL : bytes := list_byte_of_string "chatix-c2s-v1".
Definition S2C_LABEL : bytes := list_byte_of_string "chatix-s2c-v1".

Record SessionKeys := mk_SessionKeys {
  client_to_server : bytes;   (* [u8; 32] *)
  server_to_client : bytes    (* [u8; 32] *)
}.

(** [ZeroizeOnDrop] *)
Definition SessionKeys_drop (self : SessionKeys) : SessionKeys :=
  {| client_to_server := zeroize (client_to_server self);
     server_to_client := zeroize (server_to_client self) |}.

Definition handshake_context (client_x25519_pk server_x25519_pk ml_kem_ciphertext : bytes)
    : bytes :=
  let ctx := [] in
  let ctx := ctx ++ client_x25519_pk in
  let ctx := ctx ++ server_x25519_pk in
  let ctx := ctx ++ ml_kem_ciphertext in
  ctx.

Section session.
Context `{Hkdf, X25519, MlKem}.

Definition derive_keys (x25519_shared kyber_shared context : bytes)
    : outcome ProtocolError SessionKeys :=
  let ikm := x25519_shared ++ kyber_shared in
  let hk := hkdf_new ikm in
  let c2s_info := context ++ C2S_LABEL in
  let s2c_info := context ++ S2C_LABEL in
  c2s ← ok_or CryptoError (hkdf_expand hk c2s_info 32);
  s2c ← ok_or CryptoError (hkdf_expand hk s2c_info 32);
  mret {| client_to_server := c2s; server_to_client := s2c |}.

Record ClientHandshakeState := mk_ClientHandshakeState {
  chs_x25519_secret : x25519_secret;
  chs_ml_kem_dk : option kem_dk;
  chs_x25519_public : bytes;     (* [u8; 32] *)
  chs_ml_kem_ek : bytes          (* [u8; ML_KEM_768_EK_SIZE] *)
}.

Definition ClientHandshakeState_generate (random_x25519 : x25519_secret) (random_dk : kem_dk)
    : outcome ProtocolError ClientHandshakeState :=
  let x25519_secret := random_x25519 in
  let x25519_public := x25519_public_of x25519_secret in
  let ml_kem_dk := random_dk in
  let ml_kem_ek := kem_ek_of random_dk in
  let ek_slice := kem_ek_bytes ml_kem_ek in
  if negb (zlen ek_slice =? ML_KEM_768_EK_SIZE) then Err CryptoError
  else
    ml_kem_ek_arr ← copy_from_slice ML_KEM_768_EK_SIZE ek_slice;
    mret {| chs_x25519_secret := x25519_secret;
            chs_ml_kem_dk := Some ml_kem_dk;
            chs_x25519_public := x25519_public;
            chs_ml_kem_ek := ml_kem_ek_arr |}.

Definition ClientHandshakeState_derive_session_keys (self : ClientHandshakeState)
    (server_x25519_pk ml_kem_ciphertext : bytes) : outcome ProtocolError SessionKeys :=
  let x25519_shared := diffie_hellman (chs_x25519_secret self) server_x25519_pk in
  dk ← ok_or CryptoError (chs_ml_kem_dk self);
  ct ← ok_or CryptoError (try_into ML_KEM_768_CT_SIZE ml_kem_ciphertext);
  let kyber_shared := kem_decapsulate dk ct in
  let context := handshake_context (chs_x25519_public self) server_x25519_pk ml_kem_ciphertext in
  derive_keys x25519_shared kyber_shared context.

Record ServerHandshakeState := mk_ServerHandshakeState {
  shs_x25519_public : bytes;        (* [u8; 32] *)
  shs_ml_kem_ciphertext : bytes;    (* [u8; ML_KEM_768_CT_SIZE] *)
  shs_session_keys : SessionKeys
}.

Definition ServerHandshakeState_respond (random_x25519 : x25519_secret) (coins : kem_coins)
    (client_x25519_pk client_ml_kem_ek : bytes) : outcome ProtocolError ServerHandshakeState :=
  let server_secret := random_x25519 in
  let server_public := x25519_public_of server_secret in
  let x25519_shared := diffie_hellman server_secret client_x25519_pk in
  ek_arr ← ok_or CryptoError (try_into ML_KEM_768_EK_SIZE client_ml_kem_ek);
  ek ← ok_or CryptoError (kem_ek_new ek_arr);
  let '(ct_bytes, kyber_shared) := kem_encapsulate ek coins in
  if negb (zlen ct_bytes =? ML_KEM_768_CT_SIZE) then Err CryptoError
  else
    ml_kem_ciphertext ← copy_from_slice ML_KEM_768_CT_SIZE ct_bytes;
    let context := handshake_context client_x25519_pk server_public ml_kem_ciphertext in
    session_keys ← derive_keys x25519_shared kyber_shared context;
    mret {| shs_x25519_public := server_public;
            shs_ml_kem_ciphertext := ml_kem_ciphertext;
            shs_session_keys := session_keys |}.
End session.

(** ** The specification: both keys as functions of the shared secrets and the
    exchanged public material *)
Definition SessionKeys_ok (k : SessionKeys) : Prop :=
  zlen (client_to_server k) = 32 /\ zlen (server_to_client k) = 32.

Lemma SessionKeys_drop_wipes k :
  SessionKeys_ok k -> SessionKeys_drop k = mk_SessionKeys (zeros 32) (zeros 32).
Proof. intros [Hc Hs]. unfold SessionKeys_drop, zeroize. by rewrite Hc, Hs. Qed.

Lemma handshake_context_app a b c : handshake_context a b c = a ++ b ++ c.
Proof. unfold handshake_context. by rewrite <- app_assoc. Qed.

Section session_laws.
Context `{HkdfLaws, X25519Laws, MlKemLaws}.

Lemma derive_keys_ok x k ctx :
  exists keys, derive_keys x k ctx = Ok keys /\ SessionKeys_ok keys /\
    hkdf_expand (hkdf_new (x ++ k)) (ctx ++ C2S_LABEL) 32 = Some (client_to_server keys) /\
    hkdf_expand (hkdf_new (x ++ k)) (ctx ++ S2C_LABEL) 32 = Some (server_to_client keys).
Proof.
  unfold derive_keys.
  destruct (hkdf_expand_total (hkdf_new (x ++ k)) (ctx ++ C2S_LABEL) 32) as [c2s Hc]; [lia|].
  destruct (hkdf_expand_total (hkdf_new (x ++ k)) (ctx ++ S2C_LABEL) 32) as [s2c Hs]; [lia|].
  rewrite Hc, Hs. cbn. eexists. split; [done|]. split; [|done].
  split; cbn; eauto using hkdf_expand_len.
Qed.

(** The client's message: what [generate] returns for a sample. *)
Definition client_state (a : x25519_secret) (dk : kem_dk) : ClientHandshakeState :=
  {| chs_x25519_secret := a; chs_ml_kem_dk := Some dk;
     chs_x25519_public := x25519_public_of a;
     chs_ml_kem_ek := kem_ek_bytes (kem_ek_of dk) |}.

Lemma generate_ok a dk : ClientHandshakeState_generate a dk = Ok (client_state a dk).
Proof.
  unfold ClientHandshakeState_generate. rewrite zlen_kem_ek, Z.eqb_refl. cbn [negb].
  by rewrite copy_from_slice_ok by apply zlen_kem_ek.
Qed.

Lemma respond_ok b coins client_pk ek_bytes ek :
  kem_ek_new ek_bytes = Some ek -> zlen ek_bytes = ML_KEM_768_EK_SIZE ->
  let ct := fst (kem_encapsulate ek coins) in
  exists keys,
    ServerHandshakeState_respond b coins client_pk ek_bytes
    = Ok {| shs_x25519_public := x25519_public_of b; shs_ml_kem_ciphertext := ct;
            shs_session_keys := keys |} /\ SessionKeys_ok keys /\
    derive_keys (diffie_hellman b client_pk) (snd (kem_encapsulate ek coins))
      (handshake_context client_pk (x25519_public_of b) ct) = Ok keys.
Proof.
  intros Hek Hl ct. unfold ServerHandshakeState_respond.
  rewrite try_into_ok by done. cbn [ok_or mbind outcome_bind]. rewrite Hek.
  cbn [ok_or mbind outcome_bind]. pose proof (zlen_kem_ct ek coins) as Hct. subst ct.
  destruct (kem_encapsulate ek coins) as [ct shared]. cbn [fst snd] in *.
  rewrite Hct, Z.eqb_refl. cbn [negb].
  rewrite copy_from_slice_ok by done. cbn [mbind outcome_bind].
  destruct (derive_keys_ok (diffie_hellman b client_pk) shared
    (handshake_context client_pk (x25519_public_of b) ct)) as (keys & Hk & Hok & _).
  rewrite Hk. cbn. eauto.
Qed.

Lemma key_agreement a dk b coins srv :
  kem_agrees dk coins ->
  ServerHandshakeState_respond b coins (x25519_public_of a) (kem_ek_bytes (kem_ek_of dk)) = Ok srv ->
  ClientHandshakeState_derive_session_keys (client_state a dk)
    (shs_x25519_public srv) (shs_ml_kem_ciphertext srv) = Ok (shs_session_keys srv).
Proof.
  intros Hag Hr. destruct (respond_ok b coins (x25519_public_of a) _ _
    (kem_ek_roundtrip (kem_ek_of dk)) (zlen_kem_ek _)) as (keys & Hr' & _ & Hd).
  rewrite Hr' in Hr. injection Hr as <-. cbn [shs_x25519_public shs_ml_kem_ciphertext shs_session_keys].
  unfold ClientHandshakeState_derive_session_keys.
  cbn [client_state chs_x25519_secret chs_ml_kem_dk chs_x25519_public ok_or mbind outcome_bind].
  rewrite try_into_ok by apply zlen_kem_ct. cbn [ok_or mbind outcome_bind].
  by rewrite Hag, diffie_hellman_comm.
Qed.
(** Hostile material. *)
Lemma respond_wp b coins pk material :
  wp (fun srv => SessionKeys_ok (shs_session_keys srv) /\ is_Some (kem_ek_new material) /\
                 shs_x25519_public srv = x25519_public_of b)
     (fun e => e = CryptoError /\
               (zlen material <> ML_KEM_768_EK_SIZE \/ kem_ek_new material = None))
     (ServerHandshakeState_respond b coins pk material).
Proof.
  destruct (Z.eq_dec (zlen material) ML_KEM_768_EK_SIZE) as [Hl|Hl].
  2:{ unfold ServerHandshakeState_respond. rewrite try_into_none by done. cbn. auto. }
  destruct (kem_ek_new material) as [ek|] eqn:Hek.
  - destruct (respond_ok b coins pk material ek Hek Hl) as (keys & -> & Hok & _). cbn. eauto.
  - unfold ServerHandshakeState_respond. rewrite try_into_ok by done.
    cbn [ok_or mbind outcome_bind]. rewrite Hek. cbn. auto.
Qed.

Lemma derive_session_keys_wp a dk pk material :
  wp (fun keys => SessionKeys_ok keys /\ zlen material = ML_KEM_768_CT_SIZE)
     (fun e => e = CryptoError /\ zlen material <> ML_KEM_768_CT_SIZE)
     (ClientHandshakeState_derive_session_keys (client_state a dk) pk material).
Proof.
  unfold ClientHandshakeState_derive_session_keys.
  destruct (Z.eq_dec (zlen material) ML_KEM_768_CT_SIZE) as [Hl|Hl].
  - rewrite try_into_ok by done. cbn [client_state chs_x25519_secret chs_ml_kem_dk
      chs_x25519_public ok_or mbind outcome_bind].
    match goal with |- context [derive_keys ?x ?k ?c] =>
      destruct (derive_keys_ok x k c) as (keys & -> & Hok & _) end. done.
  - rewrite try_into_none by done. cbn. auto.
Qed.
End session_laws.

(** ** Properties *)

(** Key agreement: for every value the two sides sample (with ML-KEM coins
    for which decapsulation is correct), [generate] succeeds, [respond] on the
    client's public material succeeds, and [derive_session_keys] on the
    server's public material gives the client exactly the session keys the
    server derived, both of 32 bytes. *)
Lemma handshake_agreement `{HkdfLaws, X25519Laws, MlKemLaws} a dk b coins :
  kem_agrees dk coins ->
  exists client server,
    ClientHandshakeState_generate a dk = Ok client /\
    ServerHandshakeState_respond b coins (chs_x25519_public client) (chs_ml_kem_ek client)
    = Ok server /\
    ClientHandshakeState_derive_session_keys client (shs_x25519_public server)
      (shs_ml_kem_ciphertext server) = Ok (shs_session_keys server) /\
    SessionKeys_ok (shs_session_keys server) /\
    zlen (shs_x25519_public server) = 32 /\
    zlen (shs_ml_kem_ciphertext server) = ML_KEM_768_CT_SIZE.
Proof.
  intros Hag. exists (client_state a dk).
  destruct (respond_ok b coins (x25519_public_of a) _ _
    (kem_ek_roundtrip (kem_ek_of dk)) (zlen_kem_ek _)) as (keys & Hr & Hok & _).
  eexists. split; [apply generate_ok|]. split; [exact Hr|].
  split; [by eapply key_agreement|].
  split; [exact Hok|]. split; [apply zlen_x25519_public|apply zlen_kem_ct].
Qed.

