(* ===== verification/E2e.v ===== *)
(** * [crypto/e2e.rs]: end-to-end encryption and signing

    [encrypt_and_sign] and [verify_and_decrypt] on the blob
    [x25519 key | ML-KEM ciphertext | nonce | sealed text | signature]. The
    sampled ephemeral secret and coins are arguments, and so is what the
    system's random generator answers ([None] when it fails). *)
From Stdlib Require Import String.
From S2P Require Import Prelude RustStd Sizes Errors Primitives E2eKeyPayloads Session.

(** [b"chatix-e2e-content-v1"] *)
Definition E2E_LABEL : bytes := list_byte_of_string "chatix-e2e-content-v1".

Record E2eSecretKey := mk_E2eSecretKey {
  esk_x25519_secret : bytes;      (* [u8; 32] *)
  esk_ml_kem_seed : bytes;        (* [u8; 64] *)
  esk_dsa_signing_seed : bytes    (* [u8; 32] *)
}.

(** [ZeroizeOnDrop] *)
Definition E2eSecretKey_drop (self : E2eSecretKey) : E2eSecretKey :=
  {| esk_x25519_secret := zeroize (esk_x25519_secret self);
     esk_ml_kem_seed := zeroize (esk_ml_kem_seed self);
     esk_dsa_signing_seed := zeroize (esk_dsa_signing_seed self) |}.

Definition e2e_context (sender_x25519_pk recipient_x25519_pk ml_kem_ct : bytes) : bytes :=
  let ctx := [] in
  let ctx := ctx ++ sender_x25519_pk in
  let ctx := ctx ++ recipient_x25519_pk in
  let ctx := ctx ++ ml_kem_ct in
  ctx.

(** [rng.fill(&mut [0u8; n])]: the bytes, or the generator's failure. *)
Definition fill (n : Z) (rng : option bytes) : outcome ProtocolError bytes :=
  filled ← ok_or CryptoError rng;
  copy_from_slice n filled.

Definition random_nonce (rng : option bytes) : outcome ProtocolError bytes :=
  fill NONCE_LEN rng.

Section e2e.
Context `{Aead, Hkdf, X25519, MlKem, MlDsa}.

Definition generate_e2e_keypair (random_x25519 : x25519_secret) (rng : option bytes)
    (random_dsa : dsa_sk) : outcome ProtocolError (E2eSecretKey * E2ePublicKey) :=
  let x25519_public := x25519_public_of random_x25519 in
  let x25519_secret_bytes := x25519_secret_bytes random_x25519 in
  ml_kem_seed ← fill 64 rng;
  seed_arr ← ok_or CryptoError (try_into 64 ml_kem_seed);
  let ml_kem_dk := kem_from_seed seed_arr in
  let ml_kem_ek_obj := kem_ek_of ml_kem_dk in
  let ek_slice := kem_ek_bytes ml_kem_ek_obj in
  if negb (zlen ek_slice =? ML_KEM_768_EK_SIZE) then Err CryptoError
  else
    ml_kem_ek ← copy_from_slice ML_KEM_768_EK_SIZE ek_slice;
    let dsa_seed_slice := dsa_to_seed random_dsa in
    dsa_signing_seed ← copy_from_slice 32 dsa_seed_slice;
    let dsa_vk := dsa_vk_of random_dsa in
    let vk_slice := dsa_vk_encode dsa_vk in
    if negb (zlen vk_slice =? ML_DSA_65_VK_SIZE) then Err CryptoError
    else
      dsa_verifying_key ← copy_from_slice ML_DSA_65_VK_SIZE vk_slice;
      mret ({| esk_x25519_secret := x25519_secret_bytes;
               esk_ml_kem_seed := ml_kem_seed;
               esk_dsa_signing_seed := dsa_signing_seed |},
            {| x25519_public := x25519_public;
               ml_kem_ek := ml_kem_ek;
               dsa_verifying_key := dsa_verifying_key |}).

Definition derive_e2e_key (x25519_shared kyber_shared context : bytes)
    : outcome ProtocolError bytes :=
  let ikm := x25519_shared ++ kyber_shared in
  let hk := hkdf_new ikm in
  let info := context ++ E2E_LABEL in
  ok_or CryptoError (hkdf_expand hk info 32).

Definition encrypt_and_sign (random_x25519 : x25519_secret) (coins : kem_coins)
    (rng : option bytes) (plaintext recipient_x25519_pk recipient_ml_kem_ek
    sender_signing_seed : bytes) : outcome ProtocolError bytes :=
  let sender_ephemeral := random_x25519 in
  let sender_x25519_pk := x25519_public_of sender_ephemeral in
  let x25519_shared := diffie_hellman sender_ephemeral recipient_x25519_pk in
  ek_arr ← ok_or CryptoError (try_into ML_KEM_768_EK_SIZE recipient_ml_kem_ek);
  ek ← ok_or CryptoError (kem_ek_new ek_arr);
  let '(ct_bytes, kyber_shared) := kem_encapsulate ek coins in
  ml_kem_ct ← copy_from_slice ML_KEM_768_CT_SIZE ct_bytes;
  let context := e2e_context sender_x25519_pk recipient_x25519_pk ml_kem_ct in
  content_key ← derive_e2e_key x25519_shared kyber_shared context;
  nonce_bytes ← random_nonce rng;
  sealing_key ← ok_or CryptoError (aead_key_new content_key);
  ciphertext ← ok_or CryptoError (aead_seal sealing_key nonce_bytes [] plaintext);
  let blob := [] in
  let blob := blob ++ sender_x25519_pk in
  let blob := blob ++ ml_kem_ct in
  let blob := blob ++ nonce_bytes in
  let blob := blob ++ ciphertext in
  dsa_seed_arr ← ok_or CryptoError (try_into 32 sender_signing_seed);
  let dsa_sk := dsa_from_seed dsa_seed_arr in
  let signature := dsa_sign dsa_sk blob in
  let sig_encoded := dsa_sig_encode signature in
  let blob := blob ++ sig_encoded in
  mret blob.

Definition verify_and_decrypt (blob recipient_x25519_sk recipient_ml_kem_seed
    sender_verifying_key : bytes) : outcome ProtocolError bytes :=
  if zlen blob <? MIN_BLOB_LEN then Err CryptoError
  else
    signed_part ← slice_to blob (zlen blob - ML_DSA_65_SIG_SIZE);
    sig_bytes ← slice_from blob (zlen blob - ML_DSA_65_SIG_SIZE);
    vk_arr ← ok_or CryptoError (try_into ML_DSA_65_VK_SIZE sender_verifying_key);
    let dsa_vk := dsa_vk_decode vk_arr in
    sig_arr ← ok_or CryptoError (try_into ML_DSA_65_SIG_SIZE sig_bytes);
    signature ← ok_or CryptoError (dsa_sig_decode sig_arr);
    if negb (dsa_verify dsa_vk signed_part signature) then Err CryptoError
    else
      raw ← slice_to signed_part SENDER_X25519_END;
      sender_x25519_pk ← ok_or CryptoError (try_into 32 raw);
      ml_kem_ct_bytes ← slice signed_part SENDER_X25519_END ML_KEM_CT_END;
      raw ← slice signed_part ML_KEM_CT_END AES_NONCE_END;
      aes_nonce_bytes ← ok_or CryptoError (try_into NONCE_LEN raw);
      aes_ct ← slice_from signed_part AES_NONCE_END;
      let recipient_sk := x25519_secret_from recipient_x25519_sk in
      let recipient_pk := x25519_public_of recipient_sk in
      let x25519_shared := diffie_hellman recipient_sk sender_x25519_pk in
      ml_kem_seed_arr ← ok_or CryptoError (try_into 64 recipient_ml_kem_seed);
      let ml_kem_dk := kem_from_seed ml_kem_seed_arr in
      ct ← ok_or CryptoError (try_into ML_KEM_768_CT_SIZE ml_kem_ct_bytes);
      let kyber_shared := kem_decapsulate ml_kem_dk ct in
      let context := e2e_context sender_x25519_pk recipient_pk ml_kem_ct_bytes in
      content_key ← derive_e2e_key x25519_shared kyber_shared context;
      opening_key ← ok_or CryptoError (aead_key_new content_key);
      plaintext ← ok_or CryptoError (aead_open opening_key aes_nonce_bytes [] aes_ct);
      mret plaintext.
End e2e.

(** ** The blob's layout *)
Record content_blob := mk_content_blob {
  cb_sender_pk : bytes;
  cb_ml_kem_ct : bytes;
  cb_nonce : bytes;
  cb_sealed : bytes;
  cb_signature : bytes
}.

Definition content_blob_ok (b : content_blob) : Prop :=
  zlen (cb_sender_pk b) = 32 /\ zlen (cb_ml_kem_ct b) = ML_KEM_768_CT_SIZE /\
  zlen (cb_nonce b) = NONCE_LEN /\ zlen (cb_signature b) = ML_DSA_65_SIG_SIZE.

Definition signed_part (b : content_blob) : bytes :=
  cb_sender_pk b ++ cb_ml_kem_ct b ++ cb_nonce b ++ cb_sealed b.
Definition blob_layout (b : content_blob) : bytes := signed_part b ++ cb_signature b.

Lemma zlen_signed_part b :
  content_blob_ok b -> zlen (signed_part b) = AES_NONCE_END + zlen (cb_sealed b).
Proof.
  intros (H1 & H2 & H3 & _). unfold signed_part. rewrite !zlen_app, H1, H2, H3.
  unfold AES_NONCE_END, ML_KEM_CT_END, SENDER_X25519_END. lia.
Qed.

Lemma zlen_blob_layout b :
  content_blob_ok b ->
  zlen (blob_layout b) = MIN_BLOB_LEN - GCM_TAG_LEN + zlen (cb_sealed b).
Proof.
  intros Hok. unfold blob_layout. rewrite zlen_app, zlen_signed_part by done.
  destruct Hok as (_ & _ & _ & ->). unfold MIN_BLOB_LEN. lia.
Qed.

(** Every long enough byte string is a blob. *)
Lemma blob_view bs :
  MIN_BLOB_LEN <= zlen bs -> exists b, bs = blob_layout b /\ content_blob_ok b.
Proof.
  unfold MIN_BLOB_LEN, AES_NONCE_END, ML_KEM_CT_END, SENDER_X25519_END, ML_KEM_768_CT_SIZE,
    NONCE_LEN, GCM_TAG_LEN, ML_DSA_65_SIG_SIZE. intros Hl.
  destruct (split_at bs (zlen bs - 3309)) as (s & sg & -> & Hs); [lia|].
  rewrite zlen_app in *.
  destruct (split_at s 32) as (pk & s' & -> & Hpk); [lia|]. rewrite zlen_app in *.
  destruct (split_at s' 1088) as (ct & s'' & -> & Hct); [lia|]. rewrite zlen_app in *.
  destruct (split_at s'' 12) as (n & sealed & -> & Hn); [lia|]. rewrite zlen_app in *.
  exists (mk_content_blob pk ct n sealed sg). split; [done|].
  unfold content_blob_ok, ML_KEM_768_CT_SIZE, NONCE_LEN, ML_DSA_65_SIG_SIZE. cbn. lia.
Qed.

Lemma signed_part_inj b b' :
  content_blob_ok b -> content_blob_ok b' -> signed_part b = signed_part b' ->
  cb_sender_pk b = cb_sender_pk b' /\ cb_ml_kem_ct b = cb_ml_kem_ct b' /\
  cb_nonce b = cb_nonce b' /\ cb_sealed b = cb_sealed b'.
Proof.
  intros (H1' & H2' & H3' & _) (H4' & H5' & H6' & _). unfold signed_part. intros He.
  apply zlen_inj_app in He as [-> He]; [|congruence].
  apply zlen_inj_app in He as [-> He]; [|congruence].
  by apply zlen_inj_app in He as [-> ->]; [|congruence].
Qed.

Lemma blob_layout_inj b b' :
  content_blob_ok b -> content_blob_ok b' -> blob_layout b = blob_layout b' -> b = b'.
Proof.
  intros Hok Hok' He. unfold blob_layout in He.
  apply zlen_inj_app_r in He as [He Hs]; [|destruct Hok as (_ & _ & _ & ->); symmetry; apply Hok'].
  apply signed_part_inj in He as (E1 & E2 & E3 & E4); [|done..].
  destruct b, b'. cbn in *. congruence.
Qed.

(** ** What decryption of a blob is *)
Section e2e_spec.
Context `{Aead, Hkdf, X25519, MlKem, MlDsa}.

(** The signature of [b] verifies under [vk], and its text opens to
    [plaintext] under the content key of its key material. *)
Definition opens_blob (sk seed vk : bytes) (b : content_blob) (plaintext : bytes) : Prop :=
  exists sig content_key key,
    dsa_sig_decode (cb_signature b) = Some sig /\
    dsa_verify (dsa_vk_decode vk) (signed_part b) sig = true /\
    derive_e2e_key
      (diffie_hellman (x25519_secret_from sk) (cb_sender_pk b))
      (kem_decapsulate (kem_from_seed seed) (cb_ml_kem_ct b))
      (e2e_context (cb_sender_pk b) (x25519_public_of (x25519_secret_from sk))
         (cb_ml_kem_ct b)) = Ok content_key /\
    aead_key_new content_key = Some key /\
    aead_open key (cb_nonce b) [] (cb_sealed b) = Some plaintext.

(** The checks of [verify_and_decrypt] that remain once the blob is split. *)
Lemma verify_split b sk seed vk :
  content_blob_ok b -> MIN_BLOB_LEN <= zlen (blob_layout b) ->
  zlen seed = 64 -> zlen vk = ML_DSA_65_VK_SIZE ->
  verify_and_decrypt (blob_layout b) sk seed vk =
  (sig ← ok_or CryptoError (dsa_sig_decode (cb_signature b));
   if negb (dsa_verify (dsa_vk_decode vk) (signed_part b) sig) then Err CryptoError
   else
     content_key ← derive_e2e_key
       (diffie_hellman (x25519_secret_from sk) (cb_sender_pk b))
       (kem_decapsulate (kem_from_seed seed) (cb_ml_kem_ct b))
       (e2e_context (cb_sender_pk b) (x25519_public_of (x25519_secret_from sk))
          (cb_ml_kem_ct b));
     key ← ok_or CryptoError (aead_key_new content_key);
     plaintext ← ok_or CryptoError (aead_open key (cb_nonce b) [] (cb_sealed b));
     mret plaintext).
Proof.
  intros Hok Hmin Hseed Hvk. unfold verify_and_decrypt.
  destruct (Z.ltb_spec (zlen (blob_layout b)) MIN_BLOB_LEN); [lia|].
  pose proof (zlen_signed_part b Hok) as Hsl.
  destruct Hok as (H1' & H2' & H3' & H4'). unfold blob_layout at 1 2 3 4.
  rewrite zlen_app, H4'.
  replace (zlen (signed_part b) + ML_DSA_65_SIG_SIZE - ML_DSA_65_SIG_SIZE)
    with (zlen (signed_part b)) by lia.
  bytes_eval. cbn [mbind outcome_bind].
  rewrite !try_into_ok by done. cbn [ok_or mbind outcome_bind].
  destruct (dsa_sig_decode (cb_signature b)) as [sig|]; [|done]. cbn [ok_or mbind outcome_bind].
  destruct (dsa_verify _ _ sig); [|done]. cbn [negb].
  unfold signed_part, AES_NONCE_END, ML_KEM_CT_END, SENDER_X25519_END, ML_KEM_768_CT_SIZE,
    NONCE_LEN in *.
  bytes_eval. cbn [mbind outcome_bind].
  rewrite !try_into_ok by done. cbn [ok_or mbind outcome_bind].
  by bytes_eval.
Qed.

(** The opened text depends on the signed part alone. *)
Lemma opens_same_part sk seed vk vk' b b' p p' :
  cb_sender_pk b = cb_sender_pk b' -> cb_ml_kem_ct b = cb_ml_kem_ct b' ->
  cb_nonce b = cb_nonce b' -> cb_sealed b = cb_sealed b' ->
  opens_blob sk seed vk b p -> opens_blob sk seed vk' b' p' -> p = p'.
Proof.
  unfold opens_blob. intros -> -> -> -> (s1 & c1 & k1 & _ & _ & Hc1 & Hk1 & Ho1) (s2 & c2 & k2 & _ & _ & Hc2 & Hk2 & Ho2).
  congruence.
Qed.

Lemma opens_blob_fun sk seed vk b p p' :
  opens_blob sk seed vk b p -> opens_blob sk seed vk b p' -> p = p'.
Proof. by apply (opens_same_part sk seed vk vk b b). Qed.

Lemma verify_wp b sk seed vk :
  content_blob_ok b -> MIN_BLOB_LEN <= zlen (blob_layout b) ->
  zlen seed = 64 -> zlen vk = ML_DSA_65_VK_SIZE ->
  wp (opens_blob sk seed vk b)
     (fun e => e = CryptoError /\ forall pt, ~ opens_blob sk seed vk b pt)
    (verify_and_decrypt (blob_layout b) sk seed vk).
Proof.
  intros. rewrite verify_split by done. unfold derive_e2e_key.
  apply wp_bind, wp_ok_or; [intros sig Hsig|intros Hn].
  2:{ split; [done|]. intros pt (? & ? & ? & Hsig & _). congruence. }
  destruct (dsa_verify _ _ sig) eqn:Hver; cbn [negb wp].
  2:{ split; [done|]. intros pt (? & ? & ? & Hsig' & Hver' & _). congruence. }
  apply wp_bind, wp_ok_or; [intros ck Hck|intros Hn].
  2:{ split; [done|]. intros pt (? & ? & ? & _ & _ & Hck & _). unfold derive_e2e_key in Hck.
      by rewrite Hn in Hck. }
  apply wp_bind, wp_ok_or; [intros key Hkey|intros Hn].
  2:{ split; [done|]. intros pt (? & ? & ? & _ & _ & Hck' & Hkey & _).
      unfold derive_e2e_key in Hck'. rewrite Hck in Hck'. cbn in Hck'. congruence. }
  apply wp_bind, wp_ok_or; [intros pt Hpt|intros Hn].
  - exists sig, ck, key. unfold derive_e2e_key. by rewrite Hck.
  - split; [done|]. intros pt (? & ? & ? & _ & _ & Hck' & Hkey' & Ho).
    unfold derive_e2e_key in Hck'. rewrite Hck in Hck'. cbn in Hck'. congruence.
Qed.

Lemma verify_iff b sk seed vk pt :
  content_blob_ok b -> MIN_BLOB_LEN <= zlen (blob_layout b) ->
  zlen seed = 64 -> zlen vk = ML_DSA_65_VK_SIZE ->
  verify_and_decrypt (blob_layout b) sk seed vk = Ok pt <-> opens_blob sk seed vk b pt.
Proof.
  intros Hok Hm Hs Hv. pose proof (verify_wp b sk seed vk Hok Hm Hs Hv) as Hw. split.
  - intros He. by rewrite He in Hw.
  - intros Ho. destruct (verify_and_decrypt _ _ _ _) as [p|e|]; cbn in Hw; [| |done].
    + by rewrite (opens_blob_fun _ _ _ _ _ _ Hw Ho).
    + by destruct (proj2 Hw pt Ho).
Qed.

(** The blob [encrypt_and_sign] builds. *)
Definition sealed_blob (eph : x25519_secret) (coins : kem_coins) (nonce : bytes)
    (ek : kem_ek) (seed ciphertext : bytes) : content_blob :=
  let b sig := {| cb_sender_pk := x25519_public_of eph;
                  cb_ml_kem_ct := fst (kem_encapsulate ek coins);
                  cb_nonce := nonce; cb_sealed := ciphertext; cb_signature := sig |} in
  b (dsa_sig_encode (dsa_sign (dsa_from_seed seed) (signed_part (b [])))).
End e2e_spec.

Section e2e_laws.
Context `{AeadLaws, HkdfLaws, X25519Laws, MlKemLaws, MlDsaLaws}.

Lemma sealed_blob_ok eph coins nonce ek seed ct :
  zlen nonce = NONCE_LEN -> content_blob_ok (sealed_blob eph coins nonce ek seed ct).
Proof.
  intros Hn. split; [apply zlen_x25519_public|]. split; [apply zlen_kem_ct|].
  split; [done|apply zlen_dsa_sig].
Qed.

(** The content key of a message, which both sides compute. *)
Definition content_secret (eph : x25519_secret) (coins : kem_coins) (pk : bytes) (ek : kem_ek)
    : option bytes :=
  hkdf_expand
    (hkdf_new (diffie_hellman eph pk ++ snd (kem_encapsulate ek coins)))
    (e2e_context (x25519_public_of eph) pk (fst (kem_encapsulate ek coins)) ++ E2E_LABEL) 32.

Lemma encrypt_ok eph coins nonce plaintext pk ek_bytes ek seed :
  kem_ek_new ek_bytes = Some ek -> zlen ek_bytes = ML_KEM_768_EK_SIZE ->
  zlen seed = 32 -> zlen nonce = NONCE_LEN -> zlen plaintext <= AEAD_MAX ->
  exists ck key ct,
    content_secret eph coins pk ek = Some ck /\
    aead_key_new ck = Some key /\ aead_seal key nonce [] plaintext = Some ct /\
    encrypt_and_sign eph coins (Some nonce) plaintext pk ek_bytes seed
    = Ok (blob_layout (sealed_blob eph coins nonce ek seed ct)).
Proof.
  intros Hek Hekl Hseed Hn Hp.
  destruct (hkdf_expand_total
    (hkdf_new (diffie_hellman eph pk ++ snd (kem_encapsulate ek coins)))
    (e2e_context (x25519_public_of eph) pk (fst (kem_encapsulate ek coins)) ++ E2E_LABEL) 32)
    as [ck Hck]; [lia|].
  destruct (aead_key_new_32 ck (hkdf_expand_len _ _ _ _ Hck)) as [key Hkey].
  destruct (aead_seal_total key nonce [] plaintext Hp) as [ct Hct].
  exists ck, key, ct. split; [exact Hck|]. split; [done|]. split; [done|].
  unfold encrypt_and_sign, sealed_blob, blob_layout, signed_part, random_nonce, fill.
  rewrite !try_into_ok by done. cbn [ok_or mbind outcome_bind].
  rewrite Hek. cbn [ok_or mbind outcome_bind].
  pose proof (zlen_kem_ct ek coins) as Hl.
  destruct (kem_encapsulate ek coins) as [kct shared]. cbn [fst snd] in *.
  rewrite (copy_from_slice_ok _ nonce), (copy_from_slice_ok _ kct) by done.
  unfold derive_e2e_key. cbn [mbind outcome_bind].
  rewrite Hck. cbn [ok_or mbind outcome_bind]. rewrite Hkey. cbn [ok_or mbind outcome_bind]. rewrite Hct. cbn [ok_or mbind outcome_bind].
  cbn [app cb_sender_pk cb_ml_kem_ct cb_nonce cb_sealed cb_signature mret outcome_ret].
  by rewrite <- !app_assoc.
Qed.

(** The key pair [generate_e2e_keypair] makes from its samples. *)
Definition secret_key (a : x25519_secret) (seed : bytes) (sk : dsa_sk) : E2eSecretKey :=
  {| esk_x25519_secret := x25519_secret_bytes a; esk_ml_kem_seed := seed;
     esk_dsa_signing_seed := dsa_to_seed sk |}.
Definition public_key (a : x25519_secret) (seed : bytes) (sk : dsa_sk) : E2ePublicKey :=
  {| x25519_public := x25519_public_of a;
     ml_kem_ek := kem_ek_bytes (kem_ek_of (kem_from_seed seed));
     dsa_verifying_key := dsa_vk_encode (dsa_vk_of sk) |}.

Lemma E2eSecretKey_drop_wipes a seed sk :
  zlen seed = 64 ->
  E2eSecretKey_drop (secret_key a seed sk) = mk_E2eSecretKey (zeros 32) (zeros 64) (zeros 32).
Proof.
  intros Hs. unfold E2eSecretKey_drop, secret_key, zeroize. cbn.
  by rewrite Hs, zlen_x25519_secret, zlen_dsa_seed.
Qed.

Lemma generate_keypair_ok a seed sk :
  zlen seed = 64 ->
  generate_e2e_keypair a (Some seed) sk = Ok (secret_key a seed sk, public_key a seed sk).
Proof.
  intros Hs. unfold generate_e2e_keypair, fill. cbn [ok_or mbind outcome_bind].
  rewrite (copy_from_slice_ok 64 seed), (copy_from_slice_ok 32 (dsa_to_seed sk)),
    (copy_from_slice_ok _ (dsa_vk_encode (dsa_vk_of sk)))
    by (done || apply zlen_dsa_seed || apply zlen_dsa_vk).
  cbn [mbind outcome_bind]. rewrite try_into_ok by done. cbn [ok_or mbind outcome_bind].
  rewrite zlen_kem_ek, zlen_dsa_vk, !Z.eqb_refl. cbn [negb].
  by rewrite copy_from_slice_ok by apply zlen_kem_ek.
Qed.

(** What a recipient with the secret key opens a sealed blob to. *)
Lemma sealed_blob_opens a seed eph coins nonce ssk plaintext ck key ct :
  let ek := kem_ek_of (kem_from_seed seed) in
  let b := sealed_blob eph coins nonce ek (dsa_to_seed ssk) ct in
  kem_agrees (kem_from_seed seed) coins ->
  content_secret eph coins (x25519_public_of a) ek = Some ck ->
  aead_key_new ck = Some key -> aead_seal key nonce [] plaintext = Some ct ->
  opens_blob (x25519_secret_bytes a) seed (dsa_vk_encode (dsa_vk_of ssk)) b plaintext.
Proof.
  intros ek b Hag Hck Hkey Hct.
  exists (dsa_sign (dsa_from_seed (dsa_to_seed ssk)) (signed_part b)), ck, key.
  split; [apply dsa_sig_roundtrip|].
  rewrite dsa_vk_roundtrip, dsa_seed_roundtrip, x25519_secret_roundtrip.
  split; [apply dsa_verify_sign|]. split; [|split; [done|by apply aead_open_iff]].
  unfold derive_e2e_key. cbn [cb_sender_pk cb_ml_kem_ct sealed_blob b].
  unfold kem_agrees in Hag. fold ek in Hag.
  rewrite diffie_hellman_comm, Hag. unfold content_secret in Hck. by rewrite Hck.
Qed.

Lemma e2e_delivery a seed dsa b seed' dsa' eph coins nonce plaintext :
  let rsk := secret_key a seed dsa in let rpk := public_key a seed dsa in
  let ssk := secret_key b seed' dsa' in let spk := public_key b seed' dsa' in
  zlen seed = 64 -> zlen nonce = NONCE_LEN -> zlen plaintext <= AEAD_MAX ->
  kem_agrees (kem_from_seed seed) coins ->
  exists blob,
    encrypt_and_sign eph coins (Some nonce) plaintext (x25519_public rpk) (ml_kem_ek rpk)
      (esk_dsa_signing_seed ssk) = Ok blob /\
    zlen blob = MIN_BLOB_LEN + zlen plaintext /\
    verify_and_decrypt blob (esk_x25519_secret rsk) (esk_ml_kem_seed rsk)
      (dsa_verifying_key spk) = Ok plaintext.
Proof.
  cbv zeta. intros Hs Hn Hp Hag. destruct (encrypt_ok eph coins nonce plaintext
    (x25519_public_of a) _ _ (dsa_to_seed dsa') (kem_ek_roundtrip (kem_ek_of (kem_from_seed seed)))
    (zlen_kem_ek _) (zlen_dsa_seed _) Hn Hp) as (ck & key & ct & Hck & Hkey & Hct & He).
  eexists. split; [exact He|].
  pose proof (sealed_blob_ok eph coins nonce (kem_ek_of (kem_from_seed seed))
    (dsa_to_seed dsa') ct Hn) as Hok.
  pose proof (zlen_blob_layout _ Hok) as Hl. cbn [cb_sealed sealed_blob] in Hl.
  rewrite (aead_seal_len _ _ _ _ _ Hct) in Hl. pose proof (zlen_nonneg plaintext).
  split; [lia|]. apply verify_iff; [done|lia|done|apply zlen_dsa_vk|].
  by eapply sealed_blob_opens.
Qed.

Lemma encrypt_wp eph coins rng plaintext pk ek_bytes seed :
  zlen ek_bytes = ML_KEM_768_EK_SIZE -> zlen seed = 32 ->
  (forall nonce, rng = Some nonce -> zlen nonce = NONCE_LEN) ->
  wp (fun blob => zlen blob = MIN_BLOB_LEN + zlen plaintext)
     (fun e => e = CryptoError /\
        (rng = None \/ kem_ek_new ek_bytes = None \/ AEAD_MAX < zlen plaintext))
     (encrypt_and_sign eph coins rng plaintext pk ek_bytes seed).
Proof.
  intros Hek Hs Hrng. unfold encrypt_and_sign. rewrite (try_into_ok _ ek_bytes) by done.
  apply wp_bind. cbn [ok_or wp]. apply wp_bind, wp_ok_or; [intros ek Hnew|by auto].
  pose proof (zlen_kem_ct ek coins) as Hct.
  destruct (kem_encapsulate ek coins) as [ct shared]. cbn [fst] in Hct.
  rewrite copy_from_slice_ok by done. cbn [mbind outcome_bind].
  apply wp_bind, wp_ok_or; [intros ck Hck|].
  2:{ intros Hn. destruct (hkdf_expand_total (hkdf_new (diffie_hellman eph pk ++ shared))
        (e2e_context (x25519_public_of eph) pk ct ++ E2E_LABEL) 32); [lia|congruence]. }
  apply wp_bind, wp_bind, wp_ok_or; [intros nonce Hn|by auto].
  rewrite copy_from_slice_ok by eauto. cbn [wp].
  destruct (aead_key_new_32 ck (hkdf_expand_len _ _ _ _ Hck)) as [key Hkey].
  apply wp_bind. rewrite Hkey. cbn [ok_or wp].
  apply wp_bind, wp_ok_or; [intros sealed Hse|intros Hno].
  2:{ split; [done|]. right; right. destruct (Z.lt_ge_cases AEAD_MAX (zlen plaintext)); [done|].
      destruct (aead_seal_total key nonce [] plaintext); [lia|congruence]. }
  apply wp_bind. rewrite try_into_ok by done. cbn [ok_or wp mret outcome_ret].
  rewrite !zlen_app, zlen_nil, zlen_x25519_public, Hct, zlen_dsa_sig, (Hrng nonce Hn).
  rewrite (aead_seal_len _ _ _ _ _ Hse). unfold MIN_BLOB_LEN, AES_NONCE_END, ML_KEM_CT_END,
    SENDER_X25519_END. lia.
Qed.

Lemma encrypt_len eph coins rng plaintext pk ek_bytes seed blob :
  zlen ek_bytes = ML_KEM_768_EK_SIZE -> zlen seed = 32 ->
  (forall nonce, rng = Some nonce -> zlen nonce = NONCE_LEN) ->
  encrypt_and_sign eph coins rng plaintext pk ek_bytes seed = Ok blob ->
  zlen blob = MIN_BLOB_LEN + zlen plaintext.
Proof.
  intros Hek Hs Hn He.
  pose proof (encrypt_wp eph coins rng plaintext pk ek_bytes seed Hek Hs Hn) as Hw.
  by rewrite He in Hw.
Qed.
(** What is decrypted is a blob that opens. *)
Lemma decrypted_blob blob sk seed vk pt :
  zlen seed = 64 -> zlen vk = ML_DSA_65_VK_SIZE ->
  verify_and_decrypt blob sk seed vk = Ok pt ->
  exists b, blob = blob_layout b /\ content_blob_ok b /\ opens_blob sk seed vk b pt.
Proof.
  intros Hs Hv Hd. destruct (Z.ltb_spec (zlen blob) MIN_BLOB_LEN) as [Hlt|Hge].
  - unfold verify_and_decrypt in Hd. by destruct (Z.ltb_spec (zlen blob) MIN_BLOB_LEN); [|lia].
  - destruct (blob_view blob Hge) as (b & -> & Hok). exists b. split; [done|]. split; [done|].
    by apply verify_iff in Hd.
Qed.

(** What [encrypt_and_sign] returns is a sealed blob. *)
Lemma encrypt_inv eph coins nonce plaintext pk ek_bytes seed blob :
  zlen ek_bytes = ML_KEM_768_EK_SIZE -> zlen seed = 32 -> zlen nonce = NONCE_LEN ->
  encrypt_and_sign eph coins (Some nonce) plaintext pk ek_bytes seed = Ok blob ->
  exists ek ck key ct,
    kem_ek_new ek_bytes = Some ek /\ content_secret eph coins pk ek = Some ck /\
    aead_key_new ck = Some key /\ aead_seal key nonce [] plaintext = Some ct /\
    blob = blob_layout (sealed_blob eph coins nonce ek seed ct).
Proof.
  intros Hekl Hseed Hn. unfold encrypt_and_sign, random_nonce, fill.
  rewrite !try_into_ok by done. cbn [ok_or mbind outcome_bind].
  destruct (kem_ek_new ek_bytes) as [ek|]; cbn [ok_or mbind outcome_bind]; [|done].
  unfold sealed_blob, content_secret, blob_layout, signed_part.
  pose proof (zlen_kem_ct ek coins) as Hl. destruct (kem_encapsulate ek coins) as [kct shared] eqn:Hke.
  cbn [fst snd] in *. rewrite (copy_from_slice_ok _ nonce), (copy_from_slice_ok _ kct) by done.
  unfold derive_e2e_key. cbn [mbind outcome_bind].
  destruct (hkdf_expand _ _ _) as [ck|] eqn:Hck; cbn [ok_or mbind outcome_bind]; [|done].
  destruct (aead_key_new ck) as [key|] eqn:Hkey; cbn [ok_or mbind outcome_bind]; [|done].
  destruct (aead_seal _ _ _ _) as [ct|] eqn:Hct; cbn [ok_or mbind outcome_bind]; [|done].
  intros [= <-]. exists ek, ck, key, ct. rewrite Hke. split_and!; try done.
  cbn [cb_sender_pk cb_ml_kem_ct cb_nonce cb_sealed cb_signature app fst].
  by rewrite <- !app_assoc.
Qed.
End e2e_laws.

(** The labels that separate the keys derived from one context. *)
Definition key_label (l : bytes) : Prop := l = C2S_LABEL \/ l = S2C_LABEL \/ l = E2E_LABEL.

Lemma e2e_context_app a b c : e2e_context a b c = a ++ b ++ c.
Proof. unfold e2e_context. by rewrite <- app_assoc. Qed.

(** ** Properties *)

(** Encrypt, then decrypt: with two key pairs from [generate_e2e_keypair],
    what [encrypt_and_sign] produces for the recipient, signed by the sender,
    is [MIN_BLOB_LEN] bytes longer than the plaintext, and
    [verify_and_decrypt] with the recipient's secret and the sender's
    verifying key gives the plaintext back (for KEM coins for which
    decapsulation is correct). *)
Lemma e2e_roundtrip `{AeadLaws, HkdfLaws, X25519Laws, MlKemLaws, MlDsaLaws}
    a seed dsa b seed' dsa' eph coins nonce plaintext :
  zlen seed = 64 -> zlen seed' = 64 -> zlen nonce = NONCE_LEN -> zlen plaintext <= AEAD_MAX ->
  kem_agrees (kem_from_seed seed) coins ->
  exists recipient_sk recipient_pk sender_sk sender_pk blob,
    generate_e2e_keypair a (Some seed) dsa = Ok (recipient_sk, recipient_pk) /\
    generate_e2e_keypair b (Some seed') dsa' = Ok (sender_sk, sender_pk) /\
    encrypt_and_sign eph coins (Some nonce) plaintext (x25519_public recipient_pk)
      (ml_kem_ek recipient_pk) (esk_dsa_signing_seed sender_sk) = Ok blob /\
    zlen blob = MIN_BLOB_LEN + zlen plaintext /\
    verify_and_decrypt blob (esk_x25519_secret recipient_sk) (esk_ml_kem_seed recipient_sk)
      (dsa_verifying_key sender_pk) = Ok plaintext.
Proof.
  intros Hs Hs' Hn Hp Hag.
  destruct (e2e_delivery a seed dsa b seed' dsa' eph coins nonce plaintext Hs Hn Hp Hag)
    as (blob & ?).
  exists (secret_key a seed dsa), (public_key a seed dsa), (secret_key b seed' dsa'),
    (public_key b seed' dsa'), blob.
  by split; [apply generate_keypair_ok|split; [apply generate_keypair_ok|]].
Qed.

(** C29. Decrypting a hostile blob: on any byte string [verify_and_decrypt]
    never panics and fails only with [CryptoError]; and it returns a plaintext
    exactly when the blob is key material, nonce, sealed text and a signature
    over all of these that verifies under the sender's key, and the text opens
    under the content key of that material. So nothing is decrypted for an
    unsigned blob. *)
Theorem verify_and_decrypt_spec `{AeadLaws, HkdfLaws, X25519Laws, MlKemLaws, MlDsaLaws}
    blob sk seed vk :
  zlen seed = 64 -> zlen vk = ML_DSA_65_VK_SIZE ->
  wp (fun pt => zlen blob = MIN_BLOB_LEN + zlen pt) (fun e => e = CryptoError)
    (verify_and_decrypt blob sk seed vk) /\
  forall pt, verify_and_decrypt blob sk seed vk = Ok pt <->
    exists b, blob = blob_layout b /\ content_blob_ok b /\ opens_blob sk seed vk b pt.
Proof.
  intros Hs Hv.
  assert (forall b pt, content_blob_ok b -> opens_blob sk seed vk b pt ->
    zlen (blob_layout b) = MIN_BLOB_LEN + zlen pt) as Hlen.
  { intros b pt Hok (sig & ck & key & _ & _ & _ & _ & Ho%aead_open_iff).
    rewrite zlen_blob_layout, (aead_seal_len _ _ _ _ _ Ho) by done. lia. }
  destruct (Z.ltb_spec (zlen blob) MIN_BLOB_LEN) as [Hlt|Hge].
  - assert (verify_and_decrypt blob sk seed vk = Err CryptoError) as ->.
    { unfold verify_and_decrypt. destruct (Z.ltb_spec (zlen blob) MIN_BLOB_LEN); [done|lia]. }
    split; [done|]. intros pt. split; [done|]. intros (b & -> & Hok & Ho).
    rewrite (Hlen b pt) in Hlt by done. pose proof (zlen_nonneg pt). lia.
  - destruct (blob_view blob Hge) as (b & -> & Hok). split.
    + eapply wp_mono; [by apply verify_wp|intros pt; by apply Hlen|by intros e []].
    + intros pt. rewrite verify_iff by done. split; [by exists b|].
      intros (b' & Heq & Hok' & Ho).
      by rewrite (blob_layout_inj b b' Hok Hok' Heq).
Qed.

(** Key separation: the HKDF [info] strings of the two session directions
    and of message encryption determine the label and the exchanged public
    material, so no two purposes, handshakes or messages share one. *)
Lemma hkdf_info_injective pk1 pk2 ct l pk1' pk2' ct' l' :
  zlen pk1 = 32 -> zlen pk2 = 32 -> zlen ct = ML_KEM_768_CT_SIZE ->
  zlen pk1' = 32 -> zlen pk2' = 32 -> zlen ct' = ML_KEM_768_CT_SIZE ->
  key_label l -> key_label l' ->
  handshake_context pk1 pk2 ct ++ l = e2e_context pk1' pk2' ct' ++ l' ->
  pk1 = pk1' /\ pk2 = pk2' /\ ct = ct' /\ l = l' /\ C2S_LABEL <> S2C_LABEL /\
  C2S_LABEL <> E2E_LABEL /\ S2C_LABEL <> E2E_LABEL.
Proof.
  intros. rewrite handshake_context_app, e2e_context_app in *.
  match goal with He : _ ++ l = _ |- _ => rewrite <- !app_assoc in He; rename He into Heq end.
  apply zlen_inj_app in Heq as [-> Heq]; [|congruence].
  apply zlen_inj_app in Heq as [-> Heq]; [|congruence].
  apply zlen_inj_app in Heq as [-> ->]; [|congruence].
  split_and!; done.
Qed.
