(* ===== verification/Auth.v ===== *)
(** * [crypto/auth.rs]: device and server identity authentication

    The handshake transcript, the signed authentication response of a device
    and the signed hello of a server. Hashing and signing are the interfaces
    of [Primitives]. *)
From S2P Require Import Prelude RustStd Sizes Errors Primitives Common HelloPayloads.

Section auth.
Context `{Sha256, MlDsa}.

Definition compute_handshake_transcript (client_hello_bytes server_hello_bytes : bytes)
    : outcome ProtocolError bytes :=
  let hasher := sha_new in
  let hasher := sha_update hasher client_hello_bytes in
  let hasher := sha_update hasher server_hello_bytes in
  let digest := sha_finalize hasher in
  copy_from_slice TRANSCRIPT_LEN digest.

Definition generate_auth_identity (random_dsa : dsa_sk)
    : outcome ProtocolError (bytes * bytes) :=
  let seed_slice := dsa_to_seed random_dsa in
  signing_seed ← copy_from_slice 32 seed_slice;
  let vk := dsa_vk_of random_dsa in
  let vk_slice := dsa_vk_encode vk in
  if negb (zlen vk_slice =? ML_DSA_65_VK_SIZE) then Err CryptoError
  else
    verifying_key ← copy_from_slice ML_DSA_65_VK_SIZE vk_slice;
    mret (signing_seed, verifying_key).

Definition auth_message (transcript_hash nonce : bytes) : bytes :=
  let message := [] in
  let message := message ++ transcript_hash in
  let message := message ++ nonce in
  message.

Definition sign_auth_response (transcript_hash nonce signing_seed : bytes)
    : outcome ProtocolError bytes :=
  let message := auth_message transcript_hash nonce in
  seed_arr ← ok_or CryptoError (try_into 32 signing_seed);
  let sk := dsa_from_seed seed_arr in
  let signature := dsa_sign sk message in
  let slice := dsa_sig_encode signature in
  if negb (zlen slice =? ML_DSA_65_SIG_SIZE) then Err CryptoError
  else copy_from_slice ML_DSA_65_SIG_SIZE slice.

Definition verify_auth_response (transcript_hash nonce verifying_key signature : bytes)
    : outcome ProtocolError unit :=
  let message := auth_message transcript_hash nonce in
  vk_arr ← ok_or CryptoError (try_into ML_DSA_65_VK_SIZE verifying_key);
  let vk := dsa_vk_decode vk_arr in
  sig_arr ← ok_or CryptoError (try_into ML_DSA_65_SIG_SIZE signature);
  sig ← ok_or CryptoError (dsa_sig_decode sig_arr);
  if dsa_verify vk message sig then Ok tt else Err CryptoError.

Definition server_hello_message
    (client_hello_bytes server_x25519_public_key server_ml_kem_ciphertext : bytes) : bytes :=
  let hasher := sha_update sha_new client_hello_bytes in
  let client_hello_hash := sha_finalize hasher in
  let message := [] in
  let message := message ++ client_hello_hash in
  let message := message ++ server_x25519_public_key in
  let message := message ++ server_ml_kem_ciphertext in
  message.

Definition sign_server_hello
    (client_hello_bytes server_x25519_public_key server_ml_kem_ciphertext signing_seed : bytes)
    : outcome ProtocolError bytes :=
  let message :=
    server_hello_message client_hello_bytes server_x25519_public_key
      server_ml_kem_ciphertext in
  seed_arr ← ok_or CryptoError (try_into 32 signing_seed);
  let sk := dsa_from_seed seed_arr in
  let signature := dsa_sign sk message in
  let slice := dsa_sig_encode signature in
  if negb (zlen slice =? ML_DSA_65_SIG_SIZE) then Err CryptoError
  else copy_from_slice ML_DSA_65_SIG_SIZE slice.

Definition verify_server_hello
    (client_hello_bytes server_x25519_public_key server_ml_kem_ciphertext
     pinned_verifying_key signature : bytes) : outcome ProtocolError unit :=
  let message :=
    server_hello_message client_hello_bytes server_x25519_public_key
      server_ml_kem_ciphertext in
  vk_arr ← ok_or CryptoError (try_into ML_DSA_65_VK_SIZE pinned_verifying_key);
  let vk := dsa_vk_decode vk_arr in
  sig_arr ← ok_or CryptoError (try_into ML_DSA_65_SIG_SIZE signature);
  sig ← ok_or CryptoError (dsa_sig_decode sig_arr);
  if dsa_verify vk message sig then Ok tt else Err CryptoError.
End auth.

(** ** Helper lemmas *)
Section auth_laws.
Context `{Sha256Laws, MlDsaLaws}.

(** [vk]'s owner signed [m] with the encoded signature [sig]. *)
Definition valid_signature (vk m sig : bytes) : Prop :=
  exists s, dsa_sig_decode sig = Some s /\ dsa_verify (dsa_vk_decode vk) m s = true.

Lemma auth_message_app t n : auth_message t n = t ++ n.
Proof. done. Qed.

Lemma server_hello_message_app ch pk ct :
  server_hello_message ch pk ct = sha256 ch ++ pk ++ ct.
Proof. unfold server_hello_message. by rewrite <- app_assoc. Qed.

Lemma transcript_ok ch sh : compute_handshake_transcript ch sh = Ok (sha256 (ch ++ sh)).
Proof.
  unfold compute_handshake_transcript. rewrite sha_update_app.
  by rewrite copy_from_slice_ok by apply zlen_sha_finalize.
Qed.

Lemma generate_identity_ok sk :
  generate_auth_identity sk = Ok (dsa_to_seed sk, dsa_vk_encode (dsa_vk_of sk)).
Proof.
  unfold generate_auth_identity.
  rewrite (copy_from_slice_ok 32 (dsa_to_seed sk)), (copy_from_slice_ok _ (dsa_vk_encode _))
    by (apply zlen_dsa_seed || apply zlen_dsa_vk).
  cbn [mbind outcome_bind]. by rewrite zlen_dsa_vk, Z.eqb_refl.
Qed.

(** Both signers and both verifiers have the same tail. *)
Lemma sign_tail m seed :
  zlen seed = 32 ->
  (seed_arr ← ok_or CryptoError (try_into 32 seed);
   let sk := dsa_from_seed seed_arr in
   let slice := dsa_sig_encode (dsa_sign sk m) in
   if negb (zlen slice =? ML_DSA_65_SIG_SIZE) then Err CryptoError
   else copy_from_slice ML_DSA_65_SIG_SIZE slice)
  = @Ok ProtocolError _ (dsa_sig_encode (dsa_sign (dsa_from_seed seed) m)).
Proof.
  intros Hs. rewrite try_into_ok by done. cbn [ok_or mbind outcome_bind]. cbv zeta.
  rewrite zlen_dsa_sig, Z.eqb_refl. cbn [negb].
  by rewrite copy_from_slice_ok by apply zlen_dsa_sig.
Qed.

Lemma verify_tail m vk sig :
  zlen vk = ML_DSA_65_VK_SIZE -> zlen sig = ML_DSA_65_SIG_SIZE ->
  wp (fun _ => valid_signature vk m sig)
     (fun e => e = CryptoError /\ ~ valid_signature vk m sig)
    (vk_arr ← ok_or CryptoError (try_into ML_DSA_65_VK_SIZE vk);
     let vk := dsa_vk_decode vk_arr in
     sig_arr ← ok_or CryptoError (try_into ML_DSA_65_SIG_SIZE sig);
     s ← ok_or CryptoError (dsa_sig_decode sig_arr);
     if dsa_verify vk m s then Ok tt else Err CryptoError).
Proof.
  intros Hv Hs. rewrite !try_into_ok by done. cbn [ok_or mbind outcome_bind]. cbv zeta.
  apply wp_bind, wp_ok_or; [intros s Hd|intros Hd].
  - apply wp_if; intros Hver; [by exists s|]. split; [done|]. intros (s' & Hd' & Hv'). congruence.
  - split; [done|]. intros (s' & Hd' & _). congruence.
Qed.

Lemma signed_valid sk m :
  valid_signature (dsa_vk_encode (dsa_vk_of sk)) m
    (dsa_sig_encode (dsa_sign (dsa_from_seed (dsa_to_seed sk)) m)).
Proof.
  eexists. split; [apply dsa_sig_roundtrip|].
  rewrite dsa_vk_roundtrip, dsa_seed_roundtrip. apply dsa_verify_sign.
Qed.

Lemma wp_unit_iff {E} (P : Prop) (e0 : E) (m : outcome E unit) :
  wp (fun _ => P) (fun e => e = e0 /\ ~ P) m ->
  (m = Ok tt <-> P) /\ (m = Err e0 <-> ~ P).
Proof.
  destruct m as [[]|e|]; cbn; [| |done].
  - intros Hp. split; [done|]. split; [done|]. by intros Hn.
  - intros [-> Hn]. split; [|done]. split; [done|]. by intros Hp.
Qed.
End auth_laws.

(** Equal transcripts come from equal hellos: no encoded [ClientHello] is a
    prefix of another. *)
Lemma transcript_hellos `{Sha256} chb shb chb' shb' (ch ch' : ClientHelloPayload) :
  sha256 (chb ++ shb) = sha256 (chb' ++ shb') ->
  payload_decode chb = Ok ch -> payload_decode chb' = Ok ch' ->
  (chb = chb' /\ shb = shb') \/ collision (chb ++ shb) (chb' ++ shb').
Proof.
  intros Hs Hch Hch'. destruct (equal_or_collision _ _ Hs) as [Heq|]; [|by right]. left.
  apply decode_iff in Hch as (Hok & Hf & ->), Hch' as (Hok' & Hf' & ->).
  by apply layout_prefix_free in Heq as [-> ->].
Qed.

(** ** Properties *)

(** A device's proof of identity is accepted: with an identity from
    [generate_auth_identity], [sign_auth_response] succeeds with a signature of
    the fixed size, and [verify_auth_response] accepts it for the same
    transcript and nonce. The same holds of [sign_server_hello] and
    [verify_server_hello]. *)
Lemma signatures_accepted `{Sha256Laws, MlDsaLaws} sk t n ch pk ct :
  exists seed vk sig sig',
    generate_auth_identity sk = Ok (seed, vk) /\
    sign_auth_response t n seed = Ok sig /\ zlen sig = ML_DSA_65_SIG_SIZE /\
    verify_auth_response t n vk sig = Ok tt /\
    sign_server_hello ch pk ct seed = Ok sig' /\ zlen sig' = ML_DSA_65_SIG_SIZE /\
    verify_server_hello ch pk ct vk sig' = Ok tt.
Proof.
  do 4 eexists. split; [apply generate_identity_ok|].
  split; [apply sign_tail, zlen_dsa_seed|]. split; [apply zlen_dsa_sig|].
  split.
  { eapply wp_unit_iff; [apply verify_tail; [apply zlen_dsa_vk|apply zlen_dsa_sig]|].
    apply signed_valid. }
  split; [apply sign_tail, zlen_dsa_seed|]. split; [apply zlen_dsa_sig|].
  eapply wp_unit_iff; [apply verify_tail; [apply zlen_dsa_vk|apply zlen_dsa_sig]|].
  apply signed_valid.
Qed.

(** Verification is exact: [verify_auth_response] returns [Ok] if and only
    if the signature is valid for transcript and nonce under the key given,
    and [verify_server_hello] if and only if it is valid for the client hello's
    hash and the server's key material; otherwise both return [CryptoError],
    and neither panics on any key or signature bytes of the right size. *)
Lemma verification_exact `{Sha256Laws, MlDsaLaws} t n ch pk ct vk sig :
  zlen vk = ML_DSA_65_VK_SIZE -> zlen sig = ML_DSA_65_SIG_SIZE ->
  (verify_auth_response t n vk sig = Ok tt <-> valid_signature vk (t ++ n) sig) /\
  (verify_auth_response t n vk sig = Err CryptoError <-> ~ valid_signature vk (t ++ n) sig) /\
  (verify_server_hello ch pk ct vk sig = Ok tt
   <-> valid_signature vk (sha256 ch ++ pk ++ ct) sig) /\
  (verify_server_hello ch pk ct vk sig = Err CryptoError
   <-> ~ valid_signature vk (sha256 ch ++ pk ++ ct) sig).
Proof.
  intros Hv Hs. rewrite <- auth_message_app, <- server_hello_message_app.
  pose proof (wp_unit_iff _ _ _ (verify_tail (auth_message t n) vk sig Hv Hs)) as [H1' H2'].
  pose proof (wp_unit_iff _ _ _ (verify_tail (server_hello_message ch pk ct) vk sig Hv Hs))
    as [H3' H4'].
  by split_and!.
Qed.

(** What a signature covers: the message a device signs determines its
    transcript and nonce, the message a server signs determines the hash of
    the client's hello and the server's key material, and no device message
    is a server message, so a signature made in one role, for one session or
    one nonce is never a signature for another. *)
Lemma signed_message_binding `{Sha256Laws} t n t' n' ch pk ct ch' pk' ct' :
  zlen t = TRANSCRIPT_LEN -> zlen t' = TRANSCRIPT_LEN ->
  zlen n = AUTH_NONCE_LEN -> zlen pk = 32 -> zlen pk' = 32 ->
  zlen ct = ML_KEM_768_CT_SIZE ->
  (auth_message t n = auth_message t' n' -> t = t' /\ n = n') /\
  (server_hello_message ch pk ct = server_hello_message ch' pk' ct' ->
   sha256 ch = sha256 ch' /\ pk = pk' /\ ct = ct') /\
  auth_message t n <> server_hello_message ch pk ct.
Proof.
  intros Ht Ht' Hn Hpk Hpk' Hct. rewrite !server_hello_message_app, !auth_message_app.
  split_and!.
  - intros He. apply zlen_inj_app in He as [-> ->]; [done|congruence].
  - intros He. apply zlen_inj_app in He as [-> He]; [|unfold sha256; by rewrite !zlen_sha_finalize].
    by apply zlen_inj_app in He as [-> ->]; [|congruence].
  - intros He%(f_equal zlen). unfold sha256 in He.
    rewrite !zlen_app, zlen_sha_finalize, Ht, Hn, Hpk, Hct in He. discriminate He.
Qed.

(** C32. The transcript binds the handshake: if two handshakes whose hellos are
    well-formed payloads have the same transcript hash, then their hellos are
    equal field by field, or the two hashed strings are themselves a collision
    of SHA-256. The two hellos are hashed without a separator; this holds
    because no encoded [ClientHello] is a prefix of another. *)
Theorem transcript_binding `{Sha256Laws} chb shb chb' shb'
    (ch ch' : ClientHelloPayload) (sh sh' : ServerHelloPayload) t :
  payload_decode chb = Ok ch -> payload_decode shb = Ok sh ->
  payload_decode chb' = Ok ch' -> payload_decode shb' = Ok sh' ->
  compute_handshake_transcript chb shb = Ok t ->
  compute_handshake_transcript chb' shb' = Ok t ->
  (ch = ch' /\ sh = sh') \/ collision (chb ++ shb) (chb' ++ shb').
Proof.
  intros Hch Hsh Hch' Hsh'. rewrite !transcript_ok. intros [= Ht] [= Ht'].
  destruct (transcript_hellos chb shb chb' shb' ch ch') as [[-> ->]|]; [congruence|done|done| |by right].
  left. split; congruence.
Qed.
