(* ===== verification/Handshake.v ===== *)
(** * The authenticated handshake

    The handshake the crate's documentation prescribes, composed of the hello
    payloads, [crypto/session.rs] and [crypto/auth.rs]: the client's hello, the
    server's signed answer, the client's check of it against the pinned key,
    the device's signed response to the server's challenge, and the server's
    check of that. The theorems say what the two acceptances amount to when
    the accepted signature is not a forgery: the parties agree on the hellos,
    the transcript and the session keys.

    No unforgeability is assumed of the signature scheme. [no_forgery] is a
    hypothesis on the one signature a theorem is about: if it verifies, its
    owner signed that message in one of the sessions listed. *)
From S2P Require Import Prelude RustStd Sizes Errors Primitives Common HelloPayloads AuthPayloads.
From S2P Require Import Session Auth.

(** What both sides hold once the hellos are exchanged. *)
Record agreed := mk_agreed { ag_keys : SessionKeys; ag_transcript : bytes }.

Section steps.
Context `{Sha256, Hkdf, X25519, MlKem, MlDsa}.

(** The client between its hello and the server's: its ephemeral secrets, and
    the exact bytes it sent. *)
Record client_handshake := mk_client_handshake {
  ch_state : ClientHandshakeState;
  ch_hello : bytes
}.

Definition client_hello (client_id : bytes) (random_x25519 : x25519_secret) (random_kem : kem_dk)
    : outcome ProtocolError client_handshake :=
  state ← ClientHandshakeState_generate random_x25519 random_kem;
  hello ← from_io (ClientHelloPayload_encode
    {| ch_client_id := client_id;
       ch_x25519_public_key := chs_x25519_public state;
       ch_ml_kem_ek := chs_ml_kem_ek state |});
  mret (mk_client_handshake state hello).

(** The server's answer to the bytes of a hello, and what it then holds. *)
Definition server_hello (server_id signing_seed : bytes) (random_x25519 : x25519_secret)
    (coins : kem_coins) (client_hello_bytes : bytes) : outcome ProtocolError (bytes * agreed) :=
  hello ← from_io (ClientHelloPayload_decode client_hello_bytes);
  state ← ServerHandshakeState_respond random_x25519 coins (ch_x25519_public_key hello)
            (ch_ml_kem_ek hello);
  signature ← sign_server_hello client_hello_bytes (shs_x25519_public state)
                (shs_ml_kem_ciphertext state) signing_seed;
  server_hello_bytes ← from_io (ServerHelloPayload_encode
    {| sh_server_id := server_id;
       sh_x25519_public_key := shs_x25519_public state;
       sh_ml_kem_ciphertext := shs_ml_kem_ciphertext state;
       sh_signature := signature |});
  transcript ← compute_handshake_transcript client_hello_bytes server_hello_bytes;
  mret (server_hello_bytes, mk_agreed (shs_session_keys state) transcript).

(** The client's check of the answer against the key it has pinned. *)
Definition client_verify (self : client_handshake) (pinned_verifying_key server_hello_bytes : bytes)
    : outcome ProtocolError agreed :=
  hello ← from_io (ServerHelloPayload_decode server_hello_bytes);
  verify_server_hello (ch_hello self) (sh_x25519_public_key hello) (sh_ml_kem_ciphertext hello)
    pinned_verifying_key (sh_signature hello);;
  keys ← ClientHandshakeState_derive_session_keys (ch_state self) (sh_x25519_public_key hello)
           (sh_ml_kem_ciphertext hello);
  transcript ← compute_handshake_transcript (ch_hello self) server_hello_bytes;
  mret (mk_agreed keys transcript).

(** The device's answer to the bytes of a challenge. *)
Definition device_response (device_seed device_key token transcript challenge_bytes : bytes)
    : outcome ProtocolError bytes :=
  challenge ← from_io (AuthChallengePayload_decode challenge_bytes);
  signature ← sign_auth_response transcript (ac_nonce challenge) device_seed;
  from_io (AuthResponsePayload_encode
    {| ar_public_key := device_key; ar_signature := signature; ar_attestation_token := token |}).

(** The server's check of the response to its nonce. The response has the
    device key it proves, and the attestation token for the application. *)
Definition server_authenticate (transcript nonce response_bytes : bytes)
    : outcome ProtocolError AuthResponsePayload :=
  response ← from_io (AuthResponsePayload_decode response_bytes);
  verify_auth_response transcript nonce (ar_public_key response) (ar_signature response);;
  mret response.
End steps.

(** ** What each step does *)
Definition hostile_input (e : ProtocolError) : Prop :=
  e = CryptoError \/ exists io, e = Io io /\ kind io = InvalidData.

Section step_laws.
Context `{Sha256Laws, HkdfLaws, X25519Laws, MlKemLaws, MlDsaLaws}.

Lemma decode_hostile_wp {A} `{PayloadLaws A} (P : A -> Prop) bs :
  (forall p, payload_ok p -> payload_fits p -> bs = payload_layout p ->
     payload_decode bs = Ok p -> P p) ->
  wp P hostile_input (from_io (payload_decode bs)).
Proof.
  intros HP. pose proof (decode_spec bs) as Hw. unfold from_io.
  destruct (payload_decode bs) as [p|e|] eqn:Hd; cbn in *; [|right; eauto|done].
  by apply HP; [apply Hw..|].
Qed.

Lemma encode_inv {A} `{PayloadLaws A} (p : A) bs :
  from_io (payload_encode p) = Ok bs -> payload_fits p /\ bs = payload_layout p.
Proof.
  unfold from_io. destruct (payload_encode p) eqn:He; cbn; [|done..].
  intros [= <-]. by apply encode_iff.
Qed.

(** The hello a client sends. *)
Definition hello_of (id : bytes) (a : x25519_secret) (dk : kem_dk) : ClientHelloPayload :=
  mk_ClientHelloPayload id (x25519_public_of a) (kem_ek_bytes (kem_ek_of dk)).

Lemma hello_of_ok id a dk : is_str id -> payload_ok (hello_of id a dk).
Proof. intros Hid. split; [done|]. split; [apply zlen_x25519_public|apply zlen_kem_ek]. Qed.

Lemma client_hello_inv id a dk client :
  client_hello id a dk = Ok client ->
  payload_fits (hello_of id a dk) /\
  client = mk_client_handshake (client_state a dk) (payload_layout (hello_of id a dk)).
Proof.
  unfold client_hello. rewrite generate_ok. cbn [mbind outcome_bind].
  destruct (from_io _) as [bs| |] eqn:He; cbn [mbind outcome_bind]; [|done..].
  pose proof (encode_inv (hello_of id a dk) bs He) as [Hf ->]. by intros [= <-].
Qed.

Lemma client_hello_ok id a dk :
  str_fits id ->
  client_hello id a dk
  = Ok (mk_client_handshake (client_state a dk) (payload_layout (hello_of id a dk))).
Proof.
  intros Hf. unfold client_hello. rewrite generate_ok. cbn [mbind outcome_bind].
  change (ClientHelloPayload_encode _) with (payload_encode (hello_of id a dk)).
  by rewrite encode_layout.
Qed.

(** The hello a server answers [chb] with. *)
Definition signed_hello (sid seed : bytes) (srv : ServerHandshakeState) (chb : bytes)
    : ServerHelloPayload :=
  let pk := shs_x25519_public srv in
  let ct := shs_ml_kem_ciphertext srv in
  mk_ServerHelloPayload sid pk ct
    (dsa_sig_encode (dsa_sign (dsa_from_seed seed) (server_hello_message chb pk ct))).

(** What a server that has answered [chb] with [shb] holds. *)
Definition server_answered (sid seed : bytes) (b : x25519_secret) (coins : kem_coins)
    (chb shb : bytes) (ag : agreed) : Prop :=
  exists ch srv,
    payload_decode chb = Ok ch /\
    ServerHandshakeState_respond b coins (ch_x25519_public_key ch) (ch_ml_kem_ek ch) = Ok srv /\
    shb = payload_layout (signed_hello sid seed srv chb) /\
    payload_decode shb = Ok (signed_hello sid seed srv chb) /\
    ag = mk_agreed (shs_session_keys srv) (sha256 (chb ++ shb)).

Lemma respond_sizes b coins pk ek srv :
  ServerHandshakeState_respond b coins pk ek = Ok srv ->
  zlen (shs_x25519_public srv) = 32 /\ zlen (shs_ml_kem_ciphertext srv) = ML_KEM_768_CT_SIZE.
Proof.
  intros Hr. unfold ServerHandshakeState_respond in Hr.
  destruct (ok_or _ (try_into _ ek)) as [e1| |]; cbn in Hr; [|done..].
  destruct (ok_or _ (kem_ek_new e1)) as [e2| |]; cbn in Hr; [|done..].
  pose proof (zlen_kem_ct e2 coins) as Hl. destruct (kem_encapsulate e2 coins) as [ct sh].
  cbn in Hl, Hr. rewrite Hl in Hr. cbn in Hr. unfold copy_from_slice in Hr. rewrite Hl in Hr.
  cbn in Hr. destruct (derive_keys _ _ _) as [keys| |]; cbn in Hr; [|done..].
  injection Hr as <-. split; [apply zlen_x25519_public|exact Hl].
Qed.

Lemma server_hello_wp sid seed b coins chb :
  is_str sid -> str_fits sid -> zlen seed = 32 ->
  wp (fun r => server_answered sid seed b coins chb (fst r) (snd r)) hostile_input
    (server_hello sid seed b coins chb).
Proof.
  intros Hid Hf Hs. unfold server_hello. apply wp_bind.
  change (ClientHelloPayload_decode chb) with (payload_decode (A := ClientHelloPayload) chb).
  apply decode_hostile_wp. intros ch _ _ _ Hch. apply wp_bind.
  pose proof (respond_wp b coins (ch_x25519_public_key ch) (ch_ml_kem_ek ch)) as Hw.
  destruct (ServerHandshakeState_respond _ _ _ _) as [srv|e|] eqn:Hr; cbn in Hw |- *;
    [|left; apply Hw|done].
  destruct (respond_sizes _ _ _ _ _ Hr) as [Hpk Hct].
  assert (payload_ok (signed_hello sid seed srv chb)) as Hok by (by split_and!; [..|apply zlen_dsa_sig]).
  unfold sign_server_hello. rewrite sign_tail by done. cbn [mbind outcome_bind].
  change (ServerHelloPayload_encode _) with (payload_encode (signed_hello sid seed srv chb)).
  rewrite encode_layout by done.
  cbn [from_io map_err mbind outcome_bind]. rewrite transcript_ok.
  exists ch, srv. split_and!; [done..| |done]. by apply decode_layout.
Qed.

(** What a client that has accepted [shb] holds. *)
Definition client_accepted (client : client_handshake) (vk shb : bytes) (ag : agreed) : Prop :=
  exists sh keys,
    payload_decode shb = Ok sh /\
    valid_signature vk (server_hello_message (ch_hello client) (sh_x25519_public_key sh)
      (sh_ml_kem_ciphertext sh)) (sh_signature sh) /\
    ClientHandshakeState_derive_session_keys (ch_state client) (sh_x25519_public_key sh)
      (sh_ml_kem_ciphertext sh) = Ok keys /\
    ag = mk_agreed keys (sha256 (ch_hello client ++ shb)).

Lemma client_verify_wp id a dk client vk shb :
  client_hello id a dk = Ok client -> zlen vk = ML_DSA_65_VK_SIZE ->
  wp (client_accepted client vk shb) hostile_input (client_verify client vk shb).
Proof.
  intros (_ & ->)%client_hello_inv Hvk. unfold client_verify. apply wp_bind.
  change (ServerHelloPayload_decode shb) with (payload_decode (A := ServerHelloPayload) shb).
  apply decode_hostile_wp. intros sh (_ & Hpk & Hct & Hsig) _ _ Hsh. apply wp_bind.
  eapply wp_mono; [by apply verify_tail|intros [] Hv|intros e [-> _]; by left].
  cbn [ch_hello ch_state] in *. apply wp_bind.
  pose proof (derive_session_keys_wp a dk (sh_x25519_public_key sh) (sh_ml_kem_ciphertext sh)) as Hw.
  destruct (ClientHandshakeState_derive_session_keys _ _ _) as [keys|e|] eqn:Hk; cbn in Hw |- *;
    [|left; apply Hw|done].
  rewrite transcript_ok. by exists sh, keys.
Qed.

(** What a response that was accepted is. *)
Lemma device_response_wp seed key token t cb :
  zlen seed = 32 -> zlen key = ML_DSA_65_VK_SIZE -> bytes_fit token ->
  wp (fun rb => exists n sig, cb = n /\ zlen n = AUTH_NONCE_LEN /\
        sig = dsa_sig_encode (dsa_sign (dsa_from_seed seed) (auth_message t n)) /\
        payload_decode rb = Ok (mk_AuthResponsePayload key sig token))
     hostile_input (device_response seed key token t cb).
Proof.
  intros Hs Hk Ht. unfold device_response. apply wp_bind.
  change (AuthChallengePayload_decode cb) with (payload_decode (A := AuthChallengePayload) cb).
  apply decode_hostile_wp. intros [n] Hn _ -> _. cbn in Hn |- *.
  unfold sign_auth_response. rewrite sign_tail by done. cbn [mbind outcome_bind].
  set (p := mk_AuthResponsePayload _ _ _).
  change (AuthResponsePayload_encode p) with (payload_encode p).
  assert (payload_ok p) as Hok by (split; [done|apply zlen_dsa_sig]).
  rewrite encode_layout by done.
  cbn [from_io map_err wp]. do 2 eexists. split_and!; [done..|]. exact (decode_layout p Hok Ht).
Qed.

Lemma server_authenticate_wp t n rb :
  wp (fun r => valid_signature (ar_public_key r) (auth_message t n) (ar_signature r))
     hostile_input (server_authenticate t n rb).
Proof.
  unfold server_authenticate. apply wp_bind.
  change (AuthResponsePayload_decode rb) with (payload_decode (A := AuthResponsePayload) rb).
  apply decode_hostile_wp. intros r [Hk Hsig] _ _ Hr. apply wp_bind.
  eapply wp_mono; [by apply verify_tail|by intros []|intros e [-> _]; by left].
Qed.
End step_laws.

(** ** Agreement *)

(** The signature [sig] is no forgery of the message [m]: if it verifies under
    [vk], the owner of [vk] signed [m]. *)
Definition no_forgery `{MlDsa} (vk : bytes) (signed : bytes -> Prop) (m sig : bytes) : Prop :=
  valid_signature vk m sig -> signed m.

Section agreement.
Context `{Sha256Laws, HkdfLaws, X25519Laws, MlKemLaws, MlDsaLaws}.

(** One run of a server: the identifier it uses, what it sampled, the hello it
    was sent, its answer, and what it then holds. *)
Record server_session := mk_server_session {
  ss_id : bytes;
  ss_secret : x25519_secret;
  ss_coins : kem_coins;
  ss_client_hello : bytes;
  ss_server_hello : bytes;
  ss_agreed : agreed
}.
Definition server_ran (seed : bytes) (s : server_session) : Prop :=
  is_str (ss_id s) /\ str_fits (ss_id s) /\
  server_hello (ss_id s) seed (ss_secret s) (ss_coins s) (ss_client_hello s)
  = Ok (ss_server_hello s, ss_agreed s).

(** The message a server signed in a session. *)
Definition server_signed (sessions : list server_session) (m : bytes) : Prop :=
  exists s (sh : ServerHelloPayload), s ∈ sessions /\ payload_decode (ss_server_hello s) = Ok sh /\
    m = server_hello_message (ss_client_hello s) (sh_x25519_public_key sh) (sh_ml_kem_ciphertext sh).

(** One run of a device: the hello it sent, the server hello it accepted, the
    nonce it answered and what it then held. *)
Record device_session := mk_device_session {
  ds_id : bytes;
  ds_secret : x25519_secret;
  ds_dk : kem_dk;
  ds_client : client_handshake;
  ds_server_hello : bytes;
  ds_agreed : agreed;
  ds_nonce : bytes
}.
Definition device_ran (pinned : bytes) (s : device_session) : Prop :=
  is_str (ds_id s) /\ client_hello (ds_id s) (ds_secret s) (ds_dk s) = Ok (ds_client s) /\
  client_verify (ds_client s) pinned (ds_server_hello s) = Ok (ds_agreed s) /\
  zlen (ds_nonce s) = AUTH_NONCE_LEN.
Definition device_signed (sessions : list device_session) (m : bytes) : Prop :=
  exists s, s ∈ sessions /\ m = auth_message (ag_transcript (ds_agreed s)) (ds_nonce s).

Lemma server_ran_answered seed s :
  zlen seed = 32 -> server_ran seed s ->
  server_answered (ss_id s) seed (ss_secret s) (ss_coins s) (ss_client_hello s)
    (ss_server_hello s) (ss_agreed s).
Proof.
  intros Hs (Hid & Hf & Hr).
  pose proof (server_hello_wp _ _ (ss_secret s) (ss_coins s) (ss_client_hello s) Hid Hf Hs) as Hw.
  by rewrite Hr in Hw.
Qed.

Lemma client_verify_accepted id a dk client vk shb ag :
  client_hello id a dk = Ok client -> zlen vk = ML_DSA_65_VK_SIZE ->
  client_verify client vk shb = Ok ag -> client_accepted client vk shb ag.
Proof.
  intros Hc Hv Hr. pose proof (client_verify_wp _ _ _ _ _ shb Hc Hv) as Hw. by rewrite Hr in Hw.
Qed.

(** The message a server signs determines the hello's hash and the keys. *)
Lemma server_hello_message_inj ch pk ct ch' pk' ct' :
  zlen pk = 32 -> zlen pk' = 32 ->
  server_hello_message ch pk ct = server_hello_message ch' pk' ct' ->
  sha256 ch = sha256 ch' /\ pk = pk' /\ ct = ct'.
Proof.
  intros Hpk Hpk'. rewrite !server_hello_message_app. intros He.
  apply zlen_inj_app in He as [-> He]; [|unfold sha256; by rewrite !zlen_sha_finalize].
  by apply zlen_inj_app in He as [-> ->]; [|congruence].
Qed.

(** A client and a server with the same client hello and the same server key
    material derive the same keys. *)
Lemma same_material_same_keys id a dk client (sh : ServerHelloPayload) keys
    sid seed b coins shb ag :
  is_str id -> client_hello id a dk = Ok client ->
  ClientHandshakeState_derive_session_keys (ch_state client) (sh_x25519_public_key sh)
    (sh_ml_kem_ciphertext sh) = Ok keys ->
  server_answered sid seed b coins (ch_hello client) shb ag ->
  (forall sh', payload_decode shb = Ok sh' ->
     sh_x25519_public_key sh' = sh_x25519_public_key sh /\
     sh_ml_kem_ciphertext sh' = sh_ml_kem_ciphertext sh) ->
  kem_agrees dk coins -> keys = ag_keys ag.
Proof.
  intros Hid (Hf & ->)%client_hello_inv Hk (ch & srv & Hch & Hr & _ & Hsh & ->) Hm Hag.
  cbn [ch_hello ch_state ag_keys] in *.
  rewrite decode_layout in Hch by (done || by apply hello_of_ok). injection Hch as <-.
  apply Hm in Hsh as [E1 E2]. cbn in E1, E2. rewrite <- E1, <- E2 in Hk.
  pose proof (key_agreement a dk b coins srv Hag Hr) as Hk'. congruence.
Qed.

(** All five steps succeed between honest parties and end in agreement. *)
Lemma honest_server id a dk sid sk b coins :
  is_str id -> str_fits id -> is_str sid -> str_fits sid ->
  let chb := payload_layout (hello_of id a dk) in
  exists shb ag,
    server_hello sid (dsa_to_seed sk) b coins chb = Ok (shb, ag) /\
    server_answered sid (dsa_to_seed sk) b coins chb shb ag /\
    exists sh : ServerHelloPayload, payload_ok sh /\ payload_fits sh /\ shb = payload_layout sh.
Proof.
  intros Hid Hf Hsid Hsf chb.
  pose proof (server_hello_wp sid (dsa_to_seed sk) b coins chb Hsid Hsf (zlen_dsa_seed sk)) as Hw.
  assert (ClientHelloPayload_decode chb = Ok (hello_of id a dk)) as Hd
    by exact (decode_layout (hello_of id a dk) (hello_of_ok id a dk Hid) Hf).
  destruct (respond_ok b coins (x25519_public_of a) _ _
    (kem_ek_roundtrip (kem_ek_of dk)) (zlen_kem_ek _)) as (keys & Hr & _).
  unfold server_hello in *. rewrite Hd in *. cbn [from_io map_err mbind outcome_bind] in *.
  cbn [hello_of ch_x25519_public_key ch_ml_kem_ek] in *. rewrite Hr in *.
  cbn [mbind outcome_bind] in *.
  unfold sign_server_hello in *. rewrite sign_tail in * by apply zlen_dsa_seed.
  cbn [mbind outcome_bind shs_x25519_public shs_ml_kem_ciphertext shs_session_keys] in *.
  match goal with |- context [ServerHelloPayload_encode ?p] => set (sh := p) in * end.
  assert (payload_ok sh) as Hok
    by (by split_and!; [|apply zlen_x25519_public|apply zlen_kem_ct|apply zlen_dsa_sig]).
  assert (ServerHelloPayload_encode sh = Ok (payload_layout sh)) as He
    by exact (encode_layout sh Hsf).
  rewrite He in *. cbn [from_io map_err mbind outcome_bind] in *. rewrite transcript_ok in *.
  cbn [mbind outcome_bind mret outcome_ret wp fst snd] in *.
  do 2 eexists. split; [done|]. split; [exact Hw|]. by exists sh.
Qed.

Lemma honest_client id a dk client sid sk b coins shb ag :
  is_str id -> client_hello id a dk = Ok client -> kem_agrees dk coins ->
  server_answered sid (dsa_to_seed sk) b coins (ch_hello client) shb ag ->
  client_verify client (dsa_vk_encode (dsa_vk_of sk)) shb = Ok ag.
Proof.
  intros Hid Hc Hag (ch & srv & Hch & Hr & _ & Hsh & ->).
  pose proof (client_hello_inv _ _ _ _ Hc) as (Hf & ->). cbn [ch_hello] in *.
  rewrite decode_layout in Hch by (done || by apply hello_of_ok). injection Hch as <-.
  unfold client_verify. cbn [ch_hello ch_state].
  change (ServerHelloPayload_decode shb) with (payload_decode (A := ServerHelloPayload) shb).
  rewrite Hsh. cbn [from_io map_err mbind outcome_bind signed_hello sh_x25519_public_key
    sh_ml_kem_ciphertext sh_signature].
  destruct (wp_unit_iff _ _ _ (verify_tail (server_hello_message (payload_layout (hello_of id a dk))
    (shs_x25519_public srv) (shs_ml_kem_ciphertext srv)) _ _ (zlen_dsa_vk (dsa_vk_of sk))
    (zlen_dsa_sig (dsa_sign (dsa_from_seed (dsa_to_seed sk)) (server_hello_message
      (payload_layout (hello_of id a dk)) (shs_x25519_public srv) (shs_ml_kem_ciphertext srv))))))
    as [Hv _].
  assert (verify_server_hello (payload_layout (hello_of id a dk)) (shs_x25519_public srv)
    (shs_ml_kem_ciphertext srv) (dsa_vk_encode (dsa_vk_of sk)) (dsa_sig_encode (dsa_sign
      (dsa_from_seed (dsa_to_seed sk)) (server_hello_message (payload_layout (hello_of id a dk))
        (shs_x25519_public srv) (shs_ml_kem_ciphertext srv)))) = Ok tt) as ->
    by apply Hv, signed_valid.
  cbn [mbind outcome_bind]. rewrite (key_agreement a dk b coins srv Hag Hr).
  cbn [mbind outcome_bind]. by rewrite transcript_ok.
Qed.

Lemma honest_device sk token t n :
  bytes_fit token -> zlen n = AUTH_NONCE_LEN ->
  exists (rb : bytes) (r : AuthResponsePayload),
    device_response (dsa_to_seed sk) (dsa_vk_encode (dsa_vk_of sk)) token t n = Ok rb /\
    server_authenticate t n rb = Ok r /\ payload_ok r /\ rb = payload_layout r /\
    ar_public_key r = dsa_vk_encode (dsa_vk_of sk) /\ ar_attestation_token r = token.
Proof.
  intros Ht Hn.
  set (r := mk_AuthResponsePayload (dsa_vk_encode (dsa_vk_of sk))
    (dsa_sig_encode (dsa_sign (dsa_from_seed (dsa_to_seed sk)) (auth_message t n))) token).
  assert (payload_ok r) as Hok by (split; [apply zlen_dsa_vk|apply zlen_dsa_sig]).
  exists (payload_layout r), r. split_and!; try done.
  - unfold device_response.
    change (AuthChallengePayload_decode n) with (payload_decode (A := AuthChallengePayload) n).
    assert (payload_decode n = Ok (mk_AuthChallengePayload n)) as -> by (by apply (decode_iff n)).
    cbn [from_io map_err mbind outcome_bind].
    unfold sign_auth_response. rewrite sign_tail by apply zlen_dsa_seed.
    cbn [mbind outcome_bind]. change (AuthResponsePayload_encode _) with (payload_encode r).
    by rewrite encode_layout by exact Ht.
  - unfold server_authenticate.
    change (AuthResponsePayload_decode (payload_layout r))
      with (payload_decode (A := AuthResponsePayload) (payload_layout r)).
    rewrite decode_layout by done. cbn [from_io map_err mbind outcome_bind].
    assert (verify_auth_response t n (ar_public_key r) (ar_signature r) = Ok tt) as ->; [|done].
    eapply wp_unit_iff; [apply verify_tail; apply Hok|]. apply signed_valid.
Qed.

End agreement.

(** ** What an acceptance says *)

(** The client's acceptance authenticates the server: if a client accepts
    a server hello under the pinned key and the signature in it is no forgery
    (the server signed what it verifies for in one of its sessions), then one
    of those sessions answered this very client hello and derived the client's
    session keys, or the two client hellos are a collision of SHA-256. A
    captured hello of another session is never accepted. *)
Lemma server_agreement `{Sha256Laws, HkdfLaws, X25519Laws, MlKemLaws, MlDsaLaws}
    id a dk client pinned seed (sessions : list server_session) shb ag :
  is_str id -> zlen pinned = ML_DSA_65_VK_SIZE -> zlen seed = 32 ->
  Forall (server_ran seed) sessions ->
  client_hello id a dk = Ok client ->
  (forall sh : ServerHelloPayload, payload_decode shb = Ok sh ->
     no_forgery pinned (server_signed sessions)
       (server_hello_message (ch_hello client) (sh_x25519_public_key sh) (sh_ml_kem_ciphertext sh))
       (sh_signature sh)) ->
  client_verify client pinned shb = Ok ag ->
  exists s, s ∈ sessions /\
    (collision (ch_hello client) (ss_client_hello s) \/
     ss_client_hello s = ch_hello client /\
     (kem_agrees dk (ss_coins s) -> ag_keys ag = ag_keys (ss_agreed s)) /\
     (ag_transcript ag = ag_transcript (ss_agreed s) ->
        shb = ss_server_hello s \/
        collision (ch_hello client ++ shb) (ch_hello client ++ ss_server_hello s))).
Proof.
  intros Hid Hpin Hseed Hran Hc Hnf Hv.
  destruct (client_verify_accepted _ _ _ _ _ _ _ Hc Hpin Hv) as (sh & keys & Hsh & Hval & Hk & ->).
  destruct (Hnf sh Hsh Hval) as (s & sh' & Hin & Hsh' & Hm). exists s. split; [done|].
  apply decode_iff in Hsh as ((_ & Hpk & _) & _ & _).
  pose proof (proj1 (proj1 (decode_iff _ _) Hsh')) as (_ & Hpk' & _).
  apply server_hello_message_inj in Hm as (Hh & E1 & E2); [|done..].
  destruct (equal_or_collision _ _ Hh) as [Heq|]; [right|by left]. split; [done|].
  rewrite Forall_forall in Hran. pose proof (server_ran_answered _ _ Hseed (Hran s Hin)) as Ha.
  rewrite <- Heq in Ha. split.
  - apply (same_material_same_keys id a dk client sh keys _ _ _ _ _ _ Hid Hc Hk Ha).
    intros sh'' Hsh''. rewrite Hsh' in Hsh''. by injection Hsh'' as <-.
  - destruct Ha as (ch & srv & _ & _ & _ & _ & Hs). rewrite Hs. cbn.
    intros [He%app_inv_head|]%equal_or_collision; [by left|by right].
Qed.

(** The server's acceptance authenticates the device: if a server accepts
    a response to its nonce and the signature in it is no forgery (the device
    signed what it verifies for in one of its sessions), then the device
    answered this nonce in a session with the same two hellos byte for byte
    and the same session keys, or the two pairs of hellos are a collision of
    SHA-256. So a response relayed from another session is never accepted. *)
Lemma device_agreement `{Sha256Laws, HkdfLaws, X25519Laws, MlKemLaws, MlDsaLaws}
    pinned seed (devices : list device_session) (s : server_session) nonce rb resp :
  zlen pinned = ML_DSA_65_VK_SIZE -> zlen seed = 32 -> zlen nonce = AUTH_NONCE_LEN ->
  server_ran seed s -> Forall (device_ran pinned) devices ->
  no_forgery (ar_public_key resp) (device_signed devices)
    (auth_message (ag_transcript (ss_agreed s)) nonce) (ar_signature resp) ->
  server_authenticate (ag_transcript (ss_agreed s)) nonce rb = Ok resp ->
  exists d, d ∈ devices /\ ds_nonce d = nonce /\
    (collision (ch_hello (ds_client d) ++ ds_server_hello d)
       (ss_client_hello s ++ ss_server_hello s) \/
     ch_hello (ds_client d) = ss_client_hello s /\ ds_server_hello d = ss_server_hello s /\
     (kem_agrees (ds_dk d) (ss_coins s) -> ag_keys (ds_agreed d) = ag_keys (ss_agreed s))).
Proof.
  intros Hpin Hseed Hn Hs Hran Hnf Hv.
  pose proof (server_authenticate_wp (ag_transcript (ss_agreed s)) nonce rb) as Hw.
  rewrite Hv in Hw. destruct (Hnf Hw) as (d & Hin & Hm). exists d. split; [done|].
  rewrite Forall_forall in Hran. destruct (Hran d Hin) as (Hid & Hc & Hcv & Hdn).
  pose proof (server_ran_answered _ _ Hseed Hs) as Ha.
  destruct (client_verify_accepted _ _ _ _ _ _ _ Hc Hpin Hcv) as (sh & keys & Hsh & _ & Hk & Hag).
  rewrite Hag in *. pose proof Ha as (ch & srv & Hch & _ & _ & _ & Hsag). rewrite Hsag in Hm.
  rewrite !auth_message_app in Hm.
  apply zlen_inj_app in Hm as [Ht ->]; [|cbn; unfold sha256; by rewrite !zlen_sha_finalize].
  split; [done|]. cbn in Ht. symmetry in Ht.
  pose proof (client_hello_inv _ _ _ _ Hc) as (Hf & Hcl).
  assert (payload_decode (ch_hello (ds_client d))
    = Ok (hello_of (ds_id d) (ds_secret d) (ds_dk d))) as Hch'.
  { rewrite Hcl. apply decode_layout; [by apply hello_of_ok|done]. }
  destruct (transcript_hellos _ _ _ _ _ _ Ht Hch' Hch) as [[E1 E2]|]; [right|by left].
  split; [done|]. split; [done|]. rewrite <- E1 in Ha.
  apply (same_material_same_keys _ _ _ _ sh keys _ _ _ _ _ _ Hid Hc Hk Ha).
  intros sh' Hsh'. rewrite <- E2, Hsh in Hsh'. by injection Hsh' as <-.
Qed.
