(* ===== verification/Messages.v ===== *)
(** * Messages and their senders

    What the acceptance of an encrypted message by [verify_and_decrypt]
    ([E2e]) says about who sent it. A sender is the list of the messages it
    encrypted and signed; [no_forgery] is the hypothesis on the signature of
    the one message that is received. *)
From S2P Require Import Prelude RustStd Sizes Errors Primitives E2eKeyPayloads Session E2e Handshake.

Section messages.
Context `{AeadLaws, HkdfLaws, X25519Laws, MlKemLaws, MlDsaLaws}.

(** One call of [encrypt_and_sign]: what was sampled for it, whom it was
    for, and the blob it returned. *)
Record sent_message := mk_sent_message {
  sm_ephemeral : x25519_secret;
  sm_coins : kem_coins;
  sm_nonce : bytes;
  sm_plaintext : bytes;
  sm_recipient_pk : bytes;
  sm_recipient_ek : bytes;
  sm_blob : bytes
}.
Definition message_sent (seed : bytes) (m : sent_message) : Prop :=
  zlen (sm_nonce m) = NONCE_LEN /\ zlen (sm_recipient_ek m) = ML_KEM_768_EK_SIZE /\
  encrypt_and_sign (sm_ephemeral m) (sm_coins m) (Some (sm_nonce m)) (sm_plaintext m)
    (sm_recipient_pk m) (sm_recipient_ek m) seed = Ok (sm_blob m).

(** What a sender has put its signature under. *)
Definition message_signed (ms : list sent_message) (part : bytes) : Prop :=
  exists m sig, m ∈ ms /\ zlen sig = ML_DSA_65_SIG_SIZE /\ sm_blob m = part ++ sig.

(** The message was encrypted for the key pair of [a] and the KEM seed. *)
Definition addressed_to (a : x25519_secret) (kem_seed : bytes) (m : sent_message) : Prop :=
  sm_recipient_pk m = x25519_public_of a /\
  sm_recipient_ek m = kem_ek_bytes (kem_ek_of (kem_from_seed kem_seed)).

(** What was sent under the signed part a recipient has opened. *)
Lemma sent_opens a kem_seed vk seed m b pt sig :
  zlen kem_seed = 64 -> zlen seed = 32 -> message_sent seed m ->
  content_blob_ok b -> opens_blob (x25519_secret_bytes a) kem_seed vk b pt ->
  zlen sig = ML_DSA_65_SIG_SIZE -> sm_blob m = signed_part b ++ sig ->
  addressed_to a kem_seed m -> kem_agrees (kem_from_seed kem_seed) (sm_coins m) ->
  pt = sm_plaintext m.
Proof.
  intros Hks Hs (Hn & Hekl & He) Hb Ho Hsig Hm [Hpk Hek] Hag.
  rewrite Hpk in He. apply encrypt_inv in He as (ek & ck & key & ct & Hnew & Hck & Hkey & Hct & Hbl);
    [|done..].
  rewrite Hek, kem_ek_roundtrip in Hnew. injection Hnew as <-.
  set (eph := sm_ephemeral m) in *. set (coins := sm_coins m) in *. set (nonce := sm_nonce m) in *.
  set (ek := kem_ek_of (kem_from_seed kem_seed)) in *.
  pose proof (sealed_blob_ok eph coins nonce ek seed ct Hn) as Hok.
  rewrite Hbl in Hm. unfold blob_layout in Hm. apply zlen_inj_app_r in Hm as [Hm _].
  2:{ destruct Hok as (_ & _ & _ & ->). done. }
  apply signed_part_inj in Hm as (E1 & E2 & E3 & E4); [|done..]. cbn in E1, E2, E3, E4.
  destruct Ho as (sg & ck' & key' & _ & _ & Hck' & Hkey' & Ho).
  rewrite <- E1, <- E2, <- E3, <- E4 in *.
  rewrite x25519_secret_roundtrip in *.
  unfold derive_e2e_key in Hck'. unfold content_secret in Hck.
  unfold kem_agrees in Hag. fold ek in Hag.
  rewrite diffie_hellman_comm, Hag in Hck'.
  rewrite Hck in Hck'. injection Hck' as <-. rewrite Hkey in Hkey'. injection Hkey' as <-.
  apply aead_open_iff in Hct. congruence.
Qed.
End messages.

(** The signature is outside the encryption and names no recipient: whoever
    holds a signing key can put it under a signed part it has only seen, and
    the recipient opens the result under that key. Acceptance says who signed
    the message, not who wrote it. *)
Lemma resigned_opens `{AeadLaws, HkdfLaws, X25519Laws, MlKemLaws, MlDsaLaws} b sk kem_seed vk pt other :
  zlen kem_seed = 64 -> content_blob_ok b -> MIN_BLOB_LEN <= zlen (blob_layout b) ->
  opens_blob sk kem_seed vk b pt ->
  verify_and_decrypt
    (signed_part b ++ dsa_sig_encode (dsa_sign other (signed_part b))) sk kem_seed
    (dsa_vk_encode (dsa_vk_of other)) = Ok pt.
Proof.
  intros Hks Hb Hl (sg & ck & key & _ & _ & Ho).
  set (s := dsa_sig_encode _).
  set (b' := mk_content_blob (cb_sender_pk b) (cb_ml_kem_ct b) (cb_nonce b) (cb_sealed b) s).
  assert (content_blob_ok b') as Hb'.
  { destruct Hb as (H1' & H2' & H3' & _). by split_and!; [..|apply zlen_dsa_sig]. }
  change (signed_part b ++ s) with (blob_layout b').
  apply verify_iff; [done| |done|apply zlen_dsa_vk|].
  - rewrite zlen_blob_layout in * by done. done.
  - exists (dsa_sign other (signed_part b)), ck, key.
    split; [apply dsa_sig_roundtrip|]. split; [|done]. rewrite dsa_vk_roundtrip. apply dsa_verify_sign.
Qed.

(** ** Properties *)

(** C28. A received message is one its sender sent: if [verify_and_decrypt]
    accepts a blob under a sender's key and the blob's signature is no forgery
    (the sender signed those bytes in one of the messages it sent), then some
    message the sender sent has the same bytes up to the signature, and if
    that message was encrypted for this recipient's keys (and decapsulation is
    correct for its coins) the text returned is the text that was sent. *)
Theorem message_authenticity `{AeadLaws, HkdfLaws, X25519Laws, MlKemLaws, MlDsaLaws}
    a kem_seed vk seed (sent : list sent_message) blob pt :
  zlen kem_seed = 64 -> zlen vk = ML_DSA_65_VK_SIZE -> zlen seed = 32 ->
  Forall (message_sent seed) sent ->
  (forall part sig, blob = part ++ sig -> zlen sig = ML_DSA_65_SIG_SIZE ->
     no_forgery vk (message_signed sent) part sig) ->
  verify_and_decrypt blob (x25519_secret_bytes a) kem_seed vk = Ok pt ->
  exists m part sig sig', m ∈ sent /\ blob = part ++ sig /\ sm_blob m = part ++ sig' /\
    zlen sig = zlen sig' /\ zlen blob = zlen (sm_blob m) /\
    (addressed_to a kem_seed m -> kem_agrees (kem_from_seed kem_seed) (sm_coins m) ->
     pt = sm_plaintext m).
Proof.
  intros Hks Hvk Hs Hsent Hnf Hd.
  destruct (decrypted_blob _ _ _ _ _ Hks Hvk Hd) as (b & -> & Hb & Ho).
  pose proof Hb as (_ & _ & _ & Hsl).
  destruct (Hnf (signed_part b) (cb_signature b) eq_refl Hsl) as (m & sig & Hin & Hl & Hm).
  { destruct Ho as (sg & _ & _ & Hdec & Hver & _). by exists sg. }
  rewrite Forall_forall in Hsent.
  exists m, (signed_part b), (cb_signature b), sig. unfold blob_layout.
  split_and!; [done..|congruence|rewrite Hm, !zlen_app; lia|].
  intros Ha Hag. by apply (sent_opens a kem_seed vk seed m b pt sig); [done|done|apply Hsent|..].
Qed.
