(* ===== verification/Endpoints.v ===== *)
(** * The two ends of a connection, from the first byte to [Established]

    [connect] and [serve] are the programs of a client and of a server that
    follow the crate's documentation: the hellos, [ClientFinish] and
    [ServerAccept], the session keys given to the codec, the challenge, the
    response and its acceptance, each packet through the codec and the state
    machine ([Connection]) and each step of the handshake as [Handshake]
    composes it. A program reads from one stream and writes to another.
    Both sides send [true] in [ClientFinish] and [ServerAccept]; what to do about
    a received [false] is left to the application, which the code does not say
    either, and is not modelled. A failed run ends with the first error; only a
    response the server refuses is answered, by [AuthReject].

    Two views of them: on honest streams, the two runs feed each other and end
    [Established] with the same keys; on any stream at all, whatever an end
    that completes has concluded is true of its peer. *)
From S2P Require Import Prelude RustStd Sizes Errors Header PacketType ConnectionState Common.
From S2P Require Import HelloPayloads AuthPayloads Payloads Primitives Codec Stream Connection Traffic.
From S2P Require Import Session Auth Handshake.

Abbreviation endpoint_m R W := (ST (Connection * (R * W)) ProtocolError).

(** The codec with the keys of [ag], the right way round for the role. *)
Definition install (role : Role) (ag : agreed) (codec : PacketCodec) : PacketCodec :=
  let keys := ag_keys ag in
  match role with
  | Client =>
      PacketCodec_establish_session codec (client_to_server keys) (server_to_client keys)
  | Server =>
      PacketCodec_establish_session codec (server_to_client keys) (client_to_server keys)
  end.

Section programs.
Context `{Aead, Sha256, Hkdf, X25519, MlKem, MlDsa} {R W : Type} `{AsyncRead R, AsyncWrite W}.

Definition send (t : PacketType) (body : bytes) : endpoint_m R W unit :=
  fun '(c, (r, w)) =>
    let '(o, (codec, w')) := PacketCodec_write_packet t x00 body (c_codec c, w) in
    (o, (with_codec codec c, (r, w'))).

(** The payload of the next packet, which must be of type [t]. *)
Definition expect (t : PacketType) : endpoint_m R W bytes :=
  '(t', pkt) ← (fun '(c, (r, w)) =>
     let '(o, (c', r')) := Connection_accept (c, r) in (o, (c', (r', w))));
  if decide (t' = t) then mret (payload pkt) else st_err InvalidStateTransition.

Definition use_keys (ag : agreed) : endpoint_m R W unit :=
  fun '(c, s) => (Ok tt, (with_codec (install (c_role c) ag (c_codec c)) c, s)).

Definition connect (client_id : bytes) (random_x25519 : x25519_secret) (random_kem : kem_dk)
    (pinned_verifying_key device_seed device_key token : bytes) : endpoint_m R W device_session :=
  client ← st_lift (client_hello client_id random_x25519 random_kem);
  send ClientHello (ch_hello client);;
  server_hello_bytes ← expect ServerHello;
  ag ← st_lift (client_verify client pinned_verifying_key server_hello_bytes);
  send ClientFinish (ClientFinishPayload_encode (mk_ClientFinishPayload true));;
  accept ← expect ServerAccept;
  st_lift (from_io (ServerAcceptPayload_decode accept));;
  use_keys ag;;
  challenge ← expect AuthChallenge;
  response ← st_lift (device_response device_seed device_key token (ag_transcript ag) challenge);
  send AuthResponse response;;
  result ← expect AuthAccept;
  st_lift (from_io (AuthAcceptPayload_decode result));;
  mret {| ds_id := client_id; ds_secret := random_x25519; ds_dk := random_kem;
          ds_client := client; ds_server_hello := server_hello_bytes; ds_agreed := ag;
          ds_nonce := challenge |}.

(** The verdict on a response, told to the device. *)
Definition announce {A} (verdict : outcome ProtocolError A) : endpoint_m R W A :=
  match verdict with
  | Ok a => send AuthAccept (AuthAcceptPayload_encode mk_AuthAcceptPayload);; mret a
  | Err e => send AuthReject (AuthRejectPayload_encode mk_AuthRejectPayload);; st_err e
  | Panic => st_lift Panic
  end.

Definition serve (server_id signing_seed : bytes) (random_x25519 : x25519_secret)
    (coins : kem_coins) (nonce : bytes) : endpoint_m R W (server_session * AuthResponsePayload) :=
  client_hello_bytes ← expect ClientHello;
  '(server_hello_bytes, ag) ←
    st_lift (server_hello server_id signing_seed random_x25519 coins client_hello_bytes);
  send ServerHello server_hello_bytes;;
  finish ← expect ClientFinish;
  st_lift (from_io (ClientFinishPayload_decode finish));;
  send ServerAccept (ServerAcceptPayload_encode (mk_ServerAcceptPayload true));;
  use_keys ag;;
  send AuthChallenge (AuthChallengePayload_encode (mk_AuthChallengePayload nonce));;
  response ← expect AuthResponse;
  authenticated ← announce (server_authenticate (ag_transcript ag) nonce response);
  mret ({| ss_id := server_id; ss_secret := random_x25519; ss_coins := coins;
           ss_client_hello := client_hello_bytes; ss_server_hello := server_hello_bytes;
           ss_agreed := ag |}, authenticated).
End programs.

(** ** Runs on streams that hold what is read *)
Section runs.
Context `{AeadLaws} {R W : Type} `{InputStreamLaws R, OutputStreamLaws W}.

(** From [c], [m] consumes [input], writes [output], returns [a] and leaves [c']. *)
Definition runs {A} (m : endpoint_m R W A) (c : Connection) (input output : bytes) (a : A)
    (c' : Connection) : Prop :=
  forall r w rest, pending r = input ++ rest ->
  exists r' w', m (c, (r, w)) = (Ok a, (c', (r', w'))) /\ pending r' = rest /\
    written w' = written w ++ output.

Lemma runs_ret {A} (a : A) c : runs (mret a) c [] [] a c.
Proof. intros r w rest Hp. exists r, w. by rewrite app_nil_r. Qed.

Lemma runs_lift {A B} (o : outcome ProtocolError A) (k : A -> endpoint_m R W B) a c i out b c' :
  o = Ok a -> runs (k a) c i out b c' -> runs (st_lift o ≫= k) c i out b c'.
Proof. intros -> Hk. exact Hk. Qed.

Lemma runs_use_keys {B} ag (k : unit -> endpoint_m R W B) c i out b c' :
  runs (k tt) (with_codec (install (c_role c) ag (c_codec c)) c) i out b c' ->
  runs (use_keys ag ≫= k) c i out b c'.
Proof. intros Hk. exact Hk. Qed.

Lemma runs_announce {A B} (a : A) (k : A -> endpoint_m R W B) c i out b c' :
  runs (send AuthAccept [] ≫= fun _ => k a) c i out b c' ->
  runs (announce (Ok a) ≫= k) c i out b c'.
Proof.
  intros Hk r w rest Hp. destruct (Hk r w rest Hp) as (r' & w' & He & Hr). exists r', w'.
  split; [|done]. rewrite <- He. cbn. unfold mbind, ST_bind. by destruct (send _ _ _) as [[] ?].
Qed.

(** [wire] carries a packet from the end [cs] to the end [cr]. *)
Definition hop (cs cr : Connection) (t : PacketType) (body wire : bytes) (cs' cr' : Connection)
    : Prop :=
  (forall B (k : unit -> endpoint_m R W B) i out b c',
     runs (k tt) cs' i out b c' -> runs (send t body ≫= k) cs i (wire ++ out) b c') /\
  (forall B (k : bytes -> endpoint_m R W B) i out b c',
     runs (k body) cr' i out b c' -> runs (expect t ≫= k) cr (wire ++ i) out b c').

Lemma hop_exists cs cr t body s' :
  linked (c_codec cs) (c_codec cr) -> next_send_seq (c_codec cs) < u64_max ->
  zlen body <= PacketType_max_payload_size t ->
  receive (c_role cr) (c_state cr) t = Ok s' ->
  exists wire,
    hop cs cr t body wire
      (with_codec (set_next_send_seq (next_send_seq (c_codec cs) + 1) (c_codec cs)) cs)
      (with_state s' (with_codec
         (set_last_recv_seq (next_send_seq (c_codec cs)) (c_codec cr)) cr)).
Proof.
  intros Hlk Hn Hl Hs.
  destruct (deliver_one (R := R) (W := W) _ _ (mk_outgoing t x00 body) Hlk) as (wire & Hw & Hr);
    [by split|done|].
  cbn in Hw, Hr. exists wire. split.
  - intros B k i out b c' Hk r w rest Hp. destruct (Hw w) as (w1 & He & Hw1).
    destruct (Hk r w1 rest Hp) as (r' & w' & Hk' & Hp' & Hw').
    exists r', w'. unfold send, mbind, ST_bind. rewrite He. split; [exact Hk'|].
    split; [done|]. by rewrite Hw', Hw1, app_assoc.
  - intros B k i out b c' Hk r w rest Hp. rewrite <- app_assoc in Hp.
    destruct (Hr r _ Hp) as (r1 & He & Hp1).
    destruct (Hk r1 w rest Hp1) as (r' & w' & Hk' & Hp' & Hw').
    exists r', w'. split; [|done].
    unfold expect, Connection_accept, on_codec, on_state, mbind, ST_bind. cbn.
    rewrite He. cbn. rewrite from_as_u8. cbn. rewrite Hs. cbn.
    rewrite decide_True by done. exact Hk'.
Qed.
End runs.

(** ** The honest run *)

(** The keys of an end, once it has been given those of [ag]. *)
Definition keys_of (secured : bool) (role : Role) (ag : agreed) : option SessionCipher :=
  let keys := ag_keys ag in
  if secured then
    Some match role with
         | Client => mk_SessionCipher (client_to_server keys) (server_to_client keys)
         | Server => mk_SessionCipher (server_to_client keys) (client_to_server keys)
         end
  else None.

(** The end [role] in state [s] that last received [last] and sends [next] next. *)
Definition at_point (secured : bool) (ag : agreed) (role : Role) (s : ConnectionState)
    (last : option Z) (next : Z) : Connection :=
  mk_Connection role s (mk_PacketCodec last next (keys_of secured role ag)).

Lemma keys_linked secured ag role role' :
  role <> role' -> SessionKeys_ok (ag_keys ag) ->
  match keys_of secured role ag, keys_of secured role' ag with
  | None, None => True
  | Some a, Some b => outbound_key a = inbound_key b /\ zlen (outbound_key a) = 32
  | _, _ => False
  end.
Proof. intros Hne [H1' H2']. by destruct secured, role, role'. Qed.

Lemma points_linked secured ag role role' s last next s' last' next' :
  role <> role' -> SessionKeys_ok (ag_keys ag) -> 0 <= next ->
  match last' with Some l => l < next | None => True end ->
  linked (c_codec (at_point secured ag role s last next))
    (c_codec (at_point secured ag role' s' last' next')).
Proof.
  intros Hne Hk Hn Hl. split; [done|]. split; [|by apply keys_linked].
  cbn. by intros l ->.
Qed.

Section handshake_runs.
Context `{AeadLaws, Sha256Laws, HkdfLaws, X25519Laws, MlKemLaws, MlDsaLaws}.
Context {R W : Type} `{InputStreamLaws R, OutputStreamLaws W}.

Lemma answered_sizes sid seed b coins chb shb ag :
  is_str sid -> zlen sid <= 78 -> server_answered sid seed b coins chb shb ag ->
  zlen shb <= PacketType_max_payload_size ServerHello /\ SessionKeys_ok (ag_keys ag).
Proof.
  intros Hid Hl (ch & srv & _ & Hr & Hs & Hd & ->). split.
  - rewrite Hs. apply (layout_within ServerHello (signed_hello sid seed srv chb)); [|by left].
    by apply decode_iff in Hd as [Hok _].
  - pose proof (respond_wp b coins (ch_x25519_public_key ch) (ch_ml_kem_ek ch)) as Hw.
    rewrite Hr in Hw. apply Hw.
Qed.

(** One packet of the handshake from a role to its peer. *)
Lemma handshake_hop secured ag role role' s last next s' last' next' t body s'' :
  SessionKeys_ok (ag_keys ag) -> role <> role' -> receive role' s' t = Ok s'' ->
  zlen body <= PacketType_max_payload_size t -> 0 <= next < 10 ->
  match last' with Some l => l < next | None => True end ->
  exists wire,
    hop (R := R) (W := W) (at_point secured ag role s last next)
      (at_point secured ag role' s' last' next') t body wire
      (at_point secured ag role s last (next + 1))
      (at_point secured ag role' s'' (Some next) next').
Proof.
  intros Hk Hne Hs Hl Hn Hlast.
  apply (hop_exists (at_point secured ag role s last next)
    (at_point secured ag role' s' last' next') t body s''); [|cbn; unfold u64_max; lia|done..].
  apply points_linked; [done|done|lia|done].
Qed.

(** The next packet, where the side conditions are between constants. *)
Ltac next_hop H lem := destruct lem as (? & H); [done..|done || lia|done || lia|].

(** The packets of the handshake, as hops between the two ends. *)
Lemma handshake_hops ag chb shb nonce rb :
  SessionKeys_ok (ag_keys ag) ->
  zlen chb <= PacketType_max_payload_size ClientHello ->
  zlen shb <= PacketType_max_payload_size ServerHello ->
  zlen nonce = AUTH_NONCE_LEN -> zlen rb <= PacketType_max_payload_size AuthResponse ->
  let hop := hop (R := R) (W := W) in
  let plain := at_point false ag in let sealed := at_point true ag in
  exists w1 w2 w3 w4 w5 w6 w7,
    hop (plain Client AwaitingServerHello None 1) (plain Server AwaitingClientHello None 1)
      ClientHello chb w1
      (plain Client AwaitingServerHello None 2) (plain Server AwaitingClientFinish (Some 1) 1) /\
    hop (plain Server AwaitingClientFinish (Some 1) 1) (plain Client AwaitingServerHello None 2)
      ServerHello shb w2
      (plain Server AwaitingClientFinish (Some 1) 2) (plain Client AwaitingServerAccept (Some 1) 2) /\
    hop (plain Client AwaitingServerAccept (Some 1) 2) (plain Server AwaitingClientFinish (Some 1) 2)
      ClientFinish [x01] w3
      (plain Client AwaitingServerAccept (Some 1) 3) (plain Server AwaitingAuth (Some 2) 2) /\
    hop (plain Server AwaitingAuth (Some 2) 2) (plain Client AwaitingServerAccept (Some 1) 3)
      ServerAccept [x01] w4
      (plain Server AwaitingAuth (Some 2) 3) (plain Client AwaitingAuthChallenge (Some 2) 3) /\
    hop (sealed Server AwaitingAuth (Some 2) 3) (sealed Client AwaitingAuthChallenge (Some 2) 3)
      AuthChallenge nonce w5
      (sealed Server AwaitingAuth (Some 2) 4) (sealed Client AwaitingAuthResult (Some 3) 3) /\
    hop (sealed Client AwaitingAuthResult (Some 3) 3) (sealed Server AwaitingAuth (Some 2) 4)
      AuthResponse rb w6
      (sealed Client AwaitingAuthResult (Some 3) 4) (sealed Server Established (Some 3) 4) /\
    hop (sealed Server Established (Some 3) 4) (sealed Client AwaitingAuthResult (Some 3) 4)
      AuthAccept [] w7
      (sealed Server Established (Some 3) 5) (sealed Client Established (Some 4) 4).
Proof.
  intros Hk Hc Hs Hn Hr hop plain sealed.
  assert (zlen nonce <= PacketType_max_payload_size AuthChallenge) as Hn' by (rewrite Hn; done).
  next_hop h1 (handshake_hop false ag Client Server AwaitingServerHello None 1
    AwaitingClientHello None 1 ClientHello chb AwaitingClientFinish).
  next_hop h2 (handshake_hop false ag Server Client AwaitingClientFinish (Some 1) 1
    AwaitingServerHello None 2 ServerHello shb AwaitingServerAccept).
  next_hop h3 (handshake_hop false ag Client Server AwaitingServerAccept (Some 1) 2
    AwaitingClientFinish (Some 1) 2 ClientFinish [x01] AwaitingAuth).
  next_hop h4 (handshake_hop false ag Server Client AwaitingAuth (Some 2) 2
    AwaitingServerAccept (Some 1) 3 ServerAccept [x01] AwaitingAuthChallenge).
  next_hop h5 (handshake_hop true ag Server Client AwaitingAuth (Some 2) 3
    AwaitingAuthChallenge (Some 2) 3 AuthChallenge nonce AwaitingAuthResult).
  next_hop h6 (handshake_hop true ag Client Server AwaitingAuthResult (Some 3) 3
    AwaitingAuth (Some 2) 4 AuthResponse rb Established).
  next_hop h7 (handshake_hop true ag Server Client Established (Some 3) 4
    AwaitingAuthResult (Some 3) 4 AuthAccept [] Established).
  do 7 eexists. split_and!; [exact h1|exact h2|exact h3|exact h4|exact h5|exact h6|exact h7].
Qed.

Tactic Notation "next" "lift" uconstr(H) := eapply runs_lift; [exact H|]; cbn beta.
Tactic Notation "next" uconstr(H) := eapply H; cbn beta.

(** The two programs on the wires of those hops. *)
Lemma handshake_programs id a dk client sid seed b coins nonce pinned device_seed device_key token
    shb ag rb resp :
  client_hello id a dk = Ok client ->
  server_hello sid seed b coins (ch_hello client) = Ok (shb, ag) ->
  client_verify client pinned shb = Ok ag ->
  device_response device_seed device_key token (ag_transcript ag) nonce = Ok rb ->
  server_authenticate (ag_transcript ag) nonce rb = Ok resp ->
  SessionKeys_ok (ag_keys ag) ->
  zlen (ch_hello client) <= PacketType_max_payload_size ClientHello ->
  zlen shb <= PacketType_max_payload_size ServerHello ->
  zlen nonce = AUTH_NONCE_LEN -> zlen rb <= PacketType_max_payload_size AuthResponse ->
  exists to_server to_client,
    runs (R := R) (W := W) (connect id a dk pinned device_seed device_key token)
      (Connection_new Client) to_client to_server
      (mk_device_session id a dk client shb ag nonce) (at_point true ag Client Established (Some 4) 4) /\
    runs (R := R) (W := W) (serve sid seed b coins nonce) (Connection_new Server) to_server to_client
      (mk_server_session sid b coins (ch_hello client) shb ag, resp)
      (at_point true ag Server Established (Some 3) 5).
Proof.
  intros Hc Hsh Hv Hd Ha Hk Lc Ls Ln Lr.
  destruct (handshake_hops ag _ _ nonce rb Hk Lc Ls Ln Lr)
    as (w1 & w2 & w3 & w4 & w5 & w6 & w7 & [s1 e1] & [s2 e2] & [s3 e3] & [s4 e4] & [s5 e5] &
        [s6 e6] & [s7 e7]).
  exists (w1 ++ w3 ++ w6 ++ []), (w2 ++ w4 ++ w5 ++ w7 ++ []). split.
  - unfold connect. next lift Hc. next s1. next e2. next lift Hv. next s3. next e4.
    next lift (eq_refl (Ok (mk_ServerAcceptPayload true))). apply runs_use_keys. next e5.
    next lift Hd. next s6. next e7. next lift (eq_refl (Ok mk_AuthAcceptPayload)). apply runs_ret.
  - unfold serve. next e1. next lift Hsh. next s2. next e3.
    next lift (eq_refl (Ok (mk_ClientFinishPayload true))). next s4. apply runs_use_keys.
    next s5. next e6. rewrite Ha. apply runs_announce. next s7. apply runs_ret.
Qed.
End handshake_runs.

(** ** Runs on any stream *)
Section hostile.
Context `{AeadLaws, Sha256Laws, HkdfLaws, X25519Laws, MlKemLaws, MlDsaLaws}.
Context {R W : Type} `{AsyncReadLaws R, AsyncWriteLaws W}.

(** What every step of a program keeps: the role and the session keys. *)
Definition keeps (c c' : Connection) : Prop :=
  c_role c' = c_role c /\ session (c_codec c') = session (c_codec c).

Lemma send_wp t body c (r : R) (w : W) :
  st_wp (fun _ s => keeps c (fst s) /\ c_state (fst s) = c_state c) (fun _ _ => True)
    (send t body) (c, (r, w)).
Proof.
  unfold st_wp, send.
  destruct (PacketCodec_write_packet t x00 body (c_codec c, w)) as [o [codec w']] eqn:He. cbn.
  pose proof (write_packet_wp (c_codec c) w t x00 body) as Hw. unfold st_wp in Hw.
  rewrite He in Hw. destruct o; cbn in *; [|done..]. by inversion Hw; subst.
Qed.

Lemma expect_wp t c (r : R) (w : W) :
  st_wp (fun _ s => keeps c (fst s) /\
           receive (c_role c) (c_state c) t = Ok (c_state (fst s))) (fun _ _ => True)
    (expect t) (c, (r, w)).
Proof.
  unfold st_wp, expect, Connection_accept, on_codec, on_state, mbind, ST_bind. cbn.
  destruct (PacketCodec_read_packet (c_codec c, r)) as [o [codec r']] eqn:He.
  destruct (read_packet_ok_type _ _ _ _ He) as [Hp Ht].
  destruct o as [pkt|e|]; [|done..]. cbn. destruct (Ht pkt eq_refl) as (t' & <-).
  rewrite from_as_u8. cbn. pose proof (receive_wp (c_role c) (c_state c) t') as Hw.
  destruct (receive (c_role c) (c_state c) t') as [s'|e|] eqn:Hs; cbn in *; [|done..].
  destruct (decide (t' = t)) as [->|]; cbn; [|done]. split; [|done].
  apply read_packet_delivers in He. by inversion He.
Qed.

(** Sequencing in the weakest preconditions of the two programs. *)
Lemma send_then {A} (P : A -> _ -> Prop) t body (k : unit -> endpoint_m R W A) c (r : R) (w : W) :
  (forall c' r' w', keeps c c' -> c_state c' = c_state c ->
     st_wp P (fun _ _ => True) (k tt) (c', (r', w'))) ->
  st_wp P (fun _ _ => True) (send t body ≫= k) (c, (r, w)).
Proof.
  intros Hk. apply st_wp_bind. eapply st_wp_mono; [apply send_wp| |done].
  intros [] (c' & r' & w') [? ?]. by apply Hk.
Qed.
Lemma expect_then {A} (P : A -> _ -> Prop) t (k : bytes -> endpoint_m R W A) c (r : R) (w : W) :
  (forall bs c' r' w', keeps c c' -> receive (c_role c) (c_state c) t = Ok (c_state c') ->
     st_wp P (fun _ _ => True) (k bs) (c', (r', w'))) ->
  st_wp P (fun _ _ => True) (expect t ≫= k) (c, (r, w)).
Proof.
  intros Hk. apply st_wp_bind. eapply st_wp_mono; [apply expect_wp| |done].
  intros bs (c' & r' & w') [? ?]. by apply Hk.
Qed.
Lemma lift_then {A B} (P : B -> _ -> Prop) (o : outcome ProtocolError A)
    (k : A -> endpoint_m R W B) s :
  wp (fun a => o = Ok a -> st_wp P (fun _ _ => True) (k a) s) (fun _ => True) o ->
  st_wp P (fun _ _ => True) (st_lift o ≫= k) s.
Proof. intros Ho. apply st_wp_bind, st_wp_lift. destruct o; cbn in *; auto. Qed.
Lemma decode_then {A B} `{PayloadLaws B} (P : A -> _ -> Prop) bs (k : B -> endpoint_m R W A) s :
  (forall p, st_wp P (fun _ _ => True) (k p) s) ->
  st_wp P (fun _ _ => True) (st_lift (from_io (payload_decode bs)) ≫= k) s.
Proof.
  intros Hk. apply lift_then. pose proof (decode_spec bs) as Hd. unfold from_io.
  destruct (payload_decode bs); cbn in *; auto.
Qed.
Lemma announce_then {A B} (P : B -> _ -> Prop) (o : outcome ProtocolError A)
    (k : A -> endpoint_m R W B) c (r : R) (w : W) :
  wp (fun a => o = Ok a -> forall c' r' w', keeps c c' -> c_state c' = c_state c ->
        st_wp P (fun _ _ => True) (k a) (c', (r', w'))) (fun _ => True) o ->
  st_wp P (fun _ _ => True) (announce o ≫= k) (c, (r, w)).
Proof.
  intros Ho. apply st_wp_bind. destruct o as [a|e|]; cbn in *; [|by apply send_then|done].
  apply send_then. intros c' r' w' Hk Hs. by apply st_wp_ret, Ho.
Qed.
Lemma use_keys_then {A} (P : A -> _ -> Prop) ag (k : unit -> endpoint_m R W A) c s :
  st_wp P (fun _ _ => True) (k tt) (with_codec (install (c_role c) ag (c_codec c)) c, s) ->
  st_wp P (fun _ _ => True) (use_keys ag ≫= k) (c, s).
Proof. done. Qed.

(** What an end that has completed holds. *)
Definition completed (role : Role) (ag : agreed) (c : Connection) : Prop :=
  c_role c = role /\ c_state c = Established /\ session (c_codec c) = keys_of true role ag.

Lemma serve_wp sid seed b coins nonce (r : R) (w : W) :
  is_str sid -> str_fits sid -> zlen seed = 32 ->
  st_wp (fun '(s, resp) st =>
           completed Server (ss_agreed s) (fst st) /\ ss_id s = sid /\ server_ran seed s /\
           exists rb, server_authenticate (ag_transcript (ss_agreed s)) nonce rb = Ok resp)
    (fun _ _ => True) (serve sid seed b coins nonce) (Connection_new Server, (r, w)).
Proof.
  intros Hid Hf Hseed. unfold serve.
  apply expect_then. intros chb c1 r1 w1 [R1 K1] [= S1].
  apply lift_then. eapply wp_mono; [by apply server_hello_wp| |done].
  intros [shb ag] _ Hsh. apply send_then. intros c2 r2 w2 [R2 K2] S2.
  apply expect_then. intros fb c3 r3 w3 [R3 K3]. rewrite S2, <- S1, R2, R1. intros [= S3].
  change (ClientFinishPayload_decode fb) with (payload_decode (A := ClientFinishPayload) fb).
  apply decode_then. intros fin. apply send_then. intros c4 r4 w4 [R4 K4] S4. apply use_keys_then.
  apply send_then. intros c5 r5 w5 [R5 K5] S5. apply expect_then. intros rb c6 r6 w6 [R6 K6].
  cbn in R5, K5, S5. rewrite S5, S4, <- S3, R5, R4, R3, R2, R1. intros [= S6].
  apply announce_then. eapply wp_mono; [apply server_authenticate_wp| |done].
  intros resp _ Hresp c7 r7 w7 [R7 K7] S7. apply st_wp_ret. cbn.
  split_and!; [|done|by split_and!|by exists rb]. split_and!; [|congruence|].
  - cbn in R1, R5. congruence.
  - rewrite K7, K6, K5, R4, R3, R2, R1. done.
Qed.

Lemma connect_wp id a dk pinned device_seed device_key token (r : R) (w : W) :
  is_str id -> str_fits id -> zlen pinned = ML_DSA_65_VK_SIZE ->
  zlen device_seed = 32 -> zlen device_key = ML_DSA_65_VK_SIZE -> bytes_fit token ->
  st_wp (fun d st =>
           completed Client (ds_agreed d) (fst st) /\ device_ran pinned d /\
           ds_secret d = a /\ ds_dk d = dk)
    (fun _ _ => True) (connect id a dk pinned device_seed device_key token)
    (Connection_new Client, (r, w)).
Proof.
  intros Hid Hf Hpin Hseed Hkey Ht. unfold connect.
  pose proof (client_hello_ok id a dk Hf) as Hc. set (client := mk_client_handshake _ _) in *.
  apply lift_then. rewrite Hc. intros _.
  apply send_then. intros c1 r1 w1 [R1 K1] S1.
  apply expect_then. intros shb c2 r2 w2 [R2 K2]. rewrite S1, R1. intros [= S2].
  apply lift_then. eapply wp_mono; [by eapply client_verify_wp| |done]. intros ag _ Hv.
  apply send_then. intros c3 r3 w3 [R3 K3] S3.
  apply expect_then. intros ab c4 r4 w4 [R4 K4]. rewrite S3, <- S2, R3, R2, R1. intros [= S4].
  change (ServerAcceptPayload_decode ab) with (payload_decode (A := ServerAcceptPayload) ab).
  apply decode_then. intros accept. apply use_keys_then.
  apply expect_then. intros cb c5 r5 w5 [R5 K5]. cbn [c_role c_state with_codec].
  rewrite <- S4, R4, R3, R2, R1. intros [= S5].
  apply lift_then. eapply wp_mono; [by apply device_response_wp| |done].
  intros rb (n & sig & -> & Hn & _) _.
  apply send_then. intros c6 r6 w6 [R6 K6] S6.
  cbn in R5. apply expect_then. intros res c7 r7 w7 [R7 K7].
  rewrite S6, <- S5, R6, R5, R4, R3, R2, R1. intros [= S7].
  change (AuthAcceptPayload_decode res) with (payload_decode (A := AuthAcceptPayload) res).
  apply decode_then. intros result. apply st_wp_ret. cbn.
  split_and!; [|by split_and!|done|done]. cbn in R1. split_and!; [congruence|congruence|].
  rewrite K7, K6, K5. cbn. by rewrite R4, R3, R2, R1.
Qed.
End hostile.

(** A crossing the caller must expect: a packet the client sent in the clear
    before it had seen [ServerAccept], an [Error] say, reaches a server that
    has installed its keys as soon as it accepted. It is refused by the codec,
    before the state machine sees it, and the server stays where it was. *)
Lemma early_packet_refused `{AeadLaws} {R} `{InputStreamLaws R} ag t body seq last sent (r : R) rest :
  is_u64 seq -> zlen body <= PacketType_max_payload_size t ->
  let c := at_point true ag Server AwaitingAuth last sent in
  pending r = header_layout (PacketHeader_new (PacketType_as_u8 t) x00 (zlen body) seq) ++ body ++ rest ->
  exists r', Connection_receive (c, r) = (Err EncryptionRequired, (c, r')) /\ pending r' = body ++ rest.
Proof.
  intros Hs Hb c Hp. pose proof (max_payload_size_range t). pose proof (zlen_nonneg body).
  destruct (plaintext_injection_refused (c_codec c) r
    (PacketHeader_new (PacketType_as_u8 t) x00 (zlen body) seq) (body ++ rest)) as [Hr _];
    [apply header_new_ok; [unfold is_u32, u32_max; lia|done]
    |apply header_new_valid; unfold MAX_PAYLOAD_LEN; lia|done|].
  destruct Hr as (r' & Hr & Hp'); [by eexists|done|]. exists r'. split; [|done].
  unfold Connection_receive, Connection_accept, mbind, ST_bind, on_codec. cbn [fst snd].
  by rewrite Hr.
Qed.

(** ** Properties *)

(** Both ends, and what each of them returns, when every party is honest. *)
Lemma honest_run `{AeadLaws, Sha256Laws, HkdfLaws, X25519Laws, MlKemLaws, MlDsaLaws}
    {R W} `{InputStreamLaws R, OutputStreamLaws W}
    id a dk sid ssk b coins dsk token nonce :
  is_str id -> zlen id <= 82 -> is_str sid -> zlen sid <= 78 -> zlen token <= 4096 ->
  zlen nonce = AUTH_NONCE_LEN -> kem_agrees dk coins ->
  let device_key := dsa_vk_encode (dsa_vk_of dsk) in
  exists to_server to_client client shb ag resp,
    runs (R := R) (W := W)
      (connect id a dk (dsa_vk_encode (dsa_vk_of ssk)) (dsa_to_seed dsk) device_key token)
      (Connection_new Client) to_client to_server
      (mk_device_session id a dk client shb ag nonce) (at_point true ag Client Established (Some 4) 4) /\
    runs (R := R) (W := W) (serve sid (dsa_to_seed ssk) b coins nonce)
      (Connection_new Server) to_server to_client
      (mk_server_session sid b coins (ch_hello client) shb ag, resp)
      (at_point true ag Server Established (Some 3) 5) /\
    ar_public_key resp = device_key /\ ar_attestation_token resp = token /\
    SessionKeys_ok (ag_keys ag).
Proof.
  intros Hid Lid Hsid Lsid Lt Hn Hag device_key.
  assert (str_fits id) as Hf by (unfold str_fits, u16_max; lia).
  assert (str_fits sid) as Hsf by (unfold str_fits, u16_max; lia).
  destruct (honest_server id a dk sid ssk b coins Hid Hf Hsid Hsf) as (shb & ag & Hsh & Hans & _).
  pose proof (client_hello_ok id a dk Hf) as Hc. set (client := mk_client_handshake _ _) in Hc.
  pose proof (honest_client id a dk client sid ssk b coins shb ag Hid Hc Hag Hans) as Hv.
  destruct (honest_device dsk token (ag_transcript ag) nonce) as (rb & resp & Hd & Ha & Hok & -> & Hkey & Htok);
    [unfold bytes_fit, u32_max; lia|done|].
  destruct (answered_sizes _ _ _ _ _ _ _ Hsid Lsid Hans) as [Ls Hk].
  destruct (handshake_programs (R := R) (W := W) id a dk client sid (dsa_to_seed ssk) b coins nonce
    (dsa_vk_encode (dsa_vk_of ssk)) (dsa_to_seed dsk) device_key token shb ag _ resp Hc Hsh Hv Hd Ha Hk)
    as (ws & wc & Hrc & Hrs); [|done..| |by exists ws, wc, client, shb, ag, resp].
  - apply (layout_within ClientHello (hello_of id a dk)); [by apply hello_of_ok|by left].
  - apply (layout_within AuthResponse resp); [done|]. left. cbn. by rewrite Htok.
Qed.

(** C1. The whole handshake on the wire: for honest parties there are a byte
    stream to the server and one to the client such that the client's program,
    from a new connection, reads the second and writes the first, and the
    server's program reads the first and writes the second, frame for frame;
    both return without error, both ends are [Established] with the same keys
    installed the right way round and the same transcript, the server has the
    device's verifying key and attestation token, nothing is left unread, and
    the two ends are ready for the application traffic of [Traffic] in both
    directions. *)
Theorem handshake_completes `{AeadLaws, Sha256Laws, HkdfLaws, X25519Laws, MlKemLaws, MlDsaLaws}
    {R W} `{InputStreamLaws R, OutputStreamLaws W}
    id a dk sid ssk b coins dsk token nonce :
  is_str id -> zlen id <= 82 -> is_str sid -> zlen sid <= 78 -> zlen token <= 4096 ->
  zlen nonce = AUTH_NONCE_LEN -> kem_agrees dk coins ->
  let device_key := dsa_vk_encode (dsa_vk_of dsk) in
  exists to_server to_client d s resp client server,
    runs (R := R) (W := W)
      (connect id a dk (dsa_vk_encode (dsa_vk_of ssk)) (dsa_to_seed dsk) device_key token)
      (Connection_new Client) to_client to_server d client /\
    runs (R := R) (W := W) (serve sid (dsa_to_seed ssk) b coins nonce)
      (Connection_new Server) to_server to_client (s, resp) server /\
    ar_public_key resp = device_key /\ ar_attestation_token resp = token /\
    completed Client (ds_agreed d) client /\ completed Server (ss_agreed s) server /\
    ds_agreed d = ss_agreed s /\
    ch_hello (ds_client d) = ss_client_hello s /\ ds_server_hello d = ss_server_hello s /\
    established (joined client server).
Proof.
  intros Hid Lid Hsid Lsid Lt Hn Hag device_key.
  destruct (honest_run (R := R) (W := W) id a dk sid ssk b coins dsk token nonce
    Hid Lid Hsid Lsid Lt Hn Hag) as (ws & wc & client & shb & ag & resp & Hc & Hs & Hdk & Ht & Hk).
  do 7 eexists. split; [exact Hc|]. split; [exact Hs|].
  split_and!; try done. by apply joined_established; try done; apply points_linked.
Qed.

(** C2. A server that completes has authenticated the device, whatever bytes
    the network gave it: over any stream, [serve] never panics, and when it
    returns a response the connection is [Established] with the session's keys;
    the response's signature is valid for this transcript and nonce under its
    key, and unless that signature is a forgery, the device itself answered this nonce in a session in which it
    sent and received byte for byte the hellos the server received and sent,
    with the same session keys, or the two pairs of hellos are a collision of
    SHA-256. A relay between two handshakes cannot complete. *)
Theorem device_authenticated `{AeadLaws, Sha256Laws, HkdfLaws, X25519Laws, MlKemLaws, MlDsaLaws}
    {R W} `{AsyncReadLaws R, AsyncWriteLaws W}
    sid seed b coins nonce pinned (devices : list device_session) (r : R) (w : W) :
  is_str sid -> str_fits sid -> zlen seed = 32 -> zlen nonce = AUTH_NONCE_LEN ->
  zlen pinned = ML_DSA_65_VK_SIZE -> Forall (device_ran pinned) devices ->
  st_wp (fun '(s, resp) st =>
      let key := ar_public_key resp in
      let message := auth_message (ag_transcript (ss_agreed s)) nonce in
      completed Server (ss_agreed s) (fst st) /\
      valid_signature key message (ar_signature resp) /\
      (no_forgery key (device_signed devices) message (ar_signature resp) ->
       exists d, d ∈ devices /\ ds_nonce d = nonce /\
         (collision (ch_hello (ds_client d) ++ ds_server_hello d)
            (ss_client_hello s ++ ss_server_hello s) \/
          ch_hello (ds_client d) = ss_client_hello s /\ ds_server_hello d = ss_server_hello s /\
          (kem_agrees (ds_dk d) (ss_coins s) -> ag_keys (ds_agreed d) = ag_keys (ss_agreed s)))))
    (fun _ _ => True) (serve sid seed b coins nonce) (Connection_new Server, (r, w)).
Proof.
  intros Hid Hf Hs Hn Hp Hd. eapply st_wp_mono; [by apply serve_wp| |done].
  intros [s resp] st (Hc & _ & Hran & rb & Ha). split; [done|]. split.
  - pose proof (server_authenticate_wp (ag_transcript (ss_agreed s)) nonce rb) as Hw.
    by rewrite Ha in Hw.
  - intros Hnf. by eapply (device_agreement pinned seed devices s nonce rb resp).
Qed.

(** C3. A client that completes has authenticated the server, whatever bytes
    the network gave it: over any stream, [connect] never panics, and when it
    returns the connection is [Established] with the session's keys; and unless
    the signature in the server hello it accepted is a forgery, one of the
    server's own sessions answered this very hello and derived the same
    keys, or the two client hellos are a collision of SHA-256. *)
Theorem server_authenticated `{AeadLaws, Sha256Laws, HkdfLaws, X25519Laws, MlKemLaws, MlDsaLaws}
    {R W} `{AsyncReadLaws R, AsyncWriteLaws W}
    id a dk pinned device_seed device_key token seed (sessions : list server_session) (r : R) (w : W) :
  is_str id -> str_fits id -> zlen pinned = ML_DSA_65_VK_SIZE ->
  zlen device_seed = 32 -> zlen device_key = ML_DSA_65_VK_SIZE -> bytes_fit token ->
  zlen seed = 32 -> Forall (server_ran seed) sessions ->
  st_wp (fun d st =>
      completed Client (ds_agreed d) (fst st) /\
      exists sh : ServerHelloPayload, payload_decode (ds_server_hello d) = Ok sh /\
      let message := server_hello_message (ch_hello (ds_client d)) (sh_x25519_public_key sh)
        (sh_ml_kem_ciphertext sh) in
      valid_signature pinned message (sh_signature sh) /\
      (no_forgery pinned (server_signed sessions) message (sh_signature sh) ->
       exists s, s ∈ sessions /\
         (collision (ch_hello (ds_client d)) (ss_client_hello s) \/
          ss_client_hello s = ch_hello (ds_client d) /\
          (kem_agrees dk (ss_coins s) -> ag_keys (ds_agreed d) = ag_keys (ss_agreed s)))))
    (fun _ _ => True) (connect id a dk pinned device_seed device_key token)
    (Connection_new Client, (r, w)).
Proof.
  intros Hid Hf Hp Hs Hk Ht Hseed Hran. eapply st_wp_mono; [by apply connect_wp| |done].
  intros d st (Hc & (Hdid & Hcl & Hv & _) & <- & <-). split; [done|].
  destruct (client_verify_accepted _ _ _ _ _ _ _ Hcl Hp Hv) as (sh & keys & Hsh & Hval & _).
  exists sh. split; [done|]. split; [done|]. intros Hnf.
  destruct (server_agreement _ _ _ _ pinned seed sessions (ds_server_hello d) (ds_agreed d)
    Hdid Hp Hseed Hran Hcl) as (s & Hin & Hag); [|done|].
  - intros sh'. rewrite Hsh. by intros [= <-].
  - exists s. split; [done|]. destruct Hag as [|(? & ? & _)]; [by left|by right].
Qed.
