(* ===== verification/SafetyNumber.v ===== *)
(** * [crypto/safety_number.rs]: fingerprints, safety numbers, key pinning

    The iterated hash, its rendering as 30 decimal digits and the combined
    safety number of two identities. Hashing is the interface of
    [Primitives]; strings are their UTF-8 bytes. *)
From S2P Require Import Prelude RustStd Sizes Errors Primitives E2eKeyPayloads.

Definition FINGERPRINT_ITERATIONS : Z := 5200.
Definition FINGERPRINT_LEN : Z := 32.
Definition DIGIT_SOURCE_LEN : Z := 30.

Definition serialize_public_key (public_key : E2ePublicKey) : bytes :=
  let out := [] in
  let out := out ++ x25519_public public_key in
  let out := out ++ ml_kem_ek public_key in
  let out := out ++ dsa_verifying_key public_key in
  out.

Section fingerprint.
Context `{Sha256}.

(** One turn of the loop in [compute_fingerprint]. *)
Definition fingerprint_round (identifier key_bytes digest : bytes) : bytes :=
  let hasher := sha_new in
  let hasher := sha_update hasher digest in
  let hasher := sha_update hasher identifier in
  let hasher := sha_update hasher key_bytes in
  sha_finalize hasher.

Fixpoint fingerprint_loop (n : nat) (identifier key_bytes digest : bytes) : bytes :=
  match n with
  | O => digest
  | S n' =>
      fingerprint_loop n' identifier key_bytes (fingerprint_round identifier key_bytes digest)
  end.

Definition compute_fingerprint (identifier : bytes) (public_key : E2ePublicKey) : bytes :=
  let key_bytes := serialize_public_key public_key in
  let digest :=
    let hasher := sha_new in
    let hasher := sha_update hasher identifier in
    let hasher := sha_update hasher key_bytes in
    sha_finalize hasher in
  fingerprint_loop (Z.to_nat FINGERPRINT_ITERATIONS) identifier key_bytes digest.
End fingerprint.

(** [chunks(n)] of a slice whose length is a multiple of [n], in at most
    [fuel] chunks; a shorter last chunk is returned as it is. *)
Fixpoint chunks (fuel : nat) (n : nat) (bs : bytes) : list bytes :=
  match fuel with
  | O => []
  | S fuel' =>
      match bs with
      | [] => []
      | _ => take n bs :: chunks fuel' n (drop n bs)
      end
  end.

(** The closure [digit_groups] maps over the chunks. *)
Definition digit_group (chunk : bytes) : outcome ProtocolError bytes :=
  buf ← copy_into (zeros 8) 3 8 chunk;
  let value := from_be_bytes buf mod 100000 in
  mret (fmt_pad 5 value).

Fixpoint map_outcome {A B} (f : A -> outcome ProtocolError B) (l : list A)
    : outcome ProtocolError (list B) :=
  match l with
  | [] => mret []
  | a :: l' => b ← f a; bs ← map_outcome f l'; mret (b :: bs)
  end.

Definition digit_groups (fingerprint : bytes) : outcome ProtocolError (list bytes) :=
  source ← slice_to fingerprint DIGIT_SOURCE_LEN;
  map_outcome digit_group (chunks (length source) 5 source).

(** [groups.join(" ")] *)
Fixpoint join (sep : bytes) (groups : list bytes) : bytes :=
  match groups with
  | [] => []
  | [g] => g
  | g :: gs => g ++ sep ++ join sep gs
  end.

Definition safety_number `{Sha256} (local_id : bytes) (local_key : E2ePublicKey)
    (remote_id : bytes) (remote_key : E2ePublicKey) : outcome ProtocolError bytes :=
  let local_fingerprint := compute_fingerprint local_id local_key in
  let remote_fingerprint := compute_fingerprint remote_id remote_key in
  let '(first, second) :=
    if str_le local_id remote_id then (local_fingerprint, remote_fingerprint)
    else (remote_fingerprint, local_fingerprint) in
  groups ← digit_groups first;
  more ← digit_groups second;
  let groups := groups ++ more in
  mret (join [x20] groups).

Definition verify_key_unchanged (identifier : bytes) (pinned fetched : E2ePublicKey)
    : outcome ProtocolError unit :=
  if bool_decide (pinned = fetched) then Ok tt else Err (IdentityKeyChanged identifier).

(** ** The digits of a fingerprint *)

(** The five digits of a five-byte chunk. *)
Definition group (chunk : bytes) : bytes := fmt_pad 5 (from_be_bytes chunk mod 100000).

Lemma group_len c : zlen (group c) = 5.
Proof.
  apply (fmt_pad_len 4). pose proof (Z.mod_pos_bound (from_be_bytes c) 100000 eq_refl).
  change (10 ^ Z.of_nat 5) with 100000. lia.
Qed.

Lemma group_value c : dec_value (group c) = from_be_bytes c mod 100000.
Proof. apply fmt_pad_value. by apply Z.mod_pos_bound. Qed.

Lemma map_dec_value cs :
  map dec_value (map group cs) = map (fun c => from_be_bytes c mod 100000) cs.
Proof. rewrite map_map. apply map_ext, group_value. Qed.

Lemma group_digits c : Forall (fun b => is_digit b = true) (group c).
Proof. apply fmt_pad_digits. Qed.

Lemma five_view (c : bytes) : zlen c = 5 -> exists v w x y z, c = [v; w; x; y; z].
Proof.
  intros Hl. do 5 (destruct c as [|? c]; [len_lia|]). destruct c; [eauto 10|len_lia].
Qed.

Lemma digit_group_ok c : zlen c = 5 -> digit_group c = Ok (group c).
Proof. intros (v & w & x & y & z & ->)%five_view. reflexivity. Qed.

(** The six chunks of a fingerprint that are displayed. *)
Definition displayed (fp : bytes) : list bytes := chunks 30 5 (take 30 fp).

Lemma fingerprint_view fp :
  zlen fp = 32 ->
  exists a b c d e f t, fp = a ++ b ++ c ++ d ++ e ++ f ++ t /\
    displayed fp = [a; b; c; d; e; f] /\
    Forall (fun c => zlen c = 5) [a; b; c; d; e; f].
Proof.
  intros Hl. replace 32 with (5 + (5 + (5 + (5 + (5 + (5 + 2)))))) in Hl by done.
  apply split_exact in Hl as (a & r1 & -> & Ha & Hl); [|lia..].
  apply split_exact in Hl as (b & r2 & -> & Hb & Hl); [|lia..].
  apply split_exact in Hl as (c & r3 & -> & Hc & Hl); [|lia..].
  apply split_exact in Hl as (d & r4 & -> & Hd & Hl); [|lia..].
  apply split_exact in Hl as (e & r5 & -> & He & Hl); [|lia..].
  apply split_exact in Hl as (f & t & -> & Hf & Hl); [|lia..].
  exists a, b, c, d, e, f, t. split; [done|]. split; [|by repeat constructor].
  destruct (five_view a Ha) as (?&?&?&?&?&->), (five_view b Hb) as (?&?&?&?&?&->),
    (five_view c Hc) as (?&?&?&?&?&->), (five_view d Hd) as (?&?&?&?&?&->),
    (five_view e He) as (?&?&?&?&?&->), (five_view f Hf) as (?&?&?&?&?&->). reflexivity.
Qed.

Lemma map_outcome_ok {A B} (f : A -> outcome ProtocolError B) g l :
  Forall (fun a => f a = Ok (g a)) l -> map_outcome f l = Ok (map g l).
Proof. induction 1 as [|a l Ha Hl IH]; [done|]. cbn. by rewrite Ha, IH. Qed.

Lemma digit_groups_ok fp :
  zlen fp = 32 ->
  digit_groups fp = Ok (map group (displayed fp)) /\ length (displayed fp) = 6%nat.
Proof.
  intros Hl. destruct (fingerprint_view fp Hl) as (a & b & c & d & e & f & t & Heq & Hd & Hall).
  rewrite Hd. split; [|done]. unfold digit_groups, DIGIT_SOURCE_LEN.
  assert (slice_to (E := ProtocolError) fp 30 = Ok (take 30 fp)) as ->.
  { unfold slice_to, slice. rewrite Hl. reflexivity. }
  cbn [mbind outcome_bind].
  assert (length (take 30 fp) = 30%nat) as ->
    by (rewrite length_take; unfold zlen in Hl; lia).
  change (chunks 30 5 (take 30 fp)) with (displayed fp). rewrite Hd.
  apply map_outcome_ok. eapply Forall_impl; [exact Hall|]. apply digit_group_ok.
Qed.

(** Joining groups of one length loses nothing. *)
Lemma zlen_join sep gs n :
  Forall (fun g => zlen g = n) gs -> gs <> [] ->
  zlen (join sep gs) = Z.of_nat (length gs) * n + (Z.of_nat (length gs) - 1) * zlen sep.
Proof.
  induction 1 as [|g gs Hg Hgs IH]; [done|]. intros _. destruct gs as [|g' gs]; [cbn; lia|].
  change (join sep (g :: g' :: gs)) with (g ++ sep ++ join sep (g' :: gs)).
  rewrite !zlen_app, IH by done. cbn [length]. lia.
Qed.

Lemma join_inj sep gs gs' n :
  Forall (fun g => zlen g = n) gs -> Forall (fun g => zlen g = n) gs' ->
  length gs = length gs' -> join sep gs = join sep gs' -> gs = gs'.
Proof.
  intros Hgs. revert gs'. induction Hgs as [|g gs Hg Hgs IH]; intros [|g' gs'] Hgs' Hl He; try done.
  apply Forall_cons in Hgs' as [Hg' Hgs']. destruct gs as [|h gs], gs' as [|h' gs']; try done.
  - cbn in He. congruence.
  - change (g ++ sep ++ join sep (h :: gs) = g' ++ sep ++ join sep (h' :: gs')) in He.
    apply zlen_inj_app in He as [-> He%app_inv_head]; [|congruence].
    f_equal. apply IH; [done|cbn in Hl |- *; lia|done].
Qed.

Lemma serialize_layout k : serialize_public_key k = key_layout k.
Proof. unfold serialize_public_key, key_layout. by rewrite <- app_assoc. Qed.

Section fingerprint_laws.
Context `{Sha256Laws}.

Lemma fingerprint_round_app id k d : fingerprint_round id k d = sha256 (d ++ id ++ k).
Proof. unfold fingerprint_round, sha256. by rewrite !sha_update_app. Qed.

Lemma fingerprint_loop_last n id k d :
  fingerprint_loop (S n) id k d = fingerprint_round id k (fingerprint_loop n id k d).
Proof. revert d. induction n as [|n IH]; intros d; [done|]. apply (IH (fingerprint_round id k d)). Qed.

Lemma fingerprint_loop_len n id k d : zlen d = 32 -> zlen (fingerprint_loop n id k d) = 32.
Proof.
  revert d. induction n as [|n IH]; intros d Hd; [done|]. cbn. apply IH, zlen_sha_finalize.
Qed.

Lemma fingerprint_len id k : zlen (compute_fingerprint id k) = 32.
Proof. apply fingerprint_loop_len, zlen_sha_finalize. Qed.

(** What the last round of a fingerprint hashes. *)
Definition fingerprint_input (id : bytes) (k : E2ePublicKey) : bytes :=
  let key_bytes := serialize_public_key k in
  fingerprint_loop (Z.to_nat (FINGERPRINT_ITERATIONS - 1)) id key_bytes (sha256 (id ++ key_bytes))
  ++ id ++ key_bytes.

Lemma compute_fingerprint_last id k : compute_fingerprint id k = sha256 (fingerprint_input id k).
Proof.
  unfold compute_fingerprint, fingerprint_input.
  change (Z.to_nat FINGERPRINT_ITERATIONS) with (S (Z.to_nat (FINGERPRINT_ITERATIONS - 1))).
  by rewrite fingerprint_loop_last, fingerprint_round_app, sha_update_app.
Qed.

Lemma fingerprint_input_view id k :
  exists d, zlen d = 32 /\ fingerprint_input id k = d ++ id ++ key_layout k.
Proof.
  unfold fingerprint_input. rewrite serialize_layout. eexists. split; [|done].
  apply fingerprint_loop_len, zlen_sha_finalize.
Qed.

(** 5200 rounds are not for the unifier to unfold. *)
#[local] Opaque compute_fingerprint fingerprint_input.

(** The twelve groups of a safety number. *)
Definition number_groups (id : bytes) (k : E2ePublicKey) (id' : bytes) (k' : E2ePublicKey)
    : list bytes :=
  let fp := compute_fingerprint id k in
  let fp' := compute_fingerprint id' k' in
  if str_le id id' then map group (displayed fp) ++ map group (displayed fp')
  else map group (displayed fp') ++ map group (displayed fp).

Lemma safety_number_ok id k id' k' :
  safety_number id k id' k' = Ok (join [x20] (number_groups id k id' k')).
Proof.
  unfold safety_number, number_groups.
  pose proof (digit_groups_ok _ (fingerprint_len id k)) as [H1' _].
  pose proof (digit_groups_ok _ (fingerprint_len id' k')) as [H2' _].
  destruct (str_le id id'); by rewrite H1', H2'.
Qed.

Lemma displayed_groups fp :
  zlen fp = 32 ->
  length (map group (displayed fp)) = 6%nat /\
  Forall (fun g => zlen g = 5 /\ Forall (fun b => is_digit b = true) g)
    (map group (displayed fp)).
Proof.
  intros Hl. rewrite length_map. split; [by apply digit_groups_ok|].
  apply Forall_map, Forall_true. intros c. split; [apply group_len|apply group_digits].
Qed.

Lemma number_groups_shape id k id' k' :
  length (number_groups id k id' k') = 12%nat /\
  Forall (fun g => zlen g = 5 /\ Forall (fun b => is_digit b = true) g)
    (number_groups id k id' k').
Proof.
  unfold number_groups. generalize (fingerprint_len id k) (fingerprint_len id' k').
  generalize (compute_fingerprint id k) (compute_fingerprint id' k'). intros fp fp' Hl Hl'.
  apply displayed_groups in Hl as [H1' H2'], Hl' as [H3' H4'].
  destruct (str_le id id'); rewrite length_app, H1', H3';
    (split; [done|by apply Forall_app]).
Qed.

(** Who is local does not matter when the identifiers differ. *)
Lemma number_groups_sym id k id' k' :
  id <> id' -> number_groups id k id' k' = number_groups id' k' id k.
Proof.
  intros Hne. unfold number_groups. cbv zeta.
  generalize (compute_fingerprint id k) (compute_fingerprint id' k'). intros fp fp'.
  destruct (str_le id id') eqn:H1', (str_le id' id) eqn:H2'; try reflexivity.
  - destruct Hne. by apply str_le_antisym.
  - exfalso. destruct (str_le_total id id'); congruence.
Qed.

Lemma number_groups_five id k id' k' :
  Forall (fun g => zlen g = 5) (number_groups id k id' k').
Proof.
  destruct (number_groups_shape id k id' k') as [_ Hg].
  eapply Forall_impl; [exact Hg|]. by intros g [].
Qed.

(** Equal numbers display equal groups. *)
Lemma number_join_inj id1 k1 id1' k1' id2 k2 id2' k2' :
  join [x20] (number_groups id1 k1 id1' k1') = join [x20] (number_groups id2 k2 id2' k2') ->
  number_groups id1 k1 id1' k1' = number_groups id2 k2 id2' k2'.
Proof.
  pose proof (number_groups_shape id1 k1 id1' k1') as [Hl _].
  pose proof (number_groups_shape id2 k2 id2' k2') as [Hl' _].
  pose proof (number_groups_five id1 k1 id1' k1') as Hf.
  pose proof (number_groups_five id2 k2 id2' k2') as Hf'.
  revert Hl Hl' Hf Hf'. generalize (number_groups id1 k1 id1' k1') (number_groups id2 k2 id2' k2').
  intros gs gs' Hl Hl' Hf Hf' He. apply (join_inj _ _ _ 5 Hf Hf') in He; congruence.
Qed.

(** The digits one identity contributes, whichever side it is on. *)
Lemma number_digits_eq id1 k1 id1' k1' id2 k2 id2' k2' :
  str_le id1 id1' = true -> str_le id2 id2' = true ->
  (join [x20] (number_groups id1 k1 id1' k1') = join [x20] (number_groups id2 k2 id2' k2') <->
   map group (displayed (compute_fingerprint id1 k1))
   = map group (displayed (compute_fingerprint id2 k2)) /\
   map group (displayed (compute_fingerprint id1' k1'))
   = map group (displayed (compute_fingerprint id2' k2'))).
Proof.
  intros H1' H2'. split.
  - intros He%number_join_inj. revert He. unfold number_groups. rewrite H1', H2'. cbv zeta.
    generalize (fingerprint_len id1 k1) (fingerprint_len id2 k2).
    generalize (compute_fingerprint id1 k1) (compute_fingerprint id2 k2)
      (compute_fingerprint id1' k1') (compute_fingerprint id2' k2').
    intros f1 f2 f3 f4 Hl Hl' He. apply displayed_groups in Hl as [Hl _], Hl' as [Hl' _].
    apply app_inj_1 in He as [? ?]; [by split|lia].
  - unfold number_groups. rewrite H1', H2'. cbv zeta. by intros [-> ->].
Qed.
End fingerprint_laws.

(** Key pinning: [verify_key_unchanged] accepts a fetched key bundle exactly
    when all three of its parts are the pinned ones, and reports any other
    bundle as [IdentityKeyChanged] with the identifier it was asked about. *)
Lemma verify_key_unchanged_spec id pinned fetched :
  E2ePublicKey_ok pinned -> E2ePublicKey_ok fetched ->
  (verify_key_unchanged id pinned fetched = Ok tt
   <-> serialize_public_key pinned = serialize_public_key fetched) /\
  (serialize_public_key pinned <> serialize_public_key fetched
   <-> verify_key_unchanged id pinned fetched = Err (IdentityKeyChanged id)).
Proof.
  intros Hp Hf. rewrite !serialize_layout. unfold verify_key_unchanged.
  assert (key_layout pinned = key_layout fetched -> pinned = fetched) as Hinj.
  { intros Hl. by apply (key_layout_inj pinned fetched [] []); rewrite ?app_nil_r. }
  case_bool_decide as Hk; [by subst|]. split; split; try done.
  - intros Hl. by destruct (Hk (Hinj Hl)).
  - intros _ Hl. by destruct (Hk (Hinj Hl)).
Qed.

#[local] Opaque compute_fingerprint fingerprint_input.

(** ** Properties *)

(** C38. Functional behaviour: whatever the identities, [safety_number] does not
    panic and returns twelve groups of exactly five decimal digits (leading
    zeros kept), separated by single spaces, 71 bytes in all; read as numbers
    the groups are the successive five-byte big-endian chunks of the two
    fingerprints modulo 100000, the fingerprint of the smaller identifier
    first. *)
Theorem safety_number_shape `{Sha256Laws} id k id' k' :
  exists s groups, safety_number id k id' k' = Ok s /\ s = join [x20] groups /\
    length groups = 12%nat /\
    Forall (fun g => zlen g = 5 /\ Forall (fun b => is_digit b = true) g) groups /\
    zlen s = 71 /\
    let fp := compute_fingerprint id k in
    let fp' := compute_fingerprint id' k' in
    map dec_value groups
    = map (fun chunk => from_be_bytes chunk mod 100000)
        (if str_le id id' then displayed fp ++ displayed fp' else displayed fp' ++ displayed fp).
Proof.
  exists (join [x20] (number_groups id k id' k')), (number_groups id k id' k').
  rewrite safety_number_ok. destruct (number_groups_shape id k id' k') as [Hl Hg].
  split; [reflexivity|]. split; [reflexivity|]. split; [exact Hl|]. split; [exact Hg|]. split.
  - rewrite (zlen_join _ _ 5); [by rewrite Hl|apply number_groups_five|].
    intros Hn. by rewrite Hn in Hl.
  - unfold number_groups. cbv zeta. generalize (compute_fingerprint id k) (compute_fingerprint id' k').
    intros fp fp'. destruct (str_le id id'); by rewrite map_app, !map_dec_value, map_app.
Qed.

(** C33. Both users see the same number: with different identifiers,
    [safety_number] does not depend on who is local. With equal identifiers it
    does: the two orders then agree exactly when the two keys display the same
    digits. *)
Theorem safety_number_symmetric `{Sha256Laws} id k id' k' :
  (id <> id' -> safety_number id k id' k' = safety_number id' k' id k) /\
  (safety_number id k id k' = safety_number id k' id k <->
   map group (displayed (compute_fingerprint id k))
   = map group (displayed (compute_fingerprint id k'))).
Proof.
  rewrite !safety_number_ok. split.
  - intros Hne. by rewrite number_groups_sym.
  - pose proof (number_groups_five id k id k') as Hf. pose proof (number_groups_five id k' id k) as Hf'.
    unfold number_groups in *. rewrite str_le_refl in *.
    revert Hf Hf'. generalize (fingerprint_len id k) (fingerprint_len id k').
    generalize (compute_fingerprint id k) (compute_fingerprint id k'). intros fp fp' Hl Hl' Hf Hf'.
    apply displayed_groups in Hl as [Hl _], Hl' as [Hl' _]. split; [|by intros ->].
    intros [= He]. apply (join_inj _ _ _ 5) in He; [|done|done|rewrite !length_app; lia].
    apply app_inj_1 in He as [? _]; [done|lia].
Qed.

(** C34. What a matching number means: if two users with different identifiers
    compare their numbers and they are equal, then for each of the two
    identities the keys they hold display the same thirty digits. *)
Theorem safety_number_match `{Sha256Laws} a b ka kb ka' kb' :
  a <> b ->
  safety_number a ka b kb' = safety_number b kb a ka' ->
  map group (displayed (compute_fingerprint a ka))
  = map group (displayed (compute_fingerprint a ka')) /\
  map group (displayed (compute_fingerprint b kb))
  = map group (displayed (compute_fingerprint b kb')).
Proof.
  intros Hne. rewrite !safety_number_ok. intros [= He].
  apply number_join_inj in He. revert He. unfold number_groups.
  generalize (fingerprint_len a ka) (fingerprint_len a ka') (fingerprint_len b kb)
    (fingerprint_len b kb').
  generalize (compute_fingerprint a ka) (compute_fingerprint a ka') (compute_fingerprint b kb)
    (compute_fingerprint b kb'). intros f1 f2 f3 f4 H1' H2' H3' H4' He.
  apply displayed_groups in H1' as [H1' _], H2' as [H2' _], H3' as [H3' _], H4' as [H4' _].
  destruct (str_le a b) eqn:Hab, (str_le b a) eqn:Hba.
  - destruct Hne. by apply str_le_antisym.
  - apply app_inj_1 in He as [? ?]; [by split|lia].
  - apply app_inj_1 in He as [? ?]; [by split|lia].
  - exfalso. destruct (str_le_total a b); congruence.
Qed.

(** C35. A fingerprint covers its whole input: two identities with the same
    fingerprint have the same identifier and the same three keys, or the
    strings their last rounds hash are a collision of SHA-256. *)
Theorem fingerprint_binding `{Sha256Laws} id k id' k' :
  E2ePublicKey_ok k -> E2ePublicKey_ok k' ->
  compute_fingerprint id k = compute_fingerprint id' k' ->
  (id = id' /\ k = k') \/ collision (fingerprint_input id k) (fingerprint_input id' k').
Proof.
  intros Hk Hk'. rewrite !compute_fingerprint_last. intros He%equal_or_collision.
  destruct He as [Heq|]; [left|by right].
  destruct (fingerprint_input_view id k) as (d & Hd & H1').
  destruct (fingerprint_input_view id' k') as (d' & Hd' & H2'). rewrite H1', H2' in Heq.
  apply zlen_inj_app in Heq as [_ Heq]; [|congruence].
  pose proof (f_equal zlen Heq) as Hlen. rewrite !zlen_app, !zlen_key_layout in Hlen by done.
  apply zlen_inj_app in Heq as [-> Heq]; [|lia]. split; [done|].
  by apply (key_layout_inj k k' [] []); rewrite ?app_nil_r.
Qed.
