(* ===== verification/Protocol.v ===== *)
(** * The layers together

    How the modules compose the way the crate's documentation tells a caller
    to use them: the handshake's keys given to two codecs, and one user
    message from the sender's plaintext to the recipient's. *)
From S2P Require Import Prelude RustStd Sizes Errors Header PacketType Common MessagePayloads.
From S2P Require Import E2eKeyPayloads Payloads Primitives Codec Stream Session E2e.

Section transport.
Context `{AeadLaws} {R W : Type} `{InputStreamLaws R, OutputStreamLaws W}.

(** A payload of type [t] written by [cs] reaches the reader of [cr]. *)
Definition carries (cs cr : PacketCodec) (t : PacketType) (body : bytes) : Prop :=
  exists wire,
    (forall w : W, exists cs' w',
       PacketCodec_write_packet t x00 body (cs, w) = (Ok tt, (cs', w')) /\
       written w' = written w ++ wire) /\
    (forall (r : R) rest, pending r = wire ++ rest ->
       exists pkt cr' r',
         PacketCodec_read_packet (cr, r) = (Ok pkt, (cr', r')) /\ pending r' = rest /\
         packet_type (header pkt) = PacketType_as_u8 t /\ payload pkt = body).

Lemma linked_carries cs cr t body :
  linked cs cr -> next_send_seq cs < u64_max -> zlen body <= PacketType_max_payload_size t ->
  carries cs cr t body.
Proof.
  intros Hlk Hn Hl.
  destruct (deliver_one (R := R) (W := W) cs cr (mk_outgoing t x00 body) Hlk)
    as (wire & Hw & Hr); [by split|done|].
  exists wire. split.
  - intros w. destruct (Hw w) as (w' & ? & ?). eauto.
  - intros r rest Hp. destruct (Hr r rest Hp) as (r' & ? & ?). do 3 eexists. done.
Qed.
End transport.

(** The blob can be sent as the content of a [SendMessage] packet: it is encoded
    and passes the size check of its type. *)
Definition fits_in_message (mid : Z) (rid blob : bytes) : Prop :=
  exists bs,
    SendMessagePayload_encode
      {| sm_message_id := mid; sm_recipient_id := rid; sm_content := blob |} = Ok bs /\
    PacketType_validate_payload_size SendMessage (zlen bs) = Ok tt.

(** ** Properties *)

(** A completed handshake gives a working channel: take any two codecs that
    agree so far in both directions, the keys the two sides of the handshake
    derive, and give them to the codecs as documented (the client sends with
    [client_to_server] and receives with [server_to_client], the server the
    other way round); then both directions are in session, agree on their key,
    use the keys the right way round, and deliver any list of conforming
    packets intact and in order. *)
Lemma handshake_secures_channel
    `{AeadLaws, HkdfLaws, X25519Laws, MlKemLaws} {R W} `{InputStreamLaws R, OutputStreamLaws W}
    a dk b coins (cc cs : PacketCodec) :
  kem_agrees dk coins -> linked cc cs -> linked cs cc ->
  exists client server keys,
    ClientHandshakeState_generate a dk = Ok client /\
    ServerHandshakeState_respond b coins (chs_x25519_public client) (chs_ml_kem_ek client)
    = Ok server /\
    ClientHandshakeState_derive_session_keys client (shs_x25519_public server)
      (shs_ml_kem_ciphertext server) = Ok keys /\
    let skeys := shs_session_keys server in
    let cc' := PacketCodec_establish_session cc (client_to_server keys) (server_to_client keys) in
    let cs' := PacketCodec_establish_session cs (server_to_client skeys) (client_to_server skeys) in
    in_session cc' = true /\ in_session cs' = true /\ linked cc' cs' /\ linked cs' cc' /\
    forall t body,
      zlen body <= PacketType_max_payload_size t ->
      (next_send_seq cc < u64_max -> carries (R := R) (W := W) cc' cs' t body) /\
      (next_send_seq cs < u64_max -> carries (R := R) (W := W) cs' cc' t body).
Proof.
  intros Hag Hl1 Hl2.
  destruct (respond_ok b coins (x25519_public_of a) _ _
    (kem_ek_roundtrip (kem_ek_of dk)) (zlen_kem_ek _)) as (keys & Hr & [Hk1 Hk2] & _).
  pose proof (key_agreement a dk b coins _ Hag Hr) as Hd.
  exists (client_state a dk). do 2 eexists. split; [apply generate_ok|].
  split; [exact Hr|]. split; [exact Hd|]. cbn [shs_session_keys]. cbv zeta.
  pose proof (linked_establish _ _ (client_to_server keys) (server_to_client keys) Hl1 Hk1) as L1.
  pose proof (linked_establish _ _ (server_to_client keys) (client_to_server keys) Hl2 Hk2) as L2.
  split; [done|]. split; [done|]. split; [exact L1|]. split; [exact L2|].
  intros t body Hb. split; intros Hn; by apply linked_carries.
Qed.

(** C39. Capacity of a message: the blob of an encrypted message fits in a
    [SendMessage] packet, and is encoded and accepted by the type's size check,
    exactly when recipient identifier and plaintext together take at most
    61065 bytes. *)
Theorem message_capacity `{AeadLaws, HkdfLaws, X25519Laws, MlKemLaws, MlDsaLaws}
    eph coins rng plaintext pk ek_bytes seed blob mid rid :
  zlen ek_bytes = ML_KEM_768_EK_SIZE -> zlen seed = 32 ->
  (forall nonce, rng = Some nonce -> zlen nonce = NONCE_LEN) ->
  encrypt_and_sign eph coins rng plaintext pk ek_bytes seed = Ok blob ->
  is_u64 mid -> is_str rid ->
  fits_in_message mid rid blob <-> zlen rid + zlen plaintext <= 61065.
Proof.
  intros Hek Hs Hrng He Hmid Hrid. unfold fits_in_message.
  set (p := mk_SendMessagePayload mid rid blob).
  assert (zlen blob = MIN_BLOB_LEN + zlen plaintext) as Hl by by eapply encrypt_len.
  assert (payload_ok (A := payload_type SendMessage) p) as Hok by done.
  change (SendMessagePayload_encode p) with (payload_encode (A := payload_type SendMessage) p).
  assert (within_budget SendMessage p <-> zlen rid + zlen plaintext <= 61065) as <-.
  { unfold within_budget. cbn. rewrite Hl. unfold MIN_BLOB_LEN, AES_NONCE_END, ML_KEM_CT_END, SENDER_X25519_END,
      ML_KEM_768_CT_SIZE, NONCE_LEN, GCM_TAG_LEN, ML_DSA_65_SIG_SIZE. lia. }
  rewrite <- (layout_within SendMessage p Hok). unfold PacketType_validate_payload_size. split.
  - intros (bs & [_ ->]%encode_iff & Hv).
    destruct (Z.ltb_spec (PacketType_max_payload_size SendMessage)
      (zlen (payload_layout (A := payload_type SendMessage) p))); [done|lia].
  - intros Hw. exists (payload_layout (A := payload_type SendMessage) p).
    split; [apply encode_iff; split; [|done]|].
    + by apply within_fits, layout_within.
    + by destruct (Z.ltb_spec (PacketType_max_payload_size SendMessage)
        (zlen (payload_layout (A := payload_type SendMessage) p))); [lia|].
Qed.

(** C27. One message, end to end: a plaintext the capacity allows, encrypted for
    a recipient's generated key, is carried as a [SendMessage] packet from the
    sender's codec to the server's, decodes there to the sender's payload, is
    carried on in a [DeliverMessage] packet with the same opaque blob from the
    server's codec to the recipient's, decodes there, and decrypts and
    verifies with the recipient's secret and the sender's verifying key to the
    plaintext. *)
Theorem message_end_to_end
    `{AeadLaws, HkdfLaws, X25519Laws, MlKemLaws, MlDsaLaws}
    {R W} `{InputStreamLaws R, OutputStreamLaws W}
    (ca sa sb cb : PacketCodec) a seed dsa b seed' dsa' eph coins nonce plaintext mid rid sid :
  linked ca sa -> linked sb cb -> next_send_seq ca < u64_max -> next_send_seq sb < u64_max ->
  zlen seed = 64 -> zlen seed' = 64 -> zlen nonce = NONCE_LEN ->
  kem_agrees (kem_from_seed seed) coins ->
  is_u64 mid -> is_str rid -> is_str sid ->
  zlen rid + zlen plaintext <= 61065 -> zlen sid + zlen plaintext <= 61065 ->
  exists rsk rpk ssk spk blob sent delivered,
    generate_e2e_keypair a (Some seed) dsa = Ok (rsk, rpk) /\
    generate_e2e_keypair b (Some seed') dsa' = Ok (ssk, spk) /\
    encrypt_and_sign eph coins (Some nonce) plaintext (x25519_public rpk) (ml_kem_ek rpk)
      (esk_dsa_signing_seed ssk) = Ok blob /\
    let sm := mk_SendMessagePayload mid rid blob in
    let dm := mk_DeliverMessagePayload mid sid blob in
    SendMessagePayload_encode sm = Ok sent /\
    carries (R := R) (W := W) ca sa SendMessage sent /\
    SendMessagePayload_decode sent = Ok sm /\
    DeliverMessagePayload_encode dm = Ok delivered /\
    carries (R := R) (W := W) sb cb DeliverMessage delivered /\
    DeliverMessagePayload_decode delivered = Ok dm /\
    verify_and_decrypt (dm_content dm) (esk_x25519_secret rsk) (esk_ml_kem_seed rsk)
      (dsa_verifying_key spk) = Ok plaintext.
Proof.
  intros L1 L2 N1 N2 Hs Hs' Hn Hag Hmid Hrid Hsid Hr Hd.
  pose proof (zlen_nonneg rid). pose proof (zlen_nonneg plaintext).
  destruct (e2e_delivery a seed dsa b seed' dsa' eph coins nonce plaintext Hs Hn)
    as (blob & He & Hl & Hv); [unfold AEAD_MAX; lia|done|].
  assert (zlen blob = 4457 + zlen plaintext) as Hl' by (rewrite Hl; reflexivity).
  set (sm := mk_SendMessagePayload mid rid blob). set (dm := mk_DeliverMessagePayload mid sid blob).
  assert (payload_ok (A := payload_type SendMessage) sm) as Ok1 by done.
  assert (payload_ok (A := payload_type DeliverMessage) dm) as Ok2 by done.
  assert (within_budget SendMessage sm) as W1 by (left; cbn; lia).
  assert (within_budget DeliverMessage dm) as W2 by (left; cbn; lia).
  pose proof (within_fits _ _ W1) as F1. pose proof (within_fits _ _ W2) as F2.
  exists (secret_key a seed dsa), (public_key a seed dsa), (secret_key b seed' dsa'),
    (public_key b seed' dsa'), blob, (payload_layout sm), (payload_layout dm).
  split; [by apply generate_keypair_ok|]. split; [by apply generate_keypair_ok|].
  split; [exact He|]. cbv zeta. split_and!; [| | | | | |exact Hv].
  - exact (proj2 (encode_iff (A := SendMessagePayload) sm _) (conj F1 eq_refl)).
  - apply linked_carries; [done..|]. exact (proj2 (layout_within SendMessage sm Ok1) W1).
  - exact (decode_layout (A := SendMessagePayload) sm Ok1 F1).
  - exact (proj2 (encode_iff (A := DeliverMessagePayload) dm _) (conj F2 eq_refl)).
  - apply linked_carries; [done..|]. exact (proj2 (layout_within DeliverMessage dm Ok2) W2).
  - exact (decode_layout (A := DeliverMessagePayload) dm Ok2 F2).
Qed.
