(* ===== verification/Testing.v ===== *)
(** * Rust's test functions

    A [#[test]] function returns unit or panics: [assert!], [assert_eq!],
    [unwrap] and an index out of range panic. A test passes when it returns. *)
From Stdlib Require Import String Strings.Byte.
From S2P Require Import Prelude RustStd.

Abbreviation test := (outcome Empty_set unit).

Definition passes (t : test) : Prop := t = Ok tt.

(** [unwrap] on a [Result] *)
Definition unwrap {E A} (o : outcome E A) : outcome Empty_set A :=
  match o with Ok a => Ok a | Err _ | Panic => Panic end.

(** [assert!(b)]; the operand may itself panic. *)
Definition assert (b : outcome Empty_set bool) : test :=
  match b with Ok true => Ok tt | _ => Panic end.
Definition assert_eq {A} `{EqDecision A} (a b : A) : test := assert (Ok (bool_decide (a = b))).
Definition assert_ne {A} `{EqDecision A} (a b : A) : test :=
  assert (Ok (negb (bool_decide (a = b)))).

(** [Result::is_ok], [Result::is_err] *)
Definition is_ok {E A} (o : outcome E A) : outcome Empty_set bool :=
  match o with Ok _ => Ok true | Err _ => Ok false | Panic => Panic end.
Definition is_err {E A} (o : outcome E A) : outcome Empty_set bool :=
  match o with Ok _ => Ok false | Err _ => Ok true | Panic => Panic end.

(** [matches!(o, Err(pattern))] *)
Definition err_matches {E A} (pattern : E -> bool) (o : outcome E A) : outcome Empty_set bool :=
  match o with Ok _ => Ok false | Err e => Ok (pattern e) | Panic => Panic end.

(** [for x in xs { .. }] *)
Fixpoint for_each {A} (xs : list A) (body : A -> test) : test :=
  match xs with [] => mret tt | x :: xs' => body x;; for_each xs' body end.

(** [".."] as bytes, [[b; n]], [Vec::truncate], [*v.last_mut().unwrap() = b] *)
Definition str (s : string) : bytes := list_byte_of_string s.
Definition filled (b : byte) (n : Z) : bytes := repeat b (Z.to_nat n).
Definition truncate (v : bytes) (n : Z) : bytes := take (Z.to_nat n) v.
Definition set_last (v : bytes) (b : byte) : outcome Empty_set bytes :=
  set_index v (zlen v - 1) b.

Lemma assert_is_ok {E A} (o : outcome E A) : passes (assert (is_ok o)) <-> exists a, o = Ok a.
Proof. unfold passes. destruct o; cbn; split; eauto; (done || by intros [? [=]]). Qed.
Lemma assert_is_err {E A} (o : outcome E A) : passes (assert (is_err o)) <-> exists e, o = Err e.
Proof. unfold passes. destruct o; cbn; split; eauto; (done || by intros [? [=]]). Qed.
Lemma assert_eq_passes {A} `{EqDecision A} (a b : A) : passes (assert_eq a b) <-> a = b.
Proof. unfold passes, assert_eq. case_bool_decide; cbn; naive_solver. Qed.
Lemma assert_ne_passes {A} `{EqDecision A} (a b : A) : passes (assert_ne a b) <-> a <> b.
Proof. unfold passes, assert_ne. case_bool_decide; cbn; naive_solver. Qed.
Lemma passes_bind (t t' : test) : passes (t;; t') <-> passes t /\ passes t'.
Proof.
  unfold passes. destruct t as [[]|[]|]; [|by cbn; split; [|intros []]].
  split; [by split|by intros []].
Qed.
