(* ===== verification/PayloadTests.v ===== *)
(** * The unit tests of the payload modules

    Each [#[test]] function of [payloads/*_payloads.rs], translated statement
    by statement ([Testing]) and run on the model. They are the repository's
    own expectations of the encoders and decoders, so they also test that the
    model is the code. The two tests that use the signature scheme are in
    [CryptoTests]. *)
From Stdlib Require Import String.
From S2P Require Import Prelude RustStd Sizes Common PingPayloads ErrorPayloads ClosePayloads.
From S2P Require Import RegistrationPayloads AccountPayloads HelloPayloads AuthPayloads.
From S2P Require Import MessagePayloads QueuePayloads FriendPayloads E2eKeyPayloads Testing.

(** [#[derive(PartialEq)]], for [assert_eq!] *)
#[export] Instance CloseReason_eq_dec : EqDecision CloseReason.
Proof. solve_decision. Defined.
#[export] Instance MessageStatus_eq_dec : EqDecision MessageStatus.
Proof. solve_decision. Defined.
#[export] Instance FriendRequestStatus_eq_dec : EqDecision FriendRequestStatus.
Proof. solve_decision. Defined.
#[export] Instance RemoveFriendStatus_eq_dec : EqDecision RemoveFriendStatus.
Proof. solve_decision. Defined.
#[export] Instance FriendStatus_eq_dec : EqDecision FriendStatus.
Proof. solve_decision. Defined.
#[export] Instance ErrorPayload_eq_dec : EqDecision ErrorPayload.
Proof. solve_decision. Defined.
#[export] Instance ClosePayload_eq_dec : EqDecision ClosePayload.
Proof. solve_decision. Defined.
#[export] Instance RegisterDevicePayload_eq_dec : EqDecision RegisterDevicePayload.
Proof. solve_decision. Defined.
#[export] Instance RegisterResponsePayload_eq_dec : EqDecision RegisterResponsePayload.
Proof. solve_decision. Defined.
#[export] Instance QueryAccountStatusPayload_eq_dec : EqDecision QueryAccountStatusPayload.
Proof. solve_decision. Defined.
#[export] Instance AccountStatusResponsePayload_eq_dec : EqDecision AccountStatusResponsePayload.
Proof. solve_decision. Defined.
#[export] Instance AuthChallengePayload_eq_dec : EqDecision AuthChallengePayload.
Proof. solve_decision. Defined.
#[export] Instance AuthResponsePayload_eq_dec : EqDecision AuthResponsePayload.
Proof. solve_decision. Defined.
#[export] Instance ClientHelloPayload_eq_dec : EqDecision ClientHelloPayload.
Proof. solve_decision. Defined.
#[export] Instance ServerHelloPayload_eq_dec : EqDecision ServerHelloPayload.
Proof. solve_decision. Defined.
#[export] Instance SendMessagePayload_eq_dec : EqDecision SendMessagePayload.
Proof. solve_decision. Defined.
#[export] Instance DeliverMessagePayload_eq_dec : EqDecision DeliverMessagePayload.
Proof. solve_decision. Defined.
#[export] Instance MessageStatusUpdatePayload_eq_dec : EqDecision MessageStatusUpdatePayload.
Proof. solve_decision. Defined.
#[export] Instance DeliveryReceiptPayload_eq_dec : EqDecision DeliveryReceiptPayload.
Proof. solve_decision. Defined.
#[export] Instance FetchQueuedMessagesPayload_eq_dec : EqDecision FetchQueuedMessagesPayload.
Proof. solve_decision. Defined.
#[export] Instance QueuedMessageDeliveryPayload_eq_dec : EqDecision QueuedMessageDeliveryPayload.
Proof. solve_decision. Defined.
#[export] Instance AckQueuedMessagePayload_eq_dec : EqDecision AckQueuedMessagePayload.
Proof. solve_decision. Defined.
#[export] Instance SendFriendRequestPayload_eq_dec : EqDecision SendFriendRequestPayload.
Proof. solve_decision. Defined.
#[export] Instance FriendRequestResultPayload_eq_dec : EqDecision FriendRequestResultPayload.
Proof. solve_decision. Defined.
#[export] Instance IncomingFriendRequestPayload_eq_dec : EqDecision IncomingFriendRequestPayload.
Proof. solve_decision. Defined.
#[export] Instance FriendRequestDecisionPayload_eq_dec : EqDecision FriendRequestDecisionPayload.
Proof. solve_decision. Defined.
#[export] Instance RemoveFriendPayload_eq_dec : EqDecision RemoveFriendPayload.
Proof. solve_decision. Defined.
#[export] Instance RemoveFriendResultPayload_eq_dec : EqDecision RemoveFriendResultPayload.
Proof. solve_decision. Defined.
#[export] Instance FriendRemovedNotificationPayload_eq_dec : EqDecision FriendRemovedNotificationPayload.
Proof. solve_decision. Defined.
#[export] Instance FriendStatusUpdatePayload_eq_dec : EqDecision FriendStatusUpdatePayload.
Proof. solve_decision. Defined.
#[export] Instance SendTypingIndicatorPayload_eq_dec : EqDecision SendTypingIndicatorPayload.
Proof. solve_decision. Defined.
#[export] Instance PublishE2eKeyPayload_eq_dec : EqDecision PublishE2eKeyPayload.
Proof. solve_decision. Defined.
#[export] Instance PublishE2eKeyResultPayload_eq_dec : EqDecision PublishE2eKeyResultPayload.
Proof. solve_decision. Defined.
#[export] Instance FetchE2eKeyPayload_eq_dec : EqDecision FetchE2eKeyPayload.
Proof. solve_decision. Defined.
#[export] Instance E2eKeyResponsePayload_eq_dec : EqDecision E2eKeyResponsePayload.
Proof. solve_decision. Defined.

(** ** [error_payloads.rs] *)

Definition test_error_payload_roundtrip : test :=
  let payload := mk_ErrorPayload (str "protocol violation") in
  encoded ← unwrap (ErrorPayload_encode payload);
  decoded ← unwrap (ErrorPayload_decode encoded);
  assert_eq (error_message decoded) (error_message payload).

Definition test_error_payload_rejects_trailing_bytes : test :=
  encoded ← unwrap (ErrorPayload_encode (mk_ErrorPayload (str "bad")));
  let encoded := encoded ++ [x00] in
  assert (is_err (ErrorPayload_decode encoded)).

(** ** [close_payloads.rs] *)

Definition test_close_payload_roundtrip : test :=
  let payload := mk_ClosePayload CloseReason_ClientRequest (str "done") in
  encoded ← unwrap (ClosePayload_encode payload);
  decoded ← unwrap (ClosePayload_decode encoded);
  assert_eq decoded payload.

Definition test_close_payload_rejects_trailing_bytes : test :=
  encoded ← unwrap (ClosePayload_encode (mk_ClosePayload CloseReason_ProtocolError
      (str "bad frame")));
  let encoded := encoded ++ [x00] in
  assert (is_err (ClosePayload_decode encoded)).

(** ** [registration_payloads.rs] *)

Definition test_register_device_roundtrip : test :=
  let payload := mk_RegisterDevicePayload (str "alice") in
  encoded ← unwrap (RegisterDevicePayload_encode payload);
  decoded ← unwrap (RegisterDevicePayload_decode encoded);
  assert_eq decoded payload.

Definition test_register_device_rejects_trailing_bytes : test :=
  encoded ← unwrap (RegisterDevicePayload_encode (mk_RegisterDevicePayload (str "bob")));
  let encoded := encoded ++ [x00] in
  assert (is_err (RegisterDevicePayload_decode encoded)).

Definition test_register_response_roundtrip_success : test :=
  let payload := mk_RegisterResponsePayload true (str "ok") in
  encoded ← unwrap (RegisterResponsePayload_encode payload);
  decoded ← unwrap (RegisterResponsePayload_decode encoded);
  assert_eq decoded payload.

Definition test_register_response_roundtrip_failure : test :=
  let payload := mk_RegisterResponsePayload false (str "username taken") in
  encoded ← unwrap (RegisterResponsePayload_encode payload);
  decoded ← unwrap (RegisterResponsePayload_decode encoded);
  assert_eq decoded payload.

Definition test_register_response_rejects_non_canonical_boolean : test :=
  encoded ← unwrap (RegisterResponsePayload_encode (mk_RegisterResponsePayload true []));
  encoded ← set_index encoded 0 x02;
  assert (is_err (RegisterResponsePayload_decode encoded)).

Definition test_register_response_rejects_empty_payload : test :=
  assert (is_err (RegisterResponsePayload_decode [])).

(** ** [account_payloads.rs] *)

Definition test_query_account_status_roundtrip : test :=
  let payload := mk_QueryAccountStatusPayload in
  let encoded := QueryAccountStatusPayload_encode payload in
  decoded ← unwrap (QueryAccountStatusPayload_decode encoded);
  assert_eq decoded payload.

Definition test_query_account_status_rejects_nonempty_payload : test :=
  assert (is_err (QueryAccountStatusPayload_decode [x00])).

Definition test_account_status_response_roundtrip_not_banned : test :=
  let payload := mk_AccountStatusResponsePayload false [] true 1900000000 in
  encoded ← unwrap (AccountStatusResponsePayload_encode payload);
  decoded ← unwrap (AccountStatusResponsePayload_decode encoded);
  assert_eq decoded payload.

Definition test_account_status_response_roundtrip_banned_with_reason : test :=
  let payload := mk_AccountStatusResponsePayload true (str "spam") false 0 in
  encoded ← unwrap (AccountStatusResponsePayload_encode payload);
  decoded ← unwrap (AccountStatusResponsePayload_decode encoded);
  assert_eq decoded payload.

Definition test_account_status_response_rejects_empty_payload : test :=
  assert (is_err (AccountStatusResponsePayload_decode [])).

Definition test_account_status_response_rejects_non_canonical_boolean : test :=
  encoded ← unwrap (AccountStatusResponsePayload_encode
      (mk_AccountStatusResponsePayload false [] true 0));
  encoded ← set_index encoded 0 x07;
  assert (is_err (AccountStatusResponsePayload_decode encoded)).

Definition test_account_status_response_rejects_trailing_bytes : test :=
  encoded ← unwrap (AccountStatusResponsePayload_encode
      (mk_AccountStatusResponsePayload false [] true 0));
  let encoded := encoded ++ [x00] in
  assert (is_err (AccountStatusResponsePayload_decode encoded)).

Definition test_account_status_response_rejects_truncated_subscription_fields : test :=
  let payload := mk_AccountStatusResponsePayload false [] true 0 in
  encoded ← unwrap (AccountStatusResponsePayload_encode payload);
  let encoded := truncate encoded (zlen encoded - 1) in
  assert (is_err (AccountStatusResponsePayload_decode encoded)).

(** ** [auth_payloads.rs] *)

Definition test_auth_challenge_roundtrip : test :=
  let p := mk_AuthChallengePayload (filled xab 32) in
  let enc := AuthChallengePayload_encode p in
  assert_eq (zlen enc) 32;;
  dec ← unwrap (AuthChallengePayload_decode enc);
  assert_eq dec p.

Definition test_auth_response_roundtrip_with_attestation : test :=
  let p := mk_AuthResponsePayload (filled x01 ML_DSA_65_VK_SIZE) (filled x02 ML_DSA_65_SIG_SIZE)
      [xde; xad; xbe; xef] in
  enc ← unwrap (AuthResponsePayload_encode p);
  dec ← unwrap (AuthResponsePayload_decode enc);
  assert_eq dec p.

Definition test_auth_response_roundtrip_empty_attestation : test :=
  let p := mk_AuthResponsePayload (filled x03 ML_DSA_65_VK_SIZE)
      (filled x04 ML_DSA_65_SIG_SIZE) [] in
  enc ← unwrap (AuthResponsePayload_encode p);
  dec ← unwrap (AuthResponsePayload_decode enc);
  assert_eq dec p.

Definition test_auth_accept_rejects_nonempty : test :=
  assert (is_err (AuthAcceptPayload_decode [x00])).

Definition test_auth_reject_rejects_nonempty : test :=
  assert (is_err (AuthRejectPayload_decode [x00])).

(** ** [hello_payloads.rs] *)

Definition test_client_hello_roundtrip : test :=
  let payload := mk_ClientHelloPayload (str "device-abc") (filled x01 32)
      (filled x02 ML_KEM_768_EK_SIZE) in
  encoded ← unwrap (ClientHelloPayload_encode payload);
  decoded ← unwrap (ClientHelloPayload_decode encoded);
  assert_eq decoded payload.

Definition test_server_hello_roundtrip : test :=
  let payload := mk_ServerHelloPayload (str "chatix-server-1") (filled xaa 32)
      (filled xbb ML_KEM_768_CT_SIZE) (filled xcc ML_DSA_65_SIG_SIZE) in
  encoded ← unwrap (ServerHelloPayload_encode payload);
  decoded ← unwrap (ServerHelloPayload_decode encoded);
  assert_eq decoded payload.

Definition test_client_hello_rejects_truncated_key_material : test :=
  id_only ← unwrap (encode_sized_string (str "dev"));
  assert (is_err (ClientHelloPayload_decode id_only)).

Definition test_client_finish_rejects_non_canonical_boolean : test :=
  assert (is_err (ClientFinishPayload_decode [x02])).

Definition test_server_accept_rejects_non_canonical_boolean : test :=
  assert (is_err (ServerAcceptPayload_decode [xff])).

(** ** [message_payloads.rs] *)

Definition test_send_message_roundtrip : test :=
  let payload := mk_SendMessagePayload 1001 (str "bob-1") [x00; x9f; xff; x2a] in
  encoded ← unwrap (SendMessagePayload_encode payload);
  decoded ← unwrap (SendMessagePayload_decode encoded);
  assert_eq decoded payload.

Definition test_send_message_rejects_trailing_bytes : test :=
  encoded ← unwrap (SendMessagePayload_encode (mk_SendMessagePayload 1 (str "bob")
      [x01; x02; x03]));
  let encoded := encoded ++ [x00] in
  assert (is_err (SendMessagePayload_decode encoded)).

Definition test_send_message_rejects_truncated_message_id : test :=
  assert (is_err (SendMessagePayload_decode [x00; x01; x02])).

Definition test_deliver_message_roundtrip : test :=
  let payload := mk_DeliverMessagePayload 9999 (str "alice") [x07; x08; x09] in
  encoded ← unwrap (DeliverMessagePayload_encode payload);
  decoded ← unwrap (DeliverMessagePayload_decode encoded);
  assert_eq decoded payload.

Definition test_message_status_update_roundtrip_all_statuses : test :=
  for_each [MessageStatus_SentToServer; MessageStatus_Delivered; MessageStatus_Failed] (fun
      status =>
    let p := mk_MessageStatusUpdatePayload 42 status in
    decoded ← unwrap (MessageStatusUpdatePayload_decode (MessageStatusUpdatePayload_encode p));
    assert_eq decoded p).

Definition test_message_status_update_rejects_unknown_status : test :=
  let enc := MessageStatusUpdatePayload_encode
      (mk_MessageStatusUpdatePayload 1 MessageStatus_Delivered) in
  enc ← set_last enc x09;
  assert (is_err (MessageStatusUpdatePayload_decode enc)).

Definition test_message_status_update_rejects_wrong_length : test :=
  assert (is_err (MessageStatusUpdatePayload_decode (filled x00 8)));;
  assert (is_err (MessageStatusUpdatePayload_decode (filled x00 10))).

Definition test_delivery_receipt_roundtrip : test :=
  let p := mk_DeliveryReceiptPayload 777 in
  decoded ← unwrap (DeliveryReceiptPayload_decode (DeliveryReceiptPayload_encode p));
  assert_eq decoded p.

Definition test_delivery_receipt_rejects_wrong_length : test :=
  assert (is_err (DeliveryReceiptPayload_decode (filled x00 7)));;
  assert (is_err (DeliveryReceiptPayload_decode (filled x00 9))).

(** ** [queue_payloads.rs] *)

Definition test_fetch_queued_messages_roundtrip : test :=
  let payload := mk_FetchQueuedMessagesPayload in
  let encoded := FetchQueuedMessagesPayload_encode payload in
  decoded ← unwrap (FetchQueuedMessagesPayload_decode encoded);
  assert_eq decoded payload.

Definition test_fetch_queued_messages_rejects_nonempty_payload : test :=
  assert (is_err (FetchQueuedMessagesPayload_decode [x00])).

Definition test_queued_message_delivery_roundtrip_keeps_content_opaque : test :=
  let payload := mk_QueuedMessageDeliveryPayload 42 1001 (str "alice") [x00; x9f; xff; x2a] in
  encoded ← unwrap (QueuedMessageDeliveryPayload_encode payload);
  decoded ← unwrap (QueuedMessageDeliveryPayload_decode encoded);
  assert_eq decoded payload.

Definition test_queued_message_delivery_rejects_trailing_bytes : test :=
  encoded ← unwrap (QueuedMessageDeliveryPayload_encode (mk_QueuedMessageDeliveryPayload 1 2
      (str "bob") [x01; x02; x03]));
  let encoded := encoded ++ [x00] in
  assert (is_err (QueuedMessageDeliveryPayload_decode encoded)).

Definition test_queued_message_delivery_rejects_truncated_ids : test :=
  assert (is_err (QueuedMessageDeliveryPayload_decode [x00; x01; x02])).

Definition test_ack_queued_message_roundtrip : test :=
  let payload := mk_AckQueuedMessagePayload 7 in
  let encoded := AckQueuedMessagePayload_encode payload in
  decoded ← unwrap (AckQueuedMessagePayload_decode encoded);
  assert_eq decoded payload.

Definition test_ack_queued_message_rejects_wrong_length : test :=
  assert (is_err (AckQueuedMessagePayload_decode [x00; x01; x02])).

(** ** [friend_payloads.rs] *)

Definition test_send_friend_request_roundtrip : test :=
  let p := mk_SendFriendRequestPayload (str "bob") in
  encoded ← unwrap (SendFriendRequestPayload_encode p);
  decoded ← unwrap (SendFriendRequestPayload_decode encoded);
  assert_eq decoded p.

Definition test_send_friend_request_rejects_trailing_bytes : test :=
  enc ← unwrap (SendFriendRequestPayload_encode (mk_SendFriendRequestPayload (str "bob")));
  let enc := enc ++ [x00] in
  assert (is_err (SendFriendRequestPayload_decode enc)).

Definition test_friend_request_result_roundtrip_all_statuses : test :=
  for_each [FriendRequestStatus_Accepted; FriendRequestStatus_Rejected;
      FriendRequestStatus_UserNotFound] (fun status =>
    let p := mk_FriendRequestResultPayload status in
    decoded ← unwrap (FriendRequestResultPayload_decode (FriendRequestResultPayload_encode p));
    assert_eq decoded p).

Definition test_friend_request_result_rejects_unknown_status : test :=
  assert (is_err (FriendRequestResultPayload_decode [x03])).

Definition test_friend_request_result_rejects_wrong_length : test :=
  assert (is_err (FriendRequestResultPayload_decode []));;
  assert (is_err (FriendRequestResultPayload_decode [x00; x00])).

Definition test_incoming_friend_request_roundtrip : test :=
  let p := mk_IncomingFriendRequestPayload (str "alice") in
  encoded ← unwrap (IncomingFriendRequestPayload_encode p);
  decoded ← unwrap (IncomingFriendRequestPayload_decode encoded);
  assert_eq decoded p.

Definition test_friend_request_decision_roundtrip_accept : test :=
  let p := mk_FriendRequestDecisionPayload (str "alice") true in
  encoded ← unwrap (FriendRequestDecisionPayload_encode p);
  decoded ← unwrap (FriendRequestDecisionPayload_decode encoded);
  assert_eq decoded p.

Definition test_friend_request_decision_roundtrip_reject : test :=
  let p := mk_FriendRequestDecisionPayload (str "alice") false in
  encoded ← unwrap (FriendRequestDecisionPayload_encode p);
  decoded ← unwrap (FriendRequestDecisionPayload_decode encoded);
  assert_eq decoded p.

Definition test_friend_request_decision_rejects_non_canonical_bool : test :=
  enc ← unwrap (FriendRequestDecisionPayload_encode (mk_FriendRequestDecisionPayload
      (str "alice") true));
  enc ← set_last enc x07;
  assert (is_err (FriendRequestDecisionPayload_decode enc)).

Definition test_friend_request_decision_rejects_missing_bool : test :=
  enc ← unwrap (SendFriendRequestPayload_encode (mk_SendFriendRequestPayload (str "alice")));
  assert (is_err (FriendRequestDecisionPayload_decode enc)).

Definition test_remove_friend_roundtrip : test :=
  let p := mk_RemoveFriendPayload (str "bob") in
  encoded ← unwrap (RemoveFriendPayload_encode p);
  decoded ← unwrap (RemoveFriendPayload_decode encoded);
  assert_eq decoded p.

Definition test_remove_friend_result_roundtrip_all_statuses : test :=
  for_each [RemoveFriendStatus_Success; RemoveFriendStatus_NotFound] (fun status =>
    let p := mk_RemoveFriendResultPayload status in
    decoded ← unwrap (RemoveFriendResultPayload_decode (RemoveFriendResultPayload_encode p));
    assert_eq decoded p).

Definition test_remove_friend_result_rejects_unknown_status : test :=
  assert (is_err (RemoveFriendResultPayload_decode [x05])).

Definition test_friend_removed_notification_roundtrip : test :=
  let p := mk_FriendRemovedNotificationPayload (str "alice") in
  encoded ← unwrap (FriendRemovedNotificationPayload_encode p);
  decoded ← unwrap (FriendRemovedNotificationPayload_decode encoded);
  assert_eq decoded p.

Definition test_friend_status_update_roundtrip_all_statuses : test :=
  for_each [FriendStatus_Online; FriendStatus_Offline; FriendStatus_IsTyping] (fun status =>
    let p := mk_FriendStatusUpdatePayload (str "carol") status 1700000000 in
    encoded ← unwrap (FriendStatusUpdatePayload_encode p);
    decoded ← unwrap (FriendStatusUpdatePayload_decode encoded);
    assert_eq decoded p).

Definition test_friend_status_update_rejects_unknown_status : test :=
  let p := mk_FriendStatusUpdatePayload (str "carol") FriendStatus_Online 0 in
  enc ← unwrap (FriendStatusUpdatePayload_encode p);
  let username_len := 2 + zlen (str "carol") in
  enc ← set_index enc username_len x09;
  assert (is_err (FriendStatusUpdatePayload_decode enc)).

Definition test_friend_status_update_rejects_truncated_payload : test :=
  let p := mk_FriendStatusUpdatePayload (str "carol") FriendStatus_Online 0 in
  enc ← unwrap (FriendStatusUpdatePayload_encode p);
  truncated ← slice_to enc (zlen enc - 1);
  assert (is_err (FriendStatusUpdatePayload_decode truncated)).

Definition test_send_typing_indicator_roundtrip : test :=
  let p := mk_SendTypingIndicatorPayload (str "dave") in
  encoded ← unwrap (SendTypingIndicatorPayload_encode p);
  decoded ← unwrap (SendTypingIndicatorPayload_decode encoded);
  assert_eq decoded p.

(** ** [e2e_key_payloads.rs] *)

Definition sample_key : E2ePublicKey :=
  {| x25519_public := filled x01 32;
     ml_kem_ek := filled x02 ML_KEM_768_EK_SIZE;
     dsa_verifying_key := filled x03 ML_DSA_65_VK_SIZE |}.

Definition test_publish_e2e_key_roundtrip : test :=
  let payload := mk_PublishE2eKeyPayload sample_key in
  let encoded := PublishE2eKeyPayload_encode payload in
  assert_eq (zlen encoded) E2E_PUBLIC_KEY_SIZE;;
  decoded ← unwrap (PublishE2eKeyPayload_decode encoded);
  assert_eq decoded payload.

Definition test_publish_e2e_key_matches_expected_wire_size : test :=
  assert_eq E2E_PUBLIC_KEY_SIZE 3168.

Definition test_publish_e2e_key_rejects_truncated_input : test :=
  let encoded := PublishE2eKeyPayload_encode (mk_PublishE2eKeyPayload sample_key) in
  truncated ← slice_to encoded (zlen encoded - 1);
  assert (is_err (PublishE2eKeyPayload_decode truncated)).

Definition test_publish_e2e_key_rejects_trailing_bytes : test :=
  let encoded := PublishE2eKeyPayload_encode (mk_PublishE2eKeyPayload sample_key) in
  let encoded := encoded ++ [x00] in
  assert (is_err (PublishE2eKeyPayload_decode encoded)).

Definition test_publish_e2e_key_result_roundtrip_success : test :=
  let payload := mk_PublishE2eKeyResultPayload true (str "ok") in
  encoded ← unwrap (PublishE2eKeyResultPayload_encode payload);
  decoded ← unwrap (PublishE2eKeyResultPayload_decode encoded);
  assert_eq decoded payload.

Definition test_publish_e2e_key_result_roundtrip_failure : test :=
  let payload := mk_PublishE2eKeyResultPayload false (str "not authenticated") in
  encoded ← unwrap (PublishE2eKeyResultPayload_encode payload);
  decoded ← unwrap (PublishE2eKeyResultPayload_decode encoded);
  assert_eq decoded payload.

Definition test_publish_e2e_key_result_rejects_non_canonical_boolean : test :=
  encoded ← unwrap (PublishE2eKeyResultPayload_encode (mk_PublishE2eKeyResultPayload true []));
  encoded ← set_index encoded 0 x02;
  assert (is_err (PublishE2eKeyResultPayload_decode encoded)).

Definition test_publish_e2e_key_result_rejects_empty_payload : test :=
  assert (is_err (PublishE2eKeyResultPayload_decode [])).

Definition test_fetch_e2e_key_roundtrip : test :=
  let payload := mk_FetchE2eKeyPayload (str "bob") in
  encoded ← unwrap (FetchE2eKeyPayload_encode payload);
  decoded ← unwrap (FetchE2eKeyPayload_decode encoded);
  assert_eq decoded payload.

Definition test_fetch_e2e_key_rejects_trailing_bytes : test :=
  encoded ← unwrap (FetchE2eKeyPayload_encode (mk_FetchE2eKeyPayload (str "bob")));
  let encoded := encoded ++ [x00] in
  assert (is_err (FetchE2eKeyPayload_decode encoded)).

Definition test_e2e_key_response_roundtrip_found : test :=
  let payload := mk_E2eKeyResponsePayload (str "alice") (Some sample_key) in
  encoded ← unwrap (E2eKeyResponsePayload_encode payload);
  decoded ← unwrap (E2eKeyResponsePayload_decode encoded);
  assert_eq decoded payload.

Definition test_e2e_key_response_matches_expected_max_wire_size : test :=
  let payload := mk_E2eKeyResponsePayload (filled x61 128) (Some sample_key) in
  encoded ← unwrap (E2eKeyResponsePayload_encode payload);
  assert_eq (zlen encoded) 3299.

Definition test_e2e_key_response_roundtrip_not_found : test :=
  let payload := mk_E2eKeyResponsePayload (str "ghost") None in
  encoded ← unwrap (E2eKeyResponsePayload_encode payload);
  decoded ← unwrap (E2eKeyResponsePayload_decode encoded);
  assert_eq decoded payload.

Definition test_e2e_key_response_rejects_unknown_status : test :=
  encoded ← unwrap (E2eKeyResponsePayload_encode (mk_E2eKeyResponsePayload (str "alice") None));
  encoded ← set_last encoded x07;
  assert (is_err (E2eKeyResponsePayload_decode encoded)).

Definition test_e2e_key_response_rejects_missing_status_byte : test :=
  encoded ← unwrap (encode_sized_string (str "alice"));
  assert (is_err (E2eKeyResponsePayload_decode encoded)).

Definition test_e2e_key_response_rejects_truncated_key_material : test :=
  encoded ← unwrap (E2eKeyResponsePayload_encode (mk_E2eKeyResponsePayload
      (str "alice") (Some sample_key)));
  truncated ← slice_to encoded (zlen encoded - 1);
  assert (is_err (E2eKeyResponsePayload_decode truncated)).

Definition test_e2e_key_response_rejects_trailing_bytes_after_not_found : test :=
  encoded ← unwrap (E2eKeyResponsePayload_encode (mk_E2eKeyResponsePayload (str "ghost") None));
  let encoded := encoded ++ [x00] in
  assert (is_err (E2eKeyResponsePayload_decode encoded)).

(** ** Properties *)

Definition payload_tests : list test :=
  [test_error_payload_roundtrip; test_error_payload_rejects_trailing_bytes;
   test_close_payload_roundtrip; test_close_payload_rejects_trailing_bytes;
   test_register_device_roundtrip; test_register_device_rejects_trailing_bytes;
   test_register_response_roundtrip_success; test_register_response_roundtrip_failure;
   test_register_response_rejects_non_canonical_boolean;
   test_register_response_rejects_empty_payload; test_query_account_status_roundtrip;
   test_query_account_status_rejects_nonempty_payload;
   test_account_status_response_roundtrip_not_banned;
   test_account_status_response_roundtrip_banned_with_reason;
   test_account_status_response_rejects_empty_payload;
   test_account_status_response_rejects_non_canonical_boolean;
   test_account_status_response_rejects_trailing_bytes;
   test_account_status_response_rejects_truncated_subscription_fields;
   test_auth_challenge_roundtrip; test_auth_response_roundtrip_with_attestation;
   test_auth_response_roundtrip_empty_attestation; test_auth_accept_rejects_nonempty;
   test_auth_reject_rejects_nonempty; test_client_hello_roundtrip;
   test_server_hello_roundtrip; test_client_hello_rejects_truncated_key_material;
   test_client_finish_rejects_non_canonical_boolean;
   test_server_accept_rejects_non_canonical_boolean; test_send_message_roundtrip;
   test_send_message_rejects_trailing_bytes; test_send_message_rejects_truncated_message_id;
   test_deliver_message_roundtrip; test_message_status_update_roundtrip_all_statuses;
   test_message_status_update_rejects_unknown_status;
   test_message_status_update_rejects_wrong_length; test_delivery_receipt_roundtrip;
   test_delivery_receipt_rejects_wrong_length; test_fetch_queued_messages_roundtrip;
   test_fetch_queued_messages_rejects_nonempty_payload;
   test_queued_message_delivery_roundtrip_keeps_content_opaque;
   test_queued_message_delivery_rejects_trailing_bytes;
   test_queued_message_delivery_rejects_truncated_ids; test_ack_queued_message_roundtrip;
   test_ack_queued_message_rejects_wrong_length; test_send_friend_request_roundtrip;
   test_send_friend_request_rejects_trailing_bytes;
   test_friend_request_result_roundtrip_all_statuses;
   test_friend_request_result_rejects_unknown_status;
   test_friend_request_result_rejects_wrong_length; test_incoming_friend_request_roundtrip;
   test_friend_request_decision_roundtrip_accept;
   test_friend_request_decision_roundtrip_reject;
   test_friend_request_decision_rejects_non_canonical_bool;
   test_friend_request_decision_rejects_missing_bool; test_remove_friend_roundtrip;
   test_remove_friend_result_roundtrip_all_statuses;
   test_remove_friend_result_rejects_unknown_status;
   test_friend_removed_notification_roundtrip;
   test_friend_status_update_roundtrip_all_statuses;
   test_friend_status_update_rejects_unknown_status;
   test_friend_status_update_rejects_truncated_payload; test_send_typing_indicator_roundtrip;
   test_publish_e2e_key_roundtrip; test_publish_e2e_key_matches_expected_wire_size;
   test_publish_e2e_key_rejects_truncated_input; test_publish_e2e_key_rejects_trailing_bytes;
   test_publish_e2e_key_result_roundtrip_success;
   test_publish_e2e_key_result_roundtrip_failure;
   test_publish_e2e_key_result_rejects_non_canonical_boolean;
   test_publish_e2e_key_result_rejects_empty_payload; test_fetch_e2e_key_roundtrip;
   test_fetch_e2e_key_rejects_trailing_bytes; test_e2e_key_response_roundtrip_found;
   test_e2e_key_response_matches_expected_max_wire_size;
   test_e2e_key_response_roundtrip_not_found; test_e2e_key_response_rejects_unknown_status;
   test_e2e_key_response_rejects_missing_status_byte;
   test_e2e_key_response_rejects_truncated_key_material;
   test_e2e_key_response_rejects_trailing_bytes_after_not_found].

(** The repository's payload tests pass on the model: all 79 tests of the
    eleven payload modules that use no signature scheme run to their end
    without a failed assertion, an [unwrap] of an error, or a panic. *)
Lemma payload_tests_pass : Forall passes payload_tests.
Proof. repeat (constructor; [vm_compute; reflexivity|]). constructor. Qed.
