(* ===== verification/ProtocolTests.v ===== *)
(** * The unit tests of [header.rs], [connection_state.rs] and [codec.rs]

    Translated statement by statement ([Testing]). [Cursor] and [Vec] are the
    in-memory streams of [Instances]; the AEAD stays abstract, so the codec
    tests are shown to pass for every lawful one (one of them under
    [label_bound]). *)
From Stdlib Require Import String.
From S2P Require Import Prelude RustStd Sizes Errors Header PacketType ConnectionState.
From S2P Require Import Primitives ByteStreams Instances Codec Async Stream Testing.

(** ** [header.rs] *)
#[export] Instance PacketHeader_eq_dec : EqDecision PacketHeader.
Proof. solve_decision. Defined.

(** Assignments to one field of a header. *)
Definition set_magic (m : bytes) (h : PacketHeader) : PacketHeader :=
  {| magic := m; version := version h; packet_type := packet_type h; flags := flags h;
     header_len := header_len h; payload_len := payload_len h; sequence := sequence h;
     reserved := reserved h |}.
Definition set_version (v : byte) (h : PacketHeader) : PacketHeader :=
  {| magic := magic h; version := v; packet_type := packet_type h; flags := flags h;
     header_len := header_len h; payload_len := payload_len h; sequence := sequence h;
     reserved := reserved h |}.
Definition set_reserved (r : Z) (h : PacketHeader) : PacketHeader :=
  {| magic := magic h; version := version h; packet_type := packet_type h; flags := flags h;
     header_len := header_len h; payload_len := payload_len h; sequence := sequence h;
     reserved := r |}.

Definition test_header_roundtrip : test :=
  let header := PacketHeader_new (byte_of 10) (flag_or ENCRYPTED x02) 128 42 in
  bs ← unwrap (PacketHeader_to_bytes header);
  decoded ← unwrap (PacketHeader_from_bytes bs);
  assert_eq header decoded.

Definition test_header_validation_ok : test :=
  let header := PacketHeader_new x01 x00 64 1 in
  assert (is_ok (PacketHeader_validate header)).

Definition test_header_validation_invalid_magic : test :=
  let header := PacketHeader_new x01 x00 64 1 in
  let header := set_magic (str "NOPE") header in
  assert (is_err (PacketHeader_validate header)).

Definition test_header_validation_invalid_version : test :=
  let header := PacketHeader_new x01 x00 64 1 in
  let header := set_version (byte_of 99) header in
  assert (is_err (PacketHeader_validate header)).

Definition test_header_validation_payload_too_large : test :=
  let header := PacketHeader_new x01 x00 (MAX_PAYLOAD_LEN + 1) 1 in
  assert (is_err (PacketHeader_validate header)).

Definition test_header_validation_reserved_nonzero : test :=
  let header := PacketHeader_new x01 x00 64 1 in
  let header := set_reserved 1 header in
  assert (is_err (PacketHeader_validate header)).

(** ** [connection_state.rs] *)

Definition test_handshake_happy_path : test :=
  let s := ConnectionState_initial Server in
  assert (is_ok (ConnectionState_validate_incoming s Server ClientHello));;
  let s := ConnectionState_advance s ClientHello in
  assert_eq s AwaitingClientFinish;;
  assert (is_ok (ConnectionState_validate_incoming s Server ClientFinish));;
  let s := ConnectionState_advance s ClientFinish in
  assert_eq s AwaitingAuth;;
  assert (is_ok (ConnectionState_validate_incoming s Server AuthResponse));;
  let s := ConnectionState_advance s AuthResponse in
  assert_eq s Established.

Definition test_client_handshake_happy_path : test :=
  let s := ConnectionState_initial Client in
  assert_eq s AwaitingServerHello;;
  assert (is_ok (ConnectionState_validate_incoming s Client ServerHello));;
  let s := ConnectionState_advance s ServerHello in
  assert_eq s AwaitingServerAccept;;
  assert (is_ok (ConnectionState_validate_incoming s Client ServerAccept));;
  let s := ConnectionState_advance s ServerAccept in
  assert_eq s AwaitingAuthChallenge;;
  assert (is_ok (ConnectionState_validate_incoming s Client AuthChallenge));;
  let s := ConnectionState_advance s AuthChallenge in
  assert_eq s AwaitingAuthResult;;
  assert (is_ok (ConnectionState_validate_incoming s Client AuthAccept));;
  let s := ConnectionState_advance s AuthAccept in
  assert_eq s Established.

Definition test_client_closes_on_auth_reject : test :=
  let s := AwaitingAuthResult in
  assert (is_ok (ConnectionState_validate_incoming s Client AuthReject));;
  let s := ConnectionState_advance s AuthReject in
  assert_eq s Closing.

Definition test_rejects_message_before_handshake : test :=
  let s := AwaitingClientHello in
  assert (is_err (ConnectionState_validate_incoming s Server SendMessage)).

Definition test_rejects_message_before_auth : test :=
  let s := AwaitingAuth in
  assert (is_err (ConnectionState_validate_incoming s Server SendMessage));;
  assert (is_err (ConnectionState_validate_incoming s Server Ping)).

Definition test_allows_delivery_tracking_packets_once_established : test :=
  let s := Established in
  assert (is_err (ConnectionState_validate_incoming s Server MessageStatusUpdate));;
  assert (is_ok (ConnectionState_validate_incoming s Client MessageStatusUpdate));;
  assert (is_ok (ConnectionState_validate_incoming s Server DeliveryReceipt)).

Definition test_error_packet_always_closes : test :=
  let s := Established in
  let s := ConnectionState_advance s Error in
  assert_eq s Closing.

Definition test_closing_rejects_all : test :=
  let s := Closing in
  assert (is_err (ConnectionState_validate_incoming s Server Ping));;
  assert (is_err (ConnectionState_validate_incoming s Server Close)).

Definition test_server_rejects_server_to_client_packet_while_established : test :=
  let s := Established in
  assert (is_err (ConnectionState_validate_incoming s Server DeliverMessage)).

Definition test_client_rejects_client_to_server_packet_while_established : test :=
  let s := Established in
  assert (is_err (ConnectionState_validate_incoming s Client SendMessage)).

Definition test_both_roles_accept_bidirectional_packets_while_established : test :=
  let s := Established in
  assert (is_ok (ConnectionState_validate_incoming s Server Ping));;
  assert (is_ok (ConnectionState_validate_incoming s Client Ping));;
  assert (is_ok (ConnectionState_validate_incoming s Server Close));;
  assert (is_ok (ConnectionState_validate_incoming s Client Close)).

(** ** [codec.rs] *)
Definition raw_frame (packet_type : byte) (payload_len seq : Z) : outcome Empty_set bytes :=
  let header := PacketHeader_new packet_type x00 payload_len seq in
  bs ← unwrap (PacketHeader_to_bytes header);
  mret (bs ++ filled xaa payload_len).

Definition sample_session_keys : bytes * bytes := (filled x11 32, filled x22 32).

Section codec_tests.
Context `{Aead}.

Definition test_rejects_oversized_payload_for_packet_type : test :=
  let oversized := byte_val CHATIX_HEADER_LEN in
  frame ← raw_frame (PacketType_as_u8 Ping) oversized 1;
  let codec := PacketCodec_new in
  let '(result, _) := PacketCodec_read_packet (codec, frame) in
  assert (err_matches (fun e => match e with PayloadTooLarge _ _ => true | _ => false end) result).

Definition test_accepts_payload_within_packet_type_limit : test :=
  frame ← raw_frame (PacketType_as_u8 Ping) 8 1;
  let codec := PacketCodec_new in
  let '(result, _) := PacketCodec_read_packet (codec, frame) in
  packet ← unwrap result;
  assert_eq (payload_len (header packet)) 8.

Definition test_encrypted_roundtrip_succeeds : test :=
  let '(key_a, key_b) := sample_session_keys in
  let sender := PacketCodec_new in
  let sender := PacketCodec_establish_session sender key_a key_b in
  let wire_bytes : bytes := [] in
  let plaintext := str "PINGDATA" in
  let '(written, (sender, wire_bytes)) :=
    PacketCodec_write_packet Ping x00 plaintext (sender, wire_bytes) in
  unwrap written;;
  let receiver := PacketCodec_new in
  let receiver := PacketCodec_establish_session receiver key_b key_a in
  let '(result, _) := PacketCodec_read_packet (receiver, wire_bytes) in
  packet ← unwrap result;
  assert (Ok (PacketHeader_is_encrypted (header packet)));;
  assert_eq (payload packet) plaintext.

Definition test_rejects_unencrypted_packet_once_session_established : test :=
  let '(key_a, key_b) := sample_session_keys in
  let receiver := PacketCodec_new in
  let receiver := PacketCodec_establish_session receiver key_b key_a in
  injected ← raw_frame (PacketType_as_u8 Ping) 8 1;
  let '(result, _) := PacketCodec_read_packet (receiver, injected) in
  assert (err_matches (fun e => match e with EncryptionRequired => true | _ => false end) result).

Definition test_rejects_packet_with_tampered_packet_type_after_encryption : test :=
  let '(key_a, key_b) := sample_session_keys in
  let sender := PacketCodec_new in
  let sender := PacketCodec_establish_session sender key_a key_b in
  let wire_bytes : bytes := [] in
  let '(written, (sender, wire_bytes)) :=
    PacketCodec_write_packet DeliveryReceipt x00 (filled x00 8) (sender, wire_bytes) in
  unwrap written;;
  wire_bytes ← set_index wire_bytes 5 (PacketType_as_u8 AckQueuedMessage);
  let receiver := PacketCodec_new in
  let receiver := PacketCodec_establish_session receiver key_b key_a in
  let '(result, _) := PacketCodec_read_packet (receiver, wire_bytes) in
  assert (err_matches (fun e => match e with CryptoError => true | _ => false end) result).
End codec_tests.

Definition header_tests : list test :=
  [test_header_roundtrip; test_header_validation_ok; test_header_validation_invalid_magic;
   test_header_validation_invalid_version; test_header_validation_payload_too_large;
   test_header_validation_reserved_nonzero].

Definition connection_state_tests : list test :=
  [test_handshake_happy_path;
   test_client_handshake_happy_path;
   test_client_closes_on_auth_reject;
   test_rejects_message_before_handshake;
   test_rejects_message_before_auth;
   test_allows_delivery_tracking_packets_once_established;
   test_error_packet_always_closes;
   test_closing_rejects_all;
   test_server_rejects_server_to_client_packet_while_established;
   test_client_rejects_client_to_server_packet_while_established;
   test_both_roles_accept_bidirectional_packets_while_established].

Definition codec_tests `{Aead} : list test :=
  [test_rejects_oversized_payload_for_packet_type; test_accepts_payload_within_packet_type_limit;
   test_encrypted_roundtrip_succeeds; test_rejects_unencrypted_packet_once_session_established;
   test_rejects_packet_with_tampered_packet_type_after_encryption].

(** ** The codec tests, for any lawful AEAD *)

(** The relabelling test expects AES-GCM to separate two labels: what is sealed
    under [aad] is not what sealing anything under [aad'] gives. [AeadLaws] does
    not say so (it states no security of the cipher), so the test is shown to
    pass under this condition on the one key, nonce and text it uses. *)
Definition label_bound `{Aead} (k nonce aad aad' pt : bytes) : Prop :=
  forall key body pt', aead_key_new k = Some key ->
    aead_seal key nonce aad pt = Some body -> aead_seal key nonce aad' pt' <> Some body.

Section codec_tests_pass.
Context `{AeadLaws}.
Let key_a := filled x11 32.
Let key_b := filled x22 32.
Let sender := PacketCodec_establish_session PacketCodec_new key_a key_b.
Let receiver := PacketCodec_establish_session PacketCodec_new key_b key_a.

Lemma test_codecs_linked : linked sender receiver.
Proof. apply linked_establish; [apply linked_new|done]. Qed.

Lemma encrypted_roundtrip_passes : passes test_encrypted_roundtrip_succeeds.
Proof.
  destruct (deliver_one (R := bytes) (W := bytes) sender receiver
    (mk_outgoing Ping x00 (str "PINGDATA")) test_codecs_linked) as (wire & Hw & Hr);
    [by split|done|].
  destruct (Hw []) as (w' & Hw' & Ew). cbn in Ew. subst w'. destruct (Hr wire []) as (r' & Hr' & _); [by rewrite app_nil_r|].
  unfold test_encrypted_roundtrip_succeeds, sample_session_keys. cbn [out_type out_flags out_payload] in *.
  fold key_a key_b sender receiver. rewrite Hw'. cbn [unwrap mbind outcome_bind written bytes_output app].
  rewrite Hr'. done.
Qed.

Lemma tampered_type_passes :
  label_bound key_a (nonce_of 1) (header_aad (PacketType_as_u8 DeliveryReceipt) x01)
    (header_aad (PacketType_as_u8 AckQueuedMessage) x01) (filled x00 8) ->
  passes test_rejects_packet_with_tampered_packet_type_after_encryption.
Proof.
  intros Hb.
  destruct (seals_total sender DeliveryReceipt x00 (filled x00 8)) as (fl' & body & Hs);
    [by intros ? [= <-]|done|].
  destruct (write_packet_ok (W := bytes) sender [] DeliveryReceipt x00 (filled x00 8) fl' body
    eq_refl Hs) as (w' & Hw & Ew). cbn [written bytes_output app] in Ew. subst w'.
  pose proof (seals_len _ _ _ _ _ _ Hs) as Hl. change (zlen body = 24) in Hl.
  unfold test_rejects_packet_with_tampered_packet_type_after_encryption, sample_session_keys.
  fold key_a key_b sender receiver. rewrite Hw. cbn [unwrap mbind outcome_bind written bytes_output app].
  destruct Hs as (-> & key & Hk & Hseal).
  set (h := PacketHeader_new (PacketType_as_u8 AckQueuedMessage) x01 24 1).
  assert (set_index (header_layout (frame_header sender DeliveryReceipt (flag_or x00 ENCRYPTED) body)
    ++ body) 5 (PacketType_as_u8 AckQueuedMessage) = @Ok Empty_set _ (header_layout h ++ body)) as ->.
  { unfold frame_header. rewrite Hl.
    exact (copy_into_app (CHATIX_MAGIC ++ [CHATIX_VERSION]) [PacketType_as_u8 DeliveryReceipt]
      ([x01; CHATIX_HEADER_LEN] ++ to_be_bytes 4 24 ++ to_be_bytes 8 1 ++ to_be_bytes 4 0 ++ body)
      [PacketType_as_u8 AckQueuedMessage] 5 6 eq_refl eq_refl eq_refl). }
  cbn [outcome_bind mbind].
  destruct (header_read_pending (R := bytes) (header_layout h ++ body) h body)
    as (r1 & Hh & Hp1); [done..|].
  destruct (body_read_pending (R := bytes) r1 h body []) as (r2 & Hbd & _);
    [by rewrite app_nil_r|by rewrite Hl|].
  assert (PacketCodec_read_packet (receiver, header_layout h ++ body)
    = (Err CryptoError, (set_last_recv_seq 1 receiver, r2))) as ->; [|done].
  apply read_packet_delivers. eapply (unopened _ _ h AckQueuedMessage); [exact Hh| |exact Hbd|].
  - split_and!; done.
  - intros pt (cipher & key' & [= <-] & Hk' & Ho%aead_open_iff). cbn in Hk, Hk'.
    rewrite Hk in Hk'. injection Hk' as <-. by eapply (Hb key body pt).
Qed.
End codec_tests_pass.

(** ** The tests pass *)

(** The repository's header, state machine and codec tests pass on the model:
    the 17 header and state machine tests, and four of the five codec tests for
    every lawful AEAD; the fifth, which relabels an encrypted frame, for those
    that separate the two labels involved ([label_bound]). *)
Lemma protocol_tests_pass `{AeadLaws} :
  label_bound (filled x11 32) (nonce_of 1) (header_aad (PacketType_as_u8 DeliveryReceipt) x01)
    (header_aad (PacketType_as_u8 AckQueuedMessage) x01) (filled x00 8) ->
  Forall passes (header_tests ++ connection_state_tests ++ codec_tests).
Proof.
  intros Hb. rewrite !Forall_app. split_and!.
  - repeat (constructor; [vm_compute; reflexivity|]). constructor.
  - repeat (constructor; [vm_compute; reflexivity|]). constructor.
  - constructor; [vm_compute; reflexivity|]. constructor; [vm_compute; reflexivity|].
    constructor; [apply encrypted_roundtrip_passes|]. constructor; [vm_compute; reflexivity|].
    constructor; [by apply tampered_type_passes|constructor].
Qed.

Lemma protocol_tests_pass_witness :
  Forall passes (header_tests ++ connection_state_tests ++ codec_tests (H := toy_aead)).
Proof.
  apply (protocol_tests_pass (H := toy_aead)).
  intros key body pt' _ Hs Hs'. destruct (toy_seal_inv _ _ _ _ _ _ _ Hs Hs') as [<- Ht].
  vm_compute in Ht. discriminate.
Defined.
