(* ===== verification/CryptoTests.v ===== *)
(** * The unit tests of the cryptographic modules

    Translated statement by statement ([Testing]), the sampled values as
    arguments. The tests that expect success are shown to pass for every
    lawful choice of primitives and every sample of the right size whose
    ML-KEM coins decapsulate correctly; a test that expects a rejection is shown to pass exactly when (the two end-to-end ones: whenever)
    the primitives tell the two inputs apart, which no law of [Primitives]
    claims. *)
From Stdlib Require Import String.
From S2P Require Import Prelude RustStd Sizes Errors Common HelloPayloads AuthPayloads.
From S2P Require Import E2eKeyPayloads Primitives Session E2e Auth SafetyNumber Testing.

(** [v[i] ^= 0xFF] *)
Definition flip (b : byte) : byte := byte_of (Z.lxor (byte_val b) 255).
Definition flip_at (v : bytes) (i : Z) : outcome Empty_set bytes :=
  b ← index v i; set_index v i (flip b).
Definition flip_first (v : bytes) : bytes := match v with [] => [] | b :: v' => flip b :: v' end.

Lemma flip_at_app a v i :
  i = zlen a -> v <> [] -> flip_at (a ++ v) i = Ok (a ++ flip_first v).
Proof.
  intros -> Hv. destruct v as [|b v]; [done|]. unfold flip_at, set_index.
  rewrite index_skip, Z.sub_diag, index_head by done. cbn [mbind outcome_bind flip_first].
  change (a ++ b :: v) with (a ++ [b] ++ v). by rewrite copy_into_app.
Qed.

Lemma zlen_flip_first v : zlen (flip_first v) = zlen v.
Proof. by destruct v. Qed.

(** ** [session.rs] *)
#[export] Instance SessionKeys_eq_dec : EqDecision SessionKeys.
Proof. solve_decision. Defined.

Section session_tests.
Context `{Hkdf, X25519, MlKem}.

Definition test_session_key_derivation_matches (a : x25519_secret) (dk : kem_dk)
    (b : x25519_secret) (coins : kem_coins) : test :=
  client_state ← unwrap (ClientHandshakeState_generate a dk);
  let x25519_pub := chs_x25519_public client_state in
  let ml_kem_ek := chs_ml_kem_ek client_state in
  server_state ← unwrap (ServerHandshakeState_respond b coins x25519_pub ml_kem_ek);
  client_keys ← unwrap (ClientHandshakeState_derive_session_keys client_state
    (shs_x25519_public server_state) (shs_ml_kem_ciphertext server_state));
  assert_eq (client_to_server client_keys) (client_to_server (shs_session_keys server_state));;
  assert_eq (server_to_client client_keys) (server_to_client (shs_session_keys server_state)).

Definition test_c2s_and_s2c_keys_differ (a : x25519_secret) (dk : kem_dk)
    (b : x25519_secret) (coins : kem_coins) : test :=
  client_state ← unwrap (ClientHandshakeState_generate a dk);
  server_state ← unwrap (ServerHandshakeState_respond b coins (chs_x25519_public client_state)
    (chs_ml_kem_ek client_state));
  assert_ne (client_to_server (shs_session_keys server_state))
    (server_to_client (shs_session_keys server_state)).
End session_tests.

(** ** [auth.rs], [auth_payloads.rs], [hello_payloads.rs] *)
Section auth_tests.
Context `{Sha256, MlDsa}.

Definition sample_transcript (tag : Z) : outcome ProtocolError bytes :=
  compute_handshake_transcript [byte_of tag] [byte_of ((tag + 1) mod 256)].

Definition test_auth_roundtrip_succeeds (id : dsa_sk) : test :=
  '(seed, vk) ← unwrap (generate_auth_identity id);
  transcript ← unwrap (sample_transcript 1);
  let nonce := filled x42 AUTH_NONCE_LEN in
  sig ← unwrap (sign_auth_response transcript nonce seed);
  assert (is_ok (verify_auth_response transcript nonce vk sig)).

Definition test_wrong_transcript_is_rejected (id : dsa_sk) : test :=
  '(seed, vk) ← unwrap (generate_auth_identity id);
  signer_transcript ← unwrap (sample_transcript 1);
  verifier_transcript ← unwrap (sample_transcript 2);
  let nonce := filled x42 AUTH_NONCE_LEN in
  sig ← unwrap (sign_auth_response signer_transcript nonce seed);
  assert (is_err (verify_auth_response verifier_transcript nonce vk sig)).

Definition test_wrong_nonce_is_rejected (id : dsa_sk) : test :=
  '(seed, vk) ← unwrap (generate_auth_identity id);
  transcript ← unwrap (sample_transcript 1);
  sig ← unwrap (sign_auth_response transcript (filled x11 AUTH_NONCE_LEN) seed);
  assert (is_err (verify_auth_response transcript (filled x22 AUTH_NONCE_LEN) vk sig)).

Definition test_wrong_verifying_key_is_rejected (id imposter : dsa_sk) : test :=
  '(seed, _vk) ← unwrap (generate_auth_identity id);
  '(_, imposter_vk) ← unwrap (generate_auth_identity imposter);
  transcript ← unwrap (sample_transcript 1);
  let nonce := filled x42 AUTH_NONCE_LEN in
  sig ← unwrap (sign_auth_response transcript nonce seed);
  assert (is_err (verify_auth_response transcript nonce imposter_vk sig)).

Definition test_tampered_signature_is_rejected (id : dsa_sk) : test :=
  '(seed, vk) ← unwrap (generate_auth_identity id);
  transcript ← unwrap (sample_transcript 1);
  let nonce := filled x42 AUTH_NONCE_LEN in
  sig ← unwrap (sign_auth_response transcript nonce seed);
  sig ← flip_at sig 0;
  assert (is_err (verify_auth_response transcript nonce vk sig)).

Definition test_server_hello_roundtrip_succeeds (id : dsa_sk) : test :=
  '(seed, pinned_vk) ← unwrap (generate_auth_identity id);
  let client_hello_bytes := str "client-hello-wire-bytes" in
  let server_x25519_pk := filled x11 32 in
  let server_ml_kem_ct := filled x22 ML_KEM_768_CT_SIZE in
  sig ← unwrap (sign_server_hello client_hello_bytes server_x25519_pk server_ml_kem_ct seed);
  assert (is_ok (verify_server_hello client_hello_bytes server_x25519_pk server_ml_kem_ct
    pinned_vk sig)).

Definition test_server_hello_wrong_client_hello_is_rejected (id : dsa_sk) : test :=
  '(seed, pinned_vk) ← unwrap (generate_auth_identity id);
  let server_x25519_pk := filled x11 32 in
  let server_ml_kem_ct := filled x22 ML_KEM_768_CT_SIZE in
  sig ← unwrap (sign_server_hello (str "client-hello-from-session-a") server_x25519_pk
    server_ml_kem_ct seed);
  assert (is_err (verify_server_hello (str "client-hello-from-session-b") server_x25519_pk
    server_ml_kem_ct pinned_vk sig)).

Definition test_server_hello_wrong_pinned_key_is_rejected (id imposter : dsa_sk) : test :=
  '(seed, _real_vk) ← unwrap (generate_auth_identity id);
  '(_, imposter_vk) ← unwrap (generate_auth_identity imposter);
  let client_hello_bytes := str "client-hello-wire-bytes" in
  let server_x25519_pk := filled x11 32 in
  let server_ml_kem_ct := filled x22 ML_KEM_768_CT_SIZE in
  sig ← unwrap (sign_server_hello client_hello_bytes server_x25519_pk server_ml_kem_ct seed);
  assert (is_err (verify_server_hello client_hello_bytes server_x25519_pk server_ml_kem_ct
    imposter_vk sig)).

Definition test_server_hello_tampered_signature_is_rejected (id : dsa_sk) : test :=
  '(seed, pinned_vk) ← unwrap (generate_auth_identity id);
  let client_hello_bytes := str "client-hello-wire-bytes" in
  let server_x25519_pk := filled x11 32 in
  let server_ml_kem_ct := filled x22 ML_KEM_768_CT_SIZE in
  sig ← unwrap (sign_server_hello client_hello_bytes server_x25519_pk server_ml_kem_ct seed);
  sig ← flip_at sig 0;
  assert (is_err (verify_server_hello client_hello_bytes server_x25519_pk server_ml_kem_ct
    pinned_vk sig)).

Definition test_auth_response_uses_real_ml_dsa_65_signature (id : dsa_sk) : test :=
  '(seed, verifying_key) ← unwrap (generate_auth_identity id);
  transcript ← unwrap (compute_handshake_transcript (str "client-hello-bytes")
    (str "server-hello-bytes"));
  let nonce := filled x7e 32 in
  signature ← unwrap (sign_auth_response transcript nonce seed);
  let p := mk_AuthResponsePayload verifying_key signature [] in
  enc ← unwrap (AuthResponsePayload_encode p);
  dec ← unwrap (AuthResponsePayload_decode enc);
  assert (is_ok (verify_auth_response transcript nonce (ar_public_key dec) (ar_signature dec))).

Definition test_server_hello_uses_real_ml_dsa_65_signature (id : dsa_sk) : test :=
  '(signing_seed, pinned_verifying_key) ← unwrap (generate_auth_identity id);
  let client_hello_bytes := str "client-hello-wire-bytes" in
  let x25519_public_key := filled xaa 32 in
  let ml_kem_ciphertext := filled xbb ML_KEM_768_CT_SIZE in
  signature ← unwrap (sign_server_hello client_hello_bytes x25519_public_key ml_kem_ciphertext
    signing_seed);
  let payload :=
    mk_ServerHelloPayload (str "chatix-server-1") x25519_public_key ml_kem_ciphertext signature in
  encoded ← unwrap (ServerHelloPayload_encode payload);
  decoded ← unwrap (ServerHelloPayload_decode encoded);
  assert (is_ok (verify_server_hello client_hello_bytes (sh_x25519_public_key decoded)
    (sh_ml_kem_ciphertext decoded) pinned_verifying_key (sh_signature decoded))).
End auth_tests.

(** ** [e2e.rs] *)

(** What one [generate_e2e_keypair()] samples, and one [encrypt_and_sign(..)]. *)
Record keypair_samples `{X25519, MlDsa} := mk_keypair_samples {
  random_x25519 : x25519_secret;
  random_seed : bytes;
  random_dsa : dsa_sk
}.
Record message_samples `{X25519, MlKem} := mk_message_samples {
  random_ephemeral : x25519_secret;
  random_coins : kem_coins;
  random_iv : bytes
}.

Section e2e_tests.
Context `{Aead, Hkdf, X25519, MlKem, MlDsa}.

Definition new_keypair (r : keypair_samples) : outcome ProtocolError (E2eSecretKey * E2ePublicKey) :=
  generate_e2e_keypair (random_x25519 r) (Some (random_seed r)) (random_dsa r).
Definition encrypt (m : message_samples) (plaintext : bytes) (recipient_pk : E2ePublicKey)
    (sender_sk : E2eSecretKey) : outcome ProtocolError bytes :=
  encrypt_and_sign (random_ephemeral m) (random_coins m) (Some (random_iv m)) plaintext
    (x25519_public recipient_pk) (ml_kem_ek recipient_pk) (esk_dsa_signing_seed sender_sk).
Definition decrypt (blob : bytes) (recipient_sk : E2eSecretKey) (sender_pk : E2ePublicKey)
    : outcome ProtocolError bytes :=
  verify_and_decrypt blob (esk_x25519_secret recipient_sk) (esk_ml_kem_seed recipient_sk)
    (dsa_verifying_key sender_pk).

Definition test_e2e_roundtrip (recipient sender : keypair_samples) (m : message_samples) : test :=
  '(recipient_sk, recipient_pk) ← unwrap (new_keypair recipient);
  '(sender_sk, sender_pk) ← unwrap (new_keypair sender);
  let plaintext := str "hello end-to-end" in
  blob ← unwrap (encrypt m plaintext recipient_pk sender_sk);
  recovered ← unwrap (decrypt blob recipient_sk sender_pk);
  assert_eq recovered plaintext.

Definition test_tampered_ciphertext_is_rejected (recipient sender : keypair_samples)
    (m : message_samples) : test :=
  '(recipient_sk, recipient_pk) ← unwrap (new_keypair recipient);
  '(sender_sk, sender_pk) ← unwrap (new_keypair sender);
  blob ← unwrap (encrypt m (str "secret") recipient_pk sender_sk);
  blob ← flip_at blob AES_NONCE_END;
  assert (is_err (decrypt blob recipient_sk sender_pk)).

Definition test_e2e_wrong_verifying_key_is_rejected (recipient sender imposter : keypair_samples)
    (m : message_samples) : test :=
  '(recipient_sk, recipient_pk) ← unwrap (new_keypair recipient);
  '(sender_sk, _) ← unwrap (new_keypair sender);
  '(_, imposter_pk) ← unwrap (new_keypair imposter);
  blob ← unwrap (encrypt m (str "secret") recipient_pk sender_sk);
  assert (is_err (decrypt blob recipient_sk imposter_pk)).

Definition test_blob_minimum_size_matches_constant (recipient sender : keypair_samples)
    (m : message_samples) : test :=
  '(_recipient_sk, recipient_pk) ← unwrap (new_keypair recipient);
  '(sender_sk, _) ← unwrap (new_keypair sender);
  blob ← unwrap (encrypt m [] recipient_pk sender_sk);
  assert_eq (zlen blob) MIN_BLOB_LEN;;
  sig_slice ← slice_from blob (zlen blob - ML_DSA_65_SIG_SIZE);
  sig_arr ← unwrap (ok_or CryptoError (try_into ML_DSA_65_SIG_SIZE sig_slice));
  assert (Ok (bool_decide (is_Some (dsa_sig_decode sig_arr)))).
End e2e_tests.

(** ** [safety_number.rs] *)
Section safety_number_tests.
Context `{Sha256, X25519, MlKem, MlDsa}.

Definition test_safety_number_is_symmetric (alice bob : keypair_samples) : test :=
  '(_alice_sk, alice_pk) ← unwrap (new_keypair alice);
  '(_bob_sk, bob_pk) ← unwrap (new_keypair bob);
  from_alice ← unwrap (safety_number (str "alice") alice_pk (str "bob") bob_pk);
  from_bob ← unwrap (safety_number (str "bob") bob_pk (str "alice") alice_pk);
  assert_eq from_alice from_bob.

Definition test_safety_number_changes_if_a_public_key_is_swapped
    (alice bob imposter : keypair_samples) : test :=
  '(_alice_sk, alice_pk) ← unwrap (new_keypair alice);
  '(_bob_sk, bob_pk) ← unwrap (new_keypair bob);
  '(_, imposter_pk) ← unwrap (new_keypair imposter);
  genuine ← unwrap (safety_number (str "alice") alice_pk (str "bob") bob_pk);
  tampered ← unwrap (safety_number (str "alice") alice_pk (str "bob") imposter_pk);
  assert_ne genuine tampered.

Definition test_safety_number_changes_if_an_identifier_changes (alice bob : keypair_samples) : test :=
  '(_alice_sk, alice_pk) ← unwrap (new_keypair alice);
  '(_bob_sk, bob_pk) ← unwrap (new_keypair bob);
  original ← unwrap (safety_number (str "alice") alice_pk (str "bob") bob_pk);
  renamed ← unwrap (safety_number (str "alice2") alice_pk (str "bob") bob_pk);
  assert_ne original renamed.

Definition is_space (b : byte) : bool := byte_val b =? 32.
(** [number.split(' ').count()] *)
Definition split_count (s : bytes) : Z := 1 + zlen (filter (fun b => Is_true (is_space b)) s).

Definition test_safety_number_has_expected_shape (alice bob : keypair_samples) : test :=
  '(_alice_sk, alice_pk) ← unwrap (new_keypair alice);
  '(_bob_sk, bob_pk) ← unwrap (new_keypair bob);
  number ← unwrap (safety_number (str "alice") alice_pk (str "bob") bob_pk);
  assert_eq (zlen number) 71;;
  assert (Ok (forallb (fun c => is_digit c || is_space c) number));;
  assert_eq (split_count number) 12.

Definition test_verify_key_unchanged_accepts_the_same_key (alice : keypair_samples) : test :=
  '(_alice_sk, alice_pk) ← unwrap (new_keypair alice);
  assert (is_ok (verify_key_unchanged (str "alice") alice_pk alice_pk)).

Definition test_verify_key_unchanged_rejects_an_imposter_key (alice imposter : keypair_samples) : test :=
  '(_alice_sk, alice_pk) ← unwrap (new_keypair alice);
  '(_, imposter_pk) ← unwrap (new_keypair imposter);
  assert (is_err (verify_key_unchanged (str "alice") alice_pk imposter_pk)).

Definition test_verify_key_unchanged_error_identifies_the_affected_identity
    (alice imposter : keypair_samples) : test :=
  '(_alice_sk, alice_pk) ← unwrap (new_keypair alice);
  '(_, imposter_pk) ← unwrap (new_keypair imposter);
  match verify_key_unchanged (str "alice") alice_pk imposter_pk with
  | Err (IdentityKeyChanged identifier) => assert_eq identifier (str "alice")
  | _ => Panic
  end.
End safety_number_tests.

(** ** The session tests *)
Section session_tests_pass.
Context `{HkdfLaws, X25519Laws, MlKemLaws}.

Lemma session_key_derivation_passes a dk b coins :
  kem_agrees dk coins -> passes (test_session_key_derivation_matches a dk b coins).
Proof.
  intros Hag. unfold test_session_key_derivation_matches. rewrite generate_ok.
  cbn [unwrap mbind outcome_bind client_state chs_x25519_public chs_ml_kem_ek].
  destruct (respond_ok b coins (x25519_public_of a) _ _
    (kem_ek_roundtrip (kem_ek_of dk)) (zlen_kem_ek _)) as (keys & Hr & _).
  pose proof (key_agreement a dk b coins _ Hag Hr) as Hk. rewrite Hr. cbn [unwrap mbind outcome_bind].
  rewrite Hk. cbn [unwrap mbind outcome_bind]. apply passes_bind. by rewrite !assert_eq_passes.
Qed.

(** The two HKDF expansions the server's keys come from, for these samples. *)
Definition expansion (a : x25519_secret) (dk : kem_dk) (b : x25519_secret) (coins : kem_coins)
    (label : bytes) : option bytes :=
  let '(ct, kyber_shared) := kem_encapsulate (kem_ek_of dk) coins in
  hkdf_expand (hkdf_new (diffie_hellman b (x25519_public_of a) ++ kyber_shared))
    ((x25519_public_of a ++ x25519_public_of b ++ ct) ++ label) 32.

(** The direction test passes exactly when HKDF separates the two labels. *)
Lemma keys_differ_passes a dk b coins :
  passes (test_c2s_and_s2c_keys_differ a dk b coins) <->
  expansion a dk b coins C2S_LABEL <> expansion a dk b coins S2C_LABEL.
Proof.
  unfold test_c2s_and_s2c_keys_differ. rewrite generate_ok.
  cbn [unwrap mbind outcome_bind client_state chs_x25519_public chs_ml_kem_ek].
  destruct (respond_ok b coins (x25519_public_of a) _ _
    (kem_ek_roundtrip (kem_ek_of dk)) (zlen_kem_ek _)) as (keys & Hr & _ & Hd).
  rewrite Hr. cbn [unwrap mbind outcome_bind shs_session_keys]. rewrite assert_ne_passes.
  destruct (derive_keys_ok (diffie_hellman b (x25519_public_of a))
    (snd (kem_encapsulate (kem_ek_of dk) coins))
    (handshake_context (x25519_public_of a) (x25519_public_of b)
      (fst (kem_encapsulate (kem_ek_of dk) coins)))) as (keys' & Hd' & _ & Hc & Hs).
  rewrite Hd' in Hd. injection Hd as <-. rewrite handshake_context_app in Hc, Hs.
  unfold expansion. destruct (kem_encapsulate (kem_ek_of dk) coins) as [ct shared].
  cbn [fst snd] in *. rewrite Hc, Hs. split; [congruence|]. intros Hn Heq. apply Hn. by rewrite Heq.
Qed.
End session_tests_pass.

(** ** The identity tests *)
Section auth_tests_pass.
Context `{Sha256Laws, MlDsaLaws}.

Definition vk_bytes (id : dsa_sk) : bytes := dsa_vk_encode (dsa_vk_of id).
Definition signature_of (id : dsa_sk) (m : bytes) : bytes := dsa_sig_encode (dsa_sign id m).

Lemma sign_auth_ok id t n :
  @sign_auth_response _ t n (dsa_to_seed id) = Ok (signature_of id (t ++ n)).
Proof. unfold signature_of. rewrite <- (dsa_seed_roundtrip id) at 2. apply sign_tail, zlen_dsa_seed. Qed.

Lemma sign_hello_ok id ch pk ct :
  sign_server_hello ch pk ct (dsa_to_seed id) = Ok (signature_of id (sha256 ch ++ pk ++ ct)).
Proof.
  unfold signature_of. rewrite <- server_hello_message_app. rewrite <- (dsa_seed_roundtrip id) at 2.
  apply sign_tail, zlen_dsa_seed.
Qed.

Lemma zlen_signature_of id m : zlen (signature_of id m) = ML_DSA_65_SIG_SIZE.
Proof. apply zlen_dsa_sig. Qed.
Lemma zlen_vk_bytes id : zlen (vk_bytes id) = ML_DSA_65_VK_SIZE.
Proof. apply zlen_dsa_vk. Qed.

Lemma signature_of_valid id m : valid_signature (vk_bytes id) m (signature_of id m).
Proof. unfold signature_of. rewrite <- (dsa_seed_roundtrip id) at 2. apply signed_valid. Qed.

(** Whether a verifier's verdict is the one a test expects. *)
Lemma verdict (P : Prop) (m : outcome ProtocolError unit) :
  wp (fun _ => P) (fun e => e = CryptoError /\ ~ P) m ->
  (passes (assert (is_ok m)) <-> P) /\ (passes (assert (is_err m)) <-> ~ P).
Proof.
  rewrite assert_is_ok, assert_is_err. destruct m as [[]|e|]; cbn; [| |done].
  - intros Hp. split; [naive_solver|]. split; [by intros [? [=]]|done].
  - intros [-> Hn]. split; [split; [by intros [? [=]]|done]|]. naive_solver.
Qed.

Lemma verify_auth_verdict t n vk sig :
  zlen vk = ML_DSA_65_VK_SIZE -> zlen sig = ML_DSA_65_SIG_SIZE ->
  (passes (assert (is_ok (verify_auth_response t n vk sig))) <-> valid_signature vk (t ++ n) sig) /\
  (passes (assert (is_err (verify_auth_response t n vk sig))) <-> ~ valid_signature vk (t ++ n) sig).
Proof. intros Hv Hs. by apply verdict, verify_tail. Qed.

Lemma verify_hello_verdict ch pk ct vk sig :
  zlen vk = ML_DSA_65_VK_SIZE -> zlen sig = ML_DSA_65_SIG_SIZE ->
  let m := sha256 ch ++ pk ++ ct in
  (passes (assert (is_ok (verify_server_hello ch pk ct vk sig))) <-> valid_signature vk m sig) /\
  (passes (assert (is_err (verify_server_hello ch pk ct vk sig))) <-> ~ valid_signature vk m sig).
Proof. intros Hv Hs. cbv zeta. rewrite <- server_hello_message_app. by apply verdict, verify_tail. Qed.

Lemma flip_signature id m : flip_at (signature_of id m) 0 = Ok (flip_first (signature_of id m)).
Proof.
  generalize (zlen_signature_of id m). generalize (signature_of id m). intros [|b sig] Hl; [done|].
  by apply (flip_at_app []).
Qed.

(** The transcripts and messages of the tests. *)
Definition transcript_of (tag : Z) : bytes := sha256 ([byte_of tag] ++ [byte_of ((tag + 1) mod 256)]).
Definition hello_bytes_of (client_hello : bytes) : bytes :=
  sha256 client_hello ++ filled x11 32 ++ filled x22 ML_KEM_768_CT_SIZE.

Lemma sample_transcript_ok tag : sample_transcript tag = Ok (transcript_of tag).
Proof. apply transcript_ok. Qed.
Lemma identity_ok id : generate_auth_identity id = Ok (dsa_to_seed id, vk_bytes id).
Proof. apply generate_identity_ok. Qed.

Ltac run_identity_test :=
  repeat (first [rewrite identity_ok|rewrite sample_transcript_ok|rewrite sign_auth_ok
                |rewrite sign_hello_ok|rewrite flip_signature];
          cbn [unwrap mbind outcome_bind]).

Ltac by_verdict :=
  first [apply verify_auth_verdict|apply verify_hello_verdict];
  rewrite ?zlen_flip_first; first [apply zlen_vk_bytes|apply zlen_signature_of].

(** The tests of [auth.rs] that expect success. *)
Lemma identity_roundtrips_pass id :
  passes (test_auth_roundtrip_succeeds id) /\ passes (test_server_hello_roundtrip_succeeds id).
Proof.
  split; [unfold test_auth_roundtrip_succeeds|unfold test_server_hello_roundtrip_succeeds];
    run_identity_test; [apply verify_auth_verdict|apply verify_hello_verdict];
    (apply zlen_vk_bytes || apply zlen_signature_of || apply signature_of_valid).
Qed.

(** The tests of [auth.rs] that expect a rejection of a device. *)
Lemma auth_rejections_pass id imposter :
  let n := filled x42 AUTH_NONCE_LEN in
  let m := transcript_of 1 ++ n in
  (passes (test_wrong_transcript_is_rejected id)
   <-> ~ valid_signature (vk_bytes id) (transcript_of 2 ++ n) (signature_of id m)) /\
  (passes (test_wrong_nonce_is_rejected id)
   <-> ~ valid_signature (vk_bytes id) (transcript_of 1 ++ filled x22 AUTH_NONCE_LEN)
         (signature_of id (transcript_of 1 ++ filled x11 AUTH_NONCE_LEN))) /\
  (passes (test_wrong_verifying_key_is_rejected id imposter)
   <-> ~ valid_signature (vk_bytes imposter) m (signature_of id m)) /\
  (passes (test_tampered_signature_is_rejected id)
   <-> ~ valid_signature (vk_bytes id) m (flip_first (signature_of id m))).
Proof.
  cbv zeta. unfold test_wrong_transcript_is_rejected, test_wrong_nonce_is_rejected,
    test_wrong_verifying_key_is_rejected, test_tampered_signature_is_rejected.
  split_and!; run_identity_test; by_verdict.
Qed.

(** ... and of a server. *)
Lemma hello_rejections_pass id imposter :
  let m := hello_bytes_of (str "client-hello-wire-bytes") in
  (passes (test_server_hello_wrong_client_hello_is_rejected id)
   <-> ~ valid_signature (vk_bytes id) (hello_bytes_of (str "client-hello-from-session-b"))
         (signature_of id (hello_bytes_of (str "client-hello-from-session-a")))) /\
  (passes (test_server_hello_wrong_pinned_key_is_rejected id imposter)
   <-> ~ valid_signature (vk_bytes imposter) m (signature_of id m)) /\
  (passes (test_server_hello_tampered_signature_is_rejected id)
   <-> ~ valid_signature (vk_bytes id) m (flip_first (signature_of id m))).
Proof.
  cbv zeta. unfold test_server_hello_wrong_client_hello_is_rejected,
    test_server_hello_wrong_pinned_key_is_rejected,
    test_server_hello_tampered_signature_is_rejected.
  split_and!; run_identity_test; by_verdict.
Qed.

(** A payload survives the encoding of [payload_laws]. *)
Lemma encode_decode {A} `{PayloadLaws A} (p : A) :
  payload_ok p -> payload_fits p ->
  exists bs, payload_encode p = Ok bs /\ payload_decode bs = Ok p.
Proof.
  intros Hok Hf. exists (payload_layout p). split; [by apply encode_iff|by apply decode_layout].
Qed.

Lemma real_signatures_pass id :
  passes (test_auth_response_uses_real_ml_dsa_65_signature id) /\
  passes (test_server_hello_uses_real_ml_dsa_65_signature id).
Proof.
  split.
  - unfold test_auth_response_uses_real_ml_dsa_65_signature. rewrite transcript_ok.
    run_identity_test. set (t := sha256 _). set (sig := signature_of _ _).
    destruct (encode_decode (mk_AuthResponsePayload (vk_bytes id) sig [])) as (bs & He & Hd).
    { split; [apply zlen_vk_bytes|apply zlen_signature_of]. }
    { done. }
    cbn [payload_encode payload_decode AuthResponsePayload_payload] in He, Hd. rewrite He. cbn [unwrap mbind outcome_bind]. rewrite Hd.
    cbn [unwrap mbind outcome_bind ar_public_key ar_signature].
    apply verify_auth_verdict; [apply zlen_vk_bytes|apply zlen_signature_of|apply signature_of_valid].
  - unfold test_server_hello_uses_real_ml_dsa_65_signature. run_identity_test.
    set (sig := signature_of _ _).
    destruct (encode_decode (mk_ServerHelloPayload (str "chatix-server-1") (filled xaa 32)
      (filled xbb ML_KEM_768_CT_SIZE) sig)) as (bs & He & Hd).
    { split; [done|]. split; [done|]. split; [done|apply zlen_signature_of]. }
    { done. }
    cbn [payload_encode payload_decode ServerHelloPayload_payload] in He, Hd. rewrite He. cbn [unwrap mbind outcome_bind]. rewrite Hd.
    cbn [unwrap mbind outcome_bind sh_x25519_public_key sh_ml_kem_ciphertext sh_signature].
    apply verify_hello_verdict; [apply zlen_vk_bytes|apply zlen_signature_of|apply signature_of_valid].
Qed.
End auth_tests_pass.

(** ** The end-to-end tests *)
Section e2e_tests_pass.
Context `{AeadLaws, HkdfLaws, X25519Laws, MlKemLaws, MlDsaLaws}.

(** What the generators may answer: arrays of the sizes asked for, and coins
    for which the recipient's decapsulation is correct. *)
Definition keypair_ok (r : keypair_samples) : Prop := zlen (random_seed r) = 64.
Definition message_ok (recipient : keypair_samples) (m : message_samples) : Prop :=
  zlen (random_iv m) = NONCE_LEN /\ kem_agrees (kem_from_seed (random_seed recipient)) (random_coins m).

Definition sk_of (r : keypair_samples) : E2eSecretKey :=
  secret_key (random_x25519 r) (random_seed r) (random_dsa r).
Definition pk_of (r : keypair_samples) : E2ePublicKey :=
  public_key (random_x25519 r) (random_seed r) (random_dsa r).

Lemma new_keypair_ok r : keypair_ok r -> new_keypair r = Ok (sk_of r, pk_of r).
Proof. apply generate_keypair_ok. Qed.

(** The blob of a test, with its signed part before and after the byte at the
    start of the sealed text is flipped. *)
Definition blob_of_test (recipient sender : keypair_samples) (m : message_samples) (ct : bytes)
    : content_blob :=
  sealed_blob (random_ephemeral m) (random_coins m) (random_iv m)
    (kem_ek_of (kem_from_seed (random_seed recipient))) (dsa_to_seed (random_dsa sender)) ct.

Definition tampered_blob (b : content_blob) : content_blob :=
  mk_content_blob (cb_sender_pk b) (cb_ml_kem_ct b) (cb_nonce b) (flip_first (cb_sealed b))
    (cb_signature b).

Lemma encrypt_test recipient sender m plaintext :
  message_ok recipient m -> zlen plaintext <= AEAD_MAX ->
  exists ct, encrypt m plaintext (pk_of recipient) (sk_of sender)
             = Ok (blob_layout (blob_of_test recipient sender m ct)) /\
    zlen ct = zlen plaintext + GCM_TAG_LEN /\
    content_blob_ok (blob_of_test recipient sender m ct).
Proof.
  intros [Hn _] Hp. destruct (encrypt_ok (random_ephemeral m) (random_coins m) (random_iv m)
    plaintext (x25519_public (pk_of recipient)) _ _ (dsa_to_seed (random_dsa sender))
    (kem_ek_roundtrip (kem_ek_of (kem_from_seed (random_seed recipient)))) (zlen_kem_ek _)
    (zlen_dsa_seed _) Hn Hp) as (ck & key & ct & _ & _ & Hct & He).
  exists ct. split; [exact He|]. split; [by eapply aead_seal_len|by apply sealed_blob_ok].
Qed.

Lemma flip_blob b :
  content_blob_ok b -> cb_sealed b <> [] ->
  flip_at (blob_layout b) AES_NONCE_END = Ok (blob_layout (tampered_blob b)).
Proof.
  intros (H1' & H2' & H3' & _) Hs. destruct b as [pk kct n ct sig]. cbn in *.
  unfold blob_layout, signed_part. cbn. rewrite <- !app_assoc.
  rewrite (app_assoc pk), (app_assoc (pk ++ kct)).
  rewrite (flip_at_app ((pk ++ kct) ++ n));
    [|by rewrite !zlen_app, H1', H2', H3'|by destruct ct].
  destruct ct as [|c ct]; [done|]. cbn. by rewrite <- !app_assoc.
Qed.

(** A blob whose signature is not the sender's is refused. *)
Lemma unsigned_rejected b sk seed vk :
  content_blob_ok b -> MIN_BLOB_LEN <= zlen (blob_layout b) ->
  zlen seed = 64 -> zlen vk = ML_DSA_65_VK_SIZE ->
  ~ valid_signature vk (signed_part b) (cb_signature b) ->
  passes (assert (is_err (verify_and_decrypt (blob_layout b) sk seed vk))).
Proof.
  intros Hok Hm Hs Hv Hn. apply assert_is_err.
  pose proof (verify_wp b sk seed vk Hok Hm Hs Hv) as Hw.
  destruct (verify_and_decrypt _ _ _ _) as [pt|e|]; cbn in Hw; [|eauto|done].
  destruct Hw as (s & _ & _ & Hd & Hver & _). destruct Hn. by exists s.
Qed.

Ltac run_keypairs := rewrite !new_keypair_ok by done; cbn [unwrap mbind outcome_bind].

Lemma e2e_roundtrip_passes recipient sender m :
  keypair_ok recipient -> keypair_ok sender -> message_ok recipient m ->
  passes (test_e2e_roundtrip recipient sender m).
Proof.
  intros Hr Hs [Hn Hag]. unfold test_e2e_roundtrip. run_keypairs. unfold encrypt, decrypt.
  destruct (e2e_delivery (random_x25519 recipient) (random_seed recipient) (random_dsa recipient)
    (random_x25519 sender) (random_seed sender) (random_dsa sender) (random_ephemeral m)
    (random_coins m) (random_iv m) (str "hello end-to-end") Hr Hn ltac:(done) Hag)
    as (blob & He & _ & Hd).
  unfold sk_of, pk_of. rewrite He. cbn [unwrap mbind outcome_bind]. rewrite Hd.
  cbn [unwrap mbind outcome_bind]. by apply assert_eq_passes.
Qed.

Lemma blob_minimum_passes recipient sender m :
  keypair_ok recipient -> keypair_ok sender -> message_ok recipient m ->
  passes (test_blob_minimum_size_matches_constant recipient sender m).
Proof.
  intros Hr Hs Hm. unfold test_blob_minimum_size_matches_constant. run_keypairs.
  destruct (encrypt_test recipient sender m [] Hm ltac:(done)) as (ct & He & Hct & Hok).
  rewrite He. cbn [unwrap mbind outcome_bind]. apply passes_bind. split.
  { apply assert_eq_passes. rewrite zlen_blob_layout by done. cbn [blob_of_test sealed_blob cb_sealed].
    rewrite Hct. done. }
  unfold blob_layout at 1 2. rewrite zlen_app. destruct Hok as (_ & _ & _ & Hsl). rewrite Hsl.
  rewrite Z.add_simpl_r, slice_from_skip, slice_from_0
    by (rewrite ?Hsl; unfold ML_DSA_65_SIG_SIZE; lia). cbn [mbind outcome_bind].
  rewrite try_into_ok by done. cbn [ok_or unwrap mbind outcome_bind blob_of_test sealed_blob cb_signature].
  by rewrite dsa_sig_roundtrip.
Qed.

(** The two tests that expect a rejection pass when the signature scheme tells
    the tampered blob, respectively the imposter's key, from the signed one. *)
Lemma e2e_rejections_pass recipient sender imposter m :
  keypair_ok recipient -> keypair_ok sender -> keypair_ok imposter -> message_ok recipient m ->
  exists ct,
    encrypt m (str "secret") (pk_of recipient) (sk_of sender)
    = Ok (blob_layout (blob_of_test recipient sender m ct)) /\
    let b := blob_of_test recipient sender m ct in
    (~ valid_signature (vk_bytes (random_dsa sender)) (signed_part (tampered_blob b)) (cb_signature b) ->
     passes (test_tampered_ciphertext_is_rejected recipient sender m)) /\
    (~ valid_signature (vk_bytes (random_dsa imposter)) (signed_part b) (cb_signature b) ->
     passes (test_e2e_wrong_verifying_key_is_rejected recipient sender imposter m)).
Proof.
  intros Hr Hs Hi Hm.
  destruct (encrypt_test recipient sender m (str "secret") Hm ltac:(done)) as (ct & He & Hct & Hok).
  exists ct. split; [exact He|]. cbv zeta. set (b := blob_of_test _ _ _ _) in *.
  assert (MIN_BLOB_LEN <= zlen (blob_layout b)) as Hmin.
  { rewrite zlen_blob_layout by done. cbn [b blob_of_test sealed_blob cb_sealed]. rewrite Hct.
    change (zlen (str "secret")) with 6. lia. }
  assert (content_blob_ok (tampered_blob b)) as Hok' by exact Hok.
  split; intros Hn.
  - unfold test_tampered_ciphertext_is_rejected. run_keypairs. rewrite He.
    cbn [unwrap mbind outcome_bind]. rewrite flip_blob; [|done|].
    2:{ cbn [b blob_of_test sealed_blob cb_sealed]. intros ->. discriminate Hct. }
    apply unsigned_rejected; [done| |done|apply zlen_vk_bytes|done].
    rewrite zlen_blob_layout in * by done. cbn [tampered_blob cb_sealed]. by rewrite zlen_flip_first.
  - unfold test_e2e_wrong_verifying_key_is_rejected. run_keypairs. rewrite He.
    cbn [unwrap mbind outcome_bind].
    by apply unsigned_rejected; [| |done|apply zlen_vk_bytes|].
Qed.
End e2e_tests_pass.

(** ** The safety-number tests *)

(** A string of [n] groups of digits joined by spaces has [n - 1] spaces. *)
Lemma spaces_of_group g :
  Forall (fun b => is_digit b = true) g -> filter (fun b => Is_true (is_space b)) g = [].
Proof.
  induction 1 as [|b g Hb _ IH]; [done|]. rewrite filter_cons_False; [done|].
  unfold is_space, is_digit, in_range in *. intros Hs%Is_true_true%Z.eqb_eq. rewrite Hs in Hb. done.
Qed.

Lemma spaces_of_join gs :
  Forall (Forall (fun b => is_digit b = true)) gs -> gs <> [] ->
  split_count (join [x20] gs) = zlen gs.
Proof.
  unfold split_count. induction 1 as [|g gs Hg Hgs IH]; [done|]. intros _.
  destruct gs as [|g' gs]; [cbn [join]; by rewrite spaces_of_group|].
  change (join [x20] (g :: g' :: gs)) with (g ++ [x20] ++ join [x20] (g' :: gs)).
  rewrite !filter_app, spaces_of_group by done. change (filter _ [x20]) with [x20].
  specialize (IH ltac:(done)). unfold zlen in *. rewrite !length_app. cbn [length] in *. lia.
Qed.

Lemma chars_of_join gs :
  Forall (Forall (fun b => is_digit b = true)) gs ->
  forallb (fun c => is_digit c || is_space c) (join [x20] gs) = true.
Proof.
  intros Hgs. apply forallb_forall. intros c Hc. induction Hgs as [|g gs Hg Hgs IH]; [done|].
  assert (forall x, In x g -> is_digit x || is_space x = true) as Hin.
  { intros x Hx. rewrite List.Forall_forall in Hg. by rewrite Hg. }
  destruct gs as [|g' gs]; [by apply Hin|].
  change (join [x20] (g :: g' :: gs)) with (g ++ [x20] ++ join [x20] (g' :: gs)) in Hc.
  rewrite !in_app_iff in Hc. destruct Hc as [Hc|[[<-|[]]|Hc]]; auto.
Qed.

Section safety_number_tests_pass.
Context `{Sha256Laws, X25519Laws, MlKemLaws, MlDsaLaws}.

#[local] Opaque compute_fingerprint number_groups.

(** The thirty digits of an identity in a safety number. *)
Definition digits_of (identifier : string) (r : keypair_samples) : list bytes :=
  map group (displayed (compute_fingerprint (str identifier) (pk_of r))).

Ltac run_keypairs := rewrite !new_keypair_ok by done; cbn [unwrap mbind outcome_bind].

Lemma safety_number_tests_ok alice bob :
  keypair_ok alice -> keypair_ok bob ->
  passes (test_safety_number_is_symmetric alice bob) /\
  passes (test_safety_number_has_expected_shape alice bob) /\
  passes (test_verify_key_unchanged_accepts_the_same_key alice).
Proof.
  intros Ha Hb. unfold test_safety_number_is_symmetric, test_safety_number_has_expected_shape,
    test_verify_key_unchanged_accepts_the_same_key. run_keypairs. split_and!.
  - rewrite !safety_number_ok. cbn [unwrap mbind outcome_bind]. apply assert_eq_passes.
    rewrite number_groups_sym; [reflexivity|discriminate].
  - rewrite safety_number_ok. cbn [unwrap mbind outcome_bind].
    pose proof (number_groups_shape (str "alice") (pk_of alice) (str "bob") (pk_of bob)) as [Hl Hg].
    pose proof (number_groups_five (str "alice") (pk_of alice) (str "bob") (pk_of bob)) as Hf.
    revert Hl Hg Hf. generalize (number_groups (str "alice") (pk_of alice) (str "bob") (pk_of bob)).
    intros gs Hl Hg Hf.
    assert (gs <> []) as Hne by (intros ->; discriminate Hl).
    assert (Forall (Forall (fun b => is_digit b = true)) gs) as Hd
      by (eapply Forall_impl; [exact Hg|by intros g []]).
    rewrite !passes_bind, !assert_eq_passes. split_and!.
    + rewrite (zlen_join _ _ 5) by done. by rewrite Hl.
    + by rewrite chars_of_join.
    + rewrite spaces_of_join by done. unfold zlen. by rewrite Hl.
  - unfold verify_key_unchanged. by rewrite bool_decide_true.
Qed.

Lemma remaining (P Q : Prop) : P -> ~ (P /\ Q) <-> ~ Q.
Proof. tauto. Qed.
Lemma remaining_l (P Q : Prop) : Q -> ~ (P /\ Q) <-> ~ P.
Proof. tauto. Qed.

(** The tests that expect a difference pass exactly when there is one to see. *)
Lemma safety_number_changes_pass alice bob imposter :
  keypair_ok alice -> keypair_ok bob -> keypair_ok imposter ->
  (passes (test_safety_number_changes_if_a_public_key_is_swapped alice bob imposter)
   <-> digits_of "bob" bob <> digits_of "bob" imposter) /\
  (passes (test_safety_number_changes_if_an_identifier_changes alice bob)
   <-> digits_of "alice" alice <> digits_of "alice2" alice) /\
  (passes (test_verify_key_unchanged_rejects_an_imposter_key alice imposter)
   <-> pk_of alice <> pk_of imposter) /\
  (passes (test_verify_key_unchanged_error_identifies_the_affected_identity alice imposter)
   <-> pk_of alice <> pk_of imposter).
Proof.
  intros Ha Hb Hi. unfold digits_of, test_safety_number_changes_if_a_public_key_is_swapped,
    test_safety_number_changes_if_an_identifier_changes,
    test_verify_key_unchanged_rejects_an_imposter_key,
    test_verify_key_unchanged_error_identifies_the_affected_identity. run_keypairs. split_and!.
  - rewrite !safety_number_ok. cbn [unwrap mbind outcome_bind]. rewrite assert_ne_passes.
    rewrite number_digits_eq by reflexivity. apply remaining, eq_refl.
  - rewrite !safety_number_ok. cbn [unwrap mbind outcome_bind]. rewrite assert_ne_passes.
    rewrite number_digits_eq by reflexivity. apply remaining_l, eq_refl.
  - unfold verify_key_unchanged. case_bool_decide as Hk; rewrite assert_is_err.
    + split; [by intros [? [=]]|by intros Hn].
    + split; [done|eauto].
  - unfold verify_key_unchanged. case_bool_decide as Hk; [by split; [|intros Hn]|].
    split; [done|]. intros _. by apply assert_eq_passes.
Qed.
End safety_number_tests_pass.

(** ** The tests pass *)

(** The unit tests of [session.rs], [auth.rs], [auth_payloads.rs],
    [hello_payloads.rs], [e2e.rs] and [safety_number.rs] that expect success
    pass for every sample of the right size whose ML-KEM coins decapsulate
    correctly ([kem_agrees], [message_ok]): key agreement, the two
    authentication round trips, the two payloads carrying real signatures, the
    end-to-end round trip, the minimum blob size, the symmetry and shape of
    safety numbers, and an unchanged key. *)
Lemma accepting_tests_pass
    `{Sha256Laws, AeadLaws, HkdfLaws, X25519Laws, MlKemLaws, MlDsaLaws}
    a dk b coins id (recipient sender : keypair_samples) m :
  kem_agrees dk coins ->
  keypair_ok recipient -> keypair_ok sender -> message_ok recipient m ->
  passes (test_session_key_derivation_matches a dk b coins) /\
  passes (test_auth_roundtrip_succeeds id) /\
  passes (test_server_hello_roundtrip_succeeds id) /\
  passes (test_auth_response_uses_real_ml_dsa_65_signature id) /\
  passes (test_server_hello_uses_real_ml_dsa_65_signature id) /\
  passes (test_e2e_roundtrip recipient sender m) /\
  passes (test_blob_minimum_size_matches_constant recipient sender m) /\
  passes (test_safety_number_is_symmetric recipient sender) /\
  passes (test_safety_number_has_expected_shape recipient sender) /\
  passes (test_verify_key_unchanged_accepts_the_same_key recipient).
Proof.
  intros Hag Hr Hs Hm. destruct (identity_roundtrips_pass id), (real_signatures_pass id),
    (safety_number_tests_ok recipient sender Hr Hs) as (? & ? & ?).
  by split_and!; [apply session_key_derivation_passes|..|apply e2e_roundtrip_passes
    |apply blob_minimum_passes| | |].
Qed.

(** The unit tests of the same files that expect a difference or a rejection.
    Twelve of them pass exactly when the primitives tell the two inputs apart:
    the direction test when HKDF gives different keys for the two labels; the
    seven tests of [auth.rs] when the forged transcript, nonce, client hello, key or
    signature is not a valid signature under the key given; the safety-number
    tests when the displayed digits, or the keys, differ. Of the two end-to-end
    tests only one direction is shown: they pass if the sender's, respectively
    the imposter's, key does not validate the signature of the blob they
    submit. *)
Lemma rejecting_tests_exact
    `{Sha256Laws, AeadLaws, HkdfLaws, X25519Laws, MlKemLaws, MlDsaLaws}
    a dk b coins id impostor_id (alice bob imposter : keypair_samples)
    (msg : message_samples) :
  keypair_ok alice -> keypair_ok bob -> keypair_ok imposter -> message_ok alice msg ->
  let n := filled x42 AUTH_NONCE_LEN in
  let vk := vk_bytes id in
  let m := transcript_of 1 ++ n in
  let hello := hello_bytes_of (str "client-hello-wire-bytes") in
  (passes (test_c2s_and_s2c_keys_differ a dk b coins)
   <-> expansion a dk b coins C2S_LABEL <> expansion a dk b coins S2C_LABEL) /\
  (passes (test_wrong_transcript_is_rejected id)
   <-> ~ valid_signature vk (transcript_of 2 ++ n) (signature_of id m)) /\
  (passes (test_wrong_nonce_is_rejected id)
   <-> ~ valid_signature vk (transcript_of 1 ++ filled x22 AUTH_NONCE_LEN)
         (signature_of id (transcript_of 1 ++ filled x11 AUTH_NONCE_LEN))) /\
  (passes (test_wrong_verifying_key_is_rejected id impostor_id)
   <-> ~ valid_signature (vk_bytes impostor_id) m (signature_of id m)) /\
  (passes (test_tampered_signature_is_rejected id)
   <-> ~ valid_signature vk m (flip_first (signature_of id m))) /\
  (passes (test_server_hello_wrong_client_hello_is_rejected id)
   <-> ~ valid_signature vk (hello_bytes_of (str "client-hello-from-session-b"))
         (signature_of id (hello_bytes_of (str "client-hello-from-session-a")))) /\
  (passes (test_server_hello_wrong_pinned_key_is_rejected id impostor_id)
   <-> ~ valid_signature (vk_bytes impostor_id) hello (signature_of id hello)) /\
  (passes (test_server_hello_tampered_signature_is_rejected id)
   <-> ~ valid_signature vk hello (flip_first (signature_of id hello))) /\
  (passes (test_safety_number_changes_if_a_public_key_is_swapped alice bob imposter)
   <-> digits_of "bob" bob <> digits_of "bob" imposter) /\
  (passes (test_safety_number_changes_if_an_identifier_changes alice bob)
   <-> digits_of "alice" alice <> digits_of "alice2" alice) /\
  (passes (test_verify_key_unchanged_rejects_an_imposter_key alice imposter)
   <-> pk_of alice <> pk_of imposter) /\
  (passes (test_verify_key_unchanged_error_identifies_the_affected_identity alice imposter)
   <-> pk_of alice <> pk_of imposter) /\
  exists ct, let b := blob_of_test alice bob msg ct in
    encrypt msg (str "secret") (pk_of alice) (sk_of bob) = Ok (blob_layout b) /\
    (~ valid_signature (vk_bytes (random_dsa bob)) (signed_part (tampered_blob b)) (cb_signature b) ->
     passes (test_tampered_ciphertext_is_rejected alice bob msg)) /\
    (~ valid_signature (vk_bytes (random_dsa imposter)) (signed_part b) (cb_signature b) ->
     passes (test_e2e_wrong_verifying_key_is_rejected alice bob imposter msg)).
Proof.
  intros Ha Hb Hi Hm. cbv zeta.
  pose proof (auth_rejections_pass id impostor_id) as (? & ? & ? & ?).
  pose proof (hello_rejections_pass id impostor_id) as (? & ? & ?).
  pose proof (safety_number_changes_pass alice bob imposter Ha Hb Hi) as (? & ? & ? & ?).
  pose proof (e2e_rejections_pass alice bob imposter msg Ha Hb Hi Hm) as He. cbv zeta in He.
  repeat match goal with |- _ /\ _ => split end; [apply keys_differ_passes|assumption..].
Qed.
