(* ===== verification/CodecExamples.v ===== *)
(** * Concrete runs of the codec

    The theorems of [Codec], [Async], [Stream] and [Connection] at concrete inputs, with the
    in-memory streams and the arithmetic primitives of [Instances]. *)
From Stdlib Require Import Sorting.Sorted.
From S2P Require Import Prelude RustStd Sizes Errors Header PacketType Primitives ByteStreams Instances.
From S2P Require Import ConnectionState Common PingPayloads HelloPayloads Payloads.
From S2P Require Import Codec Async Sealing Interrupted Stream Channel Connection.

(** A [Ping] frame with sequence number 5, unencrypted. *)
Definition example_frame : bytes :=
  CHATIX_MAGIC ++ [x01; x14; x00; x18; x00; x00; x00; x08;
    x00; x00; x00; x00; x00; x00; x00; x05; x00; x00; x00; x00] ++ repeat x07 8.

Lemma read_packet_refines_witness :
  exists o s', PacketCodec_read_packet (PacketCodec_new, example_frame) = (o, s') /\
    o <> Panic /\
    forall o' s'', delivers PacketCodec_new example_frame o' s'' <-> o' = o /\ s'' = s'.
Proof. exact (read_packet_refines PacketCodec_new example_frame). Defined.

(** A session whose two directions use the same key, and a [Pong] frame in it. *)
Definition example_cipher : SessionCipher := mk_SessionCipher (repeat x2a 32) (repeat x2a 32).
Definition example_session : PacketCodec :=
  PacketCodec_establish_session PacketCodec_new (repeat x2a 32) (repeat x2a 32).

Definition example_packet : RawPacket :=
  RawPacket_new (PacketHeader_new x14 x00 8 5) (repeat x07 8).

Lemma example_read :
  PacketCodec_read_packet (PacketCodec_new, example_frame)
  = (Ok example_packet, (set_last_recv_seq 5 PacketCodec_new, [])).
Proof. vm_compute. reflexivity. Qed.

Lemma accepted_packet_witness :
  zlen (repeat x07 8) <= PacketType_max_payload_size Ping.
Proof.
  destruct (accepted_packet PacketCodec_new example_frame example_packet
    (set_last_recv_seq 5 PacketCodec_new) [] example_read) as (_ & _ & (t & Ht & Hl) & _).
  assert (t = Ping) as -> by (by apply as_u8_inj). exact Hl.
Defined.

(** The frame [example_session] writes for a [Ping] of eight bytes. *)
Definition example_sealed : bytes :=
  snd (snd (PacketCodec_write_packet Ping x00 (repeat x07 8) (example_session, []))).

Lemma example_opened :
  PacketCodec_read_packet (example_session, example_sealed)
  = (Ok (RawPacket_new (PacketHeader_new x14 x01 8 1) (repeat x07 8)),
     (set_last_recv_seq 1 example_session, [])).
Proof. vm_compute. reflexivity. Qed.

Lemma example_logged :
  PacketCodec_read_packet (PacketCodec_new, mk_Logged example_frame [])
  = (Ok example_packet, (set_last_recv_seq 5 PacketCodec_new, mk_Logged [] [24; 8])).
Proof. vm_compute. reflexivity. Qed.

Lemma plaintext_injection_refused_witness :
  exists r', PacketCodec_read_packet (example_session, example_frame)
    = (Err EncryptionRequired, (example_session, r')) /\ pending r' = repeat x07 8.
Proof.
  refine (proj1 (plaintext_injection_refused example_session example_frame
    (PacketHeader_new x14 x00 8 5) (repeat x07 8) _ _ _) _ _); [by vm_compute..|by eexists|by vm_compute].
Defined.

Lemma write_packet_refines_witness :
  exists o s', PacketCodec_write_packet Ping x00 (repeat x07 8) (example_session, []) = (o, s') /\
    transmits example_session [] Ping x00 (repeat x07 8) o s' /\ o <> Panic /\
    (next_send_seq example_session = u64_max -> o = Err CryptoError /\ s' = (example_session, []))
    /\ (next_send_seq example_session < u64_max -> fst s' = set_next_send_seq 2 example_session).
Proof. exact (write_packet_refines example_session [] Ping x00 (repeat x07 8)). Defined.

Lemma oversized_frame_refused_witness :
  exists frame s' w',
    PacketCodec_write_packet Ping x00 (repeat x07 9) (example_session, []) = (Ok tt, (s', w')) /\
    written w' = written (W := bytes) [] ++ frame /\
    (pending (R := bytes) [] = frame ++ [] ->
     exists size max (r' : bytes), PacketCodec_read_packet (example_session, [])
       = (Err (PayloadTooLarge size max), (example_session, r'))).
Proof.
  apply (oversized_frame_refused (W := bytes) (R := bytes) example_session example_session [] [] Ping x00 (repeat x07 9) []).
  - intros cipher [= <-]. reflexivity.
  - eauto.
  - by vm_compute.
  - reflexivity.
  - by vm_compute.
Defined.

Lemma read_requests_bounded_witness :
  exists more, [24; 8] = [] ++ CHATIX_HEADER_SIZE :: more /\
    (more = [] \/ exists n, more = [n] /\ 1 <= n <= 65536 + GCM_TAG_LEN).
Proof.
  exact (read_requests_bounded PacketCodec_new (set_last_recv_seq 5 PacketCodec_new)
    (mk_Logged example_frame []) (mk_Logged [] [24; 8])
    (Ok example_packet) example_logged).
Defined.

(** ** Traffic *)

(** A life of [example_session]: a write, a read of [example_sealed], the same
    bytes again. *)
Definition example_events : list codec_event :=
  [Wrote [mk_seal_query (nonce_of 1) [x14; x01] (repeat x07 8)] (Ok tt);
   Received (Ok (RawPacket_new (PacketHeader_new x14 x01 8 1) (repeat x07 8)));
   Received (Err (SequenceViolation 1 1))].

Lemma example_life :
  exists c, codec_steps bytes bytes example_session example_events c.
Proof.
  eexists. unfold example_events.
  eapply (steps_write bytes bytes example_session [] Ping x00 (repeat x07 8));
    [vm_compute; reflexivity|exact (write_run_seals example_session [] Ping x00 (repeat x07 8))|].
  eapply (steps_read bytes bytes _ example_sealed); [vm_compute; reflexivity|].
  eapply (steps_read bytes bytes _ example_sealed); [vm_compute; reflexivity|].
  apply steps_nil.
Qed.

Lemma codec_numbers_witness :
  exists c, next_send_seq c = 2 /\ omap accepted_sequence example_events = [1] /\
    exists last, last_recv_seq c = Some last /\ 1 <= last.
Proof.
  destruct example_life as [c Hl]. exists c.
  destruct (codec_numbers example_session example_events c Hl) as (Hn & _ & Hf); [by vm_compute|].
  split; [exact Hn|]. split; [reflexivity|]. by apply Forall_cons in Hf as [[_ Hb] _].
Defined.

(** The write of [example_events] under a library that refuses its nonce. *)
Lemma example_write_refused :
  makes_seal (write_run (W := bytes) example_session [] Ping x00 (repeat x07 8))
    (mk_seal_query (nonce_of 1) [x14; x01] (repeat x07 8)).
Proof. by vm_compute. Qed.

Lemma nonces_never_reused_witness :
  NoDup (nonces_sealed example_events) /\ nonces_sealed example_events = [nonce_of 1].
Proof.
  destruct example_life as [c Hl]. split; [|reflexivity].
  apply (nonces_never_reused example_session example_events c Hl). by vm_compute.
Defined.

Definition example_traffic : list outgoing :=
  [mk_outgoing Ping x00 (repeat x07 8); mk_outgoing SendMessage x00 [x01; x02]].

Lemma stream_roundtrip_witness :
  exists wire cs',
    (forall w : bytes, exists w',
       write_packets example_traffic (example_session, w) = (Ok tt, (cs', w')) /\
       written w' = written w ++ wire) /\
    (forall (r : bytes) rest, pending r = wire ++ rest ->
       exists cr' r', read_packets 2 (example_session, r)
         = (Ok (received_all true 1 example_traffic), (cr', r')) /\
         pending r' = rest /\ linked cs' cr').
Proof.
  refine (stream_roundtrip example_session example_session example_traffic _ _ _).
  - by apply linked_establish; [apply linked_new|].
  - repeat constructor; by vm_compute.
  - by vm_compute.
Defined.

(** The frame of [example_sealed] with a forged body and number. *)
Definition example_forged : PacketHeader := PacketHeader_new x14 x01 24 u64_max.

Lemma unauthenticated_frame_effect_witness :
  exists r', PacketCodec_read_packet (example_session, header_layout example_forged ++ repeat x00 24)
      = (Err CryptoError, (set_last_recv_seq u64_max example_session, r')) /\ pending r' = [] /\
    forall evs c', codec_steps bytes bytes (set_last_recv_seq u64_max example_session) evs c' ->
      Forall (fun seq => u64_max < seq) (omap accepted_sequence evs) /\
      (u64_max = u64_max -> omap accepted_sequence evs = []).
Proof.
  apply (unauthenticated_frame_effect (W := bytes) example_session example_forged Ping
    (repeat x00 24) (header_layout example_forged ++ repeat x00 24) []).
  - by vm_compute.
  - split; [by vm_compute|]. split; [by vm_compute|]. split; [by vm_compute|].
    split; [by vm_compute|]. intros last Hl. discriminate Hl.
  - by vm_compute.
  - by vm_compute.
  - by rewrite app_nil_r.
  - intros pt. unfold opens. replace (PacketHeader_is_encrypted example_forged) with true by done.
    intros (cipher & key & [= <-] & Hk & Ho).
    apply (f_equal (fun o => match o with Some _ => true | None => false end)) in Ho.
    vm_compute in Hk. injection Hk as <-. by vm_compute in Ho.
Defined.

(** ** Calls dropped at an await *)

(** A read dropped while it waits for the payload of [example_frame]. *)
Lemma example_dropped :
  dropped (read_packet_async PacketCodec_new) (set_last_recv_seq 5 PacketCodec_new).
Proof.
  apply (dropped_later _ _ _ (Ok (take 24 example_frame))); [by vm_compute|].
  vm_compute. apply dropped_here.
Qed.

Lemma cancelled_call_effect_witness :
  set_last_recv_seq 5 PacketCodec_new = PacketCodec_new \/
  exists h t, header_ok h /\ admissible PacketCodec_new h t /\ 0 < payload_len h /\
    set_last_recv_seq 5 PacketCodec_new = set_last_recv_seq (sequence h) PacketCodec_new.
Proof.
  exact (proj1 (proj1 (cancelled_call_effect PacketCodec_new Ping x00 []
    (set_last_recv_seq 5 PacketCodec_new))) example_dropped).
Defined.

Lemma receive_loop_ends_witness :
  exists e s', read_packets 3 (example_session, example_sealed) = (Err e, s').
Proof. apply (receive_loop_ends example_session example_sealed 3). by vm_compute. Defined.

(** ** A connection end *)

(** A client in session, and [example_sealed] as it decodes it. *)
Definition example_client : Connection := mk_Connection Client Established example_session.
Definition example_ping : decoded :=
  mk_decoded 1 Ping (mk_PingPayload (from_be_bytes (repeat x07 8))).

Lemma example_received :
  Connection_receive (example_client, example_sealed)
  = (Ok example_ping, (with_codec (set_last_recv_seq 1 example_session) example_client, [])).
Proof. vm_compute. reflexivity. Qed.

Lemma received_payload_authentic_witness :
  payload_ok (d_payload example_ping) /\ receivable Client Ping = true /\
  exists fl bs body,
    payload_encode (d_payload example_ping) = Ok bs /\
    seals (peer_codec example_cipher 1) Ping fl bs fl body /\
    example_sealed
    = header_layout (frame_header (peer_codec example_cipher 1) Ping fl body) ++ body ++ [].
Proof.
  destruct (received_payload_authentic example_client example_sealed example_cipher example_ping
    (with_codec (set_last_recv_seq 1 example_session) example_client) [] eq_refl example_received)
    as (Hok & Hr & _ & He).
  split; [exact Hok|]. split; [exact Hr|exact He].
Defined.

Lemma connection_transfer_witness :
  exists bs wire, payload_encode (d_payload example_ping) = Ok bs /\
    (forall w : bytes, exists cs' w',
       PacketCodec_write_packet Ping x00 bs (example_session, w) = (Ok tt, (cs', w')) /\
       written w' = written w ++ wire) /\
    (forall (r : bytes) rest, pending r = wire ++ rest ->
       exists codec' r', Connection_receive (example_client, r)
         = (Ok example_ping,
            (with_state Established (with_codec codec' example_client), r')) /\ pending r' = rest).
Proof.
  refine (connection_transfer (R := bytes) (W := bytes) example_session example_client Ping
    (d_payload example_ping) Established _ eq_refl _ _ eq_refl).
  - by apply linked_establish; [apply linked_new|].
  - by vm_compute.
  - by left.
Defined.

(** A client sends its hello, receives the server's, and refuses a second one. *)
Definition example_hello : ServerHelloPayload :=
  mk_ServerHelloPayload [x62] (repeat x03 32) (repeat x04 1088) (repeat x05 3309).
Definition hello_frame : bytes :=
  snd (snd (PacketCodec_write_packet ServerHello x00 (payload_layout example_hello)
    (PacketCodec_new, []))).
Definition second_hello : bytes :=
  snd (snd (PacketCodec_write_packet ServerHello x00 (payload_layout example_hello)
    (set_next_send_seq 2 PacketCodec_new, []))).

Lemma example_connection :
  exists c, connection_steps bytes bytes (Connection_new Client)
    [Ok (mk_decoded 1 ServerHello example_hello); Err InvalidStateTransition] c /\
    c_state c = AwaitingServerAccept.
Proof.
  eexists. split.
  - eapply (connection_write bytes bytes _ [] ClientHello x00 [x01]); [vm_compute; reflexivity|].
    eapply (connection_receive bytes bytes _ hello_frame); [vm_compute; reflexivity|].
    eapply (connection_receive bytes bytes _ second_hello); [vm_compute; reflexivity|].
    apply connection_nil.
  - vm_compute. reflexivity.
Qed.

Lemma connection_life_safe_witness :
  exists c, c_state c = AwaitingServerAccept /\
    StronglySorted Z.lt [1] /\
    exists ts, run Client (ConnectionState_initial Client) ts = Ok (c_state c) /\
      sublist [ServerHello] ts.
Proof.
  destruct example_connection as (c & Hs & Hc). exists c. split; [exact Hc|].
  destruct (connection_life_safe Client _ c Hs) as (Hso & ts & Hr & Hl & _).
  split; [exact Hso|]. exists ts. split; [exact Hr|exact Hl].
Defined.

(** Two pings are sent; the network replays the first and drops the second. *)
Definition ping_frame (seq : Z) : frame := mk_frame seq x14 x01 (repeat x07 8).
Definition ping_body : bytes := drop 24 example_sealed.

Definition example_sealed_2 : bytes :=
  snd (snd (PacketCodec_write_packet Ping x00 (repeat x07 8)
    (set_next_send_seq 2 example_session, []))).

Lemma example_sender :
  sender_log bytes bytes example_session [ping_frame 1; ping_frame 2]
    (set_next_send_seq 3 example_session).
Proof.
  change [ping_frame 1; ping_frame 2] with
    (seals_frame example_session Ping x00 (repeat x07 8)
     ++ seals_frame (set_next_send_seq 2 example_session) Ping x00 (repeat x07 8) ++ []).
  apply (sender_write bytes bytes example_session [] Ping x00 (repeat x07 8) (Ok tt)
    (set_next_send_seq 2 example_session) example_sealed); [vm_compute; reflexivity|].
  apply (sender_write bytes bytes (set_next_send_seq 2 example_session) [] Ping x00 (repeat x07 8)
    (Ok tt) (set_next_send_seq 3 example_session) example_sealed_2); [vm_compute; reflexivity|].
  apply sender_nil.
Qed.

Lemma example_receiver :
  receiver_log bytes bytes example_session [(ping_frame 1, ping_body)]
    (set_last_recv_seq 1 example_session).
Proof.
  eapply (receiver_packet bytes bytes example_session (example_sealed ++ example_sealed)
    (RawPacket_new (PacketHeader_new x14 x01 8 1) (repeat x07 8)) (take 24 example_sealed));
    [vm_compute; reflexivity..|].
  eapply (receiver_error bytes bytes _ example_sealed); [vm_compute; reflexivity|].
  apply receiver_nil.
Qed.

Lemma channel_integrity_witness : sublist [ping_frame 1] [ping_frame 1; ping_frame 2].
Proof.
  refine (channel_integrity (R := bytes) (W := bytes) example_session _ example_session _
    example_cipher (repeat x2a 32) _ [(ping_frame 1, ping_body)] eq_refl eq_refl _ example_sender example_receiver _).
  - split; discriminate.
  - constructor; [|constructor]. intros _. exists (ping_frame 1).
    split; [apply list_elem_of_here|]. vm_compute. auto.
Defined.

(** A read of [example_frame] interrupted after three bytes. *)
Lemma example_interrupted :
  interrupted (read_packet_async PacketCodec_new) example_frame PacketCodec_new
    (drop 3 example_frame).
Proof.
  change example_frame with (take 3 example_frame ++ drop 3 example_frame) at 1.
  apply interrupted_here. reflexivity.
Qed.

Lemma interrupted_read_effect_witness :
  interrupted (read_packet_async PacketCodec_new) example_frame PacketCodec_new
    (drop 3 example_frame).
Proof.
  apply interrupted_read_effect. left. exists (take 3 example_frame).
  split_and!; [symmetry; apply take_drop|reflexivity|reflexivity].
Defined.

Lemma interrupted_header_detected_witness :
  exists r', PacketCodec_read_packet (PacketCodec_new, drop 3 example_frame)
    = (Err InvalidMagic, (PacketCodec_new, r')).
Proof.
  destruct (interrupted_header_detected (R := bytes) PacketCodec_new
    (PacketHeader_new x14 x00 8 5) Ping (repeat x07 8) PacketCodec_new (drop 3 example_frame)
    (drop 3 example_frame)) as (_ & e & r' & He & Hm & _).
  - by vm_compute.
  - by vm_compute.
  - reflexivity.
  - reflexivity.
  - exact example_interrupted.
  - split; reflexivity.
  - reflexivity.
  - exists r'. rewrite <- (Hm ltac:(discriminate)). exact He.
Defined.

(** Inside a payload there is no such protection outside a session: a read of
    this [SendMessage] frame interrupted after the first payload byte leaves a
    stream on which the next read delivers a [Ping] the payload spells out. *)
Definition carrier_frame : bytes :=
  CHATIX_MAGIC ++ [x01; x28; x00; x18; x00; x00; x00; x21;
    x00; x00; x00; x00; x00; x00; x00; x05; x00; x00; x00; x00] ++ x00 ::
  (CHATIX_MAGIC ++ [x01; x14; x00; x18; x00; x00; x00; x08;
    x00; x00; x00; x00; x00; x00; x00; x06; x00; x00; x00; x00] ++ repeat x07 8).

Lemma example_confused :
  interrupted (read_packet_async PacketCodec_new) carrier_frame
    (set_last_recv_seq 5 PacketCodec_new) (drop 25 carrier_frame) /\
  exists r', PacketCodec_read_packet (set_last_recv_seq 5 PacketCodec_new, drop 25 carrier_frame)
    = (Ok (RawPacket_new (PacketHeader_new x14 x00 8 6) (repeat x07 8)), r').
Proof.
  split; [|eexists; vm_compute; reflexivity].
  change carrier_frame with
    (header_layout (PacketHeader_new x28 x00 33 5) ++ [x00] ++ drop 25 carrier_frame) at 1.
  apply (interrupted_read_occurs PacketCodec_new (PacketHeader_new x28 x00 33 5) SendMessage).
  - by vm_compute.
  - split_and!; [by vm_compute|intros [? ?]; discriminate|reflexivity|by vm_compute|].
    intros last Hl. discriminate Hl.
  - reflexivity.
Qed.
