(* ===== verification/CryptoExamples.v ===== *)
(** * Concrete runs of the cryptographic layers

    The theorems of [Session], [E2e], [Auth], [SafetyNumber] and [Protocol] at
    concrete inputs, with the arithmetic primitives of [Instances]. *)
From S2P Require Import Prelude RustStd Sizes Errors Header PacketType Common HelloPayloads.
From S2P Require Import MessagePayloads E2eKeyPayloads Payloads Primitives ByteStreams Instances Codec.
From S2P Require Import Stream CodecExamples Session E2e Auth SafetyNumber Protocol.
From S2P Require Import Testing CryptoTests.

(** ** Sample values *)
Definition alice_secret : x25519_secret := array_32 (repeat x0a 32).
Definition bob_secret : x25519_secret := array_32 (repeat x0b 32).
Definition alice_dsa : dsa_sk := array_32 (repeat x0c 32).
Definition bob_dsa : dsa_sk := array_32 (repeat x0d 32).
Definition seed_64 : bytes := repeat x11 64.
Definition alice_dk : kem_dk := kem_from_seed seed_64.
Definition coins_5 : kem_coins := [x05].
Definition nonce_12 : bytes := repeat x22 12.

Lemma handshake_agreement_witness :
  exists client server,
    ClientHandshakeState_generate alice_secret alice_dk = Ok client /\
    ServerHandshakeState_respond bob_secret coins_5 (chs_x25519_public client)
      (chs_ml_kem_ek client) = Ok server /\
    ClientHandshakeState_derive_session_keys client (shs_x25519_public server)
      (shs_ml_kem_ciphertext server) = Ok (shs_session_keys server) /\
    SessionKeys_ok (shs_session_keys server) /\
    zlen (shs_x25519_public server) = 32 /\
    zlen (shs_ml_kem_ciphertext server) = ML_KEM_768_CT_SIZE.
Proof.
  exact (handshake_agreement alice_secret alice_dk bob_secret coins_5 (toy_kem_agrees _ _)).
Defined.


Lemma e2e_roundtrip_witness :
  exists recipient_sk recipient_pk sender_sk sender_pk blob,
    generate_e2e_keypair alice_secret (Some seed_64) alice_dsa
    = Ok (recipient_sk, recipient_pk) /\
    generate_e2e_keypair bob_secret (Some seed_64) bob_dsa = Ok (sender_sk, sender_pk) /\
    encrypt_and_sign bob_secret coins_5 (Some nonce_12) [x68; x69] (x25519_public recipient_pk)
      (ml_kem_ek recipient_pk) (esk_dsa_signing_seed sender_sk) = Ok blob /\
    zlen blob = MIN_BLOB_LEN + 2 /\
    verify_and_decrypt blob (esk_x25519_secret recipient_sk) (esk_ml_kem_seed recipient_sk)
      (dsa_verifying_key sender_pk) = Ok [x68; x69].
Proof.
  exact (e2e_roundtrip alice_secret seed_64 alice_dsa bob_secret seed_64 bob_dsa bob_secret
    coins_5 nonce_12 [x68; x69] eq_refl eq_refl eq_refl ltac:(discriminate) (toy_kem_agrees _ _)).
Defined.

Lemma verify_and_decrypt_spec_witness :
  wp (fun pt => zlen [x00] = MIN_BLOB_LEN + zlen pt) (fun e => e = CryptoError)
    (verify_and_decrypt [x00] (repeat x00 32) seed_64 (repeat x00 1952)).
Proof.
  exact (proj1 (verify_and_decrypt_spec [x00] (repeat x00 32) seed_64 (repeat x00 1952)
    eq_refl eq_refl)).
Defined.

Lemma hkdf_info_injective_witness :
  repeat x01 32 = repeat x01 32 /\ repeat x02 32 = repeat x02 32 /\
  repeat x03 1088 = repeat x03 1088 /\ C2S_LABEL = C2S_LABEL /\ C2S_LABEL <> S2C_LABEL /\
  C2S_LABEL <> E2E_LABEL /\ S2C_LABEL <> E2E_LABEL.
Proof.
  exact (hkdf_info_injective (repeat x01 32) (repeat x02 32) (repeat x03 1088) C2S_LABEL
    (repeat x01 32) (repeat x02 32) (repeat x03 1088) C2S_LABEL
    eq_refl eq_refl eq_refl eq_refl eq_refl eq_refl (or_introl eq_refl) (or_introl eq_refl)
    eq_refl).
Defined.

Lemma signatures_accepted_witness :
  exists seed vk sig sig',
    generate_auth_identity alice_dsa = Ok (seed, vk) /\
    sign_auth_response (repeat x01 32) (repeat x02 32) seed = Ok sig /\
    zlen sig = ML_DSA_65_SIG_SIZE /\
    verify_auth_response (repeat x01 32) (repeat x02 32) vk sig = Ok tt /\
    sign_server_hello [x07] (repeat x03 32) (repeat x04 1088) seed = Ok sig' /\
    zlen sig' = ML_DSA_65_SIG_SIZE /\
    verify_server_hello [x07] (repeat x03 32) (repeat x04 1088) vk sig' = Ok tt.
Proof.
  exact (signatures_accepted alice_dsa (repeat x01 32) (repeat x02 32) [x07] (repeat x03 32)
    (repeat x04 1088)).
Defined.

Lemma verification_exact_witness :
  verify_auth_response (repeat x01 32) (repeat x02 32) (repeat x00 1952) (repeat x00 3309) = Ok tt
  <-> valid_signature (repeat x00 1952) (repeat x01 32 ++ repeat x02 32) (repeat x00 3309).
Proof.
  exact (proj1 (verification_exact (repeat x01 32) (repeat x02 32) [x07] (repeat x03 32)
    (repeat x04 1088) (repeat x00 1952) (repeat x00 3309) eq_refl eq_refl)).
Defined.

Lemma signed_message_binding_witness :
  auth_message (repeat x01 32) (repeat x02 32)
  <> server_hello_message [x07] (repeat x03 32) (repeat x04 1088).
Proof.
  exact (proj2 (proj2 (signed_message_binding (repeat x01 32) (repeat x02 32) (repeat x05 32)
    (repeat x06 32) [x07] (repeat x03 32) (repeat x04 1088) [x08] (repeat x03 32)
    (repeat x04 1088) eq_refl eq_refl eq_refl eq_refl eq_refl eq_refl))).
Defined.

(** Two hellos. *)
Definition hello_client : ClientHelloPayload :=
  mk_ClientHelloPayload [x61] (repeat x01 32) (repeat x02 1184).
Definition hello_server : ServerHelloPayload :=
  mk_ServerHelloPayload [x62] (repeat x03 32) (repeat x04 1088) (repeat x05 3309).

Lemma hello_decodes :
  payload_decode (payload_layout hello_client) = Ok hello_client /\
  payload_decode (payload_layout hello_server) = Ok hello_server.
Proof. split; apply decode_layout; by repeat split. Qed.

Lemma transcript_binding_witness :
  (hello_client = hello_client /\ hello_server = hello_server) \/
  collision (payload_layout hello_client ++ payload_layout hello_server)
    (payload_layout hello_client ++ payload_layout hello_server).
Proof.
  destruct hello_decodes as [Hc Hs].
  exact (transcript_binding _ _ _ _ hello_client hello_client hello_server hello_server _
    Hc Hs Hc Hs (transcript_ok _ _) (transcript_ok _ _)).
Defined.

Definition key_a : E2ePublicKey := mk_E2ePublicKey (repeat x01 32) (repeat x02 1184) (repeat x03 1952).
Definition key_b : E2ePublicKey := mk_E2ePublicKey (repeat x04 32) (repeat x05 1184) (repeat x06 1952).

Lemma safety_number_shape_witness :
  exists s groups, safety_number [x61] key_a [x62] key_b = Ok s /\ s = join [x20] groups /\
    length groups = 12%nat /\
    Forall (fun g => zlen g = 5 /\ Forall (fun b => is_digit b = true) g) groups /\
    zlen s = 71.
Proof.
  destruct (safety_number_shape [x61] key_a [x62] key_b)
    as (s & groups & Hs & Hj & Hl & Hg & Hn & _).
  exists s, groups. split; [exact Hs|]. split; [exact Hj|]. auto.
Defined.

Lemma safety_number_symmetric_witness :
  safety_number [x61] key_a [x62] key_b = safety_number [x62] key_b [x61] key_a.
Proof.
  refine (proj1 (safety_number_symmetric [x61] key_a [x62] key_b) _). discriminate.
Defined.

Lemma same_number :
  safety_number [x61] key_a [x62] key_b = safety_number [x62] key_b [x61] key_a.
Proof.
  rewrite !safety_number_ok. unfold number_groups.
  replace (str_le [x61] [x62]) with true by reflexivity.
  replace (str_le [x62] [x61]) with false by reflexivity. reflexivity.
Qed.

Lemma safety_number_match_witness :
  map group (displayed (compute_fingerprint [x61] key_a))
  = map group (displayed (compute_fingerprint [x61] key_a)) /\
  map group (displayed (compute_fingerprint [x62] key_b))
  = map group (displayed (compute_fingerprint [x62] key_b)).
Proof.
  refine (safety_number_match [x61] [x62] key_a key_b key_a key_b _ same_number). discriminate.
Defined.

Lemma fingerprint_binding_witness :
  ([x61] = [x61] /\ key_a = key_a) \/
  collision (fingerprint_input [x61] key_a) (fingerprint_input [x61] key_a).
Proof.
  refine (fingerprint_binding [x61] key_a [x61] key_a _ _ eq_refl); by repeat split.
Defined.

(** ** The layers together *)
Lemma handshake_secures_channel_witness :
  exists client server keys,
    ClientHandshakeState_generate alice_secret alice_dk = Ok client /\
    ServerHandshakeState_respond bob_secret coins_5 (chs_x25519_public client)
      (chs_ml_kem_ek client) = Ok server /\
    ClientHandshakeState_derive_session_keys client (shs_x25519_public server)
      (shs_ml_kem_ciphertext server) = Ok keys /\
    in_session (PacketCodec_establish_session PacketCodec_new (client_to_server keys)
      (server_to_client keys)) = true.
Proof.
  destruct (handshake_secures_channel (R := bytes) (W := bytes) alice_secret alice_dk bob_secret
    coins_5 PacketCodec_new PacketCodec_new (toy_kem_agrees _ _) linked_new linked_new)
    as (client & server & keys & Hg & Hr & Hd & Hs & _).
  exists client, server, keys. auto.
Defined.

(** A blob for the capacity example. *)
Definition example_blob : bytes :=
  match encrypt_and_sign bob_secret coins_5 (Some nonce_12) [x68; x69] (repeat x00 32)
          (repeat x00 1184) (repeat x00 32) with
  | Ok blob => blob
  | _ => []
  end.

Lemma example_blob_ok :
  encrypt_and_sign bob_secret coins_5 (Some nonce_12) [x68; x69] (repeat x00 32)
    (repeat x00 1184) (repeat x00 32) = Ok example_blob.
Proof. vm_compute. reflexivity. Qed.

Lemma message_capacity_witness :
  fits_in_message 7 [x62] example_blob <-> zlen [x62] + zlen [x68; x69] <= 61065.
Proof.
  refine (message_capacity bob_secret coins_5 (Some nonce_12) [x68; x69] (repeat x00 32)
    (repeat x00 1184) (repeat x00 32) example_blob 7 [x62] eq_refl eq_refl _ example_blob_ok
    _ eq_refl).
  - intros nonce Hn. injection Hn as <-. reflexivity.
  - split; discriminate.
Defined.

Lemma message_end_to_end_witness :
  exists rsk rpk ssk spk blob sent delivered,
    generate_e2e_keypair alice_secret (Some seed_64) alice_dsa = Ok (rsk, rpk) /\
    generate_e2e_keypair bob_secret (Some seed_64) bob_dsa = Ok (ssk, spk) /\
    encrypt_and_sign bob_secret coins_5 (Some nonce_12) [x68; x69] (x25519_public rpk)
      (ml_kem_ek rpk) (esk_dsa_signing_seed ssk) = Ok blob /\
    SendMessagePayload_encode (mk_SendMessagePayload 7 [x62] blob) = Ok sent /\
    carries (R := bytes) (W := bytes) example_session example_session SendMessage sent /\
    SendMessagePayload_decode sent = Ok (mk_SendMessagePayload 7 [x62] blob) /\
    DeliverMessagePayload_encode (mk_DeliverMessagePayload 7 [x61] blob) = Ok delivered /\
    carries (R := bytes) (W := bytes) example_session example_session DeliverMessage delivered /\
    DeliverMessagePayload_decode delivered = Ok (mk_DeliverMessagePayload 7 [x61] blob) /\
    verify_and_decrypt blob (esk_x25519_secret rsk) (esk_ml_kem_seed rsk)
      (dsa_verifying_key spk) = Ok [x68; x69].
Proof.
  assert (linked example_session example_session) as Hl
    by (by apply linked_establish; [apply linked_new|]).
  refine (message_end_to_end (R := bytes) (W := bytes) example_session example_session
    example_session example_session alice_secret seed_64 alice_dsa bob_secret seed_64
    bob_dsa bob_secret coins_5 nonce_12 [x68; x69] 7 [x62] [x61] Hl Hl eq_refl eq_refl eq_refl
    eq_refl eq_refl (toy_kem_agrees _ _) _ eq_refl eq_refl _ _);
    [split; discriminate|discriminate|discriminate].
Defined.

(** ** The unit tests *)
Definition alice_samples : keypair_samples := mk_keypair_samples _ _ alice_secret seed_64 alice_dsa.
Definition bob_samples : keypair_samples := mk_keypair_samples _ _ bob_secret seed_64 bob_dsa.
Definition one_message : message_samples := mk_message_samples _ _ bob_secret coins_5 nonce_12.

Lemma accepting_tests_pass_witness :
  passes (test_session_key_derivation_matches alice_secret alice_dk bob_secret coins_5) /\
  passes (test_e2e_roundtrip alice_samples bob_samples one_message).
Proof.
  destruct (accepting_tests_pass alice_secret alice_dk bob_secret coins_5 alice_dsa alice_samples
    bob_samples one_message (toy_kem_agrees _ _) eq_refl eq_refl
    (conj eq_refl (toy_kem_agrees _ _))) as (Hk & _ & _ & _ & _ & He & _).
  split; [exact Hk|exact He].
Defined.

(** The checksum that stands for a signature ends in the nonce. *)
Lemma rejecting_tests_exact_witness : passes (test_wrong_nonce_is_rejected alice_dsa).
Proof.
  destruct (rejecting_tests_exact alice_secret alice_dk bob_secret coins_5 alice_dsa bob_dsa
    alice_samples bob_samples bob_samples one_message eq_refl eq_refl eq_refl
    (conj eq_refl (toy_kem_agrees _ _))) as (_ & _ & Hn & _).
  apply Hn. intros (s & [= <-] & Hv). vm_compute in Hv. discriminate Hv.
Defined.
