(* ===== verification/EndpointExamples.v ===== *)
(** * Concrete runs of the two ends

    The theorems of [Endpoints], [Messages] and [Traffic] on byte strings and the
    arithmetic primitives of [Instances]: an honest handshake, whose
    signatures are the parties' own, one message sent and received, and a
    conversation on an established connection. *)
From S2P Require Import Prelude RustStd Sizes Errors PacketType ConnectionState Common.
From S2P Require Import Duplex PingPayloads ClosePayloads Payloads.
From S2P Require Import HelloPayloads AuthPayloads E2eKeyPayloads Primitives ByteStreams Instances Codec Stream.
From S2P Require Import Connection Traffic Session E2e Auth Handshake Messages Endpoints.
From S2P Require Import CodecExamples CryptoExamples.

Definition nonce_32 : bytes := repeat x33 32.

Abbreviation phone := (connect (R := bytes) (W := bytes) [x61] alice_secret alice_dk
  (dsa_vk_encode (dsa_vk_of bob_dsa)) (dsa_to_seed alice_dsa) (dsa_vk_encode (dsa_vk_of alice_dsa))
  [x07]).
Abbreviation hub :=
  (serve (R := bytes) (W := bytes) [x62] (dsa_to_seed bob_dsa) bob_secret coins_5 nonce_32).

(** The two streams of the honest handshake, and what each end makes of them. *)
Lemma phone_and_hub :
  exists to_server to_client client shb ag resp st st',
    let d := mk_device_session [x61] alice_secret alice_dk client shb ag nonce_32 in
    let s := mk_server_session [x62] bob_secret coins_5 (ch_hello client) shb ag in
    phone (Connection_new Client, (to_client, [])) = (Ok d, st) /\
    hub (Connection_new Server, (to_server, [])) = (Ok (s, resp), st') /\
    device_ran (dsa_vk_encode (dsa_vk_of bob_dsa)) d /\ server_ran (dsa_to_seed bob_dsa) s.
Proof.
  destruct (honest_run (R := bytes) (W := bytes) [x61] alice_secret alice_dk [x62] bob_dsa bob_secret
    coins_5 alice_dsa [x07] nonce_32 eq_refl ltac:(done) eq_refl ltac:(done) ltac:(done) eq_refl
    (toy_kem_agrees _ _)) as (ws & wc & client & shb & ag & resp & Hc & Hs & _).
  destruct (Hc wc [] []) as (r1 & w1 & Ec & _); [symmetry; apply app_nil_r|].
  destruct (Hs ws [] []) as (r2 & w2 & Es & _); [symmetry; apply app_nil_r|].
  exists ws, wc, client, shb, ag, resp. do 2 eexists. cbv zeta.
  split; [exact Ec|]. split; [exact Es|]. split.
  - pose proof (st_wp_run _ _ _ _ _ _ (connect_wp [x61] alice_secret alice_dk (dsa_vk_encode (dsa_vk_of bob_dsa))
      (dsa_to_seed alice_dsa) (dsa_vk_encode (dsa_vk_of alice_dsa)) [x07] wc ([] : bytes) eq_refl
      ltac:(done) (zlen_dsa_vk _) (zlen_dsa_seed _) (zlen_dsa_vk _) ltac:(done)) Ec) as Hw.
    exact (proj1 (proj2 Hw)).
  - pose proof (st_wp_run _ _ _ _ _ _ (serve_wp [x62] (dsa_to_seed bob_dsa) bob_secret coins_5 nonce_32 ws ([] : bytes)
      eq_refl ltac:(done) (zlen_dsa_seed _)) Es) as Hw.
    exact (proj1 (proj2 (proj2 Hw))).
Qed.

Lemma handshake_completes_witness :
  exists to_server to_client d s resp client server,
    runs phone (Connection_new Client) to_client to_server d client /\
    runs hub (Connection_new Server) to_server to_client (s, resp) server /\
    c_state client = Established /\ c_state server = Established /\ ds_agreed d = ss_agreed s.
Proof.
  destruct (handshake_completes (R := bytes) (W := bytes) [x61] alice_secret alice_dk [x62] bob_dsa
    bob_secret coins_5 alice_dsa [x07] nonce_32 eq_refl ltac:(discriminate) eq_refl
    ltac:(discriminate) ltac:(discriminate) eq_refl (toy_kem_agrees _ _))
    as (ws & wc & d & s & resp & c & c' & Hc & Hs & _ & _ & (_ & E1 & _) & (_ & E2 & _) & He & _).
  exists ws, wc, d, s, resp, c, c'. auto.
Defined.

(** The only session of the device is the honest one, so the response the
    server accepts is no forgery. *)
Lemma device_authenticated_witness :
  exists to_server s resp st d,
    hub (Connection_new Server, (to_server, [])) = (Ok (s, resp), st) /\
    completed Server (ss_agreed s) (fst st) /\ ds_nonce d = nonce_32 /\
    (collision (ch_hello (ds_client d) ++ ds_server_hello d) (ss_client_hello s ++ ss_server_hello s) \/
     ag_keys (ds_agreed d) = ag_keys (ss_agreed s)).
Proof.
  destruct phone_and_hub as (ws & wc & client & shb & ag & resp & st & st' & _ & Es & Hd & _).
  set (d := mk_device_session _ _ _ _ _ _ _) in *. set (s := mk_server_session _ _ _ _ _ _) in *.
  pose proof (st_wp_run _ _ _ _ _ _ (device_authenticated [x62] (dsa_to_seed bob_dsa) bob_secret coins_5 nonce_32
    (dsa_vk_encode (dsa_vk_of bob_dsa)) [d] ws ([] : bytes) eq_refl ltac:(discriminate)
    (zlen_dsa_seed _) eq_refl (zlen_dsa_vk _) (Forall_cons_2 _ _ _ Hd (Forall_nil_2 _))) Es) as Hw.
  destruct Hw as (Hc & _ & Hag).
  destruct Hag as (d' & Hin & Hn & Hor).
  { intros _. exists d. split; [apply list_elem_of_here|reflexivity]. }
  exists ws, s, resp, st', d'. split; [exact Es|]. split; [exact Hc|]. split; [exact Hn|].
  destruct Hor as [|(_ & _ & Hk)]; [left; assumption|right]. apply Hk, toy_kem_agrees.
Defined.

Lemma server_authenticated_witness :
  exists to_client d st s,
    phone (Connection_new Client, (to_client, [])) = (Ok d, st) /\
    completed Client (ds_agreed d) (fst st) /\
    (collision (ch_hello (ds_client d)) (ss_client_hello s) \/
     ag_keys (ds_agreed d) = ag_keys (ss_agreed s)).
Proof.
  destruct phone_and_hub as (ws & wc & client & shb & ag & resp & st & st' & Ec & _ & _ & Hs).
  set (d := mk_device_session _ _ _ _ _ _ _) in *. set (s := mk_server_session _ _ _ _ _ _) in *.
  pose proof (st_wp_run _ _ _ _ _ _ (server_authenticated [x61] alice_secret alice_dk (dsa_vk_encode (dsa_vk_of bob_dsa))
    (dsa_to_seed alice_dsa) (dsa_vk_encode (dsa_vk_of alice_dsa)) [x07] (dsa_to_seed bob_dsa) [s]
    wc ([] : bytes) eq_refl ltac:(discriminate) (zlen_dsa_vk _) (zlen_dsa_seed _) (zlen_dsa_vk _)
    ltac:(discriminate) (zlen_dsa_seed _) (Forall_cons_2 _ _ _ Hs (Forall_nil_2 _))) Ec) as Hw.
  destruct Hw as (Hc & sh & Hsh & _ & Hag).
  destruct Hag as (s' & Hin & Hor).
  { intros _. exists s, sh. split; [apply list_elem_of_here|]. split; [exact Hsh|reflexivity]. }
  exists wc, d, st, s'. split; [exact Ec|]. split; [exact Hc|].
  destruct Hor as [|(_ & Hk)]; [left; assumption|right]. apply Hk, toy_kem_agrees.
Defined.

(** Bob has sent Alice one message, and it is the one she opens. *)
Lemma message_authenticity_witness :
  exists blob pt m,
    verify_and_decrypt blob (x25519_secret_bytes alice_secret) seed_64
      (dsa_vk_encode (dsa_vk_of bob_dsa)) = Ok pt /\ sm_blob m = blob /\ pt = sm_plaintext m.
Proof.
  destruct (e2e_delivery alice_secret seed_64 alice_dsa bob_secret seed_64 bob_dsa bob_secret coins_5
    nonce_12 [x68; x69] eq_refl eq_refl ltac:(discriminate) (toy_kem_agrees _ _))
    as (blob & He & _ & Hd).
  set (m := mk_sent_message bob_secret coins_5 nonce_12 [x68; x69] (x25519_public_of alice_secret)
    (kem_ek_bytes (kem_ek_of (kem_from_seed seed_64))) blob).
  assert (message_sent (dsa_to_seed bob_dsa) m) as Hm
    by (split; [reflexivity|split; [apply zlen_kem_ek|exact He]]).
  destruct (message_authenticity alice_secret seed_64 (dsa_vk_encode (dsa_vk_of bob_dsa))
    (dsa_to_seed bob_dsa) [m] blob [x68; x69] eq_refl (zlen_dsa_vk _) (zlen_dsa_seed _)
    (Forall_cons_2 _ _ _ Hm (Forall_nil_2 _))) as (m' & part & sig & sig' & Hin & _ & _ & _ & _ & Hp).
  - intros part sig Hb Hl _. exists m, sig. split; [apply list_elem_of_here|]. split; assumption.
  - exact Hd.
  - exists blob, [x68; x69], m. split; [exact Hd|]. split; [reflexivity|].
    apply list_elem_of_singleton in Hin as ->. apply Hp; [split; reflexivity|apply toy_kem_agrees].
Defined.

(** Both ends ping at once, then the client closes. *)
Definition example_network : network :=
  mk_network (fun role => mk_Connection role Established example_session) (fun _ => []).
Definition ping (n : Z) : payload_type Ping := mk_PingPayload n.
Definition goodbye : payload_type Close := mk_ClosePayload CloseReason_Normal [x62; x79; x65].
Definition example_schedule : list operation :=
  [Send Client Ping (ping 7); Send Server Ping (ping 9); Receive Client; Send Client Close goodbye;
   Receive Server; Receive Server; Receive Server].

Lemma example_established : established example_network.
Proof.
  intros role. split_and!; [done..| |by vm_compute].
  by apply linked_establish; [apply linked_new|].
Qed.

Lemma traffic_refines_queues_witness :
  fst (network_run example_schedule example_network)
  = [Ok None; Ok None; Ok (Some (mk_decoded 1 Ping (ping 9))); Ok None;
     Ok (Some (mk_decoded 1 Ping (ping 7))); Ok (Some (mk_decoded 2 Close goodbye)); end_of_stream] /\
  c_state (node (snd (network_run example_schedule example_network)) Server) = Closing.
Proof.
  destruct (traffic_refines_queues example_network example_schedule example_established)
    as [Ha Hs].
  - repeat (split || left || discriminate); reflexivity.
  - split; [rewrite Ha; reflexivity|]. apply Hs. split; reflexivity.
Defined.
